(** * GoldMiner: the BAGEL entity-component core and its gameplay systems

    A shallow embedding of [gold_miner_ecs.cpp] (entity factories, the rope
    state machine, the collision/attachment pipeline, physics
    synchronisation, the renderers, the score display and the destruction
    system) and of [debug_draw.cpp], together with the parts of the BAGEL
    store and of the Box2D interface those systems drive. *)

From Stdlib Require Import ZArith NArith QArith Bool List Lia Lqa.
From Stdlib Require Import Floats.SpecFloat.
From Stdlib Require Import Sorting.Sorted.
From Stdlib Require Ascii String DecimalString DecimalPos.
From stdpp Require Import base option list gmap.

Local Open Scope Z_scope.

(** ** Scalars

    Every [float] of the program is a value of a type [F] with the
    arithmetic of the [FloatOps] interface.  Two instances are given: IEEE
    binary32 (the arithmetic the program runs with) and exact rationals. *)

Class FloatOps (F : Type) := {
  fofQ : Q → F;            (* a decimal or integer literal, rounded once *)
  fadd : F → F → F;
  fsub : F → F → F;
  fmul : F → F → F;
  fdiv : F → F → F;
  fneg : F → F;
  fleb : F → F → bool;     (* [a <= b] *)
  fltb : F → F → bool;     (* [a < b]; [a > b] is [fltb b a] *)
  fsqrt : F → F;
  fsin : F → F;
  fcos : F → F
}.

Definition fofZ {F} `{FloatOps F} (n : Z) : F := fofQ (inject_Z n).

Declare Scope float_scope.
Delimit Scope float_scope with fl.
Infix "+" := fadd : float_scope.
Infix "-" := fsub : float_scope.
Infix "*" := fmul : float_scope.
Infix "/" := fdiv : float_scope.
Notation "- x" := (fneg x) : float_scope.
Infix "<=?" := fleb : float_scope.
Infix "<?" := fltb : float_scope.

(** *** IEEE binary32 *)

Module B32.
Definition prec : Z := 24.
Definition emax : Z := 128.
Definition t := spec_float.

Definition ofZ (n : Z) : t := binary_normalize prec emax n 0 false.
Definition add : t → t → t := SFadd prec emax.
Definition sub : t → t → t := SFsub prec emax.
Definition mul : t → t → t := SFmul prec emax.
Definition div : t → t → t := SFdiv prec emax.
Definition ofQ (q : Q) : t := div (ofZ (Qnum q)) (ofZ (Zpos (Qden q))).

(** [sin] and [cos] come from the C library, which is not part of the
    program; the binary32 instance evaluates their Taylor polynomials. *)
Definition sin (x : t) : t :=
  let x2 := mul x x in
  let x3 := mul x2 x in
  let x5 := mul x3 x2 in
  let x7 := mul x5 x2 in
  add (sub (add (sub x (div x3 (ofZ 6))) (div x5 (ofZ 120))) (div x7 (ofZ 5040)))
      (div (mul x7 x2) (ofZ 362880)).
Definition cos (x : t) : t :=
  let x2 := mul x x in
  let x4 := mul x2 x2 in
  let x6 := mul x4 x2 in
  add (sub (add (sub (ofZ 1) (div x2 (ofZ 2))) (div x4 (ofZ 24))) (div x6 (ofZ 720)))
      (div (mul x6 x2) (ofZ 40320)).

(** The values of the format.  A [float] of the program is always one;
    [spec_float] also has the triples whose mantissa is not the canonical
    one for their exponent. *)
Definition valid (x : t) : Prop := valid_binary prec emax x = true.

(** [std::isfinite] *)
Definition finite (x : t) : Prop :=
  match x with
  | S754_zero _ | S754_finite _ _ _ => True
  | _ => False
  end.
End B32.

#[export] Instance B32_FloatOps : FloatOps B32.t := {|
  fofQ := B32.ofQ;
  fadd := B32.add;
  fsub := B32.sub;
  fmul := B32.mul;
  fdiv := B32.div;
  fneg := SFopp;
  fleb := SFleb;
  fltb := SFltb;
  fsqrt := SFsqrt B32.prec B32.emax;
  fsin := B32.sin;
  fcos := B32.cos
|}.

(** *** Exact rationals *)

Module Exact.
Definition t := Q.
Definition sqrt (q : Q) : Q :=
  Qred (Z.sqrt (Qnum q * Zpos (Qden q) * 10 ^ 12) # (Qden q * 1000000)).
Definition sin (x : Q) : Q :=
  Qred (x - x ^ 3 / 6 + x ^ 5 / 120 - x ^ 7 / 5040 + x ^ 9 / 362880).
Definition cos (x : Q) : Q :=
  Qred (1 - x ^ 2 / 2 + x ^ 4 / 24 - x ^ 6 / 720 + x ^ 8 / 40320).
End Exact.

#[export] Instance Exact_FloatOps : FloatOps Exact.t := {|
  fofQ q := Qred q;
  fadd a b := Qred (a + b);
  fsub a b := Qred (a - b);
  fmul a b := Qred (a * b);
  fdiv a b := Qred (a / b);
  fneg a := Qred (- a);
  fleb a b := Qle_bool a b;
  fltb a b := negb (Qle_bool b a);
  fsqrt := Exact.sqrt;
  fsin := Exact.sin;
  fcos := Exact.cos
|}.

(** *** Double precision

    Where an operand is a [double] (the literal [1.1], the constant
    [M_PI], a result of the C library's [sin], [cos] or [sqrt], which the
    program calls unqualified), C++ evaluates the expression in [double]
    and narrows the result once, when it is stored in a [float]. *)

Class WideOps (F : Type) := {
  double : Type;
  double_ops : FloatOps double;
  fwiden : F → double;        (* [float] to [double], exact *)
  fnarrow : double → F        (* [double] to [float], rounded once *)
}.
#[export] Existing Instance double_ops | 100.

(** IEEE binary64, kept apart from binary32 by a wrapper. *)
Module B64.
Definition prec : Z := 53.
Definition emax : Z := 1024.
Record t := mk { val : spec_float }.

Definition ofZ (n : Z) : t := mk (binary_normalize prec emax n 0 false).
Definition add (x y : t) : t := mk (SFadd prec emax (val x) (val y)).
Definition sub (x y : t) : t := mk (SFsub prec emax (val x) (val y)).
Definition mul (x y : t) : t := mk (SFmul prec emax (val x) (val y)).
Definition div (x y : t) : t := mk (SFdiv prec emax (val x) (val y)).
Definition ofQ (q : Q) : t := div (ofZ (Qnum q)) (ofZ (Zpos (Qden q))).

(** As for binary32, [sin] and [cos] are evaluated by their Taylor
    polynomials. *)
Definition sin (x : t) : t :=
  let x2 := mul x x in
  let x3 := mul x2 x in
  let x5 := mul x3 x2 in
  let x7 := mul x5 x2 in
  add (sub (add (sub x (div x3 (ofZ 6))) (div x5 (ofZ 120))) (div x7 (ofZ 5040)))
      (div (mul x7 x2) (ofZ 362880)).
Definition cos (x : t) : t :=
  let x2 := mul x x in
  let x4 := mul x2 x2 in
  let x6 := mul x4 x2 in
  add (sub (add (sub (ofZ 1) (div x2 (ofZ 2))) (div x4 (ofZ 24))) (div x6 (ofZ 720)))
      (div (mul x6 x2) (ofZ 40320)).

(** The conversions between the two formats. *)
Definition of_b32 (x : B32.t) : t :=
  mk (match x with
      | S754_finite s m e => binary_normalize prec emax (cond_Zopp s (Zpos m)) e s
      | _ => x
      end).
Definition to_b32 (x : t) : B32.t :=
  match val x with
  | S754_finite s m e => binary_normalize B32.prec B32.emax (cond_Zopp s (Zpos m)) e s
  | y => y
  end.
End B64.

#[export] Instance B64_FloatOps : FloatOps B64.t := {|
  fofQ := B64.ofQ;
  fadd := B64.add;
  fsub := B64.sub;
  fmul := B64.mul;
  fdiv := B64.div;
  fneg x := B64.mk (SFopp (B64.val x));
  fleb x y := SFleb (B64.val x) (B64.val y);
  fltb x y := SFltb (B64.val x) (B64.val y);
  fsqrt x := B64.mk (SFsqrt B64.prec B64.emax (B64.val x));
  fsin := B64.sin;
  fcos := B64.cos
|}.

#[export] Instance B32_WideOps : WideOps B32.t := {|
  double := B64.t;
  double_ops := B64_FloatOps;
  fwiden := B64.of_b32;
  fnarrow := B64.to_b32
|}.

(** In exact arithmetic nothing is rounded. *)
#[export] Instance Exact_WideOps : WideOps Exact.t := {|
  double := Exact.t;
  double_ops := Exact_FloatOps;
  fwiden x := x;
  fnarrow x := x
|}.

(** ** Components ([gold_miner_ecs.h]) *)

Inductive CompKind :=
  | Position | Velocity | Rotation | Length | Renderable | PlayerInfo
  | RopeControl | ItemType | Value | Weight | Score | GameTimer
  | UIComponent | SoundEffect | Name | Health | Mole | LifeTime
  | GrabbedJoint | PhysicsBody | PlayerInput | ScoredTag
  | Collectable | RoperTag | GameOverTag | Collidable | DestroyTag.

#[export] Instance CompKind_eq_dec : EqDecision CompKind.
Proof. solve_decision. Defined.

(** Modelled from the spec: BAGEL's [Component<T>::Bit] is declared in
    [bagel.h], which is not among the sources; each component type has a
    fixed bit position of its own, here the position of its declaration in
    [gold_miner_ecs.h]. *)
Definition bit (k : CompKind) : N :=
  match k with
  | Position => 0 | Velocity => 1 | Rotation => 2 | Length => 3
  | Renderable => 4 | PlayerInfo => 5 | RopeControl => 6 | ItemType => 7
  | Value => 8 | Weight => 9 | Score => 10 | GameTimer => 11
  | UIComponent => 12 | SoundEffect => 13 | Name => 14 | Health => 15
  | Mole => 16 | LifeTime => 17 | GrabbedJoint => 18 | PhysicsBody => 19
  | PlayerInput => 20 | ScoredTag => 21 | Collectable => 22 | RoperTag => 23
  | GameOverTag => 24 | Collidable => 25 | DestroyTag => 26
  end%N.

Definition kind_of_bit (n : N) : option CompKind :=
  match n with
  | 0 => Some Position | 1 => Some Velocity | 2 => Some Rotation
  | 3 => Some Length | 4 => Some Renderable | 5 => Some PlayerInfo
  | 6 => Some RopeControl | 7 => Some ItemType | 8 => Some Value
  | 9 => Some Weight | 10 => Some Score | 11 => Some GameTimer
  | 12 => Some UIComponent | 13 => Some SoundEffect | 14 => Some Name
  | 15 => Some Health | 16 => Some Mole | 17 => Some LifeTime
  | 18 => Some GrabbedJoint | 19 => Some PhysicsBody
  | 20 => Some PlayerInput | 21 => Some ScoredTag | 22 => Some Collectable
  | 23 => Some RoperTag | 24 => Some GameOverTag | 25 => Some Collidable
  | 26 => Some DestroyTag | _ => None
  end%N.

#[export] Instance bit_inj : Inj (=) (=) bit.
Proof. intros k1 k2 Hb. destruct k1, k2; (reflexivity || discriminate Hb). Qed.

#[export] Instance CompKind_countable : Countable CompKind.
Proof. refine (inj_countable bit kind_of_bit _). intros k. destruct k; reflexivity. Defined.

Inductive RopeState := AtRest | Extending | Retracting.
Inductive ItemKind := Gold | Rock | Diamond | TreasureChest | MysteryBag.

#[export] Instance RopeState_eq_dec : EqDecision RopeState.
Proof. solve_decision. Defined.

(** The payload of each component type; the tag types carry none. *)
Inductive Component (F : Type) :=
  | CPosition (x y : F)
  | CVelocity (dx dy : F)
  | CRotation (angle : F)
  | CLength (value : F)
  | CRenderable (spriteID : Z)
  | CPlayerInfo (playerID : Z)
  | CRopeControl (state : RopeState)
  | CItemType (type : ItemKind)
  | CValue (amount : Z)
  | CWeight (w : F)
  | CScore (points : Z)
  | CGameTimer (timeLeft : F)
  | CUIComponent (uiID : Z)
  | CSoundEffect (soundID : Z)
  | CName (label : String.string)
  | CHealth (hp : Z)
  | CMole (speed : F) (movingRight : bool)
  | CLifeTime (remaining : F)
  | CGrabbedJoint (joint : Z) (attachedEntityId : Z)
  | CPhysicsBody (bodyId : Z)
  | CPlayerInput (sendRope retractRope : bool)
  | CScoredTag | CCollectable | CRoperTag | CGameOverTag | CCollidable
  | CDestroyTag.

Arguments CPosition {F}. Arguments CVelocity {F}. Arguments CRotation {F}.
Arguments CLength {F}. Arguments CRenderable {F}. Arguments CPlayerInfo {F}.
Arguments CRopeControl {F}. Arguments CItemType {F}. Arguments CValue {F}.
Arguments CWeight {F}. Arguments CScore {F}. Arguments CGameTimer {F}.
Arguments CUIComponent {F}. Arguments CSoundEffect {F}. Arguments CName {F}.
Arguments CHealth {F}. Arguments CMole {F}. Arguments CLifeTime {F}.
Arguments CGrabbedJoint {F}. Arguments CPhysicsBody {F}.
Arguments CPlayerInput {F}. Arguments CScoredTag {F}.
Arguments CCollectable {F}. Arguments CRoperTag {F}.
Arguments CGameOverTag {F}. Arguments CCollidable {F}.
Arguments CDestroyTag {F}.

Definition kind_of {F} (c : Component F) : CompKind :=
  match c with
  | CPosition _ _ => Position | CVelocity _ _ => Velocity
  | CRotation _ => Rotation | CLength _ => Length
  | CRenderable _ => Renderable | CPlayerInfo _ => PlayerInfo
  | CRopeControl _ => RopeControl | CItemType _ => ItemType
  | CValue _ => Value | CWeight _ => Weight | CScore _ => Score
  | CGameTimer _ => GameTimer | CUIComponent _ => UIComponent
  | CSoundEffect _ => SoundEffect | CName _ => Name | CHealth _ => Health
  | CMole _ _ => Mole | CLifeTime _ => LifeTime
  | CGrabbedJoint _ _ => GrabbedJoint | CPhysicsBody _ => PhysicsBody
  | CPlayerInput _ _ => PlayerInput | CScoredTag => ScoredTag
  | CCollectable => Collectable | CRoperTag => RoperTag
  | CGameOverTag => GameOverTag | CCollidable => Collidable
  | CDestroyTag => DestroyTag
  end.

(** ** Masks *)

Abbreviation Mask := N (only parsing).

Definition mask_set (m : Mask) (k : CompKind) : Mask := N.setbit m (bit k).
Definition mask_clear (m : Mask) (k : CompKind) : Mask := N.clearbit m (bit k).
(** [Mask::test(Bit)] *)
Definition test_bit (m : Mask) (k : CompKind) : bool := N.testbit m (bit k).
(** [Mask::test(Mask)]: every required bit is set (bitwise AND, not equality) *)
Definition mask_test (m req : Mask) : bool := (N.land m req =? req)%N.
(** [Mask m; m.set(..); m.set(..); ...] *)
Definition mask_of (ks : list CompKind) : Mask := foldl mask_set 0%N ks.

(** ** The entity/component store

    Modelled from the spec: [bagel.h] ([World], [Entity], the storages) is
    not among the sources.  [create] returns a fresh id with no components;
    [add] and [remove] mutate the entity's mask and the store of the
    component type; [has] tests the mask bit; [get] of a missing component
    fails. *)

Record World (F : Type) := mkWorld {
  w_maxId : Z;                                  (* [World::maxId().id] *)
  w_masks : gmap Z Mask;                        (* [World::mask(e)] *)
  w_store : gmap (CompKind * Z) (Component F)   (* the storages, by type and entity *)
}.
Arguments mkWorld {F}. Arguments w_maxId {F}. Arguments w_masks {F}.
Arguments w_store {F}.

Section Store.
Context {F : Type}.
Implicit Types (w : World F) (e : Z) (k : CompKind) (c : Component F).

Definition emptyWorld : World F := mkWorld (-1) ∅ ∅.

Definition mask w e : Mask := default 0%N (w_masks w !! e).
Definition has k e w : bool := test_bit (mask w e) k.

Definition createEntity w : Z * World F :=
  (w_maxId w + 1, mkWorld (w_maxId w + 1) (w_masks w) (w_store w)).

Definition addComponent c e w : World F :=
  mkWorld (w_maxId w)
          (<[e := mask_set (mask w e) (kind_of c)]> (w_masks w))
          (<[(kind_of c, e) := c]> (w_store w)).

Definition delComponent k e w : World F :=
  mkWorld (w_maxId w)
          (alter (λ m, mask_clear m k) e (w_masks w))
          (delete (k, e) (w_store w)).

Definition getComponent k e w : option (Component F) := w_store w !! (k, e).

(** Writing through the reference [getComponent<T>] returned. *)
Definition setComponent c e w : World F :=
  mkWorld (w_maxId w) (w_masks w) (<[(kind_of c, e) := c]> (w_store w)).

(** [Entity::addAll(c1, c2, ...)] *)
Definition addAll (cs : list (Component F)) e w : World F :=
  foldl (λ w c, addComponent c e w) w cs.

(** The ids a system's [for (id = 0; id <= World::maxId().id; ++id)] visits. *)
Definition ids w : list Z := seqZ 0 (w_maxId w + 1).

(** [PackedStorage<T>::entity(i)] for [i] below [PackedStorage<T>::size()] *)
Definition storage_entities k w : list Z :=
  omap (λ ke, if decide (ke.1.1 = k) then Some ke.1.2 else None)
       (map_to_list (w_store w)).

(** Typed reads. *)
Definition get_Position e w : option (F * F) :=
  match getComponent Position e w with Some (CPosition x y) => Some (x, y) | _ => None end.
Definition get_Rotation e w : option F :=
  match getComponent Rotation e w with Some (CRotation a) => Some a | _ => None end.
Definition get_Length e w : option F :=
  match getComponent Length e w with Some (CLength v) => Some v | _ => None end.
Definition get_Renderable e w : option Z :=
  match getComponent Renderable e w with Some (CRenderable s) => Some s | _ => None end.
Definition get_PlayerInfo e w : option Z :=
  match getComponent PlayerInfo e w with Some (CPlayerInfo p) => Some p | _ => None end.
Definition get_RopeControl e w : option RopeState :=
  match getComponent RopeControl e w with Some (CRopeControl s) => Some s | _ => None end.
Definition get_GrabbedJoint e w : option (Z * Z) :=
  match getComponent GrabbedJoint e w with Some (CGrabbedJoint j a) => Some (j, a) | _ => None end.
Definition get_PhysicsBody e w : option Z :=
  match getComponent PhysicsBody e w with Some (CPhysicsBody b) => Some b | _ => None end.
Definition get_PlayerInput e w : option (bool * bool) :=
  match getComponent PlayerInput e w with Some (CPlayerInput s r) => Some (s, r) | _ => None end.
End Store.

(** ** The physics engine

    Modelled from the spec: Box2D is an external service driven through a
    narrow interface (bodies, shapes, weld joints, hit events).  A handle
    that names no live object makes the call fail. *)

Inductive b2BodyType := b2_staticBody | b2_kinematicBody | b2_dynamicBody.

Record b2Vec2 (F : Type) := mkVec2 { vec_x : F; vec_y : F }.
Arguments mkVec2 {F}. Arguments vec_x {F}. Arguments vec_y {F}.

Record b2Rot (F : Type) := mkRot { rot_c : F; rot_s : F }.
Arguments mkRot {F}. Arguments rot_c {F}. Arguments rot_s {F}.

Record b2BodyDef (F : Type) := mkBodyDef {
  def_type : b2BodyType;
  def_position : b2Vec2 F;
  def_fixedRotation : bool;
  def_isBullet : bool
}.
Arguments mkBodyDef {F}. Arguments def_type {F}. Arguments def_position {F}.
Arguments def_fixedRotation {F}. Arguments def_isBullet {F}.

Record Body (F : Type) := mkBody {
  body_type : b2BodyType;
  body_p : b2Vec2 F;                 (* transform: origin *)
  body_q : b2Rot F;                  (* transform: rotation *)
  body_linearVelocity : b2Vec2 F;
  body_angularVelocity : F;
  body_gravityScale : F;
  body_fixedRotation : bool;
  body_isBullet : bool;
  body_hitEvents : bool;
  body_userData : option Z           (* address of the boxed entity id; [None] is null *)
}.
Arguments mkBody {F}. Arguments body_type {F}. Arguments body_p {F}.
Arguments body_q {F}. Arguments body_linearVelocity {F}.
Arguments body_angularVelocity {F}. Arguments body_gravityScale {F}.
Arguments body_fixedRotation {F}. Arguments body_isBullet {F}.
Arguments body_hitEvents {F}. Arguments body_userData {F}.

Inductive Geometry (F : Type) :=
  | Circle (center : b2Vec2 F) (radius : F)
  | Polygon (vertices : list (b2Vec2 F)).
Arguments Circle {F}. Arguments Polygon {F}.

Record b2ShapeDef (F : Type) := mkShapeDef {
  sd_density : F;
  sd_friction : F;
  sd_restitution : F;
  sd_enableHitEvents : bool;
  sd_isSensor : bool;
  sd_categoryBits : Z;
  sd_maskBits : Z
}.
Arguments mkShapeDef {F}. Arguments sd_density {F}. Arguments sd_friction {F}.
Arguments sd_restitution {F}. Arguments sd_enableHitEvents {F}.
Arguments sd_isSensor {F}. Arguments sd_categoryBits {F}.
Arguments sd_maskBits {F}.

Record Shape (F : Type) := mkShape {
  shape_body : Z;
  shape_def : b2ShapeDef F;
  shape_geometry : Geometry F
}.
Arguments mkShape {F}. Arguments shape_body {F}. Arguments shape_def {F}.
Arguments shape_geometry {F}.

Record b2WeldJointDef := mkWeldJointDef {
  bodyIdA : Z;
  bodyIdB : Z;
  collideConnected : bool
}.

(** A hit event names the two shapes that touched. *)
Record b2ContactHitEvent := mkHit { shapeIdA : Z; shapeIdB : Z }.

Record PhysWorld (F : Type) := mkPhys {
  pw_valid : bool;                       (* [b2World_IsValid(gWorld)] *)
  pw_gravity : b2Vec2 F;
  pw_hitEventThreshold : F;
  pw_bodies : gmap Z (Body F);
  pw_shapes : gmap Z (Shape F);
  pw_joints : gmap Z b2WeldJointDef;
  pw_next : Z;                           (* the next handle the engine issues *)
  pw_hitEvents : list b2ContactHitEvent  (* the hit events of the last step *)
}.
Arguments mkPhys {F}. Arguments pw_valid {F}. Arguments pw_gravity {F}.
Arguments pw_hitEventThreshold {F}. Arguments pw_bodies {F}.
Arguments pw_shapes {F}. Arguments pw_joints {F}. Arguments pw_next {F}.
Arguments pw_hitEvents {F}.

Definition b2_nullJointId : Z := 0.

Section Physics.
Context {F : Type} `{FloatOps F}.
Implicit Types (pw : PhysWorld F) (b : Z).

Definition vec0 : b2Vec2 F := mkVec2 (fofZ 0) (fofZ 0).

Definition set_bodies (m : gmap Z (Body F)) pw : PhysWorld F :=
  mkPhys (pw_valid pw) (pw_gravity pw) (pw_hitEventThreshold pw) m
         (pw_shapes pw) (pw_joints pw) (pw_next pw) (pw_hitEvents pw).
Definition set_joints (m : gmap Z b2WeldJointDef) pw : PhysWorld F :=
  mkPhys (pw_valid pw) (pw_gravity pw) (pw_hitEventThreshold pw)
         (pw_bodies pw) (pw_shapes pw) m (pw_next pw) (pw_hitEvents pw).

(** The world before [initBox2DWorld]: [gWorld = b2_nullWorldId]. *)
Definition nullWorld : PhysWorld F :=
  mkPhys false vec0 (fofZ 0) ∅ ∅ ∅ 1 [].

Definition b2DefaultBodyDef : b2BodyDef F :=
  mkBodyDef b2_staticBody vec0 false false.
Definition b2DefaultShapeDef : b2ShapeDef F :=
  mkShapeDef (fofZ 1) (fofQ (6 # 10)) (fofZ 0) false false 1 (2 ^ 64 - 1).

Definition b2CreateBody (def : b2BodyDef F) pw : Z * PhysWorld F :=
  let body := mkBody (def_type def) (def_position def) (mkRot (fofZ 1) (fofZ 0))
                     vec0 (fofZ 0) (fofZ 1)
                     (def_fixedRotation def) (def_isBullet def) false None in
  (pw_next pw,
   mkPhys (pw_valid pw) (pw_gravity pw) (pw_hitEventThreshold pw)
          (<[pw_next pw := body]> (pw_bodies pw)) (pw_shapes pw)
          (pw_joints pw) (pw_next pw + 1) (pw_hitEvents pw)).

Definition b2CreateShape b (sd : b2ShapeDef F) (g : Geometry F) pw
  : option (Z * PhysWorld F) :=
  _ ← pw_bodies pw !! b;
  Some (pw_next pw,
        mkPhys (pw_valid pw) (pw_gravity pw) (pw_hitEventThreshold pw)
               (pw_bodies pw)
               (<[pw_next pw := mkShape b sd g]> (pw_shapes pw))
               (pw_joints pw) (pw_next pw + 1) (pw_hitEvents pw)).

Definition b2Body_IsValid b pw : bool := bool_decide (is_Some (pw_bodies pw !! b)).

Definition upd_body b (f : Body F → Body F) pw : option (PhysWorld F) :=
  body ← pw_bodies pw !! b;
  Some (set_bodies (<[b := f body]> (pw_bodies pw)) pw).

Definition b2Body_SetType b (t : b2BodyType) :=
  upd_body b (λ o, mkBody t (body_p o) (body_q o) (body_linearVelocity o)
    (body_angularVelocity o) (body_gravityScale o) (body_fixedRotation o)
    (body_isBullet o) (body_hitEvents o) (body_userData o)).
Definition b2Body_SetTransform b (p : b2Vec2 F) (q : b2Rot F) :=
  upd_body b (λ o, mkBody (body_type o) p q (body_linearVelocity o)
    (body_angularVelocity o) (body_gravityScale o) (body_fixedRotation o)
    (body_isBullet o) (body_hitEvents o) (body_userData o)).
Definition b2Body_SetLinearVelocity b (v : b2Vec2 F) :=
  upd_body b (λ o, mkBody (body_type o) (body_p o) (body_q o) v
    (body_angularVelocity o) (body_gravityScale o) (body_fixedRotation o)
    (body_isBullet o) (body_hitEvents o) (body_userData o)).
Definition b2Body_SetAngularVelocity b (a : F) :=
  upd_body b (λ o, mkBody (body_type o) (body_p o) (body_q o)
    (body_linearVelocity o) a (body_gravityScale o) (body_fixedRotation o)
    (body_isBullet o) (body_hitEvents o) (body_userData o)).
Definition b2Body_SetGravityScale b (g : F) :=
  upd_body b (λ o, mkBody (body_type o) (body_p o) (body_q o)
    (body_linearVelocity o) (body_angularVelocity o) g (body_fixedRotation o)
    (body_isBullet o) (body_hitEvents o) (body_userData o)).
Definition b2Body_EnableHitEvents b (flag : bool) :=
  upd_body b (λ o, mkBody (body_type o) (body_p o) (body_q o)
    (body_linearVelocity o) (body_angularVelocity o) (body_gravityScale o)
    (body_fixedRotation o) (body_isBullet o) flag (body_userData o)).
Definition b2Body_SetUserData b (p : option Z) :=
  upd_body b (λ o, mkBody (body_type o) (body_p o) (body_q o)
    (body_linearVelocity o) (body_angularVelocity o) (body_gravityScale o)
    (body_fixedRotation o) (body_isBullet o) (body_hitEvents o) p).

Definition b2Body_GetTransform b pw : option (b2Vec2 F * b2Rot F) :=
  o ← pw_bodies pw !! b; Some (body_p o, body_q o).
Definition b2Body_GetPosition b pw : option (b2Vec2 F) :=
  body_p <$> pw_bodies pw !! b.
Definition b2Body_GetUserData b pw : option (option Z) :=
  body_userData <$> pw_bodies pw !! b.
Definition b2Shape_GetBody (sh : Z) pw : option Z :=
  shape_body <$> pw_shapes pw !! sh.

Definition b2CreateWeldJoint (jd : b2WeldJointDef) pw : option (Z * PhysWorld F) :=
  _ ← pw_bodies pw !! bodyIdA jd;
  _ ← pw_bodies pw !! bodyIdB jd;
  Some (pw_next pw,
        mkPhys (pw_valid pw) (pw_gravity pw) (pw_hitEventThreshold pw)
               (pw_bodies pw) (pw_shapes pw)
               (<[pw_next pw := jd]> (pw_joints pw))
               (pw_next pw + 1) (pw_hitEvents pw)).

Definition b2DestroyJoint (j : Z) pw : option (PhysWorld F) :=
  _ ← pw_joints pw !! j;
  Some (set_joints (delete j (pw_joints pw)) pw).
End Physics.

(** ** Program state

    The store, the physics world [gWorld], the heap cells that box an
    entity id as body user data ([new ent_type{..}]), and the function-local
    static [swingDirections] of [RopeSwingSystem]. *)

Record State (F : Type) := mkState {
  ecs : World F;
  gWorld : PhysWorld F;
  heap : gmap Z Z;
  heap_next : Z;
  swingDirections : gmap Z F
}.
Arguments mkState {F}. Arguments ecs {F}. Arguments gWorld {F}.
Arguments heap {F}. Arguments heap_next {F}. Arguments swingDirections {F}.

(** ** Sprites ([sprite_manager.cpp]) *)

Record SDL_Rect := mkRect { rect_x : Z; rect_y : Z; rect_w : Z; rect_h : Z }.

Definition SPRITE_GOLD : Z := 0.
Definition SPRITE_ROCK : Z := 1.
Definition SPRITE_DIAMOND : Z := 2.
Definition SPRITE_TREASURE_CHEST : Z := 3.
Definition SPRITE_MYSTERY_BAG : Z := 4.
Definition SPRITE_BOMB : Z := 5.
Definition SPRITE_PLAYER_IDLE : Z := 6.
Definition SPRITE_TITLE_MONEY : Z := 9.
Definition SPRITE_TITLE_TIME : Z := 10.
Definition SPRITE_BACKGROUND : Z := 12.
Definition SPRITE_DIGIT_0 : Z := 15.
Definition SPRITE_COUNT : Z := 25.

(** [gSrcRects] as [LoadAllSprites] leaves it; an index outside the array
    has no rectangle. *)
Definition GetSpriteSrcRect (id : Z) : option SDL_Rect :=
  if bool_decide (0 <= id < SPRITE_COUNT) then
    Some (match id with
          | 0 => mkRect 0 0 35 30
          | 1 => mkRect 0 0 77 87
          | 2 => mkRect 0 0 41 32
          | 3 => mkRect 33 50 88 82
          | 5 => mkRect 0 0 77 67
          | 6 => mkRect 0 7 164 169
          | 9 => mkRect 0 0 112 32
          | 10 => mkRect 0 0 83 25
          | 12 => mkRect 0 0 1280 720
          | 15 => mkRect 20 55 30 52
          | 16 => mkRect 61 55 24 53
          | 17 => mkRect 96 55 32 52
          | 18 => mkRect 135 52 31 55
          | 19 => mkRect 173 49 31 58
          | 20 => mkRect 19 116 30 56
          | 21 => mkRect 60 115 29 53
          | 22 => mkRect 98 112 28 58
          | 23 => mkRect 137 116 27 55
          | 24 => mkRect 175 118 28 54
          | _ => mkRect 0 0 0 0
          end)
  else None.

(** ** Input events (SDL) *)

Record SDL_Event := mkEvent { event_type : Z; event_key : Z }.
Definition SDL_EVENT_QUIT : Z := 256.
Definition SDL_EVENT_KEY_DOWN : Z := 768.
Definition SDL_EVENT_KEY_UP : Z := 769.
Definition SDLK_SPACE : Z := 32.
Definition SDLK_RETURN : Z := 13.

(** ** Control flow: a [for] loop whose body may fail *)

Fixpoint for_each {A S : Type} (body : A → S → option S) (l : list A) (s : S)
  : option S :=
  match l with
  | [] => Some s
  | a :: l => s' ← body a s; for_each body l s'
  end.

(** The same loop when the body only issues calls: their list, in order. *)
Fixpoint for_each_out {A C : Type} (body : A → option (list C)) (l : list A)
  : option (list C) :=
  match l with
  | [] => Some []
  | a :: l => out ← body a; rest ← for_each_out body l; Some (out ++ rest)
  end.

(** ** Rendering (SDL)

    The calls a system makes on the renderer.  A texture is named by the
    index [GetSpriteTexture] reads [gTextures] at. *)

Record SDL_FRect (F : Type) := mkFRect {
  frect_x : F; frect_y : F; frect_w : F; frect_h : F
}.
Arguments mkFRect {F}. Arguments frect_x {F}. Arguments frect_y {F}.
Arguments frect_w {F}. Arguments frect_h {F}.

Inductive RenderCall (F : Type) :=
  | SDL_RenderTexture (sprite : Z) (src dst : SDL_FRect F)
  | SDL_SetRenderDrawColor (r g b a : Z)
  | SDL_RenderLine (x1 y1 x2 y2 : F).
Arguments SDL_RenderTexture {F}. Arguments SDL_SetRenderDrawColor {F}.
Arguments SDL_RenderLine {F}.

(** [std::to_string(int)] *)
Definition to_string (n : Z) : list Ascii.ascii :=
  String.list_ascii_of_string
    (DecimalString.NilZero.string_of_int (Z.to_int n)).

Section Systems.
Context {F : Type} `{FloatOps F} `{WideOps F}.
Implicit Types (s : State F) (w : World F) (pw : PhysWorld F).

Definition set_ecs w s : State F :=
  mkState w (gWorld s) (heap s) (heap_next s) (swingDirections s).
Definition set_phys pw s : State F :=
  mkState (ecs s) pw (heap s) (heap_next s) (swingDirections s).
Definition set_swing (m : gmap Z F) s : State F :=
  mkState (ecs s) (gWorld s) (heap s) (heap_next s) m.

Definition on_ecs (f : World F → World F) s : State F := set_ecs (f (ecs s)) s.
Definition on_phys (f : PhysWorld F → option (PhysWorld F)) s : option (State F) :=
  pw ← f (gWorld s); Some (set_phys pw s).

(** [new ent_type{e}] *)
Definition new_ent (e : Z) s : Z * State F :=
  (heap_next s,
   mkState (ecs s) (gWorld s) (<[heap_next s := e]> (heap s))
           (heap_next s + 1) (swingDirections s)).

Definition initialState : State F := mkState emptyWorld nullWorld ∅ 1 ∅.

Definition initBox2DWorld s : State F :=
  set_phys (mkPhys true (mkVec2 (fofZ 0) (fofQ (98 # 10))) (fofQ (1 # 10000))
                   ∅ ∅ ∅ 1 []) s.

Definition PPM : F := fofZ 50.
(** [M_PI] is a [double]. *)
Definition M_PI : double := fofQ (884279719003555 # 281474976710656).

(** *** Entity creation *)

Definition CreatePlayer (playerID : Z) s : Z * State F :=
  let '(e, w) := createEntity (ecs s) in
  (e, set_ecs (addAll [CPosition (fofZ 570) (fofZ 10); CVelocity (fofZ 0) (fofZ 0);
                       CRenderable SPRITE_PLAYER_IDLE; CPlayerInfo playerID;
                       CScore 0; CPlayerInput false false] e w) s).

Definition playerMask : Mask := mask_of [Position; PlayerInfo].

(** The search every rope routine runs: the first entity, in ascending
    id order, holding [Position] and [PlayerInfo] with the wanted
    [playerID], together with its position. *)
Fixpoint find_player_in (l : list Z) (playerID : Z) w
  : option (option (Z * (F * F))) :=
  match l with
  | [] => Some None
  | pid :: l =>
      if mask_test (mask w pid) playerMask then
        pinfo ← get_PlayerInfo pid w;
        if bool_decide (pinfo = playerID) then
          pos ← get_Position pid w; Some (Some (pid, pos))
        else find_player_in l playerID w
      else find_player_in l playerID w
  end.
Definition find_player (playerID : Z) w := find_player_in (ids w) playerID w.

Definition CreateRope (playerID : Z) s : option (Z * State F) :=
  let '(e, w) := createEntity (ecs s) in
  let s := set_ecs w s in
  found ← find_player playerID w;
  match found with
  | None => Some (-1, s)
  | Some (_, (px, py)) =>
      rect ← GetSpriteSrcRect SPRITE_PLAYER_IDLE;
      let playerWidth := fofZ (rect_w rect) in
      let playerHeight := fofZ (rect_h rect) in
      let winchOffsetX := (playerWidth * fofQ (1 # 1000))%fl in
      let winchOffsetY := fnarrow (fwiden playerHeight * fofQ (11 # 10))%fl in
      let startX := (px - winchOffsetX)%fl in
      let startY := (py + winchOffsetY)%fl in
      let bodyDef := mkBodyDef b2_dynamicBody
                       (mkVec2 (startX / PPM)%fl (startY / PPM)%fl) false true in
      let '(bodyId, pw) := b2CreateBody bodyDef (gWorld s) in
      pw ← b2Body_EnableHitEvents bodyId true pw;
      let shapeDef := mkShapeDef (fofZ 1) (fofQ (5 # 10)) (fofQ (2 # 10)) true false
                        (sd_categoryBits b2DefaultShapeDef)
                        (sd_maskBits b2DefaultShapeDef) in
      '(_, pw) ← b2CreateShape bodyId shapeDef (Circle vec0 (fofQ (3 # 10))) pw;
      pw ← b2Body_SetLinearVelocity bodyId vec0 pw;
      let '(p, s) := new_ent e (set_phys pw s) in
      pw ← b2Body_SetUserData bodyId (Some p) (gWorld s);
      let s := set_phys pw s in
      Some (e, on_ecs (addAll [CPosition startX startY; CRotation (fofZ 0);
                               CLength (fofZ 0); CRopeControl AtRest; CRoperTag;
                               CPlayerInfo playerID; CCollidable;
                               CPhysicsBody bodyId] e) s)
  end.

Definition CreateGold (x y : F) s : option (Z * State F) :=
  let '(e, w) := createEntity (ecs s) in
  let s := set_ecs w s in
  rect ← GetSpriteSrcRect SPRITE_GOLD;
  let width := fofZ (rect_w rect) in
  let height := fofZ (rect_h rect) in
  let centerX := (x + width / fofZ 2)%fl in
  let centerY := (y + height / fofZ 2)%fl in
  let bodyDef := mkBodyDef b2_staticBody
                   (mkVec2 (centerX / PPM)%fl (centerY / PPM)%fl) false false in
  let '(bodyId, pw) := b2CreateBody bodyDef (gWorld s) in
  let shapeDef := mkShapeDef (fofZ 1) (fofQ (3 # 10)) (fofQ (1 # 10))
                    (sd_enableHitEvents b2DefaultShapeDef)
                    (sd_isSensor b2DefaultShapeDef) 1 65535 in
  '(_, pw) ← b2CreateShape bodyId shapeDef
               (Circle vec0 ((width / fofZ 2) / PPM)%fl) pw;
  let '(p, s) := new_ent e (set_phys pw s) in
  pw ← b2Body_SetUserData bodyId (Some p) (gWorld s);
  let s := set_phys pw s in
  Some (e, on_ecs (addAll [CPosition x y; CRenderable SPRITE_GOLD; CCollectable;
                           CItemType Gold; CValue 70; CWeight (fofZ 5);
                           CCollidable; CPlayerInfo (-1); CPhysicsBody bodyId] e) s).

Definition CreateRock (x y : F) s : option (Z * State F) :=
  let '(e, w) := createEntity (ecs s) in
  let s := set_ecs w s in
  rect ← GetSpriteSrcRect SPRITE_ROCK;
  let width := fofZ (rect_w rect) in
  let height := fofZ (rect_h rect) in
  let centerX := (x + width / fofZ 2)%fl in
  let centerY := (y + height / fofZ 2)%fl in
  let bodyDef := mkBodyDef b2_staticBody
                   (mkVec2 (centerX / PPM)%fl (centerY / PPM)%fl) false false in
  let '(bodyId, pw) := b2CreateBody bodyDef (gWorld s) in
  let shapeDef := mkShapeDef (fofZ 1) (fofQ (3 # 10)) (fofQ (1 # 10))
                    (sd_enableHitEvents b2DefaultShapeDef)
                    (sd_isSensor b2DefaultShapeDef) 1 65535 in
  '(_, pw) ← b2CreateShape bodyId shapeDef
               (Circle vec0 ((width / fofZ 2) / PPM)%fl) pw;
  let '(p, s) := new_ent e (set_phys pw s) in
  pw ← b2Body_SetUserData bodyId (Some p) (gWorld s);
  let s := set_phys pw s in
  Some (e, on_ecs (addAll [CPosition x y; CRenderable SPRITE_ROCK; CCollectable;
                           CItemType Rock; CValue 100; CWeight (fofZ 1);
                           CCollidable; CPlayerInfo (-1); CPhysicsBody bodyId] e) s).

Definition CreateDiamond (x y : F) s : option (Z * State F) :=
  let '(e, w) := createEntity (ecs s) in
  let s := set_ecs w s in
  rect ← GetSpriteSrcRect SPRITE_DIAMOND;
  let width := fofZ (rect_w rect) in
  let height := fofZ (rect_h rect) in
  let centerX := (x + width / fofZ 2)%fl in
  let centerY := (y + height / fofZ 2)%fl in
  let bodyDef := mkBodyDef b2_staticBody
                   (mkVec2 (centerX / PPM)%fl (centerY / PPM)%fl) false false in
  let '(bodyId, pw) := b2CreateBody bodyDef (gWorld s) in
  let shapeDef := mkShapeDef (fofZ 1) (fofQ (3 # 10)) (fofQ (1 # 10))
                    (sd_enableHitEvents b2DefaultShapeDef)
                    (sd_isSensor b2DefaultShapeDef) 1 65535 in
  '(_, pw) ← b2CreateShape bodyId shapeDef
               (Circle vec0 ((width / fofZ 2) / PPM)%fl) pw;
  let '(p, s) := new_ent e (set_phys pw s) in
  pw ← b2Body_SetUserData bodyId (Some p) (gWorld s);
  let s := set_phys pw s in
  Some (e, on_ecs (addAll [CPosition x y; CRenderable SPRITE_DIAMOND; CCollectable;
                           CItemType Diamond; CValue 100; CWeight (fofZ 1);
                           CCollidable; CPlayerInfo (-1); CPhysicsBody bodyId] e) s).

Definition CreateTreasureChest (x y : F) s : option (Z * State F) :=
  let '(e, w) := createEntity (ecs s) in
  let s := set_ecs w s in
  rect ← GetSpriteSrcRect SPRITE_TREASURE_CHEST;
  let width := fofZ (rect_w rect) in
  let height := fofZ (rect_h rect) in
  let centerX := (x + width / fofZ 2)%fl in
  let centerY := (y + height / fofZ 2)%fl in
  let bodyDef := mkBodyDef b2_staticBody
                   (mkVec2 (centerX / PPM)%fl (centerY / PPM)%fl) false false in
  let '(bodyId, pw) := b2CreateBody bodyDef (gWorld s) in
  let shapeDef := mkShapeDef (fofZ 1) (fofQ (3 # 10)) (fofQ (1 # 10))
                    (sd_enableHitEvents b2DefaultShapeDef)
                    (sd_isSensor b2DefaultShapeDef) 1 65535 in
  '(_, pw) ← b2CreateShape bodyId shapeDef
               (Circle vec0 ((width / fofZ 2) / PPM)%fl) pw;
  let '(p, s) := new_ent e (set_phys pw s) in
  pw ← b2Body_SetUserData bodyId (Some p) (gWorld s);
  let s := set_phys pw s in
  Some (e, on_ecs (addAll [CPosition x y; CRenderable SPRITE_TREASURE_CHEST; CCollectable;
                           CItemType TreasureChest; CValue 100; CWeight (fofZ 3);
                           CCollidable; CPlayerInfo (-1); CPhysicsBody bodyId] e) s).

(** The sack is a five-point polygon around the body's centre. *)
Definition CreateMysteryBag (x y : F) s : option (Z * State F) :=
  let '(e, w) := createEntity (ecs s) in
  let s := set_ecs w s in
  rect ← GetSpriteSrcRect SPRITE_MYSTERY_BAG;
  let width := fofZ (rect_w rect) in
  let height := fofZ (rect_h rect) in
  let centerX := (x + width / fofZ 2)%fl in
  let centerY := (y + height / fofZ 2)%fl in
  let hw := (width / fofZ 2 / PPM)%fl in
  let hh := (height / fofZ 2 / PPM)%fl in
  let bodyDef := mkBodyDef b2_staticBody
                   (mkVec2 (centerX / PPM)%fl (centerY / PPM)%fl) false false in
  let '(bodyId, pw) := b2CreateBody bodyDef (gWorld s) in
  let shapeDef := mkShapeDef (fofZ 1) (fofQ (4 # 10)) (fofQ (2 # 10))
                    (sd_enableHitEvents b2DefaultShapeDef)
                    (sd_isSensor b2DefaultShapeDef) 1 65535 in
  let verts :=
    [ mkVec2 (fofZ 0) (- hh * fofQ (9 # 10))%fl;                 (* top (tie) *)
      mkVec2 (- hw * fofQ (8 # 10))%fl (- hh * fofQ (3 # 10))%fl; (* upper left *)
      mkVec2 (- hw)%fl (hh * fofQ (6 # 10))%fl;                   (* bottom left *)
      mkVec2 hw (hh * fofQ (6 # 10))%fl;                          (* bottom right *)
      mkVec2 (hw * fofQ (8 # 10))%fl (- hh * fofQ (3 # 10))%fl ]  (* upper right *) in
  '(_, pw) ← b2CreateShape bodyId shapeDef (Polygon verts) pw;
  let '(p, s) := new_ent e (set_phys pw s) in
  pw ← b2Body_SetUserData bodyId (Some p) (gWorld s);
  let s := set_phys pw s in
  Some (e, on_ecs (addAll [CPosition x y; CRenderable SPRITE_MYSTERY_BAG; CCollectable;
                           CItemType MysteryBag; CValue 0; CWeight (fofZ 1);
                           CCollidable; CPlayerInfo (-1); CPhysicsBody bodyId] e) s).

Definition CreateTimer s : Z * State F :=
  let '(e, w) := createEntity (ecs s) in
  (e, set_ecs (addComponent (CGameTimer (fofZ 60)) e w) s).

Definition CreateUIEntity (playerID : Z) s : Z * State F :=
  let '(e, w) := createEntity (ecs s) in
  (e, set_ecs (addAll [CUIComponent 0; CPlayerInfo playerID] e w) s).

Definition CreateMole (x y : F) s : Z * State F :=
  let '(e, w) := createEntity (ecs s) in
  (e, set_ecs (addAll [CPosition x y; CVelocity (fofQ (15 # 10)) (fofZ 0);
                       CRenderable 5; CMole (fofZ 100) true; CCollidable] e w) s).

(** *** PlayerInputSystem *)

Definition PlayerInput_entity (spacePressed : bool) (id : Z) s : option (State F) :=
  if mask_test (mask (ecs s) id) (mask_of [PlayerInput]) then
    '(_, retractRope) ← get_PlayerInput id (ecs s);
    Some (on_ecs (setComponent (CPlayerInput spacePressed retractRope) id) s)
  else Some s.

Definition PlayerInputSystem (event : option SDL_Event) s : option (State F) :=
  match event with
  | None => Some s
  | Some ev =>
      let spacePressed :=
        bool_decide (event_type ev = SDL_EVENT_KEY_DOWN)
        && bool_decide (event_key ev = SDLK_SPACE) in
      for_each (PlayerInput_entity spacePressed) (ids (ecs s)) s
  end.

(** *** RopeSwingSystem *)

Definition swing_ropeMask : Mask :=
  mask_of [RoperTag; Rotation; RopeControl; PhysicsBody; PlayerInfo].
Definition maxSwingAngle : F := fofZ 75.
Definition swingSpeed : F := fofZ 90.
Definition deltaTime : F := (fofZ 1 / fofZ 60)%fl.
Definition ropeLength : F := fofZ 80.

Definition RopeSwing_rope (id : Z) s : option (State F) :=
  if mask_test (mask (ecs s) id) swing_ropeMask then
    angle ← get_Rotation id (ecs s);
    state ← get_RopeControl id (ecs s);
    bodyId ← get_PhysicsBody id (ecs s);
    ropePlayer ← get_PlayerInfo id (ecs s);
    match state with
    | AtRest =>
        let dirs := match swingDirections s !! id with
                    | Some _ => swingDirections s
                    | None => <[id := fofZ 1]> (swingDirections s)
                    end in
        let dir := default (fofZ 0) (dirs !! id) in
        let angle := (angle + dir * swingSpeed * deltaTime)%fl in
        let '(angle, dirs) :=
          if (maxSwingAngle <? angle)%fl then
            (maxSwingAngle, <[id := (- fofZ 1)%fl]> dirs)
          else if (angle <? - maxSwingAngle)%fl then
            ((- maxSwingAngle)%fl, <[id := fofZ 1]> dirs)
          else (angle, dirs) in
        let s := set_swing dirs (on_ecs (setComponent (CRotation angle) id) s) in
        found ← find_player ropePlayer (ecs s);
        match found with
        | None => Some s
        | Some (_, (px, py)) =>
            rect ← GetSpriteSrcRect SPRITE_PLAYER_IDLE;
            let playerWidth := fofZ (rect_w rect) in
            let playerHeight := fofZ (rect_h rect) in
            let winchOffsetX := (- playerWidth * fofQ (1 # 1000))%fl in
            let winchOffsetY := (playerHeight * fofQ (11 # 10))%fl in
            let originX := (px + winchOffsetX)%fl in
            let originY := (py + winchOffsetY)%fl in
            let angleRad := fnarrow (fwiden angle * (M_PI / fwiden (fofZ 180)))%fl in
            let tipX := fnarrow (fwiden originX
                                 + fwiden ropeLength * fsin (fwiden angleRad))%fl in
            let tipY := fnarrow (fwiden originY
                                 + fwiden ropeLength * fcos (fwiden angleRad))%fl in
            '(_, q) ← b2Body_GetTransform bodyId (gWorld s);
            on_phys (λ pw,
              pw ← b2Body_SetTransform bodyId (mkVec2 (tipX / PPM)%fl (tipY / PPM)%fl) q pw;
              pw ← b2Body_SetLinearVelocity bodyId vec0 pw;
              b2Body_SetGravityScale bodyId (fofZ 0) pw) s
        end
    | _ => on_phys (b2Body_SetGravityScale bodyId (fofZ 1)) s
    end
  else Some s.

Definition RopeSwingSystem s : option (State F) :=
  for_each RopeSwing_rope (ids (ecs s)) s.

(** *** HandleRopeJointCleanup

    The joint handle and the attached entity id are the values the
    [GrabbedJoint] held when the routine was entered. *)
Definition HandleRopeJointCleanup (rope : Z) s : option (State F) :=
  if has GrabbedJoint rope (ecs s) then
    '(joint, attachedEntityId) ← get_GrabbedJoint rope (ecs s);
    s ← on_phys (b2DestroyJoint joint) s;
    let s := on_ecs (delComponent GrabbedJoint rope) s in
    Some (on_ecs (addComponent CDestroyTag attachedEntityId) s)
  else Some s.

(** *** RopeExtensionSystem *)

Definition ext_ropeMask : Mask :=
  mask_of [RoperTag; RopeControl; Length; Position; PlayerInfo; PhysicsBody].
Definition MAX_LENGTH : F := fofZ 800.
Definition EXTENSION_SPEED : F := fofZ 600.
Definition RETRACTION_SPEED : F := fofZ 900.

(** The velocity a rope body is given: towards [target] at [speed], or
    zero when it is within 0.01 of it. *)
Definition velocity_towards (target current : b2Vec2 F) (speed : F) : b2Vec2 F :=
  let dx := (vec_x target - vec_x current)%fl in
  let dy := (vec_y target - vec_y current)%fl in
  let dist := fnarrow (fsqrt (fwiden (dx * dx + dy * dy)%fl)) in
  if (fofQ (1 # 100) <? dist)%fl then
    mkVec2 (dx * (speed / PPM / dist))%fl (dy * (speed / PPM / dist))%fl
  else vec0.

(** Handle input: if at rest and the key was pressed, start extending
    and consume the input. *)
Definition rope_handle_input (id playerEntity : Z) (state : RopeState)
    (sendRope retractRope : bool) s : RopeState * State F :=
  if bool_decide (state = AtRest) && sendRope then
    (Extending,
     on_ecs (setComponent (CPlayerInput false retractRope) playerEntity)
       (on_ecs (setComponent (CRopeControl Extending) id) s))
  else (state, s).

(** The branch on the rope's state: the length grows or shrinks by one
    frame's worth and is clamped, and the body is driven towards the
    target tip or back towards the winch. *)
Definition rope_move (id bodyId : Z) (state : RopeState) (len : F)
    (origin targetPos currentPos : b2Vec2 F) s : option (RopeState * State F) :=
  match state with
  | Extending =>
      let len := (len + EXTENSION_SPEED * deltaTime)%fl in
      let s := on_ecs (setComponent (CLength len) id) s in
      let '(state, s) :=
        if (MAX_LENGTH <? len)%fl then
          (Retracting,
           on_ecs (setComponent (CRopeControl Retracting) id)
             (on_ecs (setComponent (CLength MAX_LENGTH) id) s))
        else (Extending, s) in
      (* Set velocity towards the target *)
      s ← on_phys (b2Body_SetLinearVelocity bodyId
             (velocity_towards targetPos currentPos EXTENSION_SPEED)) s;
      Some (state, s)
  | Retracting =>
      let len := (len - RETRACTION_SPEED * deltaTime)%fl in
      let s := on_ecs (setComponent (CLength len) id) s in
      if (len <=? fofZ 0)%fl then
        let s := on_ecs (setComponent (CRopeControl AtRest) id)
                   (on_ecs (setComponent (CLength (fofZ 0)) id) s) in
        s ← on_phys (b2Body_SetLinearVelocity bodyId vec0) s;
        Some (AtRest, s)
      else
        (* Set velocity back toward the origin *)
        let retractTarget := mkVec2 (vec_x origin / PPM)%fl (vec_y origin / PPM)%fl in
        s ← on_phys (b2Body_SetLinearVelocity bodyId
               (velocity_towards retractTarget currentPos RETRACTION_SPEED)) s;
        Some (Retracting, s)
  | AtRest =>
      (* If at rest, just keep the body in place *)
      s ← on_phys (b2Body_SetLinearVelocity bodyId vec0) s;
      Some (AtRest, s)
  end.

(** Joint cleanup when the rope is at rest: release the item and reset the
    rope's physics. *)
Definition rope_joint_cleanup (id bodyId : Z) (state : RopeState) s
  : option (State F) :=
  if bool_decide (state = AtRest) && has GrabbedJoint id (ecs s) then
    s ← HandleRopeJointCleanup id s;
    on_phys (λ pw,
      pw ← b2Body_SetLinearVelocity bodyId vec0 pw;
      pw ← b2Body_SetAngularVelocity bodyId (fofZ 0) pw;
      b2Body_SetGravityScale bodyId (fofZ 0) pw) s
  else Some s.

Definition RopeExtension_rope (id : Z) s : option (State F) :=
  if mask_test (mask (ecs s) id) ext_ropeMask then
    state ← get_RopeControl id (ecs s);
    len ← get_Length id (ecs s);
    angle ← get_Rotation id (ecs s);
    bodyId ← get_PhysicsBody id (ecs s);
    ropeOwner ← get_PlayerInfo id (ecs s);
    found ← find_player ropeOwner (ecs s);
    match found with
    | None => Some s
    | Some (playerEntity, (px, py)) =>
        '(sendRope, retractRope) ← get_PlayerInput playerEntity (ecs s);
        let '(state, s) :=
          rope_handle_input id playerEntity state sendRope retractRope s in
        (* Calculate rope origin (winch) and target tip position *)
        rect ← GetSpriteSrcRect SPRITE_PLAYER_IDLE;
        let winchOffsetX := (fofZ (- rect_w rect) * fofQ (1 # 1000))%fl in
        let winchOffsetY := (fofZ (rect_h rect) * fofQ (11 # 10))%fl in
        let originX := (px + winchOffsetX)%fl in
        let originY := (py + winchOffsetY)%fl in
        let angleRad := fnarrow (fwiden angle * (M_PI / fwiden (fofZ 180)))%fl in
        let tipX := fnarrow (fwiden originX + fwiden len * fsin (fwiden angleRad))%fl in
        let tipY := fnarrow (fwiden originY + fwiden len * fcos (fwiden angleRad))%fl in
        currentPos ← b2Body_GetPosition bodyId (gWorld s);
        let targetPos := mkVec2 (tipX / PPM)%fl (tipY / PPM)%fl in
        '(state, s) ← rope_move id bodyId state len (mkVec2 originX originY)
                        targetPos currentPos s;
        rope_joint_cleanup id bodyId state s
    end
  else Some s.

Definition RopeExtensionSystem s : option (State F) :=
  for_each RopeExtension_rope (ids (ecs s)) s.

(** *** CollisionSystem *)

Definition TryAttachCollectable (rope collectable : Z) s : option (State F) :=
  if has GrabbedJoint rope (ecs s) then Some s
  else
    ropeBody ← get_PhysicsBody rope (ecs s);
    itemBody ← get_PhysicsBody collectable (ecs s);
    s ← on_phys (b2Body_SetType itemBody b2_dynamicBody) s;
    let jointDef := mkWeldJointDef ropeBody itemBody false in
    '(jointId, pw) ← b2CreateWeldJoint jointDef (gWorld s);
    let s := set_phys pw s in
    let s := on_ecs (addComponent (CGrabbedJoint jointId collectable) rope) s in
    _ ← get_RopeControl rope (ecs s);
    let s := on_ecs (setComponent (CRopeControl Retracting) rope) s in
    s ← on_phys (b2Body_SetLinearVelocity itemBody vec0) s;
    on_phys (b2Body_SetAngularVelocity itemBody (fofZ 0)) s.

(** The two entities a hit event names, through the bodies of its shapes
    and their user data; [Some None] when a body carries no user data. *)
Definition hit_entities (hit : b2ContactHitEvent) s : option (option (Z * Z)) :=
  bodyA ← b2Shape_GetBody (shapeIdA hit) (gWorld s);
  bodyB ← b2Shape_GetBody (shapeIdB hit) (gWorld s);
  userDataA ← b2Body_GetUserData bodyA (gWorld s);
  userDataB ← b2Body_GetUserData bodyB (gWorld s);
  match userDataA, userDataB with
  | Some pA, Some pB =>
      entA ← heap s !! pA; entB ← heap s !! pB; Some (Some (entA, entB))
  | _, _ => Some None
  end.

Definition Collision_hit (hit : b2ContactHitEvent) s : option (State F) :=
  ents ← hit_entities hit s;
  match ents with
  | None => Some s
  | Some (entA, entB) =>
      let isRopeA := has RoperTag entA (ecs s) in
      let isRopeB := has RoperTag entB (ecs s) in
      let isCollectA := has Collectable entA (ecs s) in
      let isCollectB := has Collectable entB (ecs s) in
      (* Only grab if the rope is not already holding something *)
      if isRopeA && isCollectB && negb (has GrabbedJoint entA (ecs s)) then
        TryAttachCollectable entA entB s
      else if isRopeB && isCollectA && negb (has GrabbedJoint entB (ecs s)) then
        TryAttachCollectable entB entA s
      else Some s
  end.

Definition CollisionSystem s : option (State F) :=
  if pw_valid (gWorld s) then
    for_each Collision_hit (pw_hitEvents (gWorld s)) s
  else Some s.

(** *** PhysicsSyncSystem *)

Definition GetSpriteOffset (spriteID : Z) : option (F * F) :=
  rect ← GetSpriteSrcRect spriteID;
  let width := fofZ (rect_w rect) in
  let height := fofZ (rect_h rect) in
  let scale := fofZ 1 in
  Some ((width * scale) / fofZ 2, (height * scale) / fofZ 2)%fl.

Definition PIXELS_PER_METER : F := fofZ 50.

Definition PhysicsSync_entity (id : Z) s : option (State F) :=
  if mask_test (mask (ecs s) id) (mask_of [PhysicsBody; Position; Renderable]) then
    bodyId ← get_PhysicsBody id (ecs s);
    _ ← get_Position id (ecs s);
    spriteID ← get_Renderable id (ecs s);
    if b2Body_IsValid bodyId (gWorld s) then
      '(p, _) ← b2Body_GetTransform bodyId (gWorld s);
      '(offx, offy) ← GetSpriteOffset spriteID;
      Some (on_ecs (setComponent
              (CPosition (vec_x p * PIXELS_PER_METER - offx)%fl
                         (vec_y p * PIXELS_PER_METER - offy)%fl) id) s)
    else Some s
  else Some s.

Definition PhysicsSyncSystem s : option (State F) :=
  for_each PhysicsSync_entity (ids (ecs s)) s.

(** *** DestructionSystem *)

(** The component types the destruction loop tests and deletes, in the
    order of its [if] statements. *)
Definition destroyed_kinds : list CompKind :=
  [Position; Velocity; Rotation; Length; Renderable; PlayerInfo; RopeControl;
   ItemType; Value; Weight; GrabbedJoint; PhysicsBody; PlayerInput;
   Collectable; RoperTag; GameOverTag; Collidable; DestroyTag].

(** One line of the destruction loop:
    [if (World::mask(e).test(Component<T>::Bit)) World::delComponent<T>(e);] *)
Definition destroy_step (e : Z) w (k : CompKind) : World F :=
  if has k e w then delComponent k e w else w.

Definition destroy_entity (e : Z) w : World F :=
  foldl (destroy_step e) w destroyed_kinds.

Definition toDelete w : list Z :=
  filter (λ e, mask_test (mask w e) (mask_of [DestroyTag]) = true)
         (storage_entities DestroyTag w).

Definition destroy_all (l : list Z) w : World F :=
  foldl (λ w e, destroy_entity e w) w l.

Definition DestructionSystem s : State F :=
  on_ecs (λ w, destroy_all (toDelete w) w) s.

(** *** The systems with no logic yet

    Each one walks the ids and skips the entities that lack its mask; the
    body of the loop is the comment [// No logic implemented yet]. *)

Definition skip_unless (req : Mask) (id : Z) s : option (State F) :=
  if negb (mask_test (mask (ecs s) id) req) then Some s else Some s.

Definition PullObjectSystem s : option (State F) :=
  for_each (skip_unless (mask_of [Collidable; Position])) (ids (ecs s)) s.
Definition ScoreSystem s : option (State F) :=
  for_each (skip_unless (mask_of [ItemType; PlayerInfo])) (ids (ecs s)) s.
Definition TreasureChestSystem s : option (State F) :=
  for_each (skip_unless (mask_of [PlayerInfo; Value])) (ids (ecs s)) s.
Definition TimerSystem s : option (State F) :=
  for_each (skip_unless (mask_of [GameTimer])) (ids (ecs s)) s.
Definition MoleSystem s : option (State F) :=
  for_each (skip_unless (mask_of [Mole; Position; Velocity])) (ids (ecs s)) s.
Definition LifeTimeSystem s : option (State F) :=
  for_each (skip_unless (mask_of [LifeTime])) (ids (ecs s)) s.

(** *** RenderSystem *)

Definition rect_to_frect (rect : SDL_Rect) : SDL_FRect F :=
  mkFRect (fofZ (rect_x rect)) (fofZ (rect_y rect))
          (fofZ (rect_w rect)) (fofZ (rect_h rect)).

Definition Render_entity s (id : Z) : option (list (RenderCall F)) :=
  if mask_test (mask (ecs s) id) (mask_of [Renderable; Position]) then
    '(x, y) ← get_Position id (ecs s);
    spriteID ← get_Renderable id (ecs s);
    if bool_decide (spriteID < 0) || bool_decide (spriteID >= SPRITE_COUNT) then Some []
    else
      rect ← GetSpriteSrcRect spriteID;
      let src := rect_to_frect rect in
      let dest := mkFRect x y (frect_w src) (frect_h src) in
      Some [SDL_RenderTexture spriteID src dest]
  else Some [].

Definition RenderSystem s : option (list (RenderCall F)) :=
  for_each_out (Render_entity s) (ids (ecs s)).

(** *** RopeRenderSystem *)

Definition render_ropeMask : Mask := mask_of [RoperTag; PhysicsBody; PlayerInfo].

(** The first loop reads the transform of every rope and item body, to
    print it. *)
Definition RopeRender_report s (id : Z) : option (list (RenderCall F)) :=
  _ ← (if has RoperTag id (ecs s) && has PhysicsBody id (ecs s) then
         bodyId ← get_PhysicsBody id (ecs s);
         _ ← b2Body_GetTransform bodyId (gWorld s); Some ()
       else Some ());
  _ ← (if has ItemType id (ecs s) && has PhysicsBody id (ecs s) then
         bodyId ← get_PhysicsBody id (ecs s);
         _ ← b2Body_GetTransform bodyId (gWorld s); Some ()
       else Some ());
  Some [].

Definition RopeRender_rope s (id : Z) : option (list (RenderCall F)) :=
  if mask_test (mask (ecs s) id) render_ropeMask then
    bodyId ← get_PhysicsBody id (ecs s);
    ropeOwner ← get_PlayerInfo id (ecs s);
    if negb (b2Body_IsValid bodyId (gWorld s)) then Some []
    else
      '(p, _) ← b2Body_GetTransform bodyId (gWorld s);
      let ropeTipX := (vec_x p * PPM)%fl in
      let ropeTipY := (vec_y p * PPM)%fl in
      (* Find the matching player *)
      found ← find_player ropeOwner (ecs s);
      match found with
      | None => Some []
      | Some (_, (px, py)) =>
          Some [SDL_SetRenderDrawColor 0 0 0 255;
                SDL_RenderLine (px + fofZ 40)%fl (py + fofZ 120)%fl ropeTipX ropeTipY]
      end
  else Some [].

Definition RopeRenderSystem s : option (list (RenderCall F)) :=
  report ← for_each_out (RopeRender_report s) (ids (ecs s));
  lines ← for_each_out (RopeRender_rope s) (ids (ecs s));
  Some (report ++ lines).

(** *** DrawNumber *)

Definition digit_SCALE : F := fofQ (75 # 100).

(** The loop over the characters of [numStr], from [offsetX] on. *)
Fixpoint DrawNumber_chars (cs : list Ascii.ascii) (offsetX y : F)
  : option (list (RenderCall F)) :=
  match cs with
  | [] => Some []
  | c :: cs =>
      let digit := Z.of_nat (Ascii.nat_of_ascii c) - 48 in
      let spriteID := SPRITE_DIGIT_0 + digit in
      src ← GetSpriteSrcRect spriteID;
      let dst := mkFRect offsetX y (fofZ (rect_w src) * digit_SCALE)%fl
                         (fofZ (rect_h src) * digit_SCALE)%fl in
      let srcF := rect_to_frect src in
      rest ← DrawNumber_chars cs (offsetX + (frect_w dst + fofZ 2))%fl y;
      Some (SDL_RenderTexture spriteID srcF dst :: rest)
  end.

Definition DrawNumber (number : Z) (x y : F) : option (list (RenderCall F)) :=
  DrawNumber_chars (to_string number) x y.
End Systems.

(** ** Conversions from [float] to [int]

    [UISystem] and the debug drawing convert a [float] to [int]: the
    conversion is undefined where the value is not a number or leaves the
    range of [int]. *)

Definition to_int (n : Z) : option Z :=
  if bool_decide (- 2 ^ 31 ≤ n < 2 ^ 31) then Some n else None.

Class FloatToInt (F : Type) := {
  fceil_int : F → option Z;     (* [(int)std::ceil(x)] *)
  ftrunc_int : F → option Z     (* [(int)x] *)
}.

#[export] Instance B32_FloatToInt : FloatToInt B32.t := {|
  fceil_int x :=
    match x with
    | S754_zero _ => Some 0
    | S754_finite s m e =>
        let n := if s then Z.neg m else Z.pos m in
        to_int (if 0 <=? e then n * 2 ^ e else - ((- n) / 2 ^ (- e)))
    | _ => None
    end;
  ftrunc_int x :=
    match x with
    | S754_zero _ => Some 0
    | S754_finite s m e =>
        let n := if s then Z.neg m else Z.pos m in
        to_int (if 0 <=? e then n * 2 ^ e else Z.quot n (2 ^ (- e)))
    | _ => None
    end
|}.

#[export] Instance Exact_FloatToInt : FloatToInt Exact.t := {|
  fceil_int q := to_int (- ((- Qnum q) / Z.pos (Qden q)));
  ftrunc_int q := to_int (Z.quot (Qnum q) (Z.pos (Qden q)))
|}.

Section UI.
Context {F : Type} `{FloatOps F} `{WideOps F} `{FloatToInt F}.
Implicit Types (s : State F) (w : World F).

Definition get_Score (e : Z) w : option Z :=
  match getComponent Score e w with Some (CScore p) => Some p | _ => None end.
Definition get_GameTimer (e : Z) w : option F :=
  match getComponent GameTimer e w with Some (CGameTimer t) => Some t | _ => None end.

Definition UI_BASE_Y : F := fofZ 4.
Definition PLAYER_UI_SPACING_X : F := fofZ 10.
Definition ICON_SPACING : F := fofZ 10.

Definition uiMask : Mask := mask_of [UIComponent; PlayerInfo].
Definition scoreMask : Mask := mask_of [Score; PlayerInfo].
Definition timerMask : Mask := mask_of [GameTimer; PlayerInfo].

(** The two inner loops have one shape: the first entity with the mask
    [req] whose [playerID] is [pid] is shown, and the loop breaks. *)
Fixpoint UI_first (req : Mask) (show : Z → option (list (RenderCall F)))
    (l : list Z) (pid : Z) s : option (list (RenderCall F)) :=
  match l with
  | [] => Some []
  | id :: l =>
      if negb (mask_test (mask (ecs s) id) req) then UI_first req show l pid s
      else
        player ← get_PlayerInfo id (ecs s);
        if bool_decide (player ≠ pid) then UI_first req show l pid s
        else show id
  end.

Definition UI_show_score s (x y : F) (sid : Z) : option (list (RenderCall F)) :=
  points ← get_Score sid (ecs s);
  DrawNumber points x y.

Definition UI_show_time s (x y : F) (tid : Z) : option (list (RenderCall F)) :=
  timeLeft ← get_GameTimer tid (ecs s);
  seconds ← fceil_int timeLeft;
  DrawNumber seconds x y.

Definition UI_entity s (id : Z) : option (list (RenderCall F)) :=
  if negb (mask_test (mask (ecs s) id) uiMask) then Some []
  else
    pid ← get_PlayerInfo id (ecs s);
    let offsetX := (fofZ 5 + fofZ pid * PLAYER_UI_SPACING_X)%fl in
    (* === Score === *)
    moneySrc ← GetSpriteSrcRect SPRITE_TITLE_MONEY;
    let moneyDst := mkFRect offsetX UI_BASE_Y (fofZ (rect_w moneySrc))
                            (fofZ (rect_h moneySrc)) in
    score ← UI_first scoreMask
               (UI_show_score s (frect_x moneyDst + frect_w moneyDst + ICON_SPACING)%fl
                              (frect_y moneyDst))
               (ids (ecs s)) pid s;
    (* === Time === *)
    timeSrc ← GetSpriteSrcRect SPRITE_TITLE_TIME;
    let timeDst := mkFRect offsetX (UI_BASE_Y + fofZ 60)%fl (fofZ (rect_w timeSrc))
                           (fofZ (rect_h timeSrc)) in
    time ← UI_first timerMask
              (UI_show_time s (frect_x timeDst + frect_w timeDst + ICON_SPACING)%fl
                            (frect_y timeDst))
              (ids (ecs s)) pid s;
    Some (SDL_RenderTexture SPRITE_TITLE_MONEY (rect_to_frect moneySrc) moneyDst
            :: score
          ++ SDL_RenderTexture SPRITE_TITLE_TIME (rect_to_frect timeSrc) timeDst
            :: time).

Definition UISystem s : option (list (RenderCall F)) :=
  for_each_out (UI_entity s) (ids (ecs s)).
End UI.

(** ** Debug drawing ([debug_draw.cpp])

    The callbacks the physics engine calls to draw its shapes.  A colour
    is a [b2HexColor], [0xRRGGBB]. *)

Section DebugDraw.
Context {F : Type} `{FloatOps F} `{WideOps F} `{FloatToInt F}.

Definition SCALE : F := fofZ 50.

Definition SDLColorFromHex (hex : Z) : list (RenderCall F) :=
  let r := Z.land (Z.shiftr hex 16) 255 in
  let g := Z.land (Z.shiftr hex 8) 255 in
  let b := Z.land hex 255 in
  [SDL_SetRenderDrawColor r g b 255].

(** [SDL_RenderDrawLineF] takes [float] coordinates; every caller passes
    it [int]s. *)
Definition SDL_RenderDrawLineF (x1 y1 x2 y2 : Z) : RenderCall F :=
  SDL_RenderLine (fofZ x1) (fofZ y1) (fofZ x2) (fofZ y2).

(** [(int)(v * SCALE)] *)
Definition to_screen (v : F) : option Z := ftrunc_int (v * SCALE)%fl.

Definition DrawSegment (p1 p2 : b2Vec2 F) (color : Z)
  : option (list (RenderCall F)) :=
  x1 ← to_screen (vec_x p1); y1 ← to_screen (vec_y p1);
  x2 ← to_screen (vec_x p2); y2 ← to_screen (vec_y p2);
  Some (SDLColorFromHex color ++ [SDL_RenderDrawLineF x1 y1 x2 y2]).

Definition DrawPolygon (vertices : list (b2Vec2 F)) (count : Z) (color : Z)
  : option (list (RenderCall F)) :=
  lines ← for_each_out
             (λ i, let j := Z.rem (i + 1) count in
                   vi ← vertices !! Z.to_nat i;
                   vj ← vertices !! Z.to_nat j;
                   x1 ← to_screen (vec_x vi); y1 ← to_screen (vec_y vi);
                   x2 ← to_screen (vec_x vj); y2 ← to_screen (vec_y vj);
                   Some [SDL_RenderDrawLineF x1 y1 x2 y2])
             (seqZ 0 count);
  Some (SDLColorFromHex color ++ lines).

Definition DrawCircle (center : b2Vec2 F) (radius : F) (color : Z)
  : option (list (RenderCall F)) :=
  let segments := 32 in
  let angleStep := (fofZ 2 * fofQ (314159 # 100000) / fofZ segments)%fl in
  lines ← for_each_out
             (λ i, let angle1 := (fofZ i * angleStep)%fl in
                   let angle2 := (fofZ (i + 1) * angleStep)%fl in
                   let p1 := mkVec2 (vec_x center + radius * fcos angle1)%fl
                                    (vec_y center + radius * fsin angle1)%fl in
                   let p2 := mkVec2 (vec_x center + radius * fcos angle2)%fl
                                    (vec_y center + radius * fsin angle2)%fl in
                   x1 ← to_screen (vec_x p1); y1 ← to_screen (vec_y p1);
                   x2 ← to_screen (vec_x p2); y2 ← to_screen (vec_y p2);
                   Some [SDL_RenderDrawLineF x1 y1 x2 y2])
             (seqZ 0 segments);
  Some (SDLColorFromHex color ++ lines).

Definition DrawTransform (xf : b2Vec2 F * b2Rot F) : option (list (RenderCall F)) :=
  let '(p, q) := xf in
  let p1 := p in
  let p2x := mkVec2 (vec_x p + rot_c q)%fl (vec_y p + rot_s q)%fl in
  let p2y := mkVec2 (vec_x p - rot_s q)%fl (vec_y p + rot_c q)%fl in
  x1 ← to_screen (vec_x p1); y1 ← to_screen (vec_y p1);
  xx ← to_screen (vec_x p2x); xy ← to_screen (vec_y p2x);
  yx ← to_screen (vec_x p2y); yy ← to_screen (vec_y p2y);
  Some [SDL_SetRenderDrawColor 255 0 0 255;   (* x axis - red *)
        SDL_RenderDrawLineF x1 y1 xx xy;
        SDL_SetRenderDrawColor 0 255 0 255;   (* y axis - green *)
        SDL_RenderDrawLineF x1 y1 yx yy].
End DebugDraw.

(** * Specification vocabulary

    The predicates and functions the statements below are written with. *)

(** ** PlayerInputSystem *)

Definition space_key_down (ev : SDL_Event) : bool :=
  bool_decide (event_type ev = SDL_EVENT_KEY_DOWN)
  && bool_decide (event_key ev = SDLK_SPACE).

(** What one run of the system does to a [PlayerInput]. *)
Definition write_sendRope (b : bool) (i : bool * bool) : bool * bool := (b, i.2).

(** ** RopeSwingSystem *)

Definition gravity_of {F} (s : State F) (b : Z) : option F :=
  body_gravityScale <$> pw_bodies (gWorld s) !! b.

Section Vocabulary.
Context {F : Type} `{FloatOps F} `{WideOps F}.
Implicit Types (s : State F) (w : World F) (e : Z) (k : CompKind).

(** Everything but the [PlayerInput] payloads is left as it was. *)
Definition input_frame s s' : Prop :=
  w_maxId (ecs s') = w_maxId (ecs s)
  ∧ w_masks (ecs s') = w_masks (ecs s)
  ∧ (∀ k e, k ≠ PlayerInput → getComponent k e (ecs s') = getComponent k e (ecs s))
  ∧ gWorld s' = gWorld s ∧ heap s' = heap s ∧ heap_next s' = heap_next s
  ∧ swingDirections s' = swingDirections s.

(** A hit leaves every mask bit but [GrabbedJoint] alone, and leaves alone
    the [GrabbedJoint] and the [RopeControl] of every rope that held one. *)
Definition holding_frame s s' : Prop :=
  (∀ k e, k ≠ GrabbedJoint → has k e (ecs s') = has k e (ecs s))
  ∧ (∀ e, has GrabbedJoint e (ecs s) = true →
       has GrabbedJoint e (ecs s') = true
       ∧ getComponent GrabbedJoint e (ecs s') = getComponent GrabbedJoint e (ecs s)
       ∧ getComponent RopeControl e (ecs s') = getComponent RopeControl e (ecs s)).

(** The swing loop writes [Rotation] payloads and nothing else of the
    store. *)
Definition swing_frame s s' : Prop :=
  w_maxId (ecs s') = w_maxId (ecs s)
  ∧ w_masks (ecs s') = w_masks (ecs s)
  ∧ (∀ k e, k ≠ Rotation → getComponent k e (ecs s') = getComponent k e (ecs s))
  ∧ heap s' = heap s.

(** The rope state machine, as one iteration of the extension loop runs
    it on the rope's state, its owner's [sendRope] flag and its length. *)
Definition input_step (state : RopeState) (sendRope : bool) : RopeState :=
  if bool_decide (state = AtRest) && sendRope then Extending else state.

Definition move_step (state : RopeState) (len : F) : RopeState * F :=
  match state with
  | Extending =>
      let len := (len + EXTENSION_SPEED * deltaTime)%fl in
      if (MAX_LENGTH <? len)%fl then (Retracting, MAX_LENGTH) else (Extending, len)
  | Retracting =>
      let len := (len - RETRACTION_SPEED * deltaTime)%fl in
      if (len <=? fofZ 0)%fl then (AtRest, fofZ 0) else (Retracting, len)
  | AtRest => (AtRest, len)
  end.

Definition rope_step (state : RopeState) (sendRope : bool) (len : F)
  : RopeState * F :=
  move_step (input_step state sendRope) len.

(** What an iteration of the extension loop leaves alone. *)
Definition ext_frame s s' : Prop :=
  w_maxId (ecs s') = w_maxId (ecs s)
  ∧ (∀ k e, k ≠ GrabbedJoint → k ≠ DestroyTag → has k e (ecs s') = has k e (ecs s))
  ∧ (∀ k e, k ≠ RopeControl → k ≠ Length → k ≠ PlayerInput → k ≠ GrabbedJoint →
            k ≠ DestroyTag → getComponent k e (ecs s') = getComponent k e (ecs s))
  ∧ (∀ e, get_PlayerInput e (ecs s') = get_PlayerInput e (ecs s)
          ∨ ∃ r, get_PlayerInput e (ecs s) = Some (true, r)
                 ∧ get_PlayerInput e (ecs s') = Some (false, r)).

(** The [RopeControl] and [Length] of every entity but [id] are kept. *)
Definition rc_len_frame (id : Z) s s' : Prop :=
  ∀ e, e ≠ id →
    getComponent RopeControl e (ecs s') = getComponent RopeControl e (ecs s)
    ∧ getComponent Length e (ecs s') = getComponent Length e (ecs s).

(** What one iteration does to the rope it visits: nothing (the entity is
    no rope, or its player is not found), or one step of the state
    machine on its state, its owner's flag and its length. *)
Definition rope_stepped (id : Z) s s' : Prop :=
  ∃ state len owner player pos sendRope r,
    get_RopeControl id (ecs s) = Some state
    ∧ get_Length id (ecs s) = Some len
    ∧ get_PlayerInfo id (ecs s) = Some owner
    ∧ find_player owner (ecs s) = Some (Some (player, pos))
    ∧ get_PlayerInput player (ecs s) = Some (sendRope, r)
    ∧ get_RopeControl id (ecs s') = Some (rope_step state sendRope len).1
    ∧ get_Length id (ecs s') = Some (rope_step state sendRope len).2
    ∧ get_PlayerInput player (ecs s')
        = Some (sendRope && negb (bool_decide (state = AtRest)), r).

Definition rope_skipped (id : Z) s s' : Prop :=
  getComponent RopeControl id (ecs s') = getComponent RopeControl id (ecs s)
  ∧ getComponent Length id (ecs s') = getComponent Length id (ecs s).

(** What the whole loop did to a rope it visited once. *)
Definition rope_visited (rope : Z) s s' : Prop :=
  ∃ state len owner player pos sendRope r,
    get_RopeControl rope (ecs s) = Some state
    ∧ get_Length rope (ecs s) = Some len
    ∧ get_PlayerInfo rope (ecs s) = Some owner
    ∧ find_player owner (ecs s) = Some (Some (player, pos))
    ∧ (sendRope = true → get_PlayerInput player (ecs s) = Some (true, r))
    ∧ get_RopeControl rope (ecs s') = Some (rope_step state sendRope len).1
    ∧ get_Length rope (ecs s') = Some (rope_step state sendRope len).2
    ∧ (state = AtRest → sendRope = true →
         get_PlayerInput player (ecs s') = Some (false, r)).

(** A hit keeps a rope's [RopeControl], or attaches a collectable to it. *)
Definition attach_or_same s s' : Prop :=
  holding_frame s s'
  ∧ ∀ e, getComponent RopeControl e (ecs s') = getComponent RopeControl e (ecs s)
         ∨ (getComponent RopeControl e (ecs s') = Some (CRopeControl Retracting)
            ∧ has GrabbedJoint e (ecs s) = false
            ∧ has GrabbedJoint e (ecs s') = true).

(** The pixel coordinate [PhysicsSyncSystem] derives for a sprite of the
    given extent from the body coordinate [CreateGold] derived from [x]:
    [((x + extent / 2) / PPM) * PIXELS_PER_METER - (extent * 1) / 2]. *)
Definition sync_coord (x : F) (extent : Z) : F :=
  (((x + fofZ extent / fofZ 2) / PPM) * PIXELS_PER_METER
   - (fofZ extent * fofZ 1) / fofZ 2)%fl.

(** The sync loop writes [Position] payloads and nothing else. *)
Definition sync_frame s s' : Prop :=
  w_maxId (ecs s') = w_maxId (ecs s)
  ∧ w_masks (ecs s') = w_masks (ecs s)
  ∧ (∀ k e, k ≠ Position → getComponent k e (ecs s') = getComponent k e (ecs s))
  ∧ gWorld s' = gWorld s ∧ heap s' = heap s.
End Vocabulary.

(** ** The order of the scalars

    The facts about [<=] and [<] the length bounds rest on.  They hold of
    IEEE binary32 as [SpecFloat] defines it (instance [B32_FloatOrder],
    proved from the definitions of rounding) and of the exact rationals.
    A comparison with a NaN is false, so [x <= x] says that [x] is a
    number; [fvalid] singles out the values of the format, which every
    [float] of the program is; [ffinite] is [std::isfinite]. *)

Class FloatOrder (F : Type) `{FloatOps F} := {
  fvalid : F → Prop;
  ffinite : F → Prop;
  fle_operands x y : (x <=? y)%fl = true → (x <=? x)%fl = true ∧ (y <=? y)%fl = true;
  fle_total x y :
    (x <=? x)%fl = true → (y <=? y)%fl = true →
    (x <=? y)%fl = true ∨ (y <=? x)%fl = true;
  flt_false_le x y :
    (x <=? x)%fl = true → (y <=? y)%fl = true →
    (x <? y)%fl = false → (y <=? x)%fl = true;
  fle_finite a x b :
    ffinite a → ffinite b → (a <=? x)%fl = true → (x <=? b)%fl = true → ffinite x;
  fadd_nonneg x y :
    (fofZ 0 <=? x)%fl = true → (fofZ 0 <=? y)%fl = true →
    (fofZ 0 <=? x + y)%fl = true;
  fadd_valid x y : fvalid x → fvalid y → fvalid (x + y)%fl;
  fsub_valid x y : fvalid x → fvalid y → fvalid (x - y)%fl;
  fsub_defined x y : ffinite x → ffinite y → (x - y <=? x - y)%fl = true;
  fsub_nonneg_le x y z :
    fvalid x → (fofZ 0 <=? x)%fl = true → (x <=? z)%fl = true →
    (fofZ 0 <=? y)%fl = true →
    (x - y <=? x - y)%fl = true → (x - y <=? z)%fl = true
}.

#[export] Instance Exact_FloatOrder : FloatOrder Exact.t.
Proof.
  refine {| fvalid := λ _, True; ffinite := λ _, True |}; simpl.
  - intros x y _. split; apply Qle_bool_iff, Qle_refl.
  - intros x y _ _. rewrite !Qle_bool_iff.
    destruct (Qlt_le_dec y x) as [Hlt|Hle]; [right; by apply Qlt_le_weak|by left].
  - intros x y _ _ Hlt. by apply negb_false_iff in Hlt.
  - done.
  - intros x y. rewrite !Qle_bool_iff. intros Hx Hy.
    rewrite (Qred_correct (x + y)). change (Qred (inject_Z 0)) with 0%Q in *. lra.
  - done.
  - done.
  - intros x y _ _. apply Qle_bool_iff, Qle_refl.
  - intros x y z _ _. rewrite !Qle_bool_iff. intros Hx Hy _.
    rewrite (Qred_correct (x - y)). change (Qred (inject_Z 0)) with 0%Q in *. lra.
Defined.

Section LengthVocabulary.
Context {F : Type} `{FloatOrder F} `{WideOps F}.
Implicit Types (s : State F) (len : F).

(** [0 <= Length.value <= MAX_LENGTH] *)
Definition length_in_range len : Prop :=
  (fofZ 0 <=? len)%fl = true ∧ (len <=? MAX_LENGTH)%fl = true.

(** The constants of the loop are what they read as: the bounds and the
    two per-frame steps are values of the format, the bounds are finite
    and ordered, the steps are not negative. *)
Definition rope_constants_ok : Prop :=
  ffinite (fofZ 0) ∧ ffinite MAX_LENGTH
  ∧ fvalid (fofZ 0) ∧ fvalid MAX_LENGTH
  ∧ fvalid (EXTENSION_SPEED * deltaTime)%fl
  ∧ fvalid (RETRACTION_SPEED * deltaTime)%fl
  ∧ (fofZ 0 <=? MAX_LENGTH)%fl = true
  ∧ (fofZ 0 <=? EXTENSION_SPEED * deltaTime)%fl = true
  ∧ (fofZ 0 <=? RETRACTION_SPEED * deltaTime)%fl = true
  ∧ ffinite (RETRACTION_SPEED * deltaTime)%fl.
End LengthVocabulary.

(** ** Vocabulary of the factories, the renderers and the frame *)

Section SearchVocabulary.
Context {F : Type}.
Implicit Types (w : World F) (e : Z).

(** An entity the search passes over: it lacks [Position] or
    [PlayerInfo], or it belongs to another player. *)
Definition passed_over (playerID : Z) w e : Prop :=
  mask_test (mask w e) playerMask = true →
  ∃ q, get_PlayerInfo e w = Some q ∧ q ≠ playerID.
End SearchVocabulary.

Section FactoryVocabulary.
Context {F : Type} `{FloatOps F} `{WideOps F}.
Implicit Types (s : State F) (w : World F) (e : Z) (k : CompKind).

(** Where [CreateRope] puts a rope whose player stands at [(px, py)]: the
    winch, a thousandth of the player sprite's width to the left and 1.1
    times its height below.  The height is multiplied by the [double]
    literal [1.1], and the product narrowed once. *)
Definition rope_start (px py : F) : F * F :=
  ((px - fofZ 164 * fofQ (1 # 1000))%fl,
   (py + fnarrow (fwiden (fofZ 169) * fofQ (11 # 10)))%fl).

(** What an item factory called at [(x, y)] in state [s] returned: the
    new entity with its nine components, a static body centred on the
    sprite rectangle of [width] by [height] pixels, whose user data is a
    fresh heap cell holding the entity id, and one shape on that body. *)
Definition creates_item (r : option (Z * State F)) s (x y : F) (sprite : Z)
    (width height : Z) (kind : ItemKind) (value : Z) (weight : F)
    (geometry : Geometry F) : Prop :=
  let e := w_maxId (ecs s) + 1 in
  let b := pw_next (gWorld s) in
  ∃ s' body shape,
    r = Some (e, s')
    ∧ w_maxId (ecs s') = e
    ∧ getComponent Position e (ecs s') = Some (CPosition x y)
    ∧ getComponent Renderable e (ecs s') = Some (CRenderable sprite)
    ∧ getComponent ItemType e (ecs s') = Some (CItemType kind)
    ∧ getComponent Value e (ecs s') = Some (CValue value)
    ∧ getComponent Weight e (ecs s') = Some (CWeight weight)
    ∧ getComponent PlayerInfo e (ecs s') = Some (CPlayerInfo (-1))
    ∧ getComponent PhysicsBody e (ecs s') = Some (CPhysicsBody b)
    ∧ mask_test (mask (ecs s') e)
        (mask_of [Position; Renderable; Collectable; ItemType; Value; Weight;
                  Collidable; PlayerInfo; PhysicsBody]) = true
    ∧ pw_bodies (gWorld s') !! b = Some body
    ∧ body_type body = b2_staticBody
    ∧ body_p body = mkVec2 ((x + fofZ width / fofZ 2) / PPM)%fl
                           ((y + fofZ height / fofZ 2) / PPM)%fl
    ∧ body_userData body = Some (heap_next s)
    ∧ heap s' !! heap_next s = Some e
    ∧ pw_shapes (gWorld s') !! (b + 1) = Some shape
    ∧ shape_body shape = b
    ∧ shape_geometry shape = geometry
    ∧ pw_next (gWorld s') = b + 2.

Definition circle_of_width (width : Z) : Geometry F :=
  Circle vec0 ((fofZ width / fofZ 2) / PPM)%fl.

(** The sack's outline for a sprite of the given size. *)
Definition sack_polygon (width height : Z) : Geometry F :=
  let hw := (fofZ width / fofZ 2 / PPM)%fl in
  let hh := (fofZ height / fofZ 2 / PPM)%fl in
  Polygon [ mkVec2 (fofZ 0) (- hh * fofQ (9 # 10))%fl;
            mkVec2 (- hw * fofQ (8 # 10))%fl (- hh * fofQ (3 # 10))%fl;
            mkVec2 (- hw)%fl (hh * fofQ (6 # 10))%fl;
            mkVec2 hw (hh * fofQ (6 # 10))%fl;
            mkVec2 (hw * fofQ (8 # 10))%fl (- hh * fofQ (3 # 10))%fl ].

(** What creating an entity leaves alone: every other entity, every
    engine object and heap cell that existed, the joints. *)
Definition creation_frame s s' : Prop :=
  w_maxId (ecs s') = w_maxId (ecs s) + 1
  ∧ (∀ k e, e ≠ w_maxId (ecs s) + 1 →
       has k e (ecs s') = has k e (ecs s)
       ∧ getComponent k e (ecs s') = getComponent k e (ecs s))
  ∧ (∀ b, b < pw_next (gWorld s) →
       pw_bodies (gWorld s') !! b = pw_bodies (gWorld s) !! b
       ∧ pw_shapes (gWorld s') !! b = pw_shapes (gWorld s) !! b)
  ∧ pw_joints (gWorld s') = pw_joints (gWorld s)
  ∧ pw_next (gWorld s) ≤ pw_next (gWorld s')
  ∧ (∀ p, p < heap_next s → heap s' !! p = heap s !! p)
  ∧ heap_next s ≤ heap_next s'
  ∧ swingDirections s' = swingDirections s.
End FactoryVocabulary.

Section DrawVocabulary.
Context {F : Type} `{FloatOps F} `{WideOps F}.
Implicit Types (s : State F) (e : Z).

(** A call that draws one of the ten digit glyphs. *)
Definition digit_call (c : RenderCall F) : Prop :=
  ∃ d rect dst,
    0 ≤ d ≤ 9
    ∧ GetSpriteSrcRect (SPRITE_DIGIT_0 + d) = Some rect
    ∧ c = SDL_RenderTexture (SPRITE_DIGIT_0 + d) (rect_to_frect rect) dst.

(** The glyphs stand in a row from [(x, y)] on: each one at its sprite's
    size scaled by [digit_SCALE], the next one 2 pixels after its right
    edge. *)
Fixpoint in_a_row (x y : F) (calls : list (RenderCall F)) : Prop :=
  match calls with
  | [] => True
  | c :: rest =>
      ∃ sprite rect,
        GetSpriteSrcRect sprite = Some rect
        ∧ c = SDL_RenderTexture sprite (rect_to_frect rect)
                (mkFRect x y (fofZ (rect_w rect) * digit_SCALE)%fl
                         (fofZ (rect_h rect) * digit_SCALE)%fl)
        ∧ in_a_row (x + (fofZ (rect_w rect) * digit_SCALE + fofZ 2))%fl y rest
  end.
(** The digits a list of calls shows, read off the sprites drawn. *)
Definition drawn_digits (calls : list (RenderCall F)) : list Z :=
  omap (λ c, match c with
             | SDL_RenderTexture sprite _ _ => Some (sprite - SPRITE_DIGIT_0)
             | _ => None
             end) calls.

Definition digit_step (acc d : Z) : Z := 10 * acc + d.

(** Reading digits as a decimal number, most significant first. *)
Definition decimal_value (ds : list Z) : Z := foldl (λ acc d, 10 * acc + d) 0 ds.

(** The characters [std::to_string] writes for the digits of a number. *)
Definition uint_chars (d : Decimal.uint) : list Ascii.ascii :=
  String.list_ascii_of_string (DecimalString.NilEmpty.string_of_uint d).

(** The call that draws entity [id]. *)
Definition draws s (id : Z) (call : RenderCall F) : Prop :=
  ∃ x y spriteID rect,
    mask_test (mask (ecs s) id) (mask_of [Renderable; Position]) = true
    ∧ get_Position id (ecs s) = Some (x, y)
    ∧ get_Renderable id (ecs s) = Some spriteID
    ∧ 0 ≤ spriteID < SPRITE_COUNT
    ∧ GetSpriteSrcRect spriteID = Some rect
    ∧ call = SDL_RenderTexture spriteID (rect_to_frect rect)
               (mkFRect x y (fofZ (rect_w rect)) (fofZ (rect_h rect))).

(** The line drawn for a rope: from 40 right and 120 below its player's
    position to its body's origin, in pixels. *)
Definition rope_line s (rope : Z) (call : RenderCall F) : Prop :=
  ∃ bodyId owner body player px py,
    mask_test (mask (ecs s) rope) render_ropeMask = true
    ∧ get_PhysicsBody rope (ecs s) = Some bodyId
    ∧ get_PlayerInfo rope (ecs s) = Some owner
    ∧ pw_bodies (gWorld s) !! bodyId = Some body
    ∧ find_player owner (ecs s) = Some (Some (player, (px, py)))
    ∧ call = SDL_RenderLine (px + fofZ 40)%fl (py + fofZ 120)%fl
               (vec_x (body_p body) * PPM)%fl (vec_y (body_p body) * PPM)%fl.
End DrawVocabulary.

Section SwingVocabulary.
Context {F : Type} `{FloatOps F} `{WideOps F}.
Implicit Types (s : State F).

(** One frame of swinging: the angle advances by [dir * swingSpeed *
    deltaTime]; past either end it is clamped and the direction turns. *)
Definition swing_step (angle dir : F) : F * F :=
  let angle := (angle + dir * swingSpeed * deltaTime)%fl in
  if (maxSwingAngle <? angle)%fl then (maxSwingAngle, (- fofZ 1)%fl)
  else if (angle <? - maxSwingAngle)%fl then ((- maxSwingAngle)%fl, fofZ 1)
  else (angle, dir).

(** The direction a rope swings in: [swingDirections[id]], initialised to
    1 on first use. *)
Definition swing_dir s (id : Z) : F := default (fofZ 1) (swingDirections s !! id).

(** A rope the loop did not swing. *)
Definition swing_kept (id : Z) s s' : Prop :=
  get_Rotation id (ecs s') = get_Rotation id (ecs s)
  ∧ swingDirections s' !! id = swingDirections s !! id.

(** A rope the loop swung by one step. *)
Definition swing_stepped (id : Z) s s' : Prop :=
  ∃ angle,
    get_Rotation id (ecs s) = Some angle
    ∧ get_Rotation id (ecs s') = Some (swing_step angle (swing_dir s id)).1
    ∧ swingDirections s' !! id = Some (swing_step angle (swing_dir s id)).2.

Definition swings (id : Z) s : Prop :=
  mask_test (mask (ecs s) id) swing_ropeMask = true
  ∧ get_RopeControl id (ecs s) = Some AtRest.
End SwingVocabulary.

Section SwingRangeVocabulary.
Context {F : Type} `{FloatOrder F} `{WideOps F}.

(** [-maxSwingAngle <= angle <= maxSwingAngle] *)
Definition in_swing_range (angle : F) : Prop :=
  (- maxSwingAngle <=? angle)%fl = true ∧ (angle <=? maxSwingAngle)%fl = true.
End SwingRangeVocabulary.

Section SyncVocabulary.
Context {F : Type} `{FloatOps F} `{WideOps F}.
Implicit Types (s : State F) (e : Z).

(** An entity the sync loop passes over: it lacks one of the three
    components, or its body handle names no live body. *)
Definition sync_skips s (id : Z) : Prop :=
  mask_test (mask (ecs s) id) (mask_of [PhysicsBody; Position; Renderable]) = false
  ∨ ∃ bodyId, get_PhysicsBody id (ecs s) = Some bodyId
              ∧ b2Body_IsValid bodyId (gWorld s) = false.

(** The sync loop returns: no component read misses and no sprite index
    leaves the rectangle table. *)
Definition sync_ready s : Prop :=
  ∀ id, 0 ≤ id ≤ w_maxId (ecs s) →
    mask_test (mask (ecs s) id) (mask_of [PhysicsBody; Position; Renderable]) = true →
    is_Some (get_Position id (ecs s))
    ∧ ∃ bodyId spriteID,
        get_PhysicsBody id (ecs s) = Some bodyId
        ∧ get_Renderable id (ecs s) = Some spriteID
        ∧ (b2Body_IsValid bodyId (gWorld s) = true → 0 ≤ spriteID < SPRITE_COUNT).
End SyncVocabulary.

Section FrameVocabulary.
Context {F : Type} `{FloatOps F} `{WideOps F}.
Implicit Types (s : State F).

(** The systems [main] runs on the store in one frame of play, in its
    order, between the engine's step and the rendering. *)
Definition update_systems s : option (State F) :=
  s ← RopeSwingSystem s;
  s ← RopeExtensionSystem s;
  s ← PhysicsSyncSystem s;
  CollisionSystem s.

(** What a hit leaves alone in the store. *)
Definition collision_frame s s' : Prop :=
  w_maxId (ecs s') = w_maxId (ecs s)
  ∧ ∀ k e, k ≠ GrabbedJoint → k ≠ RopeControl →
      getComponent k e (ecs s') = getComponent k e (ecs s).
End FrameVocabulary.

Section ReleaseVocabulary.
Context {F : Type} `{FloatOps F} `{WideOps F}.
Implicit Types (s : State F).

(** The extension loop only ever releases: no tag is taken back, no rope
    starts holding, no joint appears. *)
Definition release_frame s s' : Prop :=
  (∀ e, has DestroyTag e (ecs s) = true → has DestroyTag e (ecs s') = true)
  ∧ (∀ e, getComponent DestroyTag e (ecs s) = Some CDestroyTag →
          getComponent DestroyTag e (ecs s') = Some CDestroyTag)
  ∧ (∀ e, has GrabbedJoint e (ecs s) = false → has GrabbedJoint e (ecs s') = false)
  ∧ (∀ j, pw_joints (gWorld s) !! j = None → pw_joints (gWorld s') !! j = None).

Definition joint_kept (e : Z) s s' : Prop :=
  has GrabbedJoint e (ecs s') = has GrabbedJoint e (ecs s)
  ∧ getComponent GrabbedJoint e (ecs s') = getComponent GrabbedJoint e (ecs s).

(** The rope let go of its item: the joint is destroyed, the
    [GrabbedJoint] removed and the item tagged for destruction. *)
Definition joint_released (rope : Z) s s' : Prop :=
  ∃ joint item,
    get_GrabbedJoint rope (ecs s) = Some (joint, item)
    ∧ has GrabbedJoint rope (ecs s') = false
    ∧ has DestroyTag item (ecs s') = true
    ∧ getComponent DestroyTag item (ecs s') = Some CDestroyTag
    ∧ pw_joints (gWorld s') !! joint = None.

(** The rope is one the extension loop works on: it has the loop's mask
    and its player is found. *)
Definition extends (rope : Z) s : Prop :=
  mask_test (mask (ecs s) rope) ext_ropeMask = true
  ∧ ∃ owner p, get_PlayerInfo rope (ecs s) = Some owner
               ∧ find_player owner (ecs s) = Some (Some p).

(** What the stages before the clean-up leave alone. *)
Definition joints_untouched s s' : Prop :=
  w_masks (ecs s') = w_masks (ecs s)
  ∧ (∀ k e, k = GrabbedJoint ∨ k = DestroyTag →
            getComponent k e (ecs s') = getComponent k e (ecs s))
  ∧ pw_joints (gWorld s') = pw_joints (gWorld s).
End ReleaseVocabulary.

Section LaunchVocabulary.
Context {F : Type} `{FloatOps F} `{WideOps F}.
Implicit Types (s : State F).

(** The player entity a rope of the extension loop answers to. *)
Definition answers_to (rope player : Z) s : Prop :=
  mask_test (mask (ecs s) rope) ext_ropeMask = true
  ∧ ∃ owner pos, get_PlayerInfo rope (ecs s) = Some owner
                 ∧ find_player owner (ecs s) = Some (Some (player, pos)).
End LaunchVocabulary.

Section UIVocabulary.
Context {F : Type} `{FloatOps F} `{WideOps F} `{FloatToInt F}.
Implicit Types (s : State F) (e : Z).

(** An entity one of [UISystem]'s inner loops passes over when it looks
    for player [pid]. *)
Definition ui_passed_over (req : Mask) (pid : Z) s e : Prop :=
  mask_test (mask (ecs s) e) req = true →
  ∃ q, get_PlayerInfo e (ecs s) = Some q ∧ q ≠ pid.

(** The entity the loop stops at: the first one with the mask [req] that
    belongs to player [pid]. *)
Definition first_owned (req : Mask) (pid : Z) s e : Prop :=
  0 ≤ e ≤ w_maxId (ecs s)
  ∧ mask_test (mask (ecs s) e) req = true
  ∧ get_PlayerInfo e (ecs s) = Some pid
  ∧ ∀ e0, 0 ≤ e0 < e → ui_passed_over req pid s e0.

(** An entity no panel reads the value of: it lacks the mask, or an
    entity with a lower id and the mask belongs to the same player. *)
Definition shadowed (req : Mask) s e : Prop :=
  mask_test (mask (ecs s) e) req = false
  ∨ ∃ e0 q, 0 ≤ e0 < e
            ∧ mask_test (mask (ecs s) e0) req = true
            ∧ get_PlayerInfo e0 (ecs s) = Some q
            ∧ get_PlayerInfo e (ecs s) = Some q.

(** The icons of player [pid]'s panel. *)
Definition money_icon (pid : Z) : RenderCall F :=
  SDL_RenderTexture SPRITE_TITLE_MONEY (rect_to_frect (mkRect 0 0 112 32))
    (mkFRect (fofZ 5 + fofZ pid * fofZ 10)%fl (fofZ 4) (fofZ 112) (fofZ 32)).
Definition time_icon (pid : Z) : RenderCall F :=
  SDL_RenderTexture SPRITE_TITLE_TIME (rect_to_frect (mkRect 0 0 83 25))
    (mkFRect (fofZ 5 + fofZ pid * fofZ 10)%fl (fofZ 4 + fofZ 60)%fl (fofZ 83) (fofZ 25)).

(** The calls [digits] show the number [n]. *)
Definition shows_number (digits : list (RenderCall F)) (n : Z) : Prop :=
  Forall digit_call digits ∧ decimal_value (drawn_digits digits) = n.
End UIVocabulary.

Section TipVocabulary.
Context {F : Type} `{FloatOps F} `{WideOps F}.


End TipVocabulary.

Section PlayerVocabulary.
Context {F : Type} `{FloatOps F} `{WideOps F}.
Implicit Types (s : State F).

(** The player the search finds once [CreatePlayer] has run: the one it
    found before, or else the new one. *)
Definition first_player_after (playerID : Z) s : Z * (F * F) :=
  match find_player playerID (ecs s) with
  | Some (Some p) => p
  | _ => (w_maxId (ecs s) + 1, (fofZ 570, fofZ 10))
  end.
End PlayerVocabulary.

(** The centre of a rectangle, in exact arithmetic. *)
Definition frect_centre (r : SDL_FRect Q) : Q * Q :=
  ((frect_x r + frect_w r / 2)%Q, (frect_y r + frect_h r / 2)%Q).

Section DebugVocabulary.
Context {F : Type} `{FloatOps F} `{WideOps F} `{FloatToInt F}.

(** The pixel a point of the physics world is drawn at. *)
Definition screen_point (v : b2Vec2 F) : option (Z * Z) :=
  x ← to_screen (vec_x v); y ← to_screen (vec_y v); Some (x, y).

(** The segment between two pixels. *)
Definition screen_line (p q : Z * Z) : RenderCall F :=
  SDL_RenderDrawLineF p.1 p.2 q.1 q.2.
End DebugVocabulary.

(** * Scenarios

    Concrete states the statements are exercised on. *)

(** A run that succeeds returns the state [default] reads off it. *)
Definition isSome {A} (o : option A) : bool :=
  match o with Some _ => true | None => false end.

(** The hit events the engine reports after a step. *)
Definition with_hitEvents {F} (l : list b2ContactHitEvent) (s : State F) : State F :=
  set_phys (mkPhys (pw_valid (gWorld s)) (pw_gravity (gWorld s))
                   (pw_hitEventThreshold (gWorld s)) (pw_bodies (gWorld s))
                   (pw_shapes (gWorld s)) (pw_joints (gWorld s))
                   (pw_next (gWorld s)) l) s.

Definition space_down : SDL_Event := mkEvent SDL_EVENT_KEY_DOWN SDLK_SPACE.

Definition space_up : SDL_Event := mkEvent SDL_EVENT_KEY_UP SDLK_SPACE.

(** A player as [CreatePlayer(1)] builds it, then tagged for destruction. *)
Definition player_state : State Q := (CreatePlayer 1 (initBox2DWorld initialState)).2.

Definition tagged_player_state : State Q :=
  on_ecs (addComponent CDestroyTag 0) player_state.

(** A collectable as [CreateGold(100, 500)] builds it ([main.cpp]
    creates one there), then tagged for destruction. *)
Definition gold_state : State Q :=
  default initialState
    (snd <$> CreateGold (fofZ 100) (fofZ 500) (initBox2DWorld initialState)).

Definition tagged_gold_state : State Q :=
  on_ecs (addComponent CDestroyTag 0) gold_state.

Definition gold_body : Body Q :=
  mkBody b2_staticBody (mkVec2 (47 # 20) (103 # 10)) (mkRot 1%Q 0%Q)
         (mkVec2 0%Q 0%Q) 0%Q 1%Q false false false (Some 1).

Definition player_after_space : State Q :=
  default player_state (PlayerInputSystem (Some space_down) player_state).

Definition player_after_release : State Q :=
  default player_state (PlayerInputSystem (Some space_up) player_after_space).

(** A match as [main] sets it up: player 1 (entity 0), its rope (entity 1,
    body 1, shape 2) and two collectables (entities 2 and 3, bodies 3 and
    5, shapes 4 and 6). *)
Definition game_state : State Q :=
  default initialState
    ('(_, s) ← CreateRope 1 (CreatePlayer 1 (initBox2DWorld initialState)).2;
     '(_, s) ← CreateGold (fofZ 100) (fofZ 500) s;
     '(_, s) ← CreateGold (fofZ 300) (fofZ 510) s;
     Some s).

(** The rope touches the first collectable, then the second. *)
Definition contact_state : State Q :=
  with_hitEvents [mkHit 2 4; mkHit 6 2] game_state.

Definition grabbed_state : State Q :=
  default initialState (Collision_hit (mkHit 2 4) contact_state).

(** A rope at rest, with no [sendRope] pending and length 0, touches a
    collectable: [CollisionSystem] takes it from AtRest to Retracting. *)
Definition collided_state : State Q :=
  default initialState (CollisionSystem contact_state).

(** Player 1 presses space and the rope starts extending; the next frame
    begins with [RopeSwingSystem], then [RopeExtensionSystem]. *)
Definition pressed_state : State Q :=
  default initialState (PlayerInputSystem (Some space_down) game_state).

Definition extending_state : State Q :=
  default initialState (RopeExtensionSystem pressed_state).

Definition swung_state : State Q :=
  default initialState (RopeSwingSystem extending_state).

Definition extended_state : State Q :=
  default initialState (RopeExtensionSystem swung_state).

(** The collectable [main] creates, in binary32. *)
Definition b32_gold_state : State B32.t :=
  default initialState
    (snd <$> CreateGold (fofZ 100) (fofZ 500) (initBox2DWorld initialState)).

Definition b32_synced_state : State B32.t :=
  default initialState (PhysicsSyncSystem b32_gold_state).

(** The player of the match in binary32. *)
Definition b32_player_state : State B32.t :=
  (CreatePlayer 1 (initBox2DWorld initialState)).2.

(** The match in binary32: the rope at rest, then sent by the space key
    and extended over two frames. *)
Definition b32_game_state : State B32.t :=
  default initialState
    ('(_, s) ← CreateRope 1 (CreatePlayer 1 (initBox2DWorld initialState)).2;
     '(_, s) ← CreateGold (fofZ 100) (fofZ 500) s;
     '(_, s) ← CreateGold (fofZ 300) (fofZ 510) s;
     Some s).

Definition b32_extending_state : State B32.t :=
  default initialState
    (PlayerInputSystem (Some space_down) b32_game_state ≫= RopeExtensionSystem).

Definition b32_extended_state : State B32.t :=
  default initialState (RopeExtensionSystem b32_extending_state).

(** The rope has pulled the first collectable home: back at rest, it lets
    go of it. *)
Definition released_state : State Q :=
  default initialState (RopeExtensionSystem collided_state).

(** The entities [main] creates when the game starts, without the layout:
    the player (entity 0) and its rope (1), the UI entity (2), a score
    entity holding 123 (3) and a timer entity holding 90 seconds (4), all
    of player 1. *)
Definition started_state : State Q :=
  default initialState
    ('(_, s) ← CreateRope 1 (CreatePlayer 1 (initBox2DWorld initialState)).2;
     let s := (CreateUIEntity 1 s).2 in
     let '(scoreE, w) := createEntity (ecs s) in
     let s := set_ecs (addAll [CScore 123; CPlayerInfo 1] scoreE w) s in
     let '(timerE, w) := createEntity (ecs s) in
     Some (set_ecs (addAll [CGameTimer (fofZ 90); CPlayerInfo 1] timerE w) s)).

(** A triangle of the physics world, half a metre wide. *)
Definition triangle : list (b2Vec2 Q) :=
  [mkVec2 0%Q 0%Q; mkVec2 (1 # 2)%Q 0%Q; mkVec2 0%Q (7 # 4)%Q].

(** * Properties *)

Ltac solve_elem_of_list :=
  apply list_elem_of_In; simpl; repeat first [left; reflexivity | right].

Ltac solve_not_elem_of_list :=
  let Hin := fresh "Hin" in
  intros Hin; apply list_elem_of_In in Hin; simpl in Hin;
  repeat (destruct Hin as [Hin|Hin]; [discriminate Hin|]); exact Hin.

(** Closed equations between computed values, checked by evaluation. *)
Ltac vm_refl :=
  lazymatch goal with |- ?a = ?b => exact_no_check (@eq_refl _ b) end.

(** ** Binary32 arithmetic

    Rounding as [SpecFloat] defines it: [binary_round] never yields a NaN,
    yields a value of the format, and is monotone below a value of the
    format.  The order of the floats follows. *)

Section Digits.

Lemma digits2_pos_bounds (m : positive) :
  2 ^ (Z.pos (digits2_pos m) - 1) ≤ Z.pos m < 2 ^ Z.pos (digits2_pos m).
Proof.
  induction m as [m IH|m IH|]; cbn [digits2_pos].
  - rewrite Pos2Z.inj_succ, (Pos2Z.inj_xI m).
    replace (Z.succ (Z.pos (digits2_pos m)) - 1) with (Z.succ (Z.pos (digits2_pos m) - 1)) by lia.
    rewrite !Z.pow_succ_r by lia. lia.
  - rewrite Pos2Z.inj_succ, (Pos2Z.inj_xO m).
    replace (Z.succ (Z.pos (digits2_pos m)) - 1) with (Z.succ (Z.pos (digits2_pos m) - 1)) by lia.
    rewrite !Z.pow_succ_r by lia. lia.
  - split; by compute.
Qed.

Lemma Zdigits2_bounds (m : Z) :
  0 < m → 2 ^ (Zdigits2 m - 1) ≤ m < 2 ^ Zdigits2 m.
Proof. destruct m as [|p|p]; [lia| |lia]. intros _. apply digits2_pos_bounds. Qed.

Lemma Zdigits2_nonneg (m : Z) : 0 ≤ Zdigits2 m.
Proof. destruct m; simpl; lia. Qed.

Lemma Zdigits2_pos (m : Z) : 0 < m → 0 < Zdigits2 m.
Proof. destruct m; simpl; lia. Qed.

(** [Zdigits2 m <= d] as soon as [m < 2 ^ d]. *)
Lemma Zdigits2_le (m d : Z) : 0 ≤ d → 0 ≤ m → m < 2 ^ d → Zdigits2 m ≤ d.
Proof.
  intros Hd Hm Hlt. destruct (Z.eq_dec m 0) as [->|Hne]; [simpl; lia|].
  destruct (Zdigits2_bounds m) as [Hlo _]; [lia|].
  destruct (Z_le_gt_dec (Zdigits2 m) d) as [|Hgt]; [done|].
  assert (2 ^ d ≤ 2 ^ (Zdigits2 m - 1)) by (apply Z.pow_le_mono_r; lia). lia.
Qed.

(** [d <= Zdigits2 m] as soon as [2 ^ (d - 1) <= m]. *)
Lemma Zdigits2_ge (m d : Z) : 0 < m → 2 ^ (d - 1) ≤ m → d ≤ Zdigits2 m.
Proof.
  intros Hm Hle. destruct (Zdigits2_bounds m Hm) as [_ Hhi].
  destruct (Z_le_gt_dec d (Zdigits2 m)) as [|Hgt]; [done|].
  assert (2 ^ Zdigits2 m ≤ 2 ^ (d - 1)).
  { apply Z.pow_le_mono_r; [lia|]. lia. }
  lia.
Qed.

Lemma Zdigits2_mono (m n : Z) : 0 ≤ m → m ≤ n → Zdigits2 m ≤ Zdigits2 n.
Proof.
  intros Hm Hle. destruct (Z.eq_dec n 0) as [->|Hn].
  { assert (m = 0) as -> by lia. done. }
  apply Zdigits2_le; [apply Zdigits2_nonneg|done|].
  destruct (Zdigits2_bounds n); lia.
Qed.

Lemma Zdigits2_mul_pow (m k : Z) :
  0 < m → 0 ≤ k → Zdigits2 (m * 2 ^ k) = Zdigits2 m + k.
Proof.
  intros Hm Hk. destruct (Zdigits2_bounds m Hm) as [Hlo Hhi].
  pose proof (Zdigits2_pos m Hm) as Hd.
  assert (Hp : 0 < 2 ^ k) by (apply Z.pow_pos_nonneg; lia).
  apply Z.le_antisymm.
  - apply Zdigits2_le; [lia|nia|]. rewrite Z.pow_add_r by lia. nia.
  - apply Zdigits2_ge; [nia|].
    replace (Zdigits2 m + k - 1) with (Zdigits2 m - 1 + k) by lia.
    rewrite Z.pow_add_r by lia. nia.
Qed.

Lemma Zdigits2_div_pow (m k : Z) :
  0 < m → 0 ≤ k → k < Zdigits2 m → Zdigits2 (m / 2 ^ k) = Zdigits2 m - k.
Proof.
  intros Hm Hk Hlt. destruct (Zdigits2_bounds m Hm) as [Hlo Hhi].
  assert (Hp : 0 < 2 ^ k) by (apply Z.pow_pos_nonneg; lia).
  assert (Hq : 2 ^ (Zdigits2 m - k - 1) ≤ m / 2 ^ k).
  { apply Z.div_le_lower_bound; [done|].
    rewrite <- Z.pow_add_r by lia.
    replace (k + (Zdigits2 m - k - 1)) with (Zdigits2 m - 1) by lia. done. }
  assert (Hq0 : 0 < m / 2 ^ k).
  { assert (0 < 2 ^ (Zdigits2 m - k - 1)) by (apply Z.pow_pos_nonneg; lia). lia. }
  apply Z.le_antisymm.
  - apply Zdigits2_le; [lia|lia|].
    apply Z.div_lt_upper_bound; [done|].
    rewrite <- Z.pow_add_r by lia.
    replace (k + (Zdigits2 m - k)) with (Zdigits2 m) by lia. done.
  - apply Zdigits2_ge; [done|]. done.
Qed.

Lemma div_pow_small (m k : Z) : 0 ≤ m → Zdigits2 m ≤ k → m / 2 ^ k = 0.
Proof.
  intros Hm Hk. pose proof (Zdigits2_nonneg m) as Hd. apply Z.div_small. split; [done|].
  destruct (Z.eq_dec m 0) as [->|Hne]; [apply Z.pow_pos_nonneg; lia|].
  destruct (Zdigits2_bounds m) as [_ Hhi]; [lia|].
  assert (2 ^ Zdigits2 m ≤ 2 ^ k) by (apply Z.pow_le_mono_r; lia). lia.
Qed.
End Digits.

Section Shifts.

Lemma shr_1_m mrs : 0 ≤ shr_m mrs → shr_m (shr_1 mrs) = shr_m mrs / 2.
Proof.
  destruct mrs as [m r s]. cbn [shr_m]. intros Hm.
  rewrite <- Z.div2_div. destruct m as [|[p|p|]|p]; done.
Qed.

Lemma iter_pos_shr_1_m p mrs :
  0 ≤ shr_m mrs → shr_m (SpecFloat.iter_pos shr_1 p mrs) = shr_m mrs / 2 ^ Z.pos p.
Proof.
  revert mrs. induction p as [p IH|p IH|]; intros mrs Hm; cbn [SpecFloat.iter_pos].
  - assert (H1 : 0 ≤ shr_m (shr_1 mrs)).
    { rewrite shr_1_m by done. apply Z.div_pos; lia. }
    assert (Hp : 0 < 2 ^ Z.pos p) by (apply Z.pow_pos_nonneg; lia).
    assert (H2 : 0 ≤ shr_m (SpecFloat.iter_pos shr_1 p (shr_1 mrs))).
    { rewrite IH by done. apply Z.div_pos; lia. }
    rewrite IH by done. rewrite IH by done. rewrite shr_1_m by done.
    rewrite !Z.div_div by lia. f_equal.
    rewrite (Pos2Z.inj_xI p). replace (2 * Z.pos p + 1) with (1 + Z.pos p + Z.pos p) by lia.
    rewrite !Z.pow_add_r by lia. lia.
  - assert (Hp : 0 < 2 ^ Z.pos p) by (apply Z.pow_pos_nonneg; lia).
    assert (H2 : 0 ≤ shr_m (SpecFloat.iter_pos shr_1 p mrs)).
    { rewrite IH by done. apply Z.div_pos; lia. }
    rewrite IH by done. rewrite IH by done.
    rewrite !Z.div_div by lia. f_equal.
    rewrite (Pos2Z.inj_xO p). replace (2 * Z.pos p) with (Z.pos p + Z.pos p) by lia.
    rewrite !Z.pow_add_r by lia. lia.
  - rewrite shr_1_m by done. done.
Qed.

Lemma shr_record_of_loc_m m l : shr_m (shr_record_of_loc m l) = m.
Proof. by destruct l as [|[]]. Qed.

Lemma shr_spec mrs e n :
  0 ≤ shr_m mrs →
  shr_m (shr mrs e n).1 = shr_m mrs / 2 ^ Z.max 0 n ∧ (shr mrs e n).2 = e + Z.max 0 n.
Proof.
  intros Hm. destruct n as [|p|p]; cbn [shr fst snd].
  - change (Z.max 0 0) with 0. rewrite Z.div_1_r. lia.
  - rewrite iter_pos_shr_1_m by done. replace (Z.max 0 (Z.pos p)) with (Z.pos p) by lia. done.
  - replace (Z.max 0 (Z.neg p)) with 0 by lia. rewrite Z.div_1_r. lia.
Qed.

Lemma round_nearest_even_bounds m l :
  m ≤ round_nearest_even m l ≤ m + 1.
Proof. destruct l as [|[]]; cbn [round_nearest_even]; try lia. destruct (Z.even m); lia. Qed.

Lemma iter_xO (m d : positive) : Z.pos (Pos.iter xO m d) = Z.pos m * 2 ^ Z.pos d.
Proof.
  induction d as [|d IH] using Pos.peano_ind.
  - simpl. lia.
  - rewrite Pos.iter_succ, (Pos2Z.inj_xO (Pos.iter xO m d)), IH, Pos2Z.inj_succ, Z.pow_succ_r by lia. lia.
Qed.

Lemma shl_align_spec mx ex ex' :
  Z.pos (shl_align mx ex ex').1 = Z.pos mx * 2 ^ (ex - Z.min ex ex')
  ∧ (shl_align mx ex ex').2 = Z.min ex ex'.
Proof.
  unfold shl_align. destruct (ex' - ex) as [|p|p] eqn:Hd; cbn [fst snd].
  - replace (Z.min ex ex') with ex by lia. rewrite Z.sub_diag. simpl. lia.
  - replace (Z.min ex ex') with ex by lia. rewrite Z.sub_diag. simpl. lia.
  - replace (Z.min ex ex') with ex' by lia. rewrite iter_xO.
    replace (ex - ex') with (Z.pos p) by lia. done.
Qed.
End Shifts.

Section Rounding.
Variables prec emax : Z.
Hypothesis Hprec : 0 < prec.

Lemma fexp_ge_emin e : emin prec emax ≤ fexp prec emax e.
Proof. unfold fexp. lia. Qed.

Lemma fexp_mono e1 e2 : e1 ≤ e2 → fexp prec emax e1 ≤ fexp prec emax e2.
Proof. unfold fexp. lia. Qed.

Lemma fexp_succ e : fexp prec emax (e + 1) ≤ fexp prec emax e + 1.
Proof. unfold fexp. lia. Qed.

(** [binary_round] shifts the mantissa to the canonical exponent [c] of
    the value, rounds it to a neighbour, and shifts once more if the
    rounding carried. *)
Lemma binary_round_shape sx D ez :
  let c := fexp prec emax (Z.pos (digits2_pos D) + ez) in
  let e0 := Z.min ez c in
  ∃ m1 m2 n2,
    m1 = Z.pos D * 2 ^ (ez - e0) / 2 ^ (c - e0)
    ∧ m1 ≤ m2 ≤ m1 + 1
    ∧ n2 = Z.max 0 (fexp prec emax (Zdigits2 m2 + c) - c)
    ∧ binary_round prec emax sx D ez =
        match m2 / 2 ^ n2 with
        | 0 => S754_zero sx
        | Z.pos m =>
            if c + n2 <=? emax - prec then S754_finite sx m (c + n2)
            else S754_infinity sx
        | Z.neg _ => S754_nan
        end.
Proof.
  intros c e0. unfold binary_round. fold c.
  pose proof (shl_align_spec D ez c) as [Hmz He0]. fold e0 in Hmz, He0.
  destruct (shl_align D ez c) as [mz e0'] eqn:Hal. cbn [fst snd] in Hmz, He0. subst e0'.
  assert (Hpow : 0 < 2 ^ (ez - e0)) by (apply Z.pow_pos_nonneg; lia).
  assert (Hdig : Zdigits2 (Z.pos mz) + e0 = Z.pos (digits2_pos D) + ez).
  { rewrite Hmz, Zdigits2_mul_pow by lia. cbn [Zdigits2]. lia. }
  unfold binary_round_aux, shr_fexp. rewrite Hdig. fold c.
  pose proof (shr_spec (shr_record_of_loc (Z.pos mz) loc_Exact) e0 (c - e0)) as [Hm1 He1].
  { cbn. lia. }
  destruct (shr (shr_record_of_loc (Z.pos mz) loc_Exact) e0 (c - e0)) as [mrs1 e1] eqn:H1.
  cbn [fst snd] in Hm1, He1. cbn [shr_m shr_record_of_loc] in Hm1.
  replace (Z.max 0 (c - e0)) with (c - e0) in Hm1, He1 by lia.
  assert (e1 = c) as -> by lia.
  set (m2 := round_nearest_even (shr_m mrs1) (loc_of_shr_record mrs1)).
  pose proof (round_nearest_even_bounds (shr_m mrs1) (loc_of_shr_record mrs1)) as Hm2.
  fold m2 in Hm2.
  assert (Hm1pos : 0 ≤ shr_m mrs1).
  { rewrite Hm1. apply Z.div_pos; [lia|]. apply Z.pow_pos_nonneg; lia. }
  pose proof (shr_spec (shr_record_of_loc m2 loc_Exact) c
                (fexp prec emax (Zdigits2 m2 + c) - c)) as [Hm3 He3].
  { cbn. lia. }
  destruct (shr (shr_record_of_loc m2 loc_Exact) c (fexp prec emax (Zdigits2 m2 + c) - c))
    as [mrs2 e2] eqn:H2.
  cbn [fst snd] in Hm3, He3. cbn [shr_m shr_record_of_loc] in Hm3.
  exists (shr_m mrs1), m2, (Z.max 0 (fexp prec emax (Zdigits2 m2 + c) - c)).
  split; [by rewrite Hm1, Hmz|]. split; [done|]. split; [done|].
  rewrite Hm3, He3. done.
Qed.

(** Where the rounded mantissa stands. *)
Lemma binary_round_facts (D : positive) ez m1 m2 :
  let c := fexp prec emax (Z.pos (digits2_pos D) + ez) in
  let e0 := Z.min ez c in
  m1 = Z.pos D * 2 ^ (ez - e0) / 2 ^ (c - e0) →
  m1 ≤ m2 ≤ m1 + 1 →
  0 ≤ m1 ∧ m1 < 2 ^ prec
  ∧ (0 < m2 → c ≤ fexp prec emax (Zdigits2 m2 + c) ≤ c + 1).
Proof.
  intros c e0 Hm1 Hm2.
  set (mz := Z.pos D * 2 ^ (ez - e0)) in *.
  assert (Hpow : 0 < 2 ^ (ez - e0)) by (apply Z.pow_pos_nonneg; lia).
  assert (Hmz : 0 < mz) by (unfold mz; nia).
  assert (Hdig : Zdigits2 mz + e0 = Z.pos (digits2_pos D) + ez).
  { unfold mz. rewrite Zdigits2_mul_pow by lia. cbn [Zdigits2]. lia. }
  assert (Hb : 0 < 2 ^ (c - e0)) by (apply Z.pow_pos_nonneg; lia).
  assert (H0 : 0 ≤ m1) by (rewrite Hm1; apply Z.div_pos; lia).
  assert (Hc : c = Z.max (Zdigits2 mz + e0 - prec) (emin prec emax)).
  { unfold c, fexp. rewrite <- Hdig. done. }
  destruct (Z_lt_le_dec (c - e0) (Zdigits2 mz)) as [Hlt|Hge].
  - (* the mantissa keeps some digits *)
    pose proof (Zdigits2_div_pow mz (c - e0) Hmz ltac:(lia) Hlt) as Hd1.
    rewrite <- Hm1 in Hd1.
    assert (Hm1pos : 0 < m1).
    { destruct (Z.eq_dec m1 0) as [Hz|]; [|lia]. rewrite Hz in Hd1. cbn in Hd1. lia. }
    assert (HP : fexp prec emax (Zdigits2 m1 + c) = c).
    { unfold fexp. rewrite Hd1. lia. }
    split; [done|]. split.
    + destruct (Zdigits2_bounds m1 Hm1pos) as [_ Hhi].
      assert (2 ^ Zdigits2 m1 ≤ 2 ^ prec) by (apply Z.pow_le_mono_r; lia). lia.
    + intros _. split.
      * rewrite <- HP at 1. apply fexp_mono.
        pose proof (Zdigits2_mono m1 m2 ltac:(lia) ltac:(lia)). lia.
      * assert (Hd2 : Zdigits2 m2 ≤ Zdigits2 m1 + 1).
        { rewrite <- (Zdigits2_mul_pow m1 1) by lia. apply Zdigits2_mono; lia. }
        etrans; [apply (fexp_mono _ (Zdigits2 m1 + c + 1)); lia|].
        rewrite <- HP at 2. apply fexp_succ.
  - (* every digit is shifted out *)
    assert (Hz : m1 = 0) by (rewrite Hm1; apply div_pow_small; lia).
    assert (Hemin : c = emin prec emax) by lia.
    split; [done|]. split; [rewrite Hz; apply Z.pow_pos_nonneg; lia|].
    intros Hpos. assert (m2 = 1) as -> by lia. cbn [Zdigits2 digits2_pos].
    unfold fexp. lia.
Qed.

(** Rounding never yields a NaN, and keeps the sign. *)
Lemma binary_round_sign sx D ez :
  match binary_round prec emax sx D ez with
  | S754_nan => False
  | S754_zero s | S754_infinity s | S754_finite s _ _ => s = sx
  end.
Proof.
  destruct (binary_round_shape sx D ez) as (m1 & m2 & n2 & Hm1 & Hm2 & Hn2 & ->).
  destruct (binary_round_facts D ez m1 m2 Hm1 Hm2) as (H0 & _).
  assert (Hq : 0 ≤ m2 / 2 ^ n2).
  { apply Z.div_pos; [lia|]. apply Z.pow_pos_nonneg; lia. }
  destruct (m2 / 2 ^ n2) as [|m|m]; [done| |lia].
  by destruct (_ <=? _).
Qed.

(** The result of rounding is a value of the format. *)
Lemma binary_round_valid sx D ez :
  valid_binary prec emax (binary_round prec emax sx D ez) = true.
Proof.
  destruct (binary_round_shape sx D ez) as (m1 & m2 & n2 & Hm1 & Hm2 & Hn2 & ->).
  destruct (binary_round_facts D ez m1 m2 Hm1 Hm2) as (H0 & _ & Hc).
  set (c := fexp prec emax (Z.pos (digits2_pos D) + ez)) in *.
  destruct (m2 / 2 ^ n2) as [|m|m] eqn:Hq; [done| |done].
  destruct (c + n2 <=? emax - prec) eqn:Hle; [|done].
  cbn [valid_binary]. unfold bounded. rewrite Hle, andb_true_r.
  unfold canonical_mantissa. apply Z.eqb_eq.
  assert (Hm2pos : 0 < m2).
  { destruct (Z_lt_le_dec 0 m2) as [|Hneg]; [done|].
    assert (m2 = 0) as Hz by lia. rewrite Hz in Hq. rewrite Z.div_0_l in Hq; [done|].
    apply Z.pow_nonzero; lia. }
  specialize (Hc Hm2pos).
  change (Z.pos (digits2_pos m)) with (Zdigits2 (Z.pos m)). rewrite <- Hq.
  destruct (Z.eq_dec n2 0) as [Hn0|Hn0].
  - rewrite Hn0, Z.add_0_r. change (2 ^ 0) with 1. rewrite Z.div_1_r. lia.
  - assert (Hn1 : n2 = 1) by lia. rewrite Hn1 in *.
    assert (Hd : 1 < Zdigits2 m2).
    { destruct (Z_lt_le_dec 1 (Zdigits2 m2)) as [|Hsmall]; [done|].
      rewrite div_pow_small in Hq by lia. done. }
    rewrite Zdigits2_div_pow by lia.
    replace (Zdigits2 m2 - 1 + (c + 1)) with (Zdigits2 m2 + c) by lia. lia.
Qed.

(** Rounding is monotone below a value of the format: a positive number
    smaller than the float [(mx, ex)] rounds to at most that float. *)
Lemma binary_round_le D ez mx ex :
  bounded prec emax mx ex = true →
  ez ≤ ex →
  Z.pos D < Z.pos mx * 2 ^ (ex - ez) →
  SFleb (binary_round prec emax false D ez) (S754_finite false mx ex) = true.
Proof.
  intros Hb Hez Hlt.
  apply andb_true_iff in Hb as [Hcan Hmax]. apply Z.eqb_eq in Hcan. apply Z.leb_le in Hmax.
  destruct (binary_round_shape false D ez) as (m1 & m2 & n2 & Hm1 & Hm2 & Hn2 & ->).
  destruct (binary_round_facts D ez m1 m2 Hm1 Hm2) as (H0 & Hp & Hc).
  set (c := fexp prec emax (Z.pos (digits2_pos D) + ez)) in *.
  assert (Hpe : 0 < 2 ^ (ex - ez)) by (apply Z.pow_pos_nonneg; lia).
  destruct (digits2_pos_bounds mx) as [Hxlo Hxhi].
  (* the canonical exponent of the smaller number is no larger *)
  assert (Hdig : Z.pos (digits2_pos D) + ez ≤ Z.pos (digits2_pos mx) + ex).
  { assert (Zdigits2 (Z.pos D) ≤ Z.pos (digits2_pos mx) + (ex - ez)); [|cbn in *; lia].
    apply Zdigits2_le; [lia|lia|]. rewrite Z.pow_add_r by lia. nia. }
  assert (Hcex : c ≤ ex).
  { rewrite <- Hcan. by apply fexp_mono. }
  destruct (m2 / 2 ^ n2) as [|m|m] eqn:Hq; [done| |].
  2:{ assert (0 ≤ m2 / 2 ^ n2); [|lia]. apply Z.div_pos; [lia|]. apply Z.pow_pos_nonneg; lia. }
  assert (Hm2pos : 0 < m2).
  { destruct (Z_lt_le_dec 0 m2) as [|Hneg]; [done|].
    assert (m2 = 0) as Hz by lia. rewrite Hz in Hq. rewrite Z.div_0_l in Hq; [done|].
    apply Z.pow_nonzero; lia. }
  specialize (Hc Hm2pos).
  assert (Hgoal : c + n2 < ex ∨ (c + n2 = ex ∧ Z.pos m ≤ Z.pos mx)).
  { destruct (Z_lt_le_dec c ex) as [Hclt|Hcge].
    - (* the canonical exponent is smaller *)
      destruct (Z_lt_le_dec (c + n2) ex) as [|Hge]; [by left|]. right.
      assert (Hn1 : n2 = 1) by lia. split; [lia|].
      rewrite <- Hq, Hn1. change (2 ^ 1) with 2.
      (* [x] is normal, its mantissa has [prec] digits *)
      assert (Hnormal : Z.pos (digits2_pos mx) = prec).
      { pose proof (fexp_ge_emin (Z.pos (digits2_pos D) + ez)). fold c in H.
        unfold fexp in Hcan. lia. }
      rewrite Hnormal in Hxlo.
      assert (m2 / 2 ≤ 2 ^ (prec - 1)); [|lia].
      apply Z.div_le_upper_bound; [lia|].
      replace (2 * 2 ^ (prec - 1)) with (2 ^ prec); [lia|].
      replace prec with (Z.succ (prec - 1)) at 1 by lia. rewrite Z.pow_succ_r by lia. done.
    - (* the same canonical exponent *)
      assert (Hce : c = ex) by lia.
      assert (Hm1x : m1 < Z.pos mx).
      { rewrite Hm1. fold c. rewrite Hce.
        replace (Z.min ez ex) with ez by lia. rewrite Z.sub_diag, Z.mul_1_r.
        apply Z.div_lt_upper_bound; [done|]. lia. }
      assert (Hm2x : m2 ≤ Z.pos mx) by lia.
      assert (Hn0 : n2 = 0).
      { pose proof (Zdigits2_mono m2 (Z.pos mx) ltac:(lia) Hm2x) as Hd. cbn [Zdigits2] in Hd.
        pose proof (fexp_mono (Zdigits2 m2 + c) (Z.pos (digits2_pos mx) + ex) ltac:(lia)).
        lia. }
      right. split; [lia|]. rewrite <- Hq, Hn0. change (2 ^ 0) with 1.
      rewrite Z.div_1_r. done. }
  assert (Hfin : (c + n2 <=? emax - prec) = true) by (apply Z.leb_le; lia).
  rewrite Hfin. unfold SFleb. cbn [SFcompare].
  destruct Hgoal as [Hl|[He Hm]].
  - apply Z.compare_lt_iff in Hl. by rewrite Hl.
  - rewrite He, Z.compare_refl. fold (Pos.compare m mx).
    destruct (Pos.compare_spec m mx) as [| |Hgt]; [done|done|lia].
Qed.
End Rounding.

Section Comparison.
Implicit Types (x y z : spec_float).

Lemma SFleb_finite_pos m1 e1 m2 e2 :
  SFleb (S754_finite false m1 e1) (S754_finite false m2 e2) = true
  ↔ e1 < e2 ∨ (e1 = e2 ∧ Z.pos m1 ≤ Z.pos m2).
Proof.
  unfold SFleb. cbn [SFcompare]. fold (Pos.compare m1 m2).
  destruct (Z.compare_spec e1 e2) as [He|He|He];
    destruct (Pos.compare_spec m1 m2) as [Hm|Hm|Hm]; cbn [CompOpp];
    split; intros Hx; first [done | lia].
Qed.

Lemma SFleb_finite_neg m1 e1 m2 e2 :
  SFleb (S754_finite true m1 e1) (S754_finite true m2 e2) = true
  ↔ e2 < e1 ∨ (e1 = e2 ∧ Z.pos m2 ≤ Z.pos m1).
Proof.
  unfold SFleb. cbn [SFcompare]. fold (Pos.compare m1 m2).
  destruct (Z.compare_spec e1 e2) as [He|He|He];
    destruct (Pos.compare_spec m1 m2) as [Hm|Hm|Hm]; cbn [CompOpp];
    split; intros Hx; first [done | lia].
Qed.

Lemma SFltb_finite_pos m1 e1 m2 e2 :
  SFltb (S754_finite false m1 e1) (S754_finite false m2 e2) = false
  ↔ e2 < e1 ∨ (e1 = e2 ∧ Z.pos m2 ≤ Z.pos m1).
Proof.
  unfold SFltb. cbn [SFcompare]. fold (Pos.compare m1 m2).
  destruct (Z.compare_spec e1 e2) as [He|He|He];
    destruct (Pos.compare_spec m1 m2) as [Hm|Hm|Hm]; cbn [CompOpp];
    split; intros Hx; first [done | lia].
Qed.

Lemma SFltb_finite_neg m1 e1 m2 e2 :
  SFltb (S754_finite true m1 e1) (S754_finite true m2 e2) = false
  ↔ e1 < e2 ∨ (e1 = e2 ∧ Z.pos m1 ≤ Z.pos m2).
Proof.
  unfold SFltb. cbn [SFcompare]. fold (Pos.compare m1 m2).
  destruct (Z.compare_spec e1 e2) as [He|He|He];
    destruct (Pos.compare_spec m1 m2) as [Hm|Hm|Hm]; cbn [CompOpp];
    split; intros Hx; first [done | lia].
Qed.

Lemma SFleb_refl x : x ≠ S754_nan → SFleb x x = true.
Proof.
  destruct x as [[]|[]| |[] m e]; try done.
  - intros _. apply SFleb_finite_neg. lia.
  - intros _. apply SFleb_finite_pos. lia.
Qed.

Lemma SFleb_not_nan x y : SFleb x y = true → x ≠ S754_nan ∧ y ≠ S754_nan.
Proof. destruct x as [[]|[]| |[] ? ?], y as [[]|[]| |[] ? ?]; done. Qed.

Lemma SFleb_refl_inv x : SFleb x x = true → x ≠ S754_nan.
Proof. by intros [? _]%SFleb_not_nan. Qed.

Lemma SFleb_total x y :
  x ≠ S754_nan → y ≠ S754_nan → SFleb x y = true ∨ SFleb y x = true.
Proof.
  destruct x as [[]|[]| |[] m1 e1], y as [[]|[]| |[] m2 e2]; intros Hx Hy;
    try done; try (by left); try (by right).
  - rewrite !SFleb_finite_neg. lia.
  - rewrite !SFleb_finite_pos. lia.
Qed.

Lemma SFltb_false_le x y :
  x ≠ S754_nan → y ≠ S754_nan → SFltb x y = false → SFleb y x = true.
Proof.
  destruct x as [[]|[]| |[] m1 e1], y as [[]|[]| |[] m2 e2]; intros Hx Hy; try done.
  - rewrite SFltb_finite_neg, SFleb_finite_neg. lia.
  - rewrite SFltb_finite_pos, SFleb_finite_pos. lia.
Qed.

Lemma SFleb_trans x y z : SFleb x y = true → SFleb y z = true → SFleb x z = true.
Proof.
  destruct x as [[]|[]| |[] m1 e1], y as [[]|[]| |[] m2 e2], z as [[]|[]| |[] m3 e3];
    try done.
  - rewrite !SFleb_finite_neg. lia.
  - rewrite !SFleb_finite_pos. lia.
Qed.
End Comparison.

Section Operations.
Variables prec emax : Z.
Hypothesis Hprec : 0 < prec.
Implicit Types (x y z : spec_float).

Lemma binary_normalize_sign m e szero :
  match binary_normalize prec emax m e szero with
  | S754_nan => False
  | S754_zero s => True
  | S754_infinity s | S754_finite s _ _ => s = bool_decide (m < 0)
  end.
Proof.
  destruct m as [|p|p]; cbn [binary_normalize]; [done|..].
  - pose proof (binary_round_sign prec emax Hprec false p e) as Hs.
    by destruct (binary_round prec emax false p e).
  - pose proof (binary_round_sign prec emax Hprec true p e) as Hs.
    by destruct (binary_round prec emax true p e).
Qed.

Lemma binary_normalize_valid m e szero :
  valid_binary prec emax (binary_normalize prec emax m e szero) = true.
Proof. destruct m; cbn [binary_normalize]; [done|by apply binary_round_valid..]. Qed.

Lemma SFadd_nonneg x y :
  SFleb (S754_zero false) x = true → SFleb (S754_zero false) y = true →
  SFleb (S754_zero false) (SFadd prec emax x y) = true.
Proof.
  destruct x as [[]|[]| |[] mx ex], y as [[]|[]| |[] my ey]; try done.
  intros _ _. cbn [SFadd cond_Zopp]. rewrite <- Pos2Z.inj_add.
  pose proof (binary_round_sign prec emax Hprec false
                ((shl_align mx ex (Z.min ex ey)).1 + (shl_align my ey (Z.min ex ey)).1)
                (Z.min ex ey)) as Hs.
  cbn [binary_normalize].
  destruct (binary_round _ _ _ _ _) as [s|s| |s m e]; [done|by subst|done|by subst].
Qed.

Lemma SFsub_not_nan x y :
  B32.finite x → B32.finite y → SFsub prec emax x y ≠ S754_nan.
Proof.
  destruct x as [[]|[]| |sx mx ex], y as [[]|[]| |sy my ey]; try done.
  intros _ _. cbn [SFsub]. cbv zeta.
  match goal with |- binary_normalize _ _ ?m ?e ?s ≠ _ =>
    pose proof (binary_normalize_sign m e s) as Hs;
    by destruct (binary_normalize prec emax m e s) end.
Qed.

Lemma SFadd_valid x y :
  valid_binary prec emax x = true → valid_binary prec emax y = true →
  valid_binary prec emax (SFadd prec emax x y) = true.
Proof.
  destruct x as [[]|[]| |sx mx ex], y as [[]|[]| |sy my ey]; try done.
  intros _ _. cbn [SFadd]. cbv zeta. apply binary_normalize_valid.
Qed.

Lemma SFsub_valid x y :
  valid_binary prec emax x = true → valid_binary prec emax y = true →
  valid_binary prec emax (SFsub prec emax x y) = true.
Proof.
  destruct x as [[]|[]| |sx mx ex], y as [[]|[]| |sy my ey]; try done.
  intros _ _. cbn [SFsub]. cbv zeta. apply binary_normalize_valid.
Qed.

(** Taking a number that is not negative away from a float that is not
    negative leaves at most that float. *)
Lemma SFsub_le x y :
  valid_binary prec emax x = true →
  SFleb (S754_zero false) x = true → SFleb (S754_zero false) y = true →
  SFsub prec emax x y ≠ S754_nan →
  SFleb (SFsub prec emax x y) x = true.
Proof.
  destruct x as [[]|[]| |[] mx ex], y as [[]|[]| |[] my ey]; try done.
  - intros _ _ _ _. apply SFleb_finite_pos. lia.
  - intros _ _ _ _. apply SFleb_finite_pos. lia.
  - intros Hv _ _ _. cbn [SFsub cond_Zopp]. cbv zeta.
    set (ez := Z.min ex ey).
    destruct (shl_align_spec mx ex ez) as [HX _].
    replace (Z.min ex ez) with ez in HX by lia.
    destruct (Z.pos (shl_align mx ex ez).1 - Z.pos (shl_align my ey ez).1) as [|D|D] eqn:HD;
      cbn [binary_normalize].
    + done.
    + apply binary_round_le; [done|done|lia|lia].
    + pose proof (binary_round_sign prec emax Hprec true D ez) as Hs.
      destruct (binary_round prec emax true D ez) as [s|s| |s m e]; [done|by subst|done|by subst].
Qed.

Lemma SFsub_nonneg_le x y z :
  valid_binary prec emax x = true →
  SFleb (S754_zero false) x = true → SFleb x z = true →
  SFleb (S754_zero false) y = true →
  SFleb (SFsub prec emax x y) (SFsub prec emax x y) = true →
  SFleb (SFsub prec emax x y) z = true.
Proof.
  intros Hv H0 Hxz Hy Hdef. apply (SFleb_trans _ x); [|done].
  apply SFsub_le; try done. by apply SFleb_refl_inv.
Qed.

Lemma SFleb_finite a x b :
  B32.finite a → B32.finite b → SFleb a x = true → SFleb x b = true → B32.finite x.
Proof.
  destruct a as [[]|[]| |[] ma ea], x as [[]|[]| |[] mx ex], b as [[]|[]| |[] mb eb]; done.
Qed.
End Operations.

(** The laws of the order hold of binary32. *)
#[export] Instance B32_FloatOrder : FloatOrder B32.t.
Proof.
  assert (Hprec : 0 < B32.prec) by done.
  refine {| fvalid := B32.valid; ffinite := B32.finite |};
    cbn [fleb fltb fadd fsub B32_FloatOps];
    change (@fofZ B32.t B32_FloatOps 0) with (S754_zero false).
  - intros x y [Hx Hy]%SFleb_not_nan. split; by apply SFleb_refl.
  - intros x y Hx%SFleb_refl_inv Hy%SFleb_refl_inv. by apply SFleb_total.
  - intros x y Hx%SFleb_refl_inv Hy%SFleb_refl_inv. by apply SFltb_false_le.
  - apply SFleb_finite.
  - by apply SFadd_nonneg.
  - by apply SFadd_valid.
  - by apply SFsub_valid.
  - intros x y Hx Hy. apply SFleb_refl. by apply SFsub_not_nan.
  - by apply SFsub_nonneg_le.
Defined.

(** ** Masks *)

Section MaskFacts.
Implicit Types (m : Mask) (k : CompKind).

Lemma test_bit_set m k k' :
  test_bit (mask_set m k) k' = if decide (k = k') then true else test_bit m k'.
Proof.
  unfold test_bit, mask_set. rewrite N.setbit_eqb.
  destruct (decide (k = k')) as [->|Hne].
  - by rewrite N.eqb_refl.
  - destruct (N.eqb_spec (bit k) (bit k')) as [Heq|_]; [|done].
    by apply bit_inj in Heq.
Qed.

Lemma test_bit_clear m k k' :
  test_bit (mask_clear m k) k' = if decide (k = k') then false else test_bit m k'.
Proof.
  unfold test_bit, mask_clear. rewrite N.clearbit_eqb.
  destruct (decide (k = k')) as [->|Hne].
  - rewrite N.eqb_refl. apply andb_false_r.
  - destruct (N.eqb_spec (bit k) (bit k')) as [Heq|_].
    + by apply bit_inj in Heq.
    + apply andb_true_r.
Qed.

Lemma test_bit_0 k : test_bit 0%N k = false.
Proof. apply N.bits_0. Qed.

Lemma mask_test_spec m req :
  mask_test m req = true ↔ ∀ n, N.testbit req n = true → N.testbit m n = true.
Proof.
  unfold mask_test. rewrite N.eqb_eq. split.
  - intros Hl n Hn. rewrite <- Hl, N.land_spec in Hn.
    by apply andb_true_iff in Hn as [? _].
  - intros Hall. apply N.bits_inj. intros n. rewrite N.land_spec.
    destruct (N.testbit req n) eqn:Hn.
    + by rewrite (Hall n Hn).
    + apply andb_false_r.
Qed.

Lemma testbit_mask_of ks n :
  N.testbit (mask_of ks) n = true ↔ ∃ k, k ∈ ks ∧ bit k = n.
Proof.
  unfold mask_of.
  assert (Hgen : ∀ acc, N.testbit (foldl mask_set acc ks) n = true ↔
                        N.testbit acc n = true ∨ ∃ k, k ∈ ks ∧ bit k = n).
  { induction ks as [|k ks IH]; intros acc; simpl.
    - split; [by left|]. intros [?|(k & Hk & _)]; [done|]. by apply elem_of_nil in Hk.
    - rewrite IH. unfold mask_set at 1. rewrite N.setbit_eqb, orb_true_iff, N.eqb_eq.
      split.
      + intros [[Hb|Ha]|(k' & Hk' & Hb)].
        * right. exists k. split; [left|done].
        * by left.
        * right. exists k'. split; [by right|done].
      + intros [Ha|(k' & Hk' & Hb)].
        * left. by right.
        * apply elem_of_cons in Hk' as [->|Hk'].
          -- left. by left.
          -- right. by exists k'. }
  rewrite Hgen, N.bits_0. split; [intros [?|?]; done | by right].
Qed.

Lemma mask_test_of m ks :
  mask_test m (mask_of ks) = true ↔ ∀ k, k ∈ ks → test_bit m k = true.
Proof.
  rewrite mask_test_spec. split.
  - intros Hall k Hk. apply Hall, testbit_mask_of. by exists k.
  - intros Hall n Hn. apply testbit_mask_of in Hn as (k & Hk & <-). by apply Hall.
Qed.

Lemma mask_test_single m k : mask_test m (mask_of [k]) = test_bit m k.
Proof.
  apply eq_true_iff_eq. rewrite mask_test_of. split.
  - intros Hall. apply Hall. by left.
  - intros Hk k' Hk'. by apply list_elem_of_singleton in Hk' as ->.
Qed.
End MaskFacts.

(** ** The store *)

Section StoreFacts.
Context {F : Type}.
Implicit Types (w : World F) (e : Z) (k : CompKind) (c : Component F).

Lemma mask_addComponent c e e' w :
  mask (addComponent c e w) e' =
    if decide (e = e') then mask_set (mask w e) (kind_of c) else mask w e'.
Proof.
  unfold mask at 1. simpl. rewrite lookup_insert. by case_decide.
Qed.

Lemma mask_delComponent k e e' w :
  mask (delComponent k e w) e' =
    if decide (e = e') then mask_clear (mask w e) k else mask w e'.
Proof.
  unfold mask. simpl. rewrite lookup_alter. case_decide as He; [subst e'|done].
  by destruct (w_masks w !! e) as [m|].
Qed.

Lemma mask_setComponent c e e' w : mask (setComponent c e w) e' = mask w e'.
Proof. done. Qed.

Lemma has_addComponent c e k e' w :
  has k e' (addComponent c e w) =
    if decide (e = e' ∧ kind_of c = k) then true else has k e' w.
Proof.
  unfold has. rewrite mask_addComponent.
  destruct (decide (e = e')) as [->|Hne].
  - rewrite test_bit_set. repeat case_decide; intuition congruence.
  - case_decide; intuition congruence.
Qed.

Lemma has_delComponent k0 e k e' w :
  has k e' (delComponent k0 e w) =
    if decide (e = e' ∧ k0 = k) then false else has k e' w.
Proof.
  unfold has. rewrite mask_delComponent.
  destruct (decide (e = e')) as [->|Hne].
  - rewrite test_bit_clear. repeat case_decide; intuition congruence.
  - case_decide; intuition congruence.
Qed.

Lemma has_setComponent c e k e' w : has k e' (setComponent c e w) = has k e' w.
Proof. done. Qed.

Lemma get_addComponent c e k e' w :
  getComponent k e' (addComponent c e w) =
    if decide (e = e' ∧ kind_of c = k) then Some c else getComponent k e' w.
Proof.
  unfold getComponent. simpl. rewrite lookup_insert.
  destruct (decide (e = e' ∧ kind_of c = k)) as [[-> <-]|Hn].
  - by rewrite decide_True.
  - rewrite decide_False; [done|]. intros [= ? ?]. by apply Hn.
Qed.

Lemma get_setComponent c e k e' w :
  getComponent k e' (setComponent c e w) =
    if decide (e = e' ∧ kind_of c = k) then Some c else getComponent k e' w.
Proof.
  unfold getComponent. simpl. rewrite lookup_insert.
  destruct (decide (e = e' ∧ kind_of c = k)) as [[-> <-]|Hn].
  - by rewrite decide_True.
  - rewrite decide_False; [done|]. intros [= ? ?]. by apply Hn.
Qed.

Lemma get_delComponent k0 e k e' w :
  getComponent k e' (delComponent k0 e w) =
    if decide (e = e' ∧ k0 = k) then None else getComponent k e' w.
Proof.
  unfold getComponent. simpl. rewrite lookup_delete.
  destruct (decide (e = e' ∧ k0 = k)) as [[-> <-]|Hn].
  - by rewrite decide_True.
  - rewrite decide_False; [done|]. intros [= ? ?]. by apply Hn.
Qed.

Lemma elem_of_storage_entities k e w :
  e ∈ storage_entities k w ↔ is_Some (getComponent k e w).
Proof.
  unfold storage_entities, getComponent. rewrite list_elem_of_omap. split.
  - intros ([[k' e'] c] & Hin & Hsome). simpl in Hsome.
    case_decide; simplify_eq. apply elem_of_map_to_list in Hin. eauto.
  - intros [c Hc]. exists ((k, e), c). split.
    + by apply elem_of_map_to_list.
    + simpl. by rewrite decide_True.
Qed.
End StoreFacts.

(** ** DestructionSystem *)

Section DestructionFacts.
Context {F : Type}.
Implicit Types (s : State F) (w : World F) (e : Z) (k : CompKind).

Lemma has_destroy_step e k0 k e' w :
  has k e' (destroy_step e w k0) =
    if decide (e = e' ∧ k0 = k) then false else has k e' w.
Proof.
  unfold destroy_step. destruct (has k0 e w) eqn:Hbit.
  - apply has_delComponent.
  - case_decide as Hd; [|done]. destruct Hd as [<- <-]. done.
Qed.

Lemma get_destroy_step e k0 k e' w :
  getComponent k e' (destroy_step e w k0) =
    if decide (e = e' ∧ k0 = k ∧ has k e w = true) then None
    else getComponent k e' w.
Proof.
  unfold destroy_step. destruct (has k0 e w) eqn:Hbit.
  - rewrite get_delComponent.
    destruct (decide (e = e' ∧ k0 = k)) as [[<- <-]|Hn].
    + by rewrite decide_True.
    + rewrite decide_False; [done|]. intros (? & ? & _). by apply Hn.
  - rewrite decide_False; [done|]. intros (_ & <- & Hk). congruence.
Qed.

Lemma has_foldl_destroy_step e ks k e' w :
  has k e' (foldl (destroy_step e) w ks) =
    if decide (e = e' ∧ k ∈ ks) then false else has k e' w.
Proof.
  revert w. induction ks as [|k0 ks IH]; intros w; cbn [foldl].
  - rewrite decide_False; [done|]. intros [_ Hin]. by apply elem_of_nil in Hin.
  - rewrite IH, has_destroy_step.
    destruct (decide (e = e' ∧ k ∈ ks)) as [[<- Hin]|Hn].
    + rewrite decide_True; [done|]. split; [done|by right].
    + destruct (decide (e = e' ∧ k0 = k)) as [[<- <-]|Hn'].
      * rewrite decide_True; [done|]. split; [done|by left].
      * rewrite decide_False; [done|]. intros [<- Hin].
        apply elem_of_cons in Hin as [->|Hin]; [by apply Hn'|by apply Hn].
Qed.

Lemma get_foldl_destroy_step e ks k e' w :
  getComponent k e' (foldl (destroy_step e) w ks) =
    if decide (e = e' ∧ k ∈ ks ∧ has k e w = true) then None
    else getComponent k e' w.
Proof.
  revert w. induction ks as [|k0 ks IH]; intros w; cbn [foldl].
  - rewrite decide_False; [done|]. intros (_ & Hin & _). by apply elem_of_nil in Hin.
  - rewrite IH, get_destroy_step, has_destroy_step.
    destruct (decide (k0 = k)) as [->|Hk].
    + rewrite (decide_True (P := e = e ∧ k = k)) by done.
      rewrite (decide_False (P := e = e' ∧ k ∈ ks ∧ false = true)) by (by intros (_ & _ & ?)).
      destruct (decide (e = e' ∧ k = k ∧ has k e w = true)) as [(<- & _ & Hb)|Hn].
      * rewrite decide_True; [done|]. split_and!; [done|by left|done].
      * rewrite decide_False; [done|]. intros (<- & _ & Hb). by apply Hn.
    + rewrite (decide_False (P := e = e ∧ k0 = k)) by (by intros [_ ?]).
      rewrite (decide_False (P := e = e' ∧ k0 = k ∧ has k e w = true))
        by (by intros (_ & ? & _)).
      destruct (decide (e = e' ∧ k ∈ ks ∧ has k e w = true)) as [(<- & Hin & Hb)|Hn].
      * rewrite decide_True; [done|]. split_and!; [done|by right|done].
      * rewrite decide_False; [done|]. intros (<- & Hin & Hb). apply Hn.
        apply elem_of_cons in Hin as [->|Hin]; done.
Qed.

Lemma destroy_entity_unfold e w :
  destroy_entity e w = foldl (destroy_step e) w destroyed_kinds.
Proof. done. Qed.

Lemma has_destroy_entity e k e' w :
  has k e' (destroy_entity e w) =
    if decide (e = e' ∧ k ∈ destroyed_kinds) then false else has k e' w.
Proof. rewrite destroy_entity_unfold. apply has_foldl_destroy_step. Qed.

Lemma get_destroy_entity e k e' w :
  getComponent k e' (destroy_entity e w) =
    if decide (e = e' ∧ k ∈ destroyed_kinds ∧ has k e w = true) then None
    else getComponent k e' w.
Proof. rewrite destroy_entity_unfold. apply get_foldl_destroy_step. Qed.

Lemma has_destroy_all l k e' w :
  has k e' (destroy_all l w) =
    if decide (e' ∈ l ∧ k ∈ destroyed_kinds) then false else has k e' w.
Proof.
  unfold destroy_all. revert w. induction l as [|e l IH]; intros w; cbn [foldl].
  - rewrite decide_False; [done|]. intros [Hin _]. by apply elem_of_nil in Hin.
  - rewrite IH, has_destroy_entity.
    destruct (decide (e' ∈ l ∧ k ∈ destroyed_kinds)) as [[Hin Hk]|Hn].
    + rewrite decide_True; [done|]. split; [by right|done].
    + destruct (decide (e = e' ∧ k ∈ destroyed_kinds)) as [[<- Hk]|Hn'].
      * rewrite decide_True; [done|]. split; [by left|done].
      * rewrite decide_False; [done|]. intros [Hin Hk].
        apply elem_of_cons in Hin as [->|Hin]; [by apply Hn'|by apply Hn].
Qed.

Lemma get_destroy_all l k e' w :
  getComponent k e' (destroy_all l w) =
    if decide (e' ∈ l ∧ k ∈ destroyed_kinds ∧ has k e' w = true) then None
    else getComponent k e' w.
Proof.
  unfold destroy_all. revert w. induction l as [|e l IH]; intros w; cbn [foldl].
  - rewrite decide_False; [done|]. intros (Hin & _). by apply elem_of_nil in Hin.
  - rewrite IH, get_destroy_entity, has_destroy_entity.
    destruct (decide (e = e')) as [<-|He].
    + destruct (decide (k ∈ destroyed_kinds)) as [Hk|Hk].
      * rewrite (decide_True (P := e = e ∧ k ∈ destroyed_kinds)) by done.
        rewrite (decide_False (P := e ∈ l ∧ _ ∧ false = true)) by (by intros (_ & _ & ?)).
        destruct (has k e w) eqn:Hb.
        -- rewrite !decide_True; [done| |done]. split_and!; [by left|done|done].
        -- rewrite !decide_False; [done| |]; by intros (_ & _ & ?).
      * rewrite !decide_False; [done| | |]; by intros (_ & ? & _).
    + rewrite (decide_False (P := e = e' ∧ k ∈ destroyed_kinds)) by (by intros [? _]).
      rewrite (decide_False (P := e = e' ∧ _ ∧ _)) by (by intros [? _]).
      destruct (decide (e' ∈ l ∧ k ∈ destroyed_kinds ∧ has k e' w = true))
        as [(Hin & Hk & Hb)|Hn].
      * rewrite decide_True; [done|]. split_and!; [by right|done|done].
      * rewrite decide_False; [done|]. intros (Hin & Hk & Hb). apply Hn.
        apply elem_of_cons in Hin as [->|Hin]; done.
Qed.

Lemma ecs_DestructionSystem s :
  ecs (DestructionSystem s) = destroy_all (toDelete (ecs s)) (ecs s).
Proof. done. Qed.

Lemma elem_of_toDelete e w :
  e ∈ toDelete w ↔ is_Some (getComponent DestroyTag e w) ∧ has DestroyTag e w = true.
Proof.
  unfold toDelete. rewrite list_elem_of_filter, elem_of_storage_entities.
  rewrite mask_test_single. unfold has. tauto.
Qed.
End DestructionFacts.

Lemma default_Some {A} (d : A) (o : option A) :
  isSome o = true → o = Some (default d o).
Proof. by destruct o. Qed.

Section DestructionClaims.
Context {F : Type}.
Implicit Types (s : State F) (w : World F) (e : Z) (k : CompKind).

(** What the destruction loop does remove: an entity carrying
    [DestroyTag] loses every component of the eighteen enumerated types. *)
Lemma DestructionSystem_clears_listed s e k :
  e ∈ toDelete (ecs s) → k ∈ destroyed_kinds →
  has k e (ecs (DestructionSystem s)) = false
  ∧ getComponent k e (ecs (DestructionSystem s)) =
      (if has k e (ecs s) then None else getComponent k e (ecs s)).
Proof.
  intros He Hk. rewrite ecs_DestructionSystem, has_destroy_all, get_destroy_all.
  split.
  - by rewrite decide_True.
  - destruct (has k e (ecs s)) eqn:Hb.
    + by rewrite decide_True.
    + rewrite decide_False; [done|]. by intros (_ & _ & ?).
Qed.

(** C1.  The destruction loop enumerates eighteen component types; a
    component of any other type (Score, GameTimer, UIComponent,
    SoundEffect, Name, Health, Mole, LifeTime, ScoredTag) is left on the
    entity: its mask bit and its payload survive [DestructionSystem], so
    the mask of a destroyed entity that held one is not empty. *)
Theorem DestructionSystem_keeps_unlisted s e k :
  k ∉ destroyed_kinds →
  has k e (ecs (DestructionSystem s)) = has k e (ecs s)
  ∧ getComponent k e (ecs (DestructionSystem s)) = getComponent k e (ecs s).
Proof.
  intros Hk. rewrite ecs_DestructionSystem, has_destroy_all, get_destroy_all.
  split; (rewrite decide_False; [done|]); [by intros [_ ?]|by intros (_ & ? & _)].
Qed.

(** C2.  [DestructionSystem] drops the [PhysicsBody] component of a
    tagged entity without calling the engine: the body the component
    named is still alive in [gWorld], and the heap cell boxing the entity
    id as its user data is still allocated. *)
Theorem DestructionSystem_leaks_body s e b body p :
  e ∈ toDelete (ecs s) →
  get_PhysicsBody e (ecs s) = Some b →
  pw_bodies (gWorld s) !! b = Some body →
  body_userData body = Some p →
  heap s !! p = Some e →
  has PhysicsBody e (ecs (DestructionSystem s)) = false
  ∧ pw_bodies (gWorld (DestructionSystem s)) !! b = Some body
  ∧ heap (DestructionSystem s) !! p = Some e.
Proof.
  intros He _ Hb _ Hp. split; [|done].
  apply DestructionSystem_clears_listed; [done|]. solve_elem_of_list.
Qed.

Lemma toDelete_DestructionSystem s : toDelete (ecs (DestructionSystem s)) = [].
Proof.
  destruct (toDelete (ecs (DestructionSystem s))) as [|e l] eqn:Hl; [done|].
  assert (He : e ∈ toDelete (ecs (DestructionSystem s))) by (rewrite Hl; left).
  apply elem_of_toDelete in He as [Hget Hhas].
  rewrite ecs_DestructionSystem in Hget, Hhas.
  rewrite has_destroy_all in Hhas. rewrite get_destroy_all in Hget.
  case_decide as Hd; [done|].
  case_decide as Hd'; [by destruct Hget|].
  exfalso. apply Hd. split; [|solve_elem_of_list].
  by apply elem_of_toDelete.
Qed.

(** C8.  Running [DestructionSystem] a second time, with no [DestroyTag]
    added in between, changes nothing: no mask, no store, nothing else. *)
Theorem DestructionSystem_idempotent s :
  DestructionSystem (DestructionSystem s) = DestructionSystem s.
Proof.
  assert (Hnop : ∀ s', toDelete (ecs s') = [] → DestructionSystem s' = s').
  { intros [w pw h hn sw] Hnil. unfold DestructionSystem, on_ecs.
    simpl in *. by rewrite Hnil. }
  apply Hnop, toDelete_DestructionSystem.
Qed.
End DestructionClaims.

(** A player tagged for destruction keeps its [Score] through
    [DestructionSystem]: its mask is not empty afterwards. *)
Lemma DestructionSystem_keeps_unlisted_witness :
  has Score 0 (ecs (DestructionSystem tagged_player_state)) = true
  ∧ getComponent Score 0 (ecs (DestructionSystem tagged_player_state)) = Some (CScore 0)
  ∧ mask (ecs (DestructionSystem tagged_player_state)) 0 = mask_of [Score].
Proof.
  pose proof (DestructionSystem_keeps_unlisted tagged_player_state 0 Score) as Hkeep.
  destruct Hkeep as [Hhas Hget]; [solve_not_elem_of_list|].
  rewrite Hhas, Hget. clear Hhas Hget. vm_compute. repeat split; reflexivity.
Defined.

(** A tagged collectable loses its [PhysicsBody] component while its body
    and its boxed entity id stay allocated. *)
Lemma DestructionSystem_leaks_body_witness :
  has PhysicsBody 0 (ecs tagged_gold_state) = true
  ∧ has PhysicsBody 0 (ecs (DestructionSystem tagged_gold_state)) = false
  ∧ pw_bodies (gWorld (DestructionSystem tagged_gold_state)) !! 1 = Some gold_body
  ∧ heap (DestructionSystem tagged_gold_state) !! 1 = Some 0.
Proof.
  split; [vm_refl|].
  apply (DestructionSystem_leaks_body tagged_gold_state 0 1 gold_body 1).
  - apply elem_of_toDelete. vm_compute. split; [eexists|]; reflexivity.
  - vm_refl.
  - vm_refl.
  - reflexivity.
  - vm_refl.
Defined.

(** ** Loops *)

Section ForEach.
Context {A S : Type} (body : A → S → option S).

Lemma for_each_nil s : for_each body [] s = Some s.
Proof. done. Qed.

Lemma for_each_cons a l s :
  for_each body (a :: l) s = body a s ≫= for_each body l.
Proof. done. Qed.

Lemma for_each_cons_Some a l s s' :
  for_each body (a :: l) s = Some s' ↔
  ∃ s1, body a s = Some s1 ∧ for_each body l s1 = Some s'.
Proof.
  rewrite for_each_cons. destruct (body a s) as [s1|]; simpl.
  - split; [eauto|]. by intros (? & [= <-] & ?).
  - split; [done|]. by intros (? & ? & _).
Qed.

Lemma for_each_app l1 l2 s :
  for_each body (l1 ++ l2) s = for_each body l1 s ≫= for_each body l2.
Proof.
  revert s. induction l1 as [|a l1 IH]; intros s; [done|].
  rewrite <- app_comm_cons, !for_each_cons.
  destruct (body a s) as [s1|]; simpl; [apply IH|done].
Qed.

(** A relation every iteration establishes holds across the loop. *)
Lemma for_each_rel (R : S → S → Prop) l :
  (∀ s, R s s) → (∀ s1 s2 s3, R s1 s2 → R s2 s3 → R s1 s3) →
  (∀ a s s', a ∈ l → body a s = Some s' → R s s') →
  ∀ s s', for_each body l s = Some s' → R s s'.
Proof.
  intros Hrefl Htrans. induction l as [|a l IH]; intros Hstep s s' Hrun.
  - injection Hrun as <-. apply Hrefl.
  - apply for_each_cons_Some in Hrun as (s1 & Ha & Hl).
    eapply Htrans; [eapply Hstep; [left|done]|].
    apply IH; [|done]. intros a' t t' Hin. apply Hstep. by right.
Qed.

(** The loop runs to its end when every iteration does, under an
    invariant the iterations keep. *)
Lemma for_each_total (I : S → Prop) l :
  (∀ a s, a ∈ l → I s → ∃ s', body a s = Some s' ∧ I s') →
  ∀ s, I s → ∃ s', for_each body l s = Some s' ∧ I s'.
Proof.
  induction l as [|a l IH]; intros Hstep s Hs; [by exists s|].
  destruct (Hstep a s) as (s1 & Ha & Hs1); [left|done|].
  destruct IH with (s := s1) as (s' & Hl & Hs'); [|done|].
  { intros a' t Hin. apply Hstep. by right. }
  exists s'. split; [|done]. apply for_each_cons_Some. eauto.
Qed.
End ForEach.

Lemma elem_of_ids {F} (w : World F) e : e ∈ ids w ↔ 0 ≤ e ≤ w_maxId w.
Proof. unfold ids. rewrite elem_of_seqZ. lia. Qed.

(** ** PlayerInputSystem *)

Section PlayerInputFacts.
Context {F : Type} `{FloatOps F} `{WideOps F}.
Implicit Types (s : State F) (w : World F) (e : Z) (k : CompKind).

Lemma get_PlayerInput_set a b e' e w :
  get_PlayerInput e (setComponent (CPlayerInput a b) e' w) =
    if decide (e' = e) then Some (a, b) else get_PlayerInput e w.
Proof.
  unfold get_PlayerInput. rewrite get_setComponent. simpl.
  destruct (decide (e' = e)) as [->|Hne].
  - by rewrite decide_True.
  - rewrite decide_False; [done|]. by intros [? _].
Qed.

Lemma input_frame_refl s : input_frame s s.
Proof. by repeat split. Qed.

Lemma input_frame_trans s1 s2 s3 :
  input_frame s1 s2 → input_frame s2 s3 → input_frame s1 s3.
Proof.
  intros (Hm & Hk & Hg & Hw & Hh & Hn & Hs) (Hm' & Hk' & Hg' & Hw' & Hh' & Hn' & Hs').
  repeat split; try congruence.
  intros k e Hne. by rewrite Hg', Hg.
Qed.

Lemma PlayerInput_entity_inv sp id s s' :
  PlayerInput_entity sp id s = Some s' →
  input_frame s s'
  ∧ ∀ e, get_PlayerInput e (ecs s') =
      if decide (id = e ∧ has PlayerInput e (ecs s) = true)
      then write_sendRope sp <$> get_PlayerInput e (ecs s)
      else get_PlayerInput e (ecs s).
Proof.
  unfold PlayerInput_entity. rewrite mask_test_single. fold (has PlayerInput id (ecs s)).
  destruct (has PlayerInput id (ecs s)) eqn:Hbit.
  - destruct (get_PlayerInput id (ecs s)) as [[x r]|] eqn:Hget; [|done].
    simpl. intros [= <-]. split.
    + repeat split; try done. intros k e Hne. simpl.
      rewrite get_setComponent. rewrite decide_False; [done|]. by intros [_ ?].
    + intros e. simpl. rewrite get_PlayerInput_set.
      destruct (decide (id = e)) as [<-|Hne].
      * rewrite decide_True by done. by rewrite Hget.
      * rewrite decide_False; [done|]. by intros [? _].
  - intros [= <-]. split; [apply input_frame_refl|].
    intros e. rewrite decide_False; [done|]. intros [<- ?]. congruence.
Qed.

Lemma has_input_frame s s' k e : input_frame s s' → has k e (ecs s') = has k e (ecs s).
Proof. intros (_ & Hm & _). unfold has, mask. by rewrite Hm. Qed.

Lemma PlayerInput_loop sp l s s' :
  for_each (PlayerInput_entity sp) l s = Some s' →
  input_frame s s'
  ∧ ∀ e, get_PlayerInput e (ecs s') =
      if decide (e ∈ l ∧ has PlayerInput e (ecs s) = true)
      then write_sendRope sp <$> get_PlayerInput e (ecs s)
      else get_PlayerInput e (ecs s).
Proof.
  revert s. induction l as [|a l IH]; intros s Hrun.
  - injection Hrun as <-. split; [apply input_frame_refl|].
    intros e. rewrite decide_False; [done|]. intros [Hin _]. by apply elem_of_nil in Hin.
  - apply for_each_cons_Some in Hrun as (s1 & Ha & Hl).
    apply PlayerInput_entity_inv in Ha as [Hf1 Hg1].
    apply IH in Hl as [Hf2 Hg2].
    split; [by eapply input_frame_trans|].
    intros e. rewrite Hg2, Hg1, (has_input_frame s s1) by done.
    destruct (has PlayerInput e (ecs s)) eqn:Hbit.
    + destruct (decide (a = e)) as [<-|Hne].
      * rewrite (decide_True (P := a = a ∧ true = true)) by done.
        rewrite (decide_True (P := a ∈ a :: l ∧ true = true)) by (split; [left|done]).
        case_decide; [|done]. by destruct (get_PlayerInput a (ecs s)) as [[??]|].
      * rewrite (decide_False (P := a = e ∧ true = true)) by (by intros [? _]).
        destruct (decide (e ∈ l)) as [Hin|Hin].
        -- rewrite !decide_True; [done| |done]. split; [by right|done].
        -- rewrite !decide_False; [done| |by intros [? _]].
           intros [Hin' _]. apply elem_of_cons in Hin' as [->|?]; done.
    + rewrite !decide_False; [done| | |]; by intros [_ ?].
Qed.

Lemma PlayerInput_loop_total sp l s :
  (∀ e, e ∈ l → has PlayerInput e (ecs s) = true → is_Some (get_PlayerInput e (ecs s))) →
  is_Some (for_each (PlayerInput_entity sp) l s).
Proof.
  intros Hok.
  destruct (for_each_total (PlayerInput_entity sp)
              (λ s1, ∀ e, e ∈ l → has PlayerInput e (ecs s1) = true →
                          is_Some (get_PlayerInput e (ecs s1))) l) with (s := s)
    as (s' & Hs' & _); [|done|by exists s'].
  intros a s1 Ha Hinv.
  destruct (PlayerInput_entity sp a s1) as [s2|] eqn:Hstep.
  - exists s2. split; [done|]. intros e He Hbit.
    apply PlayerInput_entity_inv in Hstep as [Hf Hg].
    rewrite (has_input_frame s1 s2) in Hbit by done.
    rewrite Hg. destruct (Hinv e He Hbit) as [i Hi]. rewrite Hi.
    case_decide; by eexists.
  - exfalso. unfold PlayerInput_entity in Hstep. rewrite mask_test_single in Hstep.
    fold (has PlayerInput a (ecs s1)) in Hstep.
    destruct (has PlayerInput a (ecs s1)) eqn:Hbit; [|done].
    destruct (Hinv a Ha Hbit) as [[x r] Hi]. by rewrite Hi in Hstep.
Qed.

Lemma PlayerInput_loop_ok sp l s s' :
  for_each (PlayerInput_entity sp) l s = Some s' →
  ∀ e, e ∈ l → has PlayerInput e (ecs s) = true → is_Some (get_PlayerInput e (ecs s)).
Proof.
  revert s. induction l as [|a l IH]; intros s Hrun e Hin Hbit.
  - by apply elem_of_nil in Hin.
  - apply for_each_cons_Some in Hrun as (s1 & Ha & Hl).
    destruct (decide (a = e)) as [->|Hne].
    + unfold PlayerInput_entity in Ha. rewrite mask_test_single in Ha.
      fold (has PlayerInput e (ecs s)) in Ha. rewrite Hbit in Ha.
      destruct (get_PlayerInput e (ecs s)); [by eexists|done].
    + apply PlayerInput_entity_inv in Ha as [Hf Hg].
      destruct (IH s1 Hl e) as [i Hi].
      * apply elem_of_cons in Hin as [->|?]; done.
      * by rewrite (has_input_frame s s1).
      * rewrite Hg in Hi. rewrite decide_False in Hi by (by intros [? _]). by eexists.
Qed.

(** C10.  [PlayerInputSystem(nullptr)] returns at once and changes
    nothing.  With an event, every live entity holding [PlayerInput] gets
    [sendRope] written: true exactly for a space key-down, false for every
    other event, [retractRope] and everything else untouched.  So an event
    that is no space key-down clears the flag a space press left pending. *)
Theorem PlayerInputSystem_writes_sendRope s :
  PlayerInputSystem None s = Some s
  ∧ (∀ ev,
      (∀ e, 0 ≤ e ≤ w_maxId (ecs s) → has PlayerInput e (ecs s) = true →
            is_Some (get_PlayerInput e (ecs s))) →
      ∃ s', PlayerInputSystem (Some ev) s = Some s'
        ∧ input_frame s s'
        ∧ (∀ e, 0 ≤ e ≤ w_maxId (ecs s) → has PlayerInput e (ecs s) = true →
             ∃ sendRope retractRope,
               get_PlayerInput e (ecs s) = Some (sendRope, retractRope)
               ∧ get_PlayerInput e (ecs s') = Some (space_key_down ev, retractRope))
        ∧ (∀ e, ¬ (0 ≤ e ≤ w_maxId (ecs s) ∧ has PlayerInput e (ecs s) = true) →
             get_PlayerInput e (ecs s') = get_PlayerInput e (ecs s)))
  ∧ (∀ ev1 ev2 s1 s2,
      PlayerInputSystem (Some ev1) s = Some s1 →
      PlayerInputSystem (Some ev2) s1 = Some s2 →
      space_key_down ev2 = false →
      ∀ e, 0 ≤ e ≤ w_maxId (ecs s) → has PlayerInput e (ecs s) = true →
           fst <$> get_PlayerInput e (ecs s1) = Some (space_key_down ev1)
           ∧ fst <$> get_PlayerInput e (ecs s2) = Some false).
Proof.
  split; [done|]. split.
  - intros ev Hok. unfold PlayerInputSystem. fold (space_key_down ev).
    destruct (PlayerInput_loop_total (space_key_down ev) (ids (ecs s)) s) as [s' Hs'].
    { intros e He. apply Hok. by apply elem_of_ids. }
    exists s'. split; [done|].
    apply PlayerInput_loop in Hs' as [Hf Hg]. split; [done|]. split.
    + intros e He Hbit. destruct (Hok e He Hbit) as [[x r] Hi].
      exists x, r. split; [done|]. rewrite Hg, Hi.
      rewrite decide_True; [done|]. split; [by apply elem_of_ids|done].
    + intros e Hno. rewrite Hg. rewrite decide_False; [done|].
      intros [He Hbit]. apply Hno. split; [by apply elem_of_ids|done].
  - intros ev1 ev2 s1 s2 H1 H2 Hns e He Hbit.
    unfold PlayerInputSystem in H1, H2.
    fold (space_key_down ev1) in H1. fold (space_key_down ev2) in H2.
    rewrite Hns in H2.
    assert (Hsome : is_Some (get_PlayerInput e (ecs s))).
    { eapply PlayerInput_loop_ok; [exact H1|by apply elem_of_ids|done]. }
    destruct Hsome as [[x r] Hi].
    apply PlayerInput_loop in H1 as [Hf1 Hg1].
    apply PlayerInput_loop in H2 as [Hf2 Hg2].
    assert (Hmax : w_maxId (ecs s1) = w_maxId (ecs s)) by apply Hf1.
    assert (Hg1e : get_PlayerInput e (ecs s1) = Some (space_key_down ev1, r)).
    { rewrite Hg1, Hi. rewrite decide_True; [done|].
      split; [by apply elem_of_ids|done]. }
    split; [by rewrite Hg1e|].
    rewrite Hg2, Hg1e, (has_input_frame s s1) by done.
    rewrite decide_True; [done|]. split; [|done].
    apply elem_of_ids. by rewrite Hmax.
Qed.
End PlayerInputFacts.

(** A space press sets the flag of player 1; the release that follows
    overwrites it with [false]. *)
Lemma PlayerInputSystem_writes_sendRope_witness :
  fst <$> get_PlayerInput 0 (ecs player_after_space) = Some true
  ∧ fst <$> get_PlayerInput 0 (ecs player_after_release) = Some false.
Proof.
  destruct (PlayerInputSystem_writes_sendRope player_state) as (_ & _ & Hseq).
  apply (Hseq space_down space_up player_after_space player_after_release).
  - apply default_Some. vm_refl.
  - apply default_Some. vm_refl.
  - reflexivity.
  - split; [reflexivity|]. vm_compute. discriminate.
  - vm_refl.
Defined.

(** ** CollisionSystem and TryAttachCollectable *)

Section CollisionFacts.
Context {F : Type} `{FloatOps F} `{WideOps F}.
Implicit Types (s : State F) (w : World F) (pw : PhysWorld F) (e : Z) (k : CompKind).

Lemma on_phys_Some f s s' :
  on_phys f s = Some s' ↔ ∃ pw, f (gWorld s) = Some pw ∧ s' = set_phys pw s.
Proof.
  unfold on_phys. destruct (f (gWorld s)) as [pw|]; simpl.
  - split; [intros [= <-]; eauto|]. by intros (? & [= <-] & ->).
  - split; [done|]. by intros (? & ? & _).
Qed.

Lemma upd_body_Some b f pw pw' :
  upd_body b f pw = Some pw' ↔
  ∃ body, pw_bodies pw !! b = Some body
          ∧ pw' = set_bodies (<[b := f body]> (pw_bodies pw)) pw.
Proof.
  unfold upd_body. destruct (pw_bodies pw !! b) as [body|]; simpl.
  - split; [intros [= <-]; eauto|]. by intros (? & [= <-] & ->).
  - split; [done|]. by intros (? & ? & _).
Qed.

Lemma get_typed_add_other (c : Component F) e e' w :
  kind_of c = GrabbedJoint →
  get_PhysicsBody e' (addComponent c e w) = get_PhysicsBody e' w
  ∧ get_RopeControl e' (addComponent c e w) = get_RopeControl e' w.
Proof.
  intros Hk. unfold get_PhysicsBody, get_RopeControl. rewrite !get_addComponent.
  rewrite !decide_False; [done| |]; rewrite Hk; by intros [_ ?].
Qed.

(** The store after a successful attachment, and the engine calls made. *)
Lemma TryAttachCollectable_Some rope item s s' :
  TryAttachCollectable rope item s = Some s' →
  has GrabbedJoint rope (ecs s) = false →
  ∃ ropeBody itemBody body,
    get_PhysicsBody rope (ecs s) = Some ropeBody
    ∧ get_PhysicsBody item (ecs s) = Some itemBody
    ∧ pw_bodies (gWorld s) !! itemBody = Some body
    ∧ ecs s' = setComponent (CRopeControl Retracting) rope
                 (addComponent (CGrabbedJoint (pw_next (gWorld s)) item) rope (ecs s))
    ∧ pw_joints (gWorld s') =
        <[pw_next (gWorld s) := mkWeldJointDef ropeBody itemBody false]>
          (pw_joints (gWorld s))
    ∧ (body_type <$> pw_bodies (gWorld s') !! itemBody) = Some b2_dynamicBody
    ∧ heap s' = heap s.
Proof.
  unfold TryAttachCollectable. intros Hrun Hgj. rewrite Hgj in Hrun.
  destruct (get_PhysicsBody rope (ecs s)) as [ropeBody|] eqn:Hrb; [|done].
  destruct (get_PhysicsBody item (ecs s)) as [itemBody|] eqn:Hib; [|done].
  simpl in Hrun.
  destruct (on_phys (b2Body_SetType itemBody b2_dynamicBody) s) as [s1|] eqn:H1; [|done].
  apply on_phys_Some in H1 as (pw1 & Hpw1 & ->).
  apply upd_body_Some in Hpw1 as (body & Hbody & ->).
  simpl in Hrun. unfold b2CreateWeldJoint in Hrun. simpl in Hrun.
  destruct (<[itemBody:=_]> (pw_bodies (gWorld s)) !! ropeBody) as [rb|] eqn:Hrbody; [|done].
  simpl in Hrun. rewrite lookup_insert_eq in Hrun. simpl in Hrun.
  destruct (get_RopeControl rope _) as [st|] eqn:Hst; [|done]. simpl in Hrun.
  destruct (on_phys (b2Body_SetLinearVelocity itemBody vec0) _) as [s2|] eqn:H2; [|done].
  apply on_phys_Some in H2 as (pw2 & Hpw2 & ->).
  apply upd_body_Some in Hpw2 as (body2 & Hbody2 & ->).
  simpl in Hrun. apply on_phys_Some in Hrun as (pw3 & Hpw3 & ->).
  apply upd_body_Some in Hpw3 as (body3 & Hbody3 & ->).
  simpl in *. rewrite lookup_insert_eq in Hbody2. injection Hbody2 as <-.
  rewrite lookup_insert_eq in Hbody3. injection Hbody3 as <-.
  exists ropeBody, itemBody, body. repeat split; try done.
  by rewrite lookup_insert_eq.
Qed.

Lemma holding_frame_refl s : holding_frame s s.
Proof. by split. Qed.

Lemma holding_frame_trans s1 s2 s3 :
  holding_frame s1 s2 → holding_frame s2 s3 → holding_frame s1 s3.
Proof.
  intros [Hb Hg] [Hb' Hg']. split.
  - intros k e Hne. by rewrite Hb', Hb.
  - intros e He. destruct (Hg e He) as (He2 & Hj & Hr).
    destruct (Hg' e He2) as (He3 & Hj' & Hr'). by rewrite Hj', Hr'.
Qed.

Lemma TryAttachCollectable_holding rope item s s' :
  TryAttachCollectable rope item s = Some s' → holding_frame s s'.
Proof.
  intros Hrun. destruct (has GrabbedJoint rope (ecs s)) eqn:Hgj.
  - unfold TryAttachCollectable in Hrun. rewrite Hgj in Hrun.
    injection Hrun as <-. apply holding_frame_refl.
  - apply TryAttachCollectable_Some in Hrun as (rb & ib & body & _ & _ & _ & Hecs & _);
      [|done].
    unfold holding_frame. rewrite Hecs. split.
    + intros k e Hne. rewrite has_setComponent, has_addComponent.
      rewrite decide_False; [done|]. simpl. by intros [_ <-].
    + intros e He. assert (rope ≠ e) by (intros ->; congruence).
      rewrite has_setComponent, has_addComponent, !get_setComponent, !get_addComponent.
      simpl. rewrite !decide_False; [done|..]; by intros [? _].
Qed.

Lemma Collision_hit_holding hit s s' :
  Collision_hit hit s = Some s' → holding_frame s s'.
Proof.
  unfold Collision_hit. destruct (hit_entities hit s) as [[[entA entB]|]|]; simpl;
    [| by intros [= <-]; apply holding_frame_refl | done].
  repeat case_match; try (by intros [= <-]; apply holding_frame_refl);
    apply TryAttachCollectable_holding.
Qed.

Lemma Collision_hits_holding l s s' :
  for_each Collision_hit l s = Some s' → holding_frame s s'.
Proof.
  apply (for_each_rel Collision_hit holding_frame).
  - apply holding_frame_refl.
  - apply holding_frame_trans.
  - intros hit t t' _. apply Collision_hit_holding.
Qed.

(** A rope that holds a joint ignores a hit with a collectable. *)
Lemma Collision_hit_holding_noop hit s rope item :
  hit_entities hit s = Some (Some (rope, item))
  ∨ hit_entities hit s = Some (Some (item, rope)) →
  has GrabbedJoint rope (ecs s) = true →
  has RoperTag item (ecs s) = false →
  Collision_hit hit s = Some s.
Proof.
  intros Hents Hgj Hitem. unfold Collision_hit.
  destruct Hents as [-> | ->]; simpl; rewrite Hgj, Hitem; simpl.
  - by rewrite andb_false_r.
  - by rewrite !andb_false_r.
Qed.
End CollisionFacts.

Section CollisionClaims.
Context {F : Type} `{FloatOps F} `{WideOps F}.
Implicit Types (s : State F) (e : Z).

Lemma TryAttachCollectable_total rope item s ropeBody itemBody :
  has GrabbedJoint rope (ecs s) = false →
  get_PhysicsBody rope (ecs s) = Some ropeBody →
  get_PhysicsBody item (ecs s) = Some itemBody →
  is_Some (pw_bodies (gWorld s) !! ropeBody) →
  is_Some (pw_bodies (gWorld s) !! itemBody) →
  is_Some (get_RopeControl rope (ecs s)) →
  is_Some (TryAttachCollectable rope item s).
Proof.
  intros Hgj Hrb Hib [rbody Hrbody] [ibody Hibody] [st Hst].
  unfold TryAttachCollectable. rewrite Hgj, Hrb, Hib. simpl.
  unfold on_phys at 3. unfold b2Body_SetType, upd_body. rewrite Hibody. simpl.
  unfold b2CreateWeldJoint. simpl.
  assert (Hrb' : is_Some (<[itemBody:=mkBody b2_dynamicBody (body_p ibody) (body_q ibody)
            (body_linearVelocity ibody) (body_angularVelocity ibody)
            (body_gravityScale ibody) (body_fixedRotation ibody) (body_isBullet ibody)
            (body_hitEvents ibody) (body_userData ibody)]> (pw_bodies (gWorld s))
            !! ropeBody)).
  { rewrite lookup_insert. case_decide; [by eexists|by rewrite Hrbody]. }
  destruct Hrb' as [rb' ->]. simpl. rewrite lookup_insert_eq. simpl.
  destruct (get_typed_add_other (CGrabbedJoint (pw_next (gWorld s)) item) rope rope (ecs s))
    as [_ Hrc]; [done|].
  rewrite Hrc, Hst. simpl.
  unfold on_phys at 2. unfold b2Body_SetLinearVelocity, upd_body. simpl.
  rewrite lookup_insert_eq. simpl.
  unfold on_phys, b2Body_SetAngularVelocity, upd_body. simpl.
  rewrite lookup_insert_eq. simpl. by eexists.
Qed.

(** C6.  A hit event between a rope that holds no [GrabbedJoint] and a
    collectable is processed to the end, and afterwards: the collectable's
    body is dynamic; the engine holds a weld joint from the rope's body to
    the collectable's with [collideConnected] off; the rope carries a
    [GrabbedJoint] with that joint's handle and the collectable's id; the
    rope's state is Retracting, whatever its state and length were. *)
Theorem Collision_hit_attaches s hit rope item ropeBody itemBody :
  hit_entities hit s = Some (Some (rope, item))
  ∨ hit_entities hit s = Some (Some (item, rope)) →
  has RoperTag rope (ecs s) = true →
  has GrabbedJoint rope (ecs s) = false →
  has Collectable item (ecs s) = true →
  has RoperTag item (ecs s) = false →
  get_PhysicsBody rope (ecs s) = Some ropeBody →
  get_PhysicsBody item (ecs s) = Some itemBody →
  is_Some (pw_bodies (gWorld s) !! ropeBody) →
  is_Some (pw_bodies (gWorld s) !! itemBody) →
  is_Some (get_RopeControl rope (ecs s)) →
  ∃ s', Collision_hit hit s = Some s'
    ∧ body_type <$> pw_bodies (gWorld s') !! itemBody = Some b2_dynamicBody
    ∧ pw_joints (gWorld s') !! pw_next (gWorld s) =
        Some (mkWeldJointDef ropeBody itemBody false)
    ∧ has GrabbedJoint rope (ecs s') = true
    ∧ get_GrabbedJoint rope (ecs s') = Some (pw_next (gWorld s), item)
    ∧ get_RopeControl rope (ecs s') = Some Retracting
    ∧ get_Length rope (ecs s') = get_Length rope (ecs s).
Proof.
  intros Hents Hrope Hgj Hcol Hitem Hrb Hib Hrbody Hibody Hrc.
  destruct (TryAttachCollectable_total rope item s ropeBody itemBody) as [s' Hs'];
    try done.
  exists s'. split.
  - unfold Collision_hit.
    destruct Hents as [-> | ->]; simpl; rewrite ?Hrope, ?Hgj, ?Hcol, ?Hitem; simpl; done.
  - apply TryAttachCollectable_Some in Hs'
      as (rb & ib & body & Hrb' & Hib' & _ & Hecs & Hj & Hty & _); [|done].
    assert (rb = ropeBody) as -> by congruence.
    assert (ib = itemBody) as -> by congruence.
    split; [done|]. split; [by rewrite Hj, lookup_insert_eq|].
    rewrite Hecs. split_and!.
    + rewrite has_setComponent, has_addComponent. by rewrite decide_True.
    + unfold get_GrabbedJoint. rewrite get_setComponent, get_addComponent. simpl.
      rewrite decide_False by (by intros [_ ?]). by rewrite decide_True.
    + unfold get_RopeControl. rewrite get_setComponent. simpl. by rewrite decide_True.
    + unfold get_Length. rewrite get_setComponent, get_addComponent. simpl.
      rewrite !decide_False; [done|..]; by intros [_ ?].
Qed.

(** C5.  A rope holds at most one [GrabbedJoint]: once a rope carries one,
    whatever hit events of the frame were processed since, the rope still
    carries the same joint and the same state, and a hit event pairing it
    with a collectable changes nothing at all: store, masks and physics
    world are left as they were, and the frame goes on as if the event were
    not there.  The same holds at the end of [CollisionSystem]. *)
Theorem CollisionSystem_ignores_holding_rope s before hit rest s1 rope item :
  pw_valid (gWorld s) = true →
  pw_hitEvents (gWorld s) = before ++ hit :: rest →
  for_each Collision_hit before s = Some s1 →
  has RoperTag rope (ecs s) = true →
  has GrabbedJoint rope (ecs s) = true →
  has Collectable item (ecs s) = true →
  has RoperTag item (ecs s) = false →
  hit_entities hit s1 = Some (Some (rope, item))
  ∨ hit_entities hit s1 = Some (Some (item, rope)) →
  Collision_hit hit s1 = Some s1
  ∧ CollisionSystem s = for_each Collision_hit rest s1
  ∧ has GrabbedJoint rope (ecs s1) = true
  ∧ getComponent GrabbedJoint rope (ecs s1) = getComponent GrabbedJoint rope (ecs s)
  ∧ getComponent RopeControl rope (ecs s1) = getComponent RopeControl rope (ecs s)
  ∧ ∀ s', CollisionSystem s = Some s' →
      has GrabbedJoint rope (ecs s') = true
      ∧ getComponent GrabbedJoint rope (ecs s') = getComponent GrabbedJoint rope (ecs s)
      ∧ getComponent RopeControl rope (ecs s') = getComponent RopeControl rope (ecs s).
Proof.
  intros Hvalid Hevents Hbefore Hrope Hgj Hcol Hitem Hents.
  pose proof (Collision_hits_holding _ _ _ Hbefore) as [Hbits Hkeep].
  destruct (Hkeep rope Hgj) as (Hgj1 & Hj1 & Hr1).
  assert (Hnoop : Collision_hit hit s1 = Some s1).
  { apply (Collision_hit_holding_noop hit s1 rope item); [done|done|].
    by rewrite Hbits. }
  split; [done|]. split.
  { unfold CollisionSystem. rewrite Hvalid, Hevents, for_each_app, Hbefore.
    cbn [mbind option_bind]. by rewrite for_each_cons, Hnoop. }
  split; [done|]. split; [done|]. split; [done|].
  intros s' Hs'. unfold CollisionSystem in Hs'. rewrite Hvalid in Hs'.
  apply Collision_hits_holding in Hs' as [_ Hkeep']. by apply Hkeep'.
Qed.
End CollisionClaims.

(** The first hit of the match attaches the first collectable to the
    rope. *)
Lemma Collision_hit_attaches_witness :
  ∃ s', Collision_hit (mkHit 2 4) contact_state = Some s'
    ∧ body_type <$> pw_bodies (gWorld s') !! 3 = Some b2_dynamicBody
    ∧ pw_joints (gWorld s') !! pw_next (gWorld contact_state) =
        Some (mkWeldJointDef 1 3 false)
    ∧ has GrabbedJoint 1 (ecs s') = true
    ∧ get_GrabbedJoint 1 (ecs s') = Some (pw_next (gWorld contact_state), 2)
    ∧ get_RopeControl 1 (ecs s') = Some Retracting
    ∧ get_Length 1 (ecs s') = get_Length 1 (ecs contact_state).
Proof.
  apply (Collision_hit_attaches contact_state (mkHit 2 4) 1 2 1 3).
  - left. vm_refl.
  - vm_refl.
  - vm_refl.
  - vm_refl.
  - vm_refl.
  - vm_refl.
  - vm_refl.
  - vm_compute. eexists. reflexivity.
  - vm_compute. eexists. reflexivity.
  - vm_compute. eexists. reflexivity.
Defined.

(** The second hit of the frame finds the rope holding the first
    collectable and changes nothing. *)
Lemma CollisionSystem_ignores_holding_rope_witness :
  Collision_hit (mkHit 6 2) grabbed_state = Some grabbed_state
  ∧ CollisionSystem grabbed_state = Some grabbed_state
  ∧ get_GrabbedJoint 1 (ecs grabbed_state) = Some (7, 2).
Proof.
  destruct (CollisionSystem_ignores_holding_rope
              grabbed_state [mkHit 2 4] (mkHit 6 2) [] grabbed_state 1 3)
    as (Hnoop & Hsys & _).
  - vm_refl.
  - vm_refl.
  - vm_refl.
  - vm_refl.
  - vm_refl.
  - vm_refl.
  - vm_refl.
  - right. vm_refl.
  - split; [exact Hnoop|]. split; [by rewrite Hsys|]. vm_refl.
Defined.

(** ** RopeSwingSystem *)

Section RopeSwingFacts.
Context {F : Type} `{FloatOps F} `{WideOps F}.
Implicit Types (s : State F) (w : World F) (pw : PhysWorld F) (e : Z) (k : CompKind).

Lemma find_player_in_ext l p w w' :
  (∀ e, mask w' e = mask w e) →
  (∀ e, getComponent PlayerInfo e w' = getComponent PlayerInfo e w) →
  (∀ e, getComponent Position e w' = getComponent Position e w) →
  find_player_in l p w' = find_player_in l p w.
Proof.
  intros Hm Hi Hp. induction l as [|a l IH]; [done|]. simpl.
  unfold get_PlayerInfo, get_Position. by rewrite Hm, Hi, Hp, IH.
Qed.

Lemma find_player_ext p w w' :
  w_maxId w' = w_maxId w →
  (∀ e, mask w' e = mask w e) →
  (∀ e, getComponent PlayerInfo e w' = getComponent PlayerInfo e w) →
  (∀ e, getComponent Position e w' = getComponent Position e w) →
  find_player p w' = find_player p w.
Proof.
  intros Hmax Hm Hi Hp. unfold find_player, ids. rewrite Hmax.
  by apply find_player_in_ext.
Qed.

Lemma bodies_upd_body b f pw pw' b' :
  upd_body b f pw = Some pw' →
  pw_bodies pw' !! b' =
    if decide (b = b') then f <$> pw_bodies pw !! b else pw_bodies pw !! b'.
Proof.
  intros (body & Hb & ->)%upd_body_Some. simpl. rewrite lookup_insert.
  case_decide; [by rewrite Hb|done].
Qed.

Lemma swing_frame_refl s : swing_frame s s.
Proof. by repeat split. Qed.

Lemma swing_frame_trans s1 s2 s3 :
  swing_frame s1 s2 → swing_frame s2 s3 → swing_frame s1 s3.
Proof.
  intros (Hm & Hk & Hg & Hh) (Hm' & Hk' & Hg' & Hh').
  repeat split; try congruence. intros k e Hne. by rewrite Hg', Hg.
Qed.

Lemma swing_frame_mask s s' e : swing_frame s s' → mask (ecs s') e = mask (ecs s) e.
Proof. intros (_ & Hm & _). unfold mask. by rewrite Hm. Qed.

Lemma swing_frame_find_player s s' p :
  swing_frame s s' → find_player p (ecs s') = find_player p (ecs s).
Proof.
  intros Hf. pose proof Hf as (Hmax & _ & Hg & _).
  apply find_player_ext; [done| |by intros; apply Hg|by intros; apply Hg].
  intros e. by apply swing_frame_mask.
Qed.

(** One iteration of the swing loop, for an entity the rope mask selects. *)
Lemma RopeSwing_rope_inv id s s' :
  RopeSwing_rope id s = Some s' →
  swing_frame s s'
  ∧ (mask_test (mask (ecs s) id) swing_ropeMask = false → gWorld s' = gWorld s)
  ∧ (mask_test (mask (ecs s) id) swing_ropeMask = true →
     ∃ state bodyId owner,
       get_RopeControl id (ecs s) = Some state
       ∧ get_PhysicsBody id (ecs s) = Some bodyId
       ∧ get_PlayerInfo id (ecs s) = Some owner
       ∧ (∀ b, b ≠ bodyId → pw_bodies (gWorld s') !! b = pw_bodies (gWorld s) !! b)
       ∧ (state ≠ AtRest → gravity_of s' bodyId = Some (fofZ 1))
       ∧ (state = AtRest →
            (find_player owner (ecs s) = Some None ∧ gWorld s' = gWorld s)
            ∨ ((∃ p, find_player owner (ecs s) = Some (Some p))
               ∧ gravity_of s' bodyId = Some (fofZ 0)))).
Proof.
  unfold RopeSwing_rope.
  destruct (mask_test (mask (ecs s) id) swing_ropeMask) eqn:Hmask;
    [|intros [= <-]; split; [apply swing_frame_refl|split; done]].
  destruct (get_Rotation id (ecs s)) as [angle|] eqn:Hrot; [|done].
  destruct (get_RopeControl id (ecs s)) as [state|] eqn:Hrc; [|done].
  destruct (get_PhysicsBody id (ecs s)) as [bodyId|] eqn:Hpb; [|done].
  destruct (get_PlayerInfo id (ecs s)) as [owner|] eqn:Hpi; [|done].
  cbn [mbind option_bind].
  assert (Hgrav : ∀ g t, on_phys (b2Body_SetGravityScale bodyId g) s = Some t →
            swing_frame s t
            ∧ (∀ b, b ≠ bodyId → pw_bodies (gWorld t) !! b = pw_bodies (gWorld s) !! b)
            ∧ gravity_of t bodyId = Some g).
  { intros g t (pw & Hpw & ->)%on_phys_Some. split; [by repeat split|].
    unfold gravity_of. simpl. split.
    - intros b Hb. rewrite (bodies_upd_body _ _ _ _ _ Hpw).
      by rewrite decide_False by congruence.
    - rewrite (bodies_upd_body _ _ _ _ _ Hpw). rewrite decide_True by done.
      apply upd_body_Some in Hpw as (body & -> & _). done. }
  destruct state.
  - (* AtRest *)
    set (dirs := match swingDirections s !! id with
                 | Some _ => swingDirections s
                 | None => <[id:=fofZ 1]> (swingDirections s)
                 end).
    set (angle1 := (angle + default (fofZ 0) (dirs !! id) * swingSpeed * deltaTime)%fl).
    set (clamped := if (maxSwingAngle <? angle1)%fl
                    then (maxSwingAngle, <[id:=(- fofZ 1)%fl]> dirs)
                    else if (angle1 <? - maxSwingAngle)%fl
                         then ((- maxSwingAngle)%fl, <[id:=fofZ 1]> dirs)
                         else (angle1, dirs)).
    destruct clamped as [angle2 dirs2].
    set (s1 := set_swing dirs2 (on_ecs (setComponent (CRotation angle2) id) s)).
    assert (Hf1 : swing_frame s s1).
    { repeat split; try done. intros k e Hne. unfold s1. simpl.
      rewrite get_setComponent. rewrite decide_False; [done|]. simpl. by intros [_ ?]. }
    rewrite (swing_frame_find_player s s1) by done.
    destruct (find_player owner (ecs s)) as [[[player [px py]]|]|] eqn:Hfind; [| |done].
    + cbn [mbind option_bind].
      destruct (GetSpriteSrcRect SPRITE_PLAYER_IDLE) as [rect|]; [|done].
      cbn [mbind option_bind].
      destruct (b2Body_GetTransform bodyId (gWorld s1)) as [[p q]|]; [|done].
      cbn [mbind option_bind].
      intros (pw & Hpw & ->)%on_phys_Some.
      destruct (b2Body_SetTransform bodyId _ q (gWorld s1)) as [pw1|] eqn:H1; [|done].
      cbn [mbind option_bind] in Hpw.
      destruct (b2Body_SetLinearVelocity bodyId vec0 pw1) as [pw2|] eqn:H2; [|done].
      cbn [mbind option_bind] in Hpw.
      split; [by destruct Hf1 as (? & ? & ? & ?)|]. split; [done|]. intros _.
      exists AtRest, bodyId, owner. split_and!; try done.
      * intros b Hb. simpl.
        rewrite (bodies_upd_body _ _ _ _ b Hpw), decide_False by congruence.
        rewrite (bodies_upd_body _ _ _ _ b H2), decide_False by congruence.
        by rewrite (bodies_upd_body _ _ _ _ b H1), decide_False by congruence.
      * intros _. right. split; [by eexists|]. unfold gravity_of. simpl.
        rewrite (bodies_upd_body _ _ _ _ _ Hpw). rewrite decide_True by done.
        apply upd_body_Some in Hpw as (body & -> & _). done.
    + intros [= <-]. split; [done|]. split; [done|]. intros _.
      exists AtRest, bodyId, owner. split_and!; try done.
      intros _. by left.
  - (* Extending *)
    intros Hrun. apply Hgrav in Hrun as (Hf & Hb & Hg).
    split; [done|]. split; [done|]. intros _.
    exists Extending, bodyId, owner. split_and!; done.
  - (* Retracting *)
    intros Hrun. apply Hgrav in Hrun as (Hf & Hb & Hg).
    split; [done|]. split; [done|]. intros _.
    exists Retracting, bodyId, owner. split_and!; done.
Qed.
End RopeSwingFacts.

Section RopeSwingClaims.
Context {F : Type} `{FloatOps F} `{WideOps F}.
Implicit Types (s : State F) (e : Z).

Lemma swing_frame_get s s' e :
  swing_frame s s' →
  get_RopeControl e (ecs s') = get_RopeControl e (ecs s)
  ∧ get_PhysicsBody e (ecs s') = get_PhysicsBody e (ecs s)
  ∧ get_PlayerInfo e (ecs s') = get_PlayerInfo e (ecs s).
Proof.
  intros (_ & _ & Hg & _). unfold get_RopeControl, get_PhysicsBody, get_PlayerInfo.
  by rewrite !Hg.
Qed.

Lemma RopeSwing_loop l s s' rope state bodyId owner :
  for_each RopeSwing_rope l s = Some s' →
  mask_test (mask (ecs s) rope) swing_ropeMask = true →
  get_RopeControl rope (ecs s) = Some state →
  get_PhysicsBody rope (ecs s) = Some bodyId →
  get_PlayerInfo rope (ecs s) = Some owner →
  (∀ r, mask_test (mask (ecs s) r) swing_ropeMask = true →
        get_PhysicsBody r (ecs s) = Some bodyId → r = rope) →
  swing_frame s s'
  ∧ (rope ∉ l → pw_bodies (gWorld s') !! bodyId = pw_bodies (gWorld s) !! bodyId)
  ∧ (rope ∈ l →
       (state ≠ AtRest → gravity_of s' bodyId = Some (fofZ 1))
       ∧ (state = AtRest → (∃ p, find_player owner (ecs s) = Some (Some p)) →
            gravity_of s' bodyId = Some (fofZ 0))
       ∧ (state = AtRest → find_player owner (ecs s) = Some None →
            gravity_of s' bodyId = gravity_of s bodyId)).
Proof.
  revert s. induction l as [|a l IH]; intros s Hrun Hmask Hrc Hpb Hpi Huniq.
  - injection Hrun as <-. split; [apply swing_frame_refl|]. split; [done|].
    intros Hin. by apply elem_of_nil in Hin.
  - apply for_each_cons_Some in Hrun as (s1 & Ha & Hl).
    apply RopeSwing_rope_inv in Ha as (Hf1 & Hno & Hyes).
    destruct (swing_frame_get s s1 rope Hf1) as (Hrc1 & Hpb1 & Hpi1).
    destruct (IH s1 Hl) as (Hf2 & Hout & Hin); try congruence.
    { by rewrite (swing_frame_mask s s1). }
    { intros r Hr Hrb. rewrite (swing_frame_mask s s1) in Hr by done.
      destruct (swing_frame_get s s1 r Hf1) as (_ & Hpbr & _).
      apply Huniq; congruence. }
    assert (Hstep : a ≠ rope →
              pw_bodies (gWorld s1) !! bodyId = pw_bodies (gWorld s) !! bodyId).
    { intros Hne. destruct (mask_test (mask (ecs s) a) swing_ropeMask) eqn:Hma.
      - destruct (Hyes eq_refl) as (st & b & o & _ & Hb & _ & Hother & _).
        apply Hother. intros <-. apply Hne. by apply Huniq.
      - by rewrite Hno. }
    split; [by eapply swing_frame_trans|]. split.
    + intros Hnotin. rewrite Hout, Hstep; [done| |];
        intros ?; apply Hnotin; [subst; left|by right].
    + intros Hmem. destruct (decide (rope ∈ l)) as [Hl'|Hl'].
      * rewrite (swing_frame_find_player s s1) in Hin by done.
        destruct (Hin Hl') as (Hext & Hfound & Hmiss). split_and!; [done|done|].
        intros Hs Hnone. rewrite (Hmiss Hs Hnone). unfold gravity_of.
        destruct (decide (a = rope)) as [->|Hne]; [|by rewrite Hstep].
        destruct (Hyes Hmask) as (st & b & o & Hst & Hb & Ho & _ & _ & Hrest).
        assert (st = state) as -> by congruence.
        assert (o = owner) as -> by congruence.
        destruct (Hrest Hs) as [[_ Hw]|[[p Hp] _]]; [by rewrite Hw|congruence].
      * apply elem_of_cons in Hmem as [->|?]; [|done].
        destruct (Hyes Hmask) as (st & b & o & Hst & Hb & Ho & _ & Hext & Hrest).
        assert (st = state) as -> by congruence.
        assert (b = bodyId) as -> by congruence.
        assert (o = owner) as -> by congruence.
        unfold gravity_of in *. rewrite (Hout Hl'). split_and!.
        -- done.
        -- intros Hs [p Hp]. destruct (Hrest Hs) as [[Hnone _]|[_ Hg]]; [congruence|done].
        -- intros Hs Hnone. destruct (Hrest Hs) as [[_ Hw]|[[p Hp] _]]; [|congruence].
           by rewrite Hw.
Qed.

(** C7, as the code has it.  [RopeSwingSystem] sets the gravity scale of a
    rope's body to zero when the rope is at rest and its player is found,
    and to one for every rope that is not at rest: Extending or
    Retracting, with or without a [GrabbedJoint].  (The body is taken to
    belong to this rope alone.) *)
Theorem RopeSwingSystem_gravity s s' rope state bodyId owner :
  RopeSwingSystem s = Some s' →
  0 ≤ rope ≤ w_maxId (ecs s) →
  mask_test (mask (ecs s) rope) swing_ropeMask = true →
  get_RopeControl rope (ecs s) = Some state →
  get_PhysicsBody rope (ecs s) = Some bodyId →
  get_PlayerInfo rope (ecs s) = Some owner →
  (∀ r, mask_test (mask (ecs s) r) swing_ropeMask = true →
        get_PhysicsBody r (ecs s) = Some bodyId → r = rope) →
  (state ≠ AtRest → gravity_of s' bodyId = Some (fofZ 1))
  ∧ (state = AtRest → (∃ p, find_player owner (ecs s) = Some (Some p)) →
       gravity_of s' bodyId = Some (fofZ 0))
  ∧ (state = AtRest → find_player owner (ecs s) = Some None →
       gravity_of s' bodyId = gravity_of s bodyId).
Proof.
  intros Hrun Hrange Hmask Hrc Hpb Hpi Huniq.
  destruct (RopeSwing_loop _ _ _ rope state bodyId owner Hrun) as (_ & _ & Hin);
    try done.
  apply Hin. by apply elem_of_ids.
Qed.
End RopeSwingClaims.

(** An extending rope with nothing grabbed has gravity scale 1 after
    [RopeSwingSystem], and still has it after [RopeExtensionSystem]. *)
Lemma RopeSwingSystem_gravity_counterexample :
  get_RopeControl 1 (ecs extending_state) = Some Extending
  ∧ has GrabbedJoint 1 (ecs extending_state) = false
  ∧ get_PhysicsBody 1 (ecs extending_state) = Some 1
  ∧ isSome (RopeSwingSystem extending_state) = true
  ∧ gravity_of swung_state 1 = Some 1%Q
  ∧ gravity_of swung_state 1 ≠ Some 0%Q
  ∧ isSome (RopeExtensionSystem swung_state) = true
  ∧ get_RopeControl 1 (ecs extended_state) = Some Extending
  ∧ gravity_of extended_state 1 = Some 1%Q.
Proof.
  split_and!; try vm_refl. vm_compute. discriminate.
Qed.

(** The entities of the match that hold a [PhysicsBody]. *)
Lemma physics_bodies_of_game_state r b :
  get_PhysicsBody r (ecs extending_state) = Some b → r ∈ [3; 1; 2].
Proof.
  intros Hget.
  assert (Hin : r ∈ storage_entities PhysicsBody (ecs extending_state)).
  { apply elem_of_storage_entities. unfold get_PhysicsBody in Hget.
    destruct (getComponent PhysicsBody r (ecs extending_state)); [by eexists|done]. }
  clear Hget. revert Hin. vm_compute. exact (λ Hin, Hin).
Qed.

(** The extending rope of the match: body 1 is its own, and gravity is on
    after the swing step. *)
Lemma RopeSwingSystem_gravity_witness :
  (Extending ≠ AtRest → gravity_of swung_state 1 = Some (fofZ 1))
  ∧ (Extending = AtRest →
     (∃ p, find_player 1 (ecs extending_state) = Some (Some p)) →
     gravity_of swung_state 1 = Some (fofZ 0))
  ∧ (Extending = AtRest → find_player 1 (ecs extending_state) = Some None →
     gravity_of swung_state 1 = gravity_of extending_state 1).
Proof.
  apply (RopeSwingSystem_gravity extending_state swung_state 1 Extending 1 1).
  - apply default_Some. vm_refl.
  - split; [lia|]. vm_compute. discriminate.
  - vm_refl.
  - vm_refl.
  - vm_refl.
  - vm_refl.
  - intros r _ Hbody. pose proof (physics_bodies_of_game_state r 1 Hbody) as Hin.
    apply list_elem_of_In in Hin. simpl in Hin.
    destruct Hin as [<-|[<-|[<-|[]]]]; [exfalso|reflexivity|exfalso].
    + revert Hbody. vm_compute. intros [=].
    + revert Hbody. vm_compute. intros [=].
Defined.

(** ** RopeExtensionSystem *)

Section RopeExtensionFacts.
Context {F : Type} `{FloatOps F} `{WideOps F}.
Implicit Types (s : State F) (w : World F) (pw : PhysWorld F) (e : Z) (k : CompKind).

Lemma mask_test_ext m m' ks :
  (∀ k, k ∈ ks → test_bit m' k = test_bit m k) →
  mask_test m' (mask_of ks) = mask_test m (mask_of ks).
Proof.
  intros Hbits. apply eq_true_iff_eq. rewrite !mask_test_of.
  split; intros Hall k Hk; [rewrite <- Hbits|rewrite Hbits]; auto.
Qed.

Lemma find_player_in_stable l p w w' :
  (∀ e, mask_test (mask w' e) playerMask = mask_test (mask w e) playerMask) →
  (∀ e, getComponent PlayerInfo e w' = getComponent PlayerInfo e w) →
  (∀ e, getComponent Position e w' = getComponent Position e w) →
  find_player_in l p w' = find_player_in l p w.
Proof.
  intros Hm Hi Hp. induction l as [|a l IH]; [done|]. simpl.
  unfold get_PlayerInfo, get_Position. by rewrite Hm, Hi, Hp, IH.
Qed.

Lemma ext_frame_refl s : ext_frame s s.
Proof. repeat split; try done. intros e. by left. Qed.

Lemma ext_frame_trans s1 s2 s3 : ext_frame s1 s2 → ext_frame s2 s3 → ext_frame s1 s3.
Proof.
  intros (Hm & Hb & Hg & Hi) (Hm' & Hb' & Hg' & Hi'). split_and!.
  - congruence.
  - intros k e ? ?. by rewrite Hb', Hb.
  - intros k e ? ? ? ? ?. by rewrite Hg', Hg.
  - intros e. destruct (Hi e) as [He|(r & He1 & He2)], (Hi' e) as [He'|(r' & He1' & He2')].
    + left. congruence.
    + right. exists r'. split; congruence.
    + right. exists r. split; congruence.
    + congruence.
Qed.

Lemma ext_frame_on_phys f s s' : on_phys f s = Some s' → ext_frame s s'.
Proof.
  intros (pw & _ & ->)%on_phys_Some. repeat split; try done. intros e. by left.
Qed.

Lemma ext_frame_mask_test s s' e ks :
  ext_frame s s' → GrabbedJoint ∉ ks → DestroyTag ∉ ks →
  mask_test (mask (ecs s') e) (mask_of ks) = mask_test (mask (ecs s) e) (mask_of ks).
Proof.
  intros (_ & Hb & _) Hg Hd. apply mask_test_ext. intros k Hk.
  apply (Hb k e); intros ->; done.
Qed.

Lemma ext_frame_find_player s s' p :
  ext_frame s s' → find_player p (ecs s') = find_player p (ecs s).
Proof.
  intros Hf. pose proof Hf as (Hmax & _ & Hg & _).
  unfold find_player, ids. rewrite Hmax. apply find_player_in_stable.
  - intros e. apply (ext_frame_mask_test s s' e [Position; PlayerInfo]); [done|..];
      solve_not_elem_of_list.
  - intros e. by apply Hg.
  - intros e. by apply Hg.
Qed.

Lemma ext_frame_get s s' e :
  ext_frame s s' →
  get_PlayerInfo e (ecs s') = get_PlayerInfo e (ecs s)
  ∧ get_PhysicsBody e (ecs s') = get_PhysicsBody e (ecs s)
  ∧ get_Rotation e (ecs s') = get_Rotation e (ecs s).
Proof.
  intros (_ & _ & Hg & _). unfold get_PlayerInfo, get_PhysicsBody, get_Rotation.
  by rewrite !Hg.
Qed.

(** The typed reads after a write. *)
Lemma get_RopeControl_set (c : Component F) e' e w :
  get_RopeControl e (setComponent c e' w) =
    match c with
    | CRopeControl st => if decide (e' = e) then Some st else get_RopeControl e w
    | _ => get_RopeControl e w
    end.
Proof.
  unfold get_RopeControl. rewrite get_setComponent.
  destruct c; simpl; try (rewrite decide_False; [done|by intros [_ ?]]).
  destruct (decide (e' = e)) as [->|Hne].
  - by rewrite decide_True.
  - rewrite decide_False; [done|]. by intros [? _].
Qed.

Lemma get_Length_set (c : Component F) e' e w :
  get_Length e (setComponent c e' w) =
    match c with
    | CLength v => if decide (e' = e) then Some v else get_Length e w
    | _ => get_Length e w
    end.
Proof.
  unfold get_Length. rewrite get_setComponent.
  destruct c; simpl; try (rewrite decide_False; [done|by intros [_ ?]]).
  destruct (decide (e' = e)) as [->|Hne].
  - by rewrite decide_True.
  - rewrite decide_False; [done|]. by intros [? _].
Qed.

Lemma get_PlayerInput_set_other (c : Component F) e' e w :
  kind_of c ≠ PlayerInput →
  get_PlayerInput e (setComponent c e' w) = get_PlayerInput e w.
Proof.
  intros Hk. unfold get_PlayerInput. rewrite get_setComponent.
  rewrite decide_False; [done|]. by intros [_ ?].
Qed.

(** A write of a [RopeControl], [Length] or cleared [PlayerInput] payload
    stays within the frame. *)
Lemma ext_frame_set (c : Component F) e s :
  kind_of c = RopeControl ∨ kind_of c = Length →
  ext_frame s (on_ecs (setComponent c e) s).
Proof.
  intros Hk. split_and!; try done.
  - intros k e' ? ? ? ? ?. simpl. rewrite get_setComponent.
    rewrite decide_False; [done|]. intros [_ <-]. by destruct Hk.
  - intros e'. left. simpl. apply get_PlayerInput_set_other. by destruct Hk as [-> | ->].
Qed.
End RopeExtensionFacts.

Section RopeExtensionStages.
Context {F : Type} `{FloatOps F} `{WideOps F}.
Implicit Types (s : State F) (w : World F) (pw : PhysWorld F) (e : Z) (k : CompKind).

Lemma rc_len_frame_refl id s : rc_len_frame id s s.
Proof. by intros e _. Qed.

Lemma rc_len_frame_trans id s1 s2 s3 :
  rc_len_frame id s1 s2 → rc_len_frame id s2 s3 → rc_len_frame id s1 s3.
Proof.
  intros H12 H23 e He. destruct (H12 e He) as [Ha Hb], (H23 e He) as [Hc Hd].
  split; congruence.
Qed.

Lemma rc_len_frame_on_phys id f s s' : on_phys f s = Some s' → rc_len_frame id s s'.
Proof. intros (pw & _ & ->)%on_phys_Some. by intros e _. Qed.

Lemma rc_len_frame_set (c : Component F) id s :
  rc_len_frame id s (on_ecs (setComponent c id) s).
Proof.
  intros e He. simpl. rewrite !get_setComponent.
  rewrite !decide_False; [done|..]; by intros [? _].
Qed.

Lemma ext_frame_set_phys s t pw : ext_frame s t → ext_frame s (set_phys pw t).
Proof. done. Qed.

Lemma rc_len_frame_set_phys id s t pw :
  rc_len_frame id s t → rc_len_frame id s (set_phys pw t).
Proof. done. Qed.

Lemma rope_handle_input_spec id player state sendRope r s st1 s1 :
  rope_handle_input id player state sendRope r s = (st1, s1) →
  get_RopeControl id (ecs s) = Some state →
  get_PlayerInput player (ecs s) = Some (sendRope, r) →
  st1 = input_step state sendRope
  ∧ ext_frame s s1 ∧ rc_len_frame id s s1
  ∧ gWorld s1 = gWorld s
  ∧ get_RopeControl id (ecs s1) = Some st1
  ∧ getComponent Length id (ecs s1) = getComponent Length id (ecs s)
  ∧ get_PlayerInput player (ecs s1)
      = Some (sendRope && negb (bool_decide (state = AtRest)), r)
  ∧ (∀ e, e ≠ player → get_PlayerInput e (ecs s1) = get_PlayerInput e (ecs s)).
Proof.
  unfold rope_handle_input, input_step. intros Hrun Hrc Hpi.
  destruct (bool_decide (state = AtRest) && sendRope) eqn:Htrig.
  - injection Hrun as <- <-.
    apply andb_true_iff in Htrig as [Hst ->]. rewrite Hst.
    split; [done|]. split; [|split].
    + unfold ext_frame. cbn [ecs on_ecs set_ecs].
      split; [done|]. split; [done|]. split.
      * intros k e ? ? ? ? ?. rewrite !get_setComponent.
        rewrite !decide_False; [done|..]; simpl; by intros [_ <-].
      * intros e. rewrite get_PlayerInput_set.
        destruct (decide (player = e)) as [<-|Hne].
        -- right. exists r. by split.
        -- left. by rewrite get_PlayerInput_set_other.
    + intros e He. cbn [ecs on_ecs set_ecs]. rewrite !get_setComponent.
      rewrite !decide_False; [done|..]; simpl; intros [? ?]; done.
    + cbn [ecs on_ecs set_ecs gWorld]. split; [done|]. split_and!.
      * rewrite get_RopeControl_set, get_RopeControl_set. by rewrite decide_True.
      * rewrite !get_setComponent. rewrite !decide_False; [done|..]; by intros [_ ?].
      * rewrite get_PlayerInput_set. by rewrite decide_True.
      * intros e He. rewrite get_PlayerInput_set, decide_False by done.
        by rewrite get_PlayerInput_set_other.
  - injection Hrun as <- <-. split; [done|].
    split; [apply ext_frame_refl|]. split; [apply rc_len_frame_refl|].
    split_and!; try done.
    rewrite Hpi. f_equal. f_equal.
    destruct (bool_decide (state = AtRest)), sendRope; done.
Qed.

Lemma rope_move_spec id bodyId state len origin target current s st2 s2 :
  rope_move id bodyId state len origin target current s = Some (st2, s2) →
  get_RopeControl id (ecs s) = Some state →
  get_Length id (ecs s) = Some len →
  ext_frame s s2 ∧ rc_len_frame id s s2
  ∧ get_RopeControl id (ecs s2) = Some (move_step state len).1
  ∧ get_Length id (ecs s2) = Some (move_step state len).2
  ∧ st2 = (move_step state len).1
  ∧ (∀ e, get_PlayerInput e (ecs s2) = get_PlayerInput e (ecs s)).
Proof.
  unfold rope_move, move_step. intros Hrun Hrc Hlen. destruct state.
  - (* AtRest *)
    destruct (on_phys _ s) as [s'|] eqn:Hp; [|done]. injection Hrun as <- <-.
    apply on_phys_Some in Hp as (pw & _ & ->).
    split_and!; try done; [apply ext_frame_set_phys, ext_frame_refl].
  - (* Extending *)
    set (len1 := (len + EXTENSION_SPEED * deltaTime)%fl) in *.
    destruct (MAX_LENGTH <? len1)%fl.
    + destruct (on_phys _ _) as [s'|] eqn:Hp; [|done]. injection Hrun as <- <-.
      apply on_phys_Some in Hp as (pw & _ & ->). simpl.
      split_and!; try done.
      * apply ext_frame_set_phys. eapply ext_frame_trans; [apply (ext_frame_set (CLength len1) id); by right|].
        eapply ext_frame_trans;
          [apply (ext_frame_set (CLength MAX_LENGTH) id); by right|].
        apply (ext_frame_set (CRopeControl Retracting) id). by left.
      * apply rc_len_frame_set_phys. eapply rc_len_frame_trans; [apply (rc_len_frame_set (CLength len1))|].
        eapply rc_len_frame_trans; [apply (rc_len_frame_set (CLength MAX_LENGTH))|].
        apply (rc_len_frame_set (CRopeControl Retracting)).
      * rewrite get_RopeControl_set. by rewrite decide_True.
      * rewrite get_Length_set, get_Length_set. by rewrite decide_True.
      * intros e. by rewrite !get_PlayerInput_set_other.
    + destruct (on_phys _ _) as [s'|] eqn:Hp; [|done]. injection Hrun as <- <-.
      apply on_phys_Some in Hp as (pw & _ & ->). simpl.
      split_and!; try done.
      * apply ext_frame_set_phys, (ext_frame_set (CLength len1) id). by right.
      * apply rc_len_frame_set_phys, (rc_len_frame_set (CLength len1)).
      * by rewrite get_RopeControl_set.
      * rewrite get_Length_set. by rewrite decide_True.
      * intros e. by rewrite !get_PlayerInput_set_other.
  - (* Retracting *)
    set (len1 := (len - RETRACTION_SPEED * deltaTime)%fl) in *.
    destruct (len1 <=? fofZ 0)%fl.
    + destruct (on_phys _ _) as [s'|] eqn:Hp; [|done]. injection Hrun as <- <-.
      apply on_phys_Some in Hp as (pw & _ & ->). simpl.
      split_and!; try done.
      * apply ext_frame_set_phys. eapply ext_frame_trans; [apply (ext_frame_set (CLength len1) id); by right|].
        eapply ext_frame_trans;
          [apply (ext_frame_set (CLength (fofZ 0)) id); by right|].
        apply (ext_frame_set (CRopeControl AtRest) id). by left.
      * apply rc_len_frame_set_phys. eapply rc_len_frame_trans; [apply (rc_len_frame_set (CLength len1))|].
        eapply rc_len_frame_trans; [apply (rc_len_frame_set (CLength (fofZ 0)))|].
        apply (rc_len_frame_set (CRopeControl AtRest)).
      * rewrite get_RopeControl_set. by rewrite decide_True.
      * rewrite get_Length_set, get_Length_set. by rewrite decide_True.
      * intros e. by rewrite !get_PlayerInput_set_other.
    + destruct (on_phys _ _) as [s'|] eqn:Hp; [|done]. injection Hrun as <- <-.
      apply on_phys_Some in Hp as (pw & _ & ->). simpl.
      split_and!; try done.
      * apply ext_frame_set_phys, (ext_frame_set (CLength len1) id). by right.
      * apply rc_len_frame_set_phys, (rc_len_frame_set (CLength len1)).
      * by rewrite get_RopeControl_set.
      * rewrite get_Length_set. by rewrite decide_True.
      * intros e. by rewrite !get_PlayerInput_set_other.
Qed.
End RopeExtensionStages.

Section RopeExtensionLoop.
Context {F : Type} `{FloatOps F} `{WideOps F}.
Implicit Types (s : State F) (w : World F) (pw : PhysWorld F) (e : Z) (k : CompKind).

Lemma HandleRopeJointCleanup_ecs rope s s' :
  HandleRopeJointCleanup rope s = Some s' →
  ecs s' = ecs s
  ∨ ∃ item, ecs s' = addComponent CDestroyTag item (delComponent GrabbedJoint rope (ecs s)).
Proof.
  unfold HandleRopeJointCleanup. destruct (has GrabbedJoint rope (ecs s)).
  - destruct (get_GrabbedJoint rope (ecs s)) as [[joint item]|]; [|done].
    cbn [mbind option_bind].
    destruct (on_phys (b2DestroyJoint joint) s) as [s1|] eqn:Hp; [|done].
    apply on_phys_Some in Hp as (pw & _ & ->).
    cbn [mbind option_bind]. intros [= <-]. right. by exists item.
  - intros [= <-]. by left.
Qed.

Lemma rope_joint_cleanup_spec id bodyId state s s' :
  rope_joint_cleanup id bodyId state s = Some s' →
  ext_frame s s'
  ∧ (∀ e, getComponent RopeControl e (ecs s') = getComponent RopeControl e (ecs s)
          ∧ getComponent Length e (ecs s') = getComponent Length e (ecs s))
  ∧ (∀ e, get_PlayerInput e (ecs s') = get_PlayerInput e (ecs s)).
Proof.
  unfold rope_joint_cleanup.
  destruct (bool_decide (state = AtRest) && has GrabbedJoint id (ecs s));
    [|intros [= <-]; split; [apply ext_frame_refl|by split]].
  destruct (HandleRopeJointCleanup id s) as [s1|] eqn:Hc; [|done].
  cbn [mbind option_bind]. intros (pw & _ & ->)%on_phys_Some.
  apply HandleRopeJointCleanup_ecs in Hc as [Hecs|[item Hecs]].
  - unfold ext_frame. cbn [ecs set_phys]. rewrite Hecs.
    split; [|by split]. split_and!; try done. intros e. by left.
  - unfold ext_frame, get_PlayerInput. cbn [ecs set_phys]. rewrite Hecs. split_and!.
    + done.
    + intros k e ? ?. rewrite has_addComponent, has_delComponent.
      rewrite !decide_False; [done|..]; simpl; intros [_ ?]; congruence.
    + intros k e ? ? ? ? ?. rewrite get_addComponent, get_delComponent.
      rewrite !decide_False; [done|..]; simpl; intros [_ ?]; congruence.
    + intros e. left. rewrite get_addComponent, get_delComponent.
      rewrite !decide_False; [done|..]; simpl; intros [_ ?]; congruence.
    + intros e. rewrite !get_addComponent, !get_delComponent.
      rewrite !decide_False; [done|..]; simpl; intros [_ ?]; congruence.
    + intros e. rewrite !get_addComponent, !get_delComponent.
      rewrite !decide_False; [done|..]; simpl; intros [_ ?]; congruence.
Qed.

Lemma RopeExtension_rope_inv id s s' :
  RopeExtension_rope id s = Some s' →
  ext_frame s s' ∧ rc_len_frame id s s'
  ∧ (rope_skipped id s s' ∨ rope_stepped id s s').
Proof.
  unfold RopeExtension_rope.
  destruct (mask_test (mask (ecs s) id) ext_ropeMask);
    [|intros [= <-]; split_and!;
      [apply ext_frame_refl|apply rc_len_frame_refl|by left]].
  destruct (get_RopeControl id (ecs s)) as [state|] eqn:Hrc; [|done].
  destruct (get_Length id (ecs s)) as [len|] eqn:Hlen; [|done].
  destruct (get_Rotation id (ecs s)) as [angle|]; [|done].
  destruct (get_PhysicsBody id (ecs s)) as [bodyId|]; [|done].
  destruct (get_PlayerInfo id (ecs s)) as [owner|] eqn:Hpi; [|done].
  cbn [mbind option_bind].
  destruct (find_player owner (ecs s)) as [[[player [px py]]|]|] eqn:Hfind;
    [| intros [= <-]; split_and!;
       [apply ext_frame_refl|apply rc_len_frame_refl|by left] | done].
  cbn [mbind option_bind].
  destruct (get_PlayerInput player (ecs s)) as [[sendRope r]|] eqn:Hin; [|done].
  cbn [mbind option_bind].
  destruct (rope_handle_input id player state sendRope r s) as [st1 s1] eqn:Hstage1.
  destruct (rope_handle_input_spec _ _ _ _ _ _ _ _ Hstage1 Hrc Hin)
    as (-> & Hf1 & Hr1 & Hw1 & Hrc1 & Hlen1 & Hin1 & Hother1).
  destruct (GetSpriteSrcRect SPRITE_PLAYER_IDLE) as [rect|]; [|done].
  cbn [mbind option_bind].
  destruct (b2Body_GetPosition bodyId (gWorld s1)) as [currentPos|]; [|done].
  cbn [mbind option_bind].
  match goal with
  | |- context [rope_move ?a ?b ?c ?d ?o ?t ?p s1] =>
      destruct (rope_move a b c d o t p s1) as [[st2 s2]|] eqn:Hstage2; [|done]
  end.
  cbn [mbind option_bind]. intros Hstage3.
  assert (Hlen1' : get_Length id (ecs s1) = Some len).
  { unfold get_Length in *. by rewrite Hlen1. }
  destruct (rope_move_spec _ _ _ _ _ _ _ _ _ _ Hstage2 Hrc1 Hlen1')
    as (Hf2 & Hr2 & Hrc2 & Hlen2 & -> & Hin2).
  destruct (rope_joint_cleanup_spec _ _ _ _ _ Hstage3) as (Hf3 & Hr3 & Hin3).
  split_and!.
  - eapply ext_frame_trans; [done|]. by eapply ext_frame_trans.
  - eapply rc_len_frame_trans; [done|]. eapply rc_len_frame_trans; [done|].
    intros e _. apply Hr3.
  - right. exists state, len, owner, player, (px, py), sendRope, r.
    unfold rope_step. split_and!; try done.
    + unfold get_RopeControl in *. by rewrite (proj1 (Hr3 id)).
    + unfold get_Length in *. by rewrite (proj2 (Hr3 id)).
    + by rewrite Hin3, Hin2.
Qed.
End RopeExtensionLoop.

Section RopeExtensionSystemFacts.
Context {F : Type} `{FloatOps F} `{WideOps F}.
Implicit Types (s : State F) (e : Z).

Lemma rope_skipped_trans rope s1 s2 s3 :
  rope_skipped rope s1 s2 → rope_skipped rope s2 s3 → rope_skipped rope s1 s3.
Proof. intros [? ?] [? ?]. split; congruence. Qed.

Lemma rope_skipped_get rope s s' :
  rope_skipped rope s s' →
  get_RopeControl rope (ecs s') = get_RopeControl rope (ecs s)
  ∧ get_Length rope (ecs s') = get_Length rope (ecs s).
Proof. intros [Hr Hl]. unfold get_RopeControl, get_Length. by rewrite Hr, Hl. Qed.

Lemma RopeExtension_loop l s s' rope :
  NoDup l → for_each RopeExtension_rope l s = Some s' →
  ext_frame s s'
  ∧ (rope ∉ l → rope_skipped rope s s')
  ∧ (rope ∈ l → rope_skipped rope s s' ∨ rope_visited rope s s').
Proof.
  intros Hnodup. revert s. induction Hnodup as [|a l Ha Hnodup IH]; intros s Hrun.
  - injection Hrun as <-. split; [apply ext_frame_refl|]. split; [by split|].
    intros Hin. by apply elem_of_nil in Hin.
  - apply for_each_cons_Some in Hrun as (s1 & Hstep & Hl).
    apply RopeExtension_rope_inv in Hstep as (Hf1 & Hr1 & Hcase).
    destruct (IH s1 Hl) as (Hf2 & Hout & Hin).
    split; [by eapply ext_frame_trans|]. split.
    + intros Hnotin. apply not_elem_of_cons in Hnotin as [Hne Hnotin].
      eapply rope_skipped_trans; [|by apply Hout]. by apply Hr1.
    + intros Hmem. destruct (decide (rope = a)) as [->|Hne].
      * (* the rope is visited now, and not again *)
        pose proof (Hout Ha) as Hskip2.
        destruct Hcase as [Hskip1|Hstepped]; [left; by eapply rope_skipped_trans|].
        right.
        destruct Hstepped as (state & len & owner & player & pos & sendRope & r
                              & Hrc & Hlen & Hpi & Hfind & Hin0 & Hrc1 & Hlen1 & Hin1).
        exists state, len, owner, player, pos, sendRope, r.
        destruct (rope_skipped_get a s1 s' Hskip2) as [Hrc2 Hlen2].
        split_and!; try done; try congruence.
        intros -> ->. simpl in Hin1.
        destruct Hf2 as (_ & _ & _ & Hflag).
        destruct (Hflag player) as [Hsame|(r' & Ht & _)]; congruence.
      * apply elem_of_cons in Hmem as [?|Hmem]; [done|].
        pose proof (Hr1 rope Hne) as Hskip1.
        destruct (Hin Hmem) as [Hskip2|Hvis]; [left; by eapply rope_skipped_trans|].
        right.
        destruct Hvis as (state & len & owner & player & pos & sendRope & r
                          & Hrc & Hlen & Hpi & Hfind & Hin0 & Hrc1 & Hlen1 & Hin1).
        exists state, len, owner, player, pos, sendRope, r.
        destruct (rope_skipped_get rope s s1 Hskip1) as [Hrc0 Hlen0].
        destruct (ext_frame_get s s1 rope Hf1) as (Hpi0 & _ & _).
        rewrite (ext_frame_find_player s s1) in Hfind by done.
        split_and!; try done; try congruence.
        intros Hsend. specialize (Hin0 Hsend).
        destruct Hf1 as (_ & _ & _ & Hflag).
        destruct (Hflag player) as [Hsame|(r' & Ht & Hf)]; congruence.
Qed.

Lemma RopeExtensionSystem_rope s s' rope :
  RopeExtensionSystem s = Some s' →
  ext_frame s s' ∧ (rope_skipped rope s s' ∨ rope_visited rope s s').
Proof.
  intros Hrun. unfold RopeExtensionSystem in Hrun.
  destruct (RopeExtension_loop (ids (ecs s)) s s' rope) as (Hf & Hout & Hin);
    [apply NoDup_seqZ|done|].
  split; [done|]. destruct (decide (rope ∈ ids (ecs s))); [by apply Hin|].
  left. by apply Hout.
Qed.

End RopeExtensionSystemFacts.

Section LengthBounds.
Context {F : Type} `{FloatOrder F} `{WideOps F}.
Implicit Types (s : State F) (len : F).

Lemma move_step_in_range state len :
  rope_constants_ok → fvalid len → length_in_range len →
  fvalid (move_step state len).2 ∧ length_in_range (move_step state len).2.
Proof.
  intros (Hf0 & HfM & Hv0 & HvM & Hvext & Hvret & H0M & Hext & Hret & Hfret) Hv [Hlo Hhi].
  destruct (fle_operands _ _ H0M) as [H00 HMM].
  unfold move_step. destruct state; simpl.
  - by split.
  - destruct (MAX_LENGTH <? len + EXTENSION_SPEED * deltaTime)%fl eqn:Hcmp; simpl.
    + by split.
    + pose proof (fadd_nonneg _ _ Hlo Hext) as Hlo'.
      split; [by apply fadd_valid|].
      split; [done|]. destruct (fle_operands _ _ Hlo') as [_ Hdef].
      by apply flt_false_le.
  - destruct (len - RETRACTION_SPEED * deltaTime <=? fofZ 0)%fl eqn:Hcmp; simpl.
    + by split.
    + assert (Hdef : (len - RETRACTION_SPEED * deltaTime
                      <=? len - RETRACTION_SPEED * deltaTime)%fl = true).
      { apply fsub_defined; [|done]. by apply (fle_finite (fofZ 0) len MAX_LENGTH). }
      split; [by apply fsub_valid|]. split.
      * destruct (fle_total _ _ Hdef H00) as [Hle|Hle]; [congruence|done].
      * by apply fsub_nonneg_le.
Qed.

Lemma rope_step_in_range state sendRope len :
  rope_constants_ok → fvalid len → length_in_range len →
  fvalid (rope_step state sendRope len).2
  ∧ length_in_range (rope_step state sendRope len).2.
Proof. apply move_step_in_range. Qed.

(** C4.  A rope whose length lies in [0, MAX_LENGTH] before a call of
    [RopeExtensionSystem] is still a rope, with its length in
    [0, MAX_LENGTH], after the call, whatever its state.  The length is a
    value of the scalar format, as every [float] is, before the call and
    after it; the statement holds of binary32 and of the exact rationals
    alike. *)
Theorem RopeExtensionSystem_length_in_range s s' rope len :
  rope_constants_ok →
  RopeExtensionSystem s = Some s' →
  mask_test (mask (ecs s) rope) ext_ropeMask = true →
  get_Length rope (ecs s) = Some len →
  fvalid len →
  length_in_range len →
  mask_test (mask (ecs s') rope) ext_ropeMask = true
  ∧ ∃ len', get_Length rope (ecs s') = Some len'
            ∧ fvalid len' ∧ length_in_range len'.
Proof.
  intros Hconst Hrun Hrope Hlen Hv Hrange.
  destruct (RopeExtensionSystem_rope s s' rope Hrun) as (Hf & Hcase). split.
  - unfold ext_ropeMask. rewrite (ext_frame_mask_test s s'); [done|done|..];
      solve_not_elem_of_list.
  - destruct Hcase as [Hskip|Hvis].
    + exists len. split; [|done]. destruct (rope_skipped_get rope s s' Hskip) as [_ ->].
      done.
    + destruct Hvis as (state & len0 & owner & player & pos & sendRope & r
                        & _ & Hlen0 & _ & _ & _ & _ & Hlen' & _).
      eexists. split; [exact Hlen'|].
      assert (len0 = len) as -> by congruence.
      by apply rope_step_in_range.
Qed.
End LengthBounds.

(** The constants of the extension loop are in order in binary32. *)
Lemma b32_rope_constants_ok : rope_constants_ok (F := B32.t).
Proof. unfold rope_constants_ok. split_and!; by vm_compute. Qed.

(** In binary32, the rope of the match, 10485761 * 2^-20 long after a
    frame of extension, stays within the bounds over the next frame. *)
Lemma RopeExtensionSystem_length_in_range_witness :
  mask_test (mask (ecs b32_extended_state) 1) ext_ropeMask = true
  ∧ ∃ len', get_Length 1 (ecs b32_extended_state) = Some len'
            ∧ fvalid len' ∧ length_in_range len'.
Proof.
  apply (RopeExtensionSystem_length_in_range b32_extending_state b32_extended_state 1
           (S754_finite false 10485761 (-20))).
  - unfold rope_constants_ok. split_and!; by vm_compute.
  - apply default_Some. vm_refl.
  - vm_refl.
  - vm_refl.
  - by vm_compute.
  - split; vm_refl.
Defined.

(** ** PhysicsSyncSystem and the collectable factory *)

Section PhysicsSyncFacts.
Context {F : Type} `{FloatOps F} `{WideOps F}.
Implicit Types (s : State F) (w : World F) (e : Z) (k : CompKind).

Lemma sync_frame_refl s : sync_frame s s.
Proof. by repeat split. Qed.

Lemma sync_frame_trans s1 s2 s3 : sync_frame s1 s2 → sync_frame s2 s3 → sync_frame s1 s3.
Proof.
  intros (Hm & Hk & Hg & Hw & Hh) (Hm' & Hk' & Hg' & Hw' & Hh').
  repeat split; try congruence. intros k e Hne. by rewrite Hg', Hg.
Qed.

Lemma get_Position_set x y e' e w :
  get_Position e (setComponent (CPosition x y) e' w) =
    if decide (e' = e) then Some (x, y) else get_Position e w.
Proof.
  unfold get_Position. rewrite get_setComponent. simpl.
  destruct (decide (e' = e)) as [->|Hne].
  - by rewrite decide_True.
  - rewrite decide_False; [done|]. by intros [? _].
Qed.

Lemma PhysicsSync_entity_inv id s s' :
  PhysicsSync_entity id s = Some s' →
  sync_frame s s'
  ∧ (∀ e, e ≠ id → get_Position e (ecs s') = get_Position e (ecs s))
  ∧ ∀ bodyId spriteID body rect,
      mask_test (mask (ecs s) id) (mask_of [PhysicsBody; Position; Renderable]) = true →
      get_PhysicsBody id (ecs s) = Some bodyId →
      get_Renderable id (ecs s) = Some spriteID →
      pw_bodies (gWorld s) !! bodyId = Some body →
      GetSpriteSrcRect spriteID = Some rect →
      get_Position id (ecs s') =
        Some ((vec_x (body_p body) * PIXELS_PER_METER
               - (fofZ (rect_w rect) * fofZ 1) / fofZ 2)%fl,
              (vec_y (body_p body) * PIXELS_PER_METER
               - (fofZ (rect_h rect) * fofZ 1) / fofZ 2)%fl).
Proof.
  unfold PhysicsSync_entity.
  destruct (mask_test (mask (ecs s) id) _) eqn:Hmask;
    [|intros [= <-]; split; [apply sync_frame_refl|split; done]].
  destruct (get_PhysicsBody id (ecs s)) as [bodyId|] eqn:Hpb; [|done].
  destruct (get_Position id (ecs s)) as [pos|] eqn:Hpos; [|done].
  destruct (get_Renderable id (ecs s)) as [spriteID|] eqn:Hsp; [|done].
  cbn [mbind option_bind]. unfold b2Body_IsValid, b2Body_GetTransform.
  destruct (pw_bodies (gWorld s) !! bodyId) as [body|] eqn:Hbody.
  - rewrite bool_decide_eq_true_2 by (by eexists). cbn [mbind option_bind].
    unfold GetSpriteOffset.
    destruct (GetSpriteSrcRect spriteID) as [rect|] eqn:Hrect; [|done].
    cbn [mbind option_bind]. intros [= <-]. split_and!.
    + repeat split; try done. intros k e Hne. simpl. rewrite get_setComponent.
      rewrite decide_False; [done|]. simpl. by intros [_ ?].
    + intros e Hne. simpl. by rewrite get_Position_set, decide_False.
    + intros b sp bd rc _ Hb Hs Hbd Hrc. simplify_eq. simpl.
      by rewrite get_Position_set, decide_True.
  - rewrite bool_decide_eq_false_2 by (by intros [? ?]).
    intros [= <-]. split; [apply sync_frame_refl|]. split; [done|].
    intros b sp bd rc _ Hb _ Hbd. simplify_eq.
Qed.

Lemma sync_frame_get s s' e :
  sync_frame s s' →
  mask (ecs s') e = mask (ecs s) e
  ∧ get_PhysicsBody e (ecs s') = get_PhysicsBody e (ecs s)
  ∧ get_Renderable e (ecs s') = get_Renderable e (ecs s).
Proof.
  intros (_ & Hm & Hg & _). unfold mask, get_PhysicsBody, get_Renderable.
  by rewrite Hm, !Hg.
Qed.

Lemma PhysicsSync_loop l s s' id bodyId spriteID body rect :
  NoDup l → for_each PhysicsSync_entity l s = Some s' →
  mask_test (mask (ecs s) id) (mask_of [PhysicsBody; Position; Renderable]) = true →
  get_PhysicsBody id (ecs s) = Some bodyId →
  get_Renderable id (ecs s) = Some spriteID →
  pw_bodies (gWorld s) !! bodyId = Some body →
  GetSpriteSrcRect spriteID = Some rect →
  sync_frame s s'
  ∧ (id ∉ l → get_Position id (ecs s') = get_Position id (ecs s))
  ∧ (id ∈ l →
     get_Position id (ecs s') =
       Some ((vec_x (body_p body) * PIXELS_PER_METER
              - (fofZ (rect_w rect) * fofZ 1) / fofZ 2)%fl,
             (vec_y (body_p body) * PIXELS_PER_METER
              - (fofZ (rect_h rect) * fofZ 1) / fofZ 2)%fl)).
Proof.
  intros Hnodup. revert s.
  induction Hnodup as [|a l Ha Hnodup IH]; intros s Hrun Hmask Hpb Hsp Hbody Hrect.
  - injection Hrun as <-. split; [apply sync_frame_refl|]. split; [done|].
    intros Hin. by apply elem_of_nil in Hin.
  - apply for_each_cons_Some in Hrun as (s1 & Hstep & Hl).
    apply PhysicsSync_entity_inv in Hstep as (Hf1 & Hother & Hself).
    destruct (sync_frame_get s s1 id Hf1) as (Hm1 & Hpb1 & Hsp1).
    assert (Hw1 : gWorld s1 = gWorld s) by apply Hf1.
    destruct (IH s1 Hl) as (Hf2 & Hout & Hin); try congruence.
    split; [by eapply sync_frame_trans|]. split.
    + intros Hnotin. apply not_elem_of_cons in Hnotin as [Hne Hnotin].
      rewrite (Hout Hnotin). by apply Hother.
    + intros Hmem. destruct (decide (id = a)) as [->|Hne].
      * rewrite (Hout Ha). by eapply Hself.
      * apply elem_of_cons in Hmem as [?|Hmem]; [done|]. by apply Hin.
Qed.
End PhysicsSyncFacts.

Ltac store_eval :=
  unfold get_Position, get_PhysicsBody, get_Renderable, addAll; cbn [foldl];
  repeat first
    [ rewrite get_addComponent | rewrite has_addComponent ];
  cbn [kind_of];
  repeat first
    [ rewrite decide_True by (split; reflexivity)
    | rewrite decide_False by (intros [_ ?]; discriminate) ].

Section CreateGoldFacts.
Context {F : Type} `{FloatOps F} `{WideOps F}.
Implicit Types (s : State F) (e : Z).

Lemma CreateGold_spec x y s :
  ∃ s1 body,
    CreateGold x y s = Some (w_maxId (ecs s) + 1, s1)
    ∧ w_maxId (ecs s1) = w_maxId (ecs s) + 1
    ∧ get_Position (w_maxId (ecs s) + 1) (ecs s1) = Some (x, y)
    ∧ get_Renderable (w_maxId (ecs s) + 1) (ecs s1) = Some SPRITE_GOLD
    ∧ get_PhysicsBody (w_maxId (ecs s) + 1) (ecs s1) = Some (pw_next (gWorld s))
    ∧ mask_test (mask (ecs s1) (w_maxId (ecs s) + 1))
                (mask_of [PhysicsBody; Position; Renderable]) = true
    ∧ pw_bodies (gWorld s1) !! pw_next (gWorld s) = Some body
    ∧ body_type body = b2_staticBody
    ∧ body_p body = mkVec2 ((x + fofZ 35 / fofZ 2) / PPM)%fl
                           ((y + fofZ 30 / fofZ 2) / PPM)%fl.
Proof.
  unfold CreateGold, createEntity, b2CreateBody, b2CreateShape, new_ent,
    b2Body_SetUserData, upd_body.
  cbn [GetSpriteSrcRect SPRITE_GOLD bool_decide decide_rel mbind option_bind
       gWorld ecs set_ecs set_phys pw_bodies pw_next heap_next on_ecs fst snd
       rect_w rect_h].
  change (GetSpriteSrcRect SPRITE_GOLD) with (Some (mkRect 0 0 35 30)).
  cbn [mbind option_bind rect_w rect_h]. rewrite lookup_insert_eq.
  cbn [mbind option_bind gWorld ecs set_ecs set_phys pw_bodies pw_next heap_next].
  rewrite lookup_insert_eq. cbn [mbind option_bind].
  eexists _, _. split; [reflexivity|].
  cbn [gWorld ecs set_ecs set_phys pw_bodies pw_next heap_next on_ecs set_bodies].
  split_and!.
  - done.
  - by store_eval.
  - by store_eval.
  - by store_eval.
  - apply mask_test_of. intros k Hk. fold (has k (w_maxId (ecs s) + 1)
      (addAll [CPosition x y; CRenderable SPRITE_GOLD; CCollectable; CItemType Gold;
               CValue 70; CWeight (fofZ 5); CCollidable; CPlayerInfo (-1);
               CPhysicsBody (pw_next (gWorld s))] (w_maxId (ecs s) + 1)
         (mkWorld (w_maxId (ecs s) + 1) (w_masks (ecs s)) (w_store (ecs s))))).
    apply list_elem_of_In in Hk. simpl in Hk.
    destruct Hk as [<-|[<-|[<-|[]]]]; store_eval; reflexivity.
  - apply lookup_insert_eq.
  - done.
  - done.
Qed.
End CreateGoldFacts.

Lemma sync_coord_exact (x : Q) (extent : Z) :
  (sync_coord x extent == x)%Q ∧ sync_coord x extent = Qred x.
Proof.
  assert (Heq : (sync_coord x extent == x)%Q).
  { unfold sync_coord, PPM, PIXELS_PER_METER, fofZ. simpl.
    rewrite !Qred_correct. unfold inject_Z. field. }
  split; [done|].
  unfold sync_coord in *. simpl in *. apply Qred_complete.
  by rewrite Qred_correct in Heq.
Qed.

(** C9, as the code has it.  Right after [CreateGold(x, y)] the new
    entity's [Position] is exactly [(x, y)], and its body is static.  After
    a step that leaves that body's transform alone and one
    [PhysicsSyncSystem] run, [Position] is
    [((x + 35/2) / 50 * 50 - 35/2, (y + 30/2) / 50 * 50 - 30/2)] as the
    program's arithmetic evaluates it.  In exact arithmetic that is
    [(x, y)] again; in binary32 each operation rounds. *)
Theorem CreateGold_position_roundtrip :
  (∀ (F : Type) (ops : FloatOps F) (x y : F) (s : State F),
     -1 ≤ w_maxId (ecs s) →
     ∃ e s1 bodyId,
       CreateGold x y s = Some (e, s1)
       ∧ get_Position e (ecs s1) = Some (x, y)
       ∧ get_PhysicsBody e (ecs s1) = Some bodyId
       ∧ body_type <$> pw_bodies (gWorld s1) !! bodyId = Some b2_staticBody
       ∧ ∀ s2 s3,
           ecs s2 = ecs s1 →
           pw_bodies (gWorld s2) !! bodyId = pw_bodies (gWorld s1) !! bodyId →
           PhysicsSyncSystem s2 = Some s3 →
           get_Position e (ecs s3) = Some (sync_coord x 35, sync_coord y 30))
  ∧ (∀ (x : Q) (extent : Z),
       (sync_coord x extent == x)%Q ∧ sync_coord x extent = Qred x).
Proof.
  split; [|apply sync_coord_exact].
  intros F ops x y s Hmax.
  destruct (CreateGold_spec x y s)
    as (s1 & body & Hrun & Hmax1 & Hpos & Hsp & Hpb & Hmask & Hbody & Hty & Hp).
  exists (w_maxId (ecs s) + 1), s1, (pw_next (gWorld s)).
  split; [done|]. split; [done|]. split; [done|]. split; [by rewrite Hbody, <- Hty|].
  intros s2 s3 Hecs Hbodies Hsync. unfold PhysicsSyncSystem in Hsync.
  pose proof (PhysicsSync_loop (ids (ecs s2)) s2 s3 (w_maxId (ecs s) + 1)
                (pw_next (gWorld s)) SPRITE_GOLD body (mkRect 0 0 35 30)
                (NoDup_seqZ _ _) Hsync) as Hloop.
  rewrite Hecs, Hbodies in Hloop.
  destruct (Hloop Hmask Hpb Hsp Hbody eq_refl) as (_ & _ & Hin).
  rewrite Hin.
  - unfold sync_coord. by rewrite Hp.
  - apply elem_of_ids. rewrite Hmax1. lia.
Qed.

(** [CreateGold(100, 500)] in exact arithmetic. *)
Lemma CreateGold_position_roundtrip_witness :
  ∃ e s1 bodyId,
    CreateGold (fofZ 100) (fofZ 500) (initBox2DWorld (initialState (F := Q))) = Some (e, s1)
    ∧ get_Position e (ecs s1) = Some (fofZ 100, fofZ 500)
    ∧ get_PhysicsBody e (ecs s1) = Some bodyId
    ∧ body_type <$> pw_bodies (gWorld s1) !! bodyId = Some b2_staticBody
    ∧ ∀ s2 s3,
        ecs s2 = ecs s1 →
        pw_bodies (gWorld s2) !! bodyId = pw_bodies (gWorld s1) !! bodyId →
        PhysicsSyncSystem s2 = Some s3 →
        get_Position e (ecs s3) = Some (sync_coord (fofZ 100) 35, sync_coord (fofZ 500) 30).
Proof.
  apply (proj1 CreateGold_position_roundtrip Q Exact_FloatOps).
  vm_compute. discriminate.
Defined.

(** In binary32, [CreateGold(100, 500)] followed by a sync ends at
    [x = 13107199 * 2^-17 = 99.99999237...], not at 100. *)
Lemma CreateGold_position_roundtrip_counterexample :
  get_Position 0 (ecs b32_gold_state)
    = Some (S754_finite false 13107200 (-17), S754_finite false 16384000 (-15))
  ∧ (fofZ 100, fofZ 500) = (S754_finite false 13107200 (-17), S754_finite false 16384000 (-15))
  ∧ body_type <$> pw_bodies (gWorld b32_gold_state) !! 1 = Some b2_staticBody
  ∧ isSome (PhysicsSyncSystem b32_gold_state) = true
  ∧ get_Position 0 (ecs b32_synced_state)
    = Some (S754_finite false 13107199 (-17), S754_finite false 16384000 (-15))
  ∧ get_Position 0 (ecs b32_synced_state) ≠ get_Position 0 (ecs b32_gold_state).
Proof.
  split_and!; try vm_refl. vm_compute. discriminate.
Qed.

(** The constants of the extension loop are in order in binary32 too. *)
Example b32_rope_constants :
  (fofZ 0 <=? MAX_LENGTH)%fl = true
  ∧ (fofZ 0 <=? EXTENSION_SPEED * deltaTime)%fl = true
  ∧ (fofZ 0 <=? RETRACTION_SPEED * deltaTime)%fl = true
  ∧ (EXTENSION_SPEED * deltaTime)%fl = S754_finite false 10485761 (-20)
  ∧ (RETRACTION_SPEED * deltaTime)%fl = S754_finite false 15728641 (-20).
Proof. split_and!; vm_refl. Qed.

(** ** The rope state machine across the systems *)

Section RopeControlFacts.
Context {F : Type} `{FloatOps F} `{WideOps F}.
Implicit Types (s : State F) (e : Z).

Lemma attach_or_same_refl s : attach_or_same s s.
Proof. split; [apply holding_frame_refl|]. intros e. by left. Qed.

Lemma attach_or_same_trans s1 s2 s3 :
  attach_or_same s1 s2 → attach_or_same s2 s3 → attach_or_same s1 s3.
Proof.
  intros [Hh12 Hc12] [Hh23 Hc23]. split; [by eapply holding_frame_trans|].
  intros e. destruct (Hc12 e) as [Hsame|(Hret & Hno & Hyes)].
  - destruct (Hc23 e) as [Hsame'|(Hret' & Hno' & Hyes')]; [left; congruence|].
    right. split; [done|]. split; [|done].
    destruct (has GrabbedJoint e (ecs s1)) eqn:Hgj; [|done].
    destruct Hh12 as [_ Hkeep]. destruct (Hkeep e Hgj) as (Hgj2 & _). congruence.
  - destruct Hh23 as [_ Hkeep]. destruct (Hkeep e Hyes) as (Hgj3 & _ & Hrc3).
    right. split; [congruence|]. by split.
Qed.

Lemma Collision_hit_attach_or_same hit s s' :
  Collision_hit hit s = Some s' → attach_or_same s s'.
Proof.
  intros Hrun. split; [by eapply Collision_hit_holding|].
  assert (Htry : ∀ rope item, TryAttachCollectable rope item s = Some s' →
            ∀ e, getComponent RopeControl e (ecs s') = getComponent RopeControl e (ecs s)
                 ∨ (getComponent RopeControl e (ecs s') = Some (CRopeControl Retracting)
                    ∧ has GrabbedJoint e (ecs s) = false
                    ∧ has GrabbedJoint e (ecs s') = true)).
  { intros rope item Htry e. destruct (has GrabbedJoint rope (ecs s)) eqn:Hgj.
    - unfold TryAttachCollectable in Htry. rewrite Hgj in Htry.
      injection Htry as <-. by left.
    - apply TryAttachCollectable_Some in Htry as (rb & ib & body & _ & _ & _ & Hecs & _);
        [|done].
      rewrite Hecs. rewrite get_setComponent, get_addComponent, has_setComponent,
        has_addComponent. simpl.
      destruct (decide (rope = e)) as [<-|Hne].
      + right. rewrite !decide_True by done. done.
      + left. rewrite !decide_False; [done|..]; by intros [? _]. }
  unfold Collision_hit in Hrun.
  destruct (hit_entities hit s) as [[[entA entB]|]|]; simpl in Hrun;
    [| injection Hrun as <-; by left | done].
  repeat case_match; try (injection Hrun as <-; intros e; by left); by eapply Htry.
Qed.

Lemma CollisionSystem_attach_or_same s s' :
  CollisionSystem s = Some s' → attach_or_same s s'.
Proof.
  unfold CollisionSystem. destruct (pw_valid (gWorld s));
    [|intros [= <-]; apply attach_or_same_refl].
  apply (for_each_rel Collision_hit attach_or_same).
  - apply attach_or_same_refl.
  - apply attach_or_same_trans.
  - intros hit t t' _. apply Collision_hit_attach_or_same.
Qed.

Lemma RopeSwingSystem_frame s s' : RopeSwingSystem s = Some s' → swing_frame s s'.
Proof.
  apply (for_each_rel RopeSwing_rope swing_frame).
  - apply swing_frame_refl.
  - apply swing_frame_trans.
  - intros a t t' _ Hstep. by apply RopeSwing_rope_inv in Hstep as (? & _).
Qed.

Lemma PhysicsSyncSystem_frame s s' : PhysicsSyncSystem s = Some s' → sync_frame s s'.
Proof.
  apply (for_each_rel PhysicsSync_entity sync_frame).
  - apply sync_frame_refl.
  - apply sync_frame_trans.
  - intros a t t' _ Hstep. by apply PhysicsSync_entity_inv in Hstep as (? & _).
Qed.

Lemma PlayerInputSystem_frame ev s s' :
  PlayerInputSystem ev s = Some s' → input_frame s s'.
Proof.
  destruct ev as [ev|]; simpl; [|intros [= <-]; apply input_frame_refl].
  intros Hrun. by apply PlayerInput_loop in Hrun as [? _].
Qed.

End RopeControlFacts.



(** * Further properties *)

(** ** DestructionSystem: what is spared, what is emptied *)

Section DestructionMore.
Context {F : Type} `{FloatOps F} `{WideOps F}.
Implicit Types (s : State F) (w : World F) (e : Z) (k : CompKind).

(** X1. [DestructionSystem] creates no entity and leaves the physics world and
    the heap as they were; an entity that does not carry [DestroyTag]
    keeps every mask bit and every component. *)
Theorem DestructionSystem_spares_untagged s :
  w_maxId (ecs (DestructionSystem s)) = w_maxId (ecs s)
  ∧ gWorld (DestructionSystem s) = gWorld s
  ∧ heap (DestructionSystem s) = heap s
  ∧ ∀ e, has DestroyTag e (ecs s) = false →
      ∀ k, has k e (ecs (DestructionSystem s)) = has k e (ecs s)
           ∧ getComponent k e (ecs (DestructionSystem s)) = getComponent k e (ecs s).
Proof.
  split_and!; try done.
  - rewrite ecs_DestructionSystem. generalize (toDelete (ecs s)) as l.
    generalize (ecs s) as w. intros w l. revert w.
    induction l as [|a l IH]; intros w; [done|].
    unfold destroy_all in *. cbn [foldl]. rewrite IH.
    unfold destroy_entity. generalize destroyed_kinds as ks. intros ks. revert w.
    induction ks as [|k ks IHk]; intros w; [done|].
    cbn [foldl]. rewrite IHk. unfold destroy_step. by destruct (has k a w).
  - intros e Htag k.
    assert (Hnot : e ∉ toDelete (ecs s)).
    { rewrite elem_of_toDelete. intros [_ Hh]. congruence. }
    rewrite ecs_DestructionSystem, has_destroy_all, get_destroy_all.
    rewrite !decide_False; [done| |]; by intros [? _].
Qed.

(** X2. An entity that carries [DestroyTag] and has none but the kinds
    [DestructionSystem] enumerates comes out with an empty mask, and every
    component it had is gone from the store. *)
Theorem DestructionSystem_empties_enumerated s e :
  e ∈ toDelete (ecs s) →
  (∀ k, has k e (ecs s) = true → k ∈ destroyed_kinds) →
  ∀ k, has k e (ecs (DestructionSystem s)) = false
       ∧ (has k e (ecs s) = true → getComponent k e (ecs (DestructionSystem s)) = None).
Proof.
  intros He Hall k. rewrite ecs_DestructionSystem, has_destroy_all, get_destroy_all.
  destruct (has k e (ecs s)) eqn:Hk.
  - rewrite !decide_True; [done| |]; auto.
  - split; [|done]. by case_decide.
Qed.
End DestructionMore.

(** X1 on the player of the contact scenario. *)
Lemma DestructionSystem_spares_untagged_witness :
  has Position 0 (ecs (DestructionSystem contact_state)) = true
  ∧ get_Position 0 (ecs (DestructionSystem contact_state)) = Some (570, 10)%Q.
Proof.
  destruct (DestructionSystem_spares_untagged contact_state) as (_ & _ & _ & Hkeep).
  destruct (Hkeep 0 ltac:(vm_refl) Position) as [Hh Hg].
  unfold get_Position. rewrite Hh, Hg. clear. split; vm_refl.
Defined.

(** X2 on the tagged gold. *)
Lemma DestructionSystem_empties_enumerated_witness :
  has PhysicsBody 0 (ecs (DestructionSystem tagged_gold_state)) = false
  ∧ getComponent PhysicsBody 0 (ecs (DestructionSystem tagged_gold_state)) = None
  ∧ mask (ecs (DestructionSystem tagged_gold_state)) 0 = 0%N.
Proof.
  destruct (DestructionSystem_empties_enumerated tagged_gold_state 0) with (k := PhysicsBody)
    as [Hh Hg].
  - apply elem_of_toDelete. vm_compute. split; [eexists|]; reflexivity.
  - intros k Hk. destruct k; try solve [solve_elem_of_list]; revert Hk; vm_compute; intros [=].
  - split; [exact Hh|]. split; [apply Hg; vm_refl|]. vm_refl.
Defined.

(** ** The search for a player *)

Section FindPlayer.
Context {F : Type}.
Implicit Types (w : World F) (e : Z).

Lemma find_player_in_found l p w pid pos :
  find_player_in l p w = Some (Some (pid, pos)) ↔
  ∃ l1 l2, l = l1 ++ pid :: l2
    ∧ (∀ e, e ∈ l1 → passed_over p w e)
    ∧ mask_test (mask w pid) playerMask = true
    ∧ get_PlayerInfo pid w = Some p
    ∧ get_Position pid w = Some pos.
Proof.
  induction l as [|a l IH]; simpl.
  - split; [done|]. intros (l1 & l2 & Hl & _). by destruct l1.
  - destruct (mask_test (mask w a) playerMask) eqn:Hm.
    + destruct (get_PlayerInfo a w) as [q|] eqn:Hq; simpl.
      * case_bool_decide as Hp.
        -- subst q. destruct (get_Position a w) as [pos'|] eqn:Hpos; simpl.
           ++ split.
              ** intros [= <- <-]. exists [], l. split_and!; try done.
                 intros e He. by apply elem_of_nil in He.
              ** intros (l1 & l2 & Hl & Hpass & Hm' & Hq' & Hpos').
                 destruct l1 as [|b l1]; simplify_eq/=; [done|].
                 destruct (Hpass b) as (q & Hq1 & Hne); [by left|done|]. congruence.
           ++ split; [done|].
              intros (l1 & l2 & Hl & Hpass & Hm' & Hq' & Hpos').
              destruct l1 as [|b l1]; simplify_eq/=; try congruence.
              destruct (Hpass b) as (q & Hq1 & Hne); [by left|done|]. congruence.
        -- rewrite IH. split.
           ++ intros (l1 & l2 & -> & Hpass & Hrest). exists (a :: l1), l2.
              split; [done|]. split; [|done].
              intros e [->|He]%elem_of_cons; [|by apply Hpass].
              intros _. by exists q.
           ++ intros (l1 & l2 & Hl & Hpass & Hm' & Hq' & Hpos').
              destruct l1 as [|b l1]; simplify_eq/=; try congruence.
              exists l1, l2. split; [done|]. split; [|done].
              intros e He. apply Hpass. by right.
      * split; [done|].
        intros (l1 & l2 & Hl & Hpass & Hm' & Hq' & Hpos').
        destruct l1 as [|b l1]; simplify_eq/=; try congruence.
        destruct (Hpass b) as (q & Hq1 & Hne); [by left|done|]. congruence.
    + rewrite IH. split.
      * intros (l1 & l2 & -> & Hpass & Hrest). exists (a :: l1), l2.
        split; [done|]. split; [|done].
        intros e [->|He]%elem_of_cons; [|by apply Hpass].
        intros Hm'. congruence.
      * intros (l1 & l2 & Hl & Hpass & Hm' & Hq' & Hpos').
        destruct l1 as [|b l1]; simplify_eq/=; try congruence.
        exists l1, l2. split; [done|]. split; [|done].
        intros e He. apply Hpass. by right.
Qed.

Lemma find_player_in_none l p w :
  find_player_in l p w = Some None ↔ ∀ e, e ∈ l → passed_over p w e.
Proof.
  induction l as [|a l IH]; simpl.
  - split; [|done]. intros _ e He. by apply elem_of_nil in He.
  - destruct (mask_test (mask w a) playerMask) eqn:Hm.
    + destruct (get_PlayerInfo a w) as [q|] eqn:Hq; simpl.
      * case_bool_decide as Hp.
        -- subst q. split.
           ++ destruct (get_Position a w); done.
           ++ intros Hpass. destruct (Hpass a) as (q & Hq1 & Hne); [by left|done|].
              congruence.
        -- rewrite IH. split.
           ++ intros Hpass e [->|He]%elem_of_cons; [|by apply Hpass].
              intros _. by exists q.
           ++ intros Hpass e He. apply Hpass. by right.
      * split; [done|]. intros Hpass.
        destruct (Hpass a) as (q & Hq1 & Hne); [by left|done|]. congruence.
    + rewrite IH. split.
      * intros Hpass e [->|He]%elem_of_cons; [|by apply Hpass].
        intros Hm'. congruence.
      * intros Hpass e He. apply Hpass. by right.
Qed.

Lemma seqZ_split_at (n pid : Z) l1 l2 :
  seqZ 0 n = l1 ++ pid :: l2 → 0 ≤ pid < n ∧ ∀ e, e ∈ l1 ↔ 0 ≤ e < pid.
Proof.
  intros Hl.
  assert (Hlen : pid = Z.of_nat (length l1)).
  { assert (Hlk : seqZ 0 n !! length l1 = Some pid).
    { rewrite Hl. by apply list_lookup_middle. }
    apply lookup_seqZ in Hlk. lia. }
  assert (Hin : pid ∈ seqZ 0 n).
  { rewrite Hl. apply elem_of_app. right. by left. }
  apply elem_of_seqZ in Hin. split; [lia|].
  intros e. split.
  - intros He. apply list_elem_of_lookup in He as [i Hi].
    assert (Hi' : seqZ 0 n !! i = Some e).
    { rewrite Hl. by apply lookup_app_l_Some. }
    apply lookup_lt_Some in Hi. apply lookup_seqZ in Hi'. lia.
  - intros He. apply list_elem_of_lookup. exists (Z.to_nat e).
    assert (Hi' : seqZ 0 n !! Z.to_nat e = Some e).
    { apply lookup_seqZ. lia. }
    rewrite Hl in Hi'. rewrite lookup_app_l in Hi' by lia. done.
Qed.

Lemma find_player_spec (playerID : Z) w :
  (∀ pid pos,
     find_player playerID w = Some (Some (pid, pos)) ↔
     0 ≤ pid ≤ w_maxId w
     ∧ mask_test (mask w pid) playerMask = true
     ∧ get_PlayerInfo pid w = Some playerID
     ∧ get_Position pid w = Some pos
     ∧ ∀ e, 0 ≤ e < pid → passed_over playerID w e)
  ∧ (find_player playerID w = Some None ↔
     ∀ e, 0 ≤ e ≤ w_maxId w → passed_over playerID w e).
Proof.
  unfold find_player, ids. split.
  - intros pid pos. rewrite find_player_in_found. split.
    + intros (l1 & l2 & Hl & Hpass & Hm & Hq & Hpos).
      apply seqZ_split_at in Hl as [Hr Hl1].
      split; [lia|]. split_and!; try done.
      intros e He. by apply Hpass, Hl1.
    + intros (Hr & Hm & Hq & Hpos & Hpass).
      exists (seqZ 0 pid), (seqZ (pid + 1) (w_maxId w - pid)).
      split_and!; try done.
      * replace (w_maxId w + 1) with (pid + (1 + (w_maxId w - pid))) by lia.
        rewrite seqZ_app by lia. f_equal. rewrite seqZ_cons by lia. simpl.
        f_equal. f_equal; lia.
      * intros e He%elem_of_seqZ. apply Hpass. lia.
  - rewrite find_player_in_none. split.
    + intros Hpass e He. apply Hpass, elem_of_seqZ. lia.
    + intros Hpass e He%elem_of_seqZ. apply Hpass. lia.
Qed.

(** X3. The search for a player returns the entity with the lowest id that
    has [Position] and [PlayerInfo] and whose [playerID] is the one asked
    for, with its position; it finds nobody exactly when every id up to
    [maxId] is passed over. *)
Theorem find_player_first_match (playerID : Z) w :
  (∀ pid pos,
     find_player playerID w = Some (Some (pid, pos)) ↔
     0 ≤ pid ≤ w_maxId w
     ∧ mask_test (mask w pid) playerMask = true
     ∧ get_PlayerInfo pid w = Some playerID
     ∧ get_Position pid w = Some pos
     ∧ ∀ e, 0 ≤ e < pid → passed_over playerID w e)
  ∧ (find_player playerID w = Some None ↔
     ∀ e, 0 ≤ e ≤ w_maxId w → passed_over playerID w e).
Proof. exact (find_player_spec playerID w). Qed.
End FindPlayer.

(** ** Entity creation *)

Section StoreMore.
Context {F : Type}.
Implicit Types (w : World F) (e : Z) (k : CompKind) (c : Component F).

Lemma maxId_addAll cs e w : w_maxId (addAll cs e w) = w_maxId w.
Proof.
  unfold addAll. revert w. induction cs as [|c cs IH]; intros w; [done|].
  cbn [foldl]. by rewrite IH.
Qed.

Lemma has_addAll_other cs e k e' w :
  e ≠ e' → has k e' (addAll cs e w) = has k e' w.
Proof.
  intros Hne. unfold addAll. revert w.
  induction cs as [|c cs IH]; intros w; [done|].
  cbn [foldl]. rewrite IH, has_addComponent. by rewrite decide_False by (by intros [? _]).
Qed.

Lemma get_addAll_other cs e k e' w :
  e ≠ e' → getComponent k e' (addAll cs e w) = getComponent k e' w.
Proof.
  intros Hne. unfold addAll. revert w.
  induction cs as [|c cs IH]; intros w; [done|].
  cbn [foldl]. rewrite IH, get_addComponent. by rewrite decide_False by (by intros [? _]).
Qed.

Lemma has_addAll_in cs e k w :
  k ∈ kind_of <$> cs → has k e (addAll cs e w) = true.
Proof.
  unfold addAll. revert w.
  induction cs as [|c cs IH] using rev_ind; intros w Hin.
  - by apply elem_of_nil in Hin.
  - rewrite foldl_app. cbn [foldl]. rewrite has_addComponent.
    destruct (decide (e = e ∧ kind_of c = k)) as [|Hne]; [done|].
    apply IH. rewrite fmap_app in Hin. apply elem_of_app in Hin as [Hin|Hin]; [done|].
    apply list_elem_of_singleton in Hin. destruct Hne. by split.
Qed.

Lemma mask_test_addAll cs e ks w :
  ks ⊆ kind_of <$> cs → mask_test (mask (addAll cs e w) e) (mask_of ks) = true.
Proof.
  intros Hsub. apply mask_test_of. intros k Hk.
  apply (has_addAll_in cs e k w). by apply Hsub.
Qed.

Lemma find_player_createEntity p w x :
  find_player p w = Some (Some x) →
  find_player p (createEntity w).2 = Some (Some x).
Proof.
  destruct x as [pid pos]. intros Hf.
  apply (find_player_spec p w) in Hf as (Hr & Hm & Hq & Hpos & Hpass).
  apply find_player_spec. simpl. split; [lia|]. done.
Qed.
End StoreMore.

Section Factories.
Context {F : Type} `{FloatOps F} `{WideOps F}.
Implicit Types (s : State F) (w : World F) (e : Z) (k : CompKind).

(** X4. When no entity is a player with the given id, [CreateRope] returns
    -1: the entity id it drew at the start stays consumed, and nothing
    else changes, neither masks, components, physics world nor heap. *)
Theorem CreateRope_without_player playerID s :
  (∀ e, 0 ≤ e ≤ w_maxId (ecs s) + 1 → passed_over playerID (ecs s) e) →
  ∃ s', CreateRope playerID s = Some (-1, s')
    ∧ w_maxId (ecs s') = w_maxId (ecs s) + 1
    ∧ w_masks (ecs s') = w_masks (ecs s)
    ∧ w_store (ecs s') = w_store (ecs s)
    ∧ gWorld s' = gWorld s ∧ heap s' = heap s ∧ heap_next s' = heap_next s.
Proof.
  intros Hpass. unfold CreateRope.
  destruct (createEntity (ecs s)) as [e w] eqn:Hc.
  assert (Hw : w = mkWorld (w_maxId (ecs s) + 1) (w_masks (ecs s)) (w_store (ecs s))).
  { unfold createEntity in Hc. congruence. }
  assert (Hf : find_player playerID w = Some None).
  { apply find_player_spec. subst w. exact Hpass. }
  rewrite Hf. cbn [mbind option_bind]. eexists. split; [reflexivity|].
  subst w. done.
Qed.

(** X5. When the player is found, [CreateRope] returns the new entity: it has
    the eight rope components, at rest with length and rotation 0, placed
    at the winch below the player; its body is a dynamic bullet at that
    place in metres, with hit events on, whose user data is a fresh heap
    cell holding the entity id, and it carries one circle of radius 0.3
    with hit events enabled. *)
Theorem CreateRope_spec playerID s player px py :
  find_player playerID (ecs s) = Some (Some (player, (px, py))) →
  let e := w_maxId (ecs s) + 1 in
  let b := pw_next (gWorld s) in
  ∃ s' body,
    CreateRope playerID s = Some (e, s')
    ∧ w_maxId (ecs s') = e
    ∧ getComponent Position e (ecs s')
        = Some (CPosition (rope_start px py).1 (rope_start px py).2)
    ∧ getComponent Rotation e (ecs s') = Some (CRotation (fofZ 0))
    ∧ getComponent Length e (ecs s') = Some (CLength (fofZ 0))
    ∧ getComponent RopeControl e (ecs s') = Some (CRopeControl AtRest)
    ∧ getComponent PlayerInfo e (ecs s') = Some (CPlayerInfo playerID)
    ∧ getComponent PhysicsBody e (ecs s') = Some (CPhysicsBody b)
    ∧ mask_test (mask (ecs s') e)
        (mask_of [Position; Rotation; Length; RopeControl; RoperTag; PlayerInfo;
                  Collidable; PhysicsBody]) = true
    ∧ pw_bodies (gWorld s') !! b = Some body
    ∧ body_type body = b2_dynamicBody
    ∧ body_isBullet body = true
    ∧ body_fixedRotation body = false
    ∧ body_hitEvents body = true
    ∧ body_p body = mkVec2 ((rope_start px py).1 / PPM)%fl ((rope_start px py).2 / PPM)%fl
    ∧ body_linearVelocity body = vec0
    ∧ body_userData body = Some (heap_next s)
    ∧ heap s' !! heap_next s = Some e
    ∧ (shape_body <$> pw_shapes (gWorld s') !! (b + 1)) = Some b
    ∧ (shape_geometry <$> pw_shapes (gWorld s') !! (b + 1))
        = Some (Circle vec0 (fofQ (3 # 10)))
    ∧ (sd_enableHitEvents ∘ shape_def <$> pw_shapes (gWorld s') !! (b + 1)) = Some true.
Proof.
  intros Hf e b. subst e b.
  apply find_player_createEntity in Hf.
  unfold CreateRope. destruct (createEntity (ecs s)) as [e w] eqn:Hc.
  assert (Hw : w = mkWorld (w_maxId (ecs s) + 1) (w_masks (ecs s)) (w_store (ecs s))
               ∧ e = w_maxId (ecs s) + 1).
  { unfold createEntity in Hc. split; congruence. }
  destruct Hw as [Hw ->]. cbn [snd] in Hf. rewrite Hf. clear Hf Hc.
  cbn [mbind option_bind].
  change (GetSpriteSrcRect SPRITE_PLAYER_IDLE) with (Some (mkRect 0 7 164 169)).
  cbn [mbind option_bind rect_w rect_h].
  unfold b2CreateBody, b2Body_EnableHitEvents, b2CreateShape, b2Body_SetLinearVelocity,
    new_ent, b2Body_SetUserData, upd_body.
  cbn [gWorld ecs set_ecs set_phys pw_bodies pw_next heap_next on_ecs fst snd
       set_bodies heap pw_shapes def_type def_position def_fixedRotation def_isBullet].
  rewrite !lookup_insert_eq. cbn [mbind option_bind].
  cbn [gWorld ecs set_ecs set_phys pw_bodies pw_next heap_next on_ecs fst snd
       set_bodies heap pw_shapes body_type body_p body_q body_linearVelocity
       body_angularVelocity body_gravityScale body_fixedRotation body_isBullet
       body_hitEvents body_userData].
  rewrite !lookup_insert_eq. cbn [mbind option_bind].
  cbn [gWorld ecs set_ecs set_phys pw_bodies pw_next heap_next on_ecs fst snd
       set_bodies heap pw_shapes body_type body_p body_q body_linearVelocity
       body_angularVelocity body_gravityScale body_fixedRotation body_isBullet
       body_hitEvents body_userData].
  rewrite ?lookup_insert_eq. cbn [mbind option_bind].
  cbn [gWorld ecs set_ecs set_phys pw_bodies pw_next heap_next on_ecs fst snd
       set_bodies heap pw_shapes body_type body_p body_q body_linearVelocity
       body_angularVelocity body_gravityScale body_fixedRotation body_isBullet
       body_hitEvents body_userData].
  rewrite ?lookup_insert_eq. cbn [mbind option_bind].
  cbn [gWorld ecs set_ecs set_phys pw_bodies pw_next heap_next on_ecs fst snd
       set_bodies heap pw_shapes body_type body_p body_q body_linearVelocity
       body_angularVelocity body_gravityScale body_fixedRotation body_isBullet
       body_hitEvents body_userData].
  eexists _, _. (split; [reflexivity|]).
  cbn [gWorld ecs set_ecs set_phys pw_bodies pw_next heap_next on_ecs fst snd
       set_bodies heap pw_shapes].
  split_and!.
  - by rewrite maxId_addAll, Hw.
  - by store_eval.
  - by store_eval.
  - by store_eval.
  - by store_eval.
  - by store_eval.
  - by store_eval.
  - (apply mask_test_addAll; intros k Hk; apply list_elem_of_In in Hk;
    apply list_elem_of_In; simpl in *; tauto).
  - apply lookup_insert_eq.
  - done.
  - done.
  - done.
  - done.
  - done.
  - done.
  - done.
  - apply lookup_insert_eq.
  - by rewrite lookup_insert_eq.
  - by rewrite lookup_insert_eq.
  - by rewrite lookup_insert_eq.
Qed.
End Factories.

(** X4 in the empty world. *)
Lemma CreateRope_without_player_witness :
  ∃ s', CreateRope 1 (initBox2DWorld (initialState (F := Q))) = Some (-1, s')
    ∧ w_maxId (ecs s') = 0
    ∧ w_masks (ecs s') = ∅
    ∧ w_store (ecs s') = ∅
    ∧ gWorld s' = gWorld (initBox2DWorld (initialState (F := Q)))
    ∧ heap s' = ∅ ∧ heap_next s' = 1.
Proof.
  apply (CreateRope_without_player 1 (initBox2DWorld (initialState (F := Q)))).
  intros e _ Hm. exfalso. revert Hm. unfold mask. simpl. rewrite lookup_empty.
  vm_compute. intros [=].
Defined.

(** X5 for the player at (570, 10), in binary32. *)
Lemma CreateRope_spec_witness :
  ∃ s' body,
    CreateRope 1 b32_player_state = Some (1, s')
    ∧ w_maxId (ecs s') = 1
    ∧ getComponent Position 1 (ecs s')
        = Some (CPosition (rope_start (fofZ 570) (fofZ 10)).1 (rope_start (fofZ 570) (fofZ 10)).2)
    ∧ getComponent Rotation 1 (ecs s') = Some (CRotation (fofZ 0))
    ∧ getComponent Length 1 (ecs s') = Some (CLength (fofZ 0))
    ∧ getComponent RopeControl 1 (ecs s') = Some (CRopeControl AtRest)
    ∧ getComponent PlayerInfo 1 (ecs s') = Some (CPlayerInfo 1)
    ∧ getComponent PhysicsBody 1 (ecs s') = Some (CPhysicsBody 1)
    ∧ mask_test (mask (ecs s') 1)
        (mask_of [Position; Rotation; Length; RopeControl; RoperTag; PlayerInfo;
                  Collidable; PhysicsBody]) = true
    ∧ pw_bodies (gWorld s') !! 1 = Some body
    ∧ body_type body = b2_dynamicBody
    ∧ body_isBullet body = true
    ∧ body_fixedRotation body = false
    ∧ body_hitEvents body = true
    ∧ body_p body = mkVec2 ((rope_start (fofZ 570) (fofZ 10)).1 / PPM)%fl
                           ((rope_start (fofZ 570) (fofZ 10)).2 / PPM)%fl
    ∧ body_linearVelocity body = vec0
    ∧ body_userData body = Some 1
    ∧ heap s' !! 1 = Some 1
    ∧ (shape_body <$> pw_shapes (gWorld s') !! 2) = Some 1
    ∧ (shape_geometry <$> pw_shapes (gWorld s') !! 2)
        = Some (Circle vec0 (fofQ (3 # 10)))
    ∧ (sd_enableHitEvents ∘ shape_def <$> pw_shapes (gWorld s') !! 2) = Some true.
Proof.
  apply (CreateRope_spec 1 b32_player_state 0 (fofZ 570) (fofZ 10)). vm_refl.
Defined.

(** In binary32 the winch of [CreateRope] is 12183142 * 2^-16 below the
    player: the product with the [double] literal is rounded once, where a
    [float] product gives 12183143 * 2^-16. *)
Example b32_rope_start :
  fnarrow (fwiden (fofZ 169 : B32.t) * fofQ (11 # 10))%fl
    = S754_finite false 12183142 (-16)
  ∧ (fofZ 169 * fofQ (11 # 10))%fl = (S754_finite false 12183143 (-16) : B32.t)
  ∧ rope_start (fofZ 570 : B32.t) (fofZ 10)
    = (S754_finite false 9336193 (-14), S754_finite false 12838502 (-16))
  ∧ get_Position 1 (ecs b32_game_state) = Some (rope_start (fofZ 570) (fofZ 10)).
Proof. split_and!; vm_refl. Qed.

Ltac sublist_of_kinds :=
  let k := fresh "k" in let Hk := fresh "Hk" in
  intros k Hk; apply list_elem_of_In in Hk; apply list_elem_of_In; simpl in *; tauto.

Ltac item_factory_spec :=
  unfold creates_item, createEntity, b2CreateBody, b2CreateShape, new_ent,
    b2Body_SetUserData, upd_body, circle_of_width;
  cbn [mbind option_bind gWorld ecs set_ecs set_phys pw_bodies pw_next heap_next
       on_ecs fst snd rect_w rect_h def_type def_position];
  rewrite lookup_insert_eq;
  cbn [mbind option_bind gWorld ecs set_ecs set_phys pw_bodies pw_next heap_next
       body_type body_p body_q body_linearVelocity body_angularVelocity
       body_gravityScale body_fixedRotation body_isBullet body_hitEvents body_userData];
  rewrite lookup_insert_eq; cbn [mbind option_bind];
  eexists _, _, _; split; [reflexivity|];
  cbn [gWorld ecs set_ecs set_phys pw_bodies pw_shapes pw_next heap heap_next on_ecs
       set_bodies];
  split_and!;
  [ by rewrite maxId_addAll
  | by store_eval | by store_eval | by store_eval | by store_eval | by store_eval
  | by store_eval | by store_eval
  | apply mask_test_addAll; sublist_of_kinds
  | apply lookup_insert_eq
  | done | done | done
  | apply lookup_insert_eq
  | apply lookup_insert_eq
  | done | done
  | lia ].

Section ItemFactories.
Context {F : Type} `{FloatOps F} `{WideOps F}.
Implicit Types (s : State F) (w : World F) (e : Z) (k : CompKind).

(** X6. [CreateGold], [CreateRock], [CreateDiamond] and [CreateTreasureChest]
    each return a new entity with the nine item components, its kind,
    value and weight, and a static body centred on the sprite rectangle,
    carrying a circle whose radius is half the sprite's width. *)
Theorem item_factories_spec (x y : F) s :
  creates_item (CreateGold x y s) s x y SPRITE_GOLD 35 30 Gold 70 (fofZ 5)
    (circle_of_width 35)
  ∧ creates_item (CreateRock x y s) s x y SPRITE_ROCK 77 87 Rock 100 (fofZ 1)
      (circle_of_width 77)
  ∧ creates_item (CreateDiamond x y s) s x y SPRITE_DIAMOND 41 32 Diamond 100 (fofZ 1)
      (circle_of_width 41)
  ∧ creates_item (CreateTreasureChest x y s) s x y SPRITE_TREASURE_CHEST 88 82
      TreasureChest 100 (fofZ 3) (circle_of_width 88).
Proof.
  split_and!.
  - unfold CreateGold.
    change (GetSpriteSrcRect SPRITE_GOLD) with (Some (mkRect 0 0 35 30)).
    item_factory_spec.
  - unfold CreateRock.
    change (GetSpriteSrcRect SPRITE_ROCK) with (Some (mkRect 0 0 77 87)).
    item_factory_spec.
  - unfold CreateDiamond.
    change (GetSpriteSrcRect SPRITE_DIAMOND) with (Some (mkRect 0 0 41 32)).
    item_factory_spec.
  - unfold CreateTreasureChest.
    change (GetSpriteSrcRect SPRITE_TREASURE_CHEST) with (Some (mkRect 33 50 88 82)).
    item_factory_spec.
Qed.
End ItemFactories.

(** X7. [CreateMysteryBag] measures a sprite whose rectangle is never set, 0
    by 0: the bag's body sits at the very point [(x, y)] and the five
    vertices of its outline all coincide at the body's origin (in binary32
    they are zeros of either sign). *)
Theorem CreateMysteryBag_degenerate :
  (∀ (F : Type) (ops : FloatOps F) (x y : F) (s : State F),
     creates_item (CreateMysteryBag x y s) s x y SPRITE_MYSTERY_BAG 0 0
       MysteryBag 0 (fofZ 1) (sack_polygon 0 0))
  ∧ sack_polygon (F := Q) 0 0 = Polygon (replicate 5 (mkVec2 0%Q 0%Q))
  ∧ sack_polygon (F := B32.t) 0 0 =
      Polygon [ mkVec2 (S754_zero false) (S754_zero true);
                mkVec2 (S754_zero true) (S754_zero true);
                mkVec2 (S754_zero true) (S754_zero false);
                mkVec2 (S754_zero false) (S754_zero false);
                mkVec2 (S754_zero false) (S754_zero true) ].
Proof.
  split_and!.
  - intros F ops x y s. unfold CreateMysteryBag, sack_polygon.
    change (GetSpriteSrcRect SPRITE_MYSTERY_BAG) with (Some (mkRect 0 0 0 0)).
    item_factory_spec.
  - vm_compute. reflexivity.
  - vm_compute. reflexivity.
Qed.

Ltac creation_frame_tac :=
  unfold creation_frame;
  cbn [gWorld ecs set_ecs set_phys pw_bodies pw_shapes pw_joints pw_next heap heap_next
       on_ecs set_bodies swingDirections w_maxId];
  split_and!;
  [ rewrite ?maxId_addAll; reflexivity
  | let k := fresh "k" in let e := fresh "e" in let Hne := fresh "Hne" in
    intros k e Hne;
    first [ rewrite has_addAll_other, get_addAll_other by congruence
          | rewrite has_addComponent, get_addComponent, !decide_False
              by (intros [? _]; congruence)
          | idtac ];
    done
  | let b := fresh "b" in let Hb := fresh "Hb" in
    intros b Hb; rewrite ?lookup_insert_ne by lia; done
  | reflexivity
  | lia
  | let p := fresh "p" in let Hp := fresh "Hp" in
    intros p Hp; rewrite ?lookup_insert_ne by lia; done
  | lia
  | reflexivity ].

Ltac item_factory_frame :=
  unfold createEntity, b2CreateBody, b2CreateShape, new_ent,
    b2Body_SetUserData, upd_body;
  cbn [mbind option_bind gWorld ecs set_ecs set_phys pw_bodies pw_next heap_next
       on_ecs fst snd rect_w rect_h def_type def_position];
  rewrite lookup_insert_eq;
  cbn [mbind option_bind gWorld ecs set_ecs set_phys pw_bodies pw_next heap_next
       body_type body_p body_q body_linearVelocity body_angularVelocity
       body_gravityScale body_fixedRotation body_isBullet body_hitEvents body_userData];
  rewrite lookup_insert_eq; cbn [mbind option_bind];
  intros [= <- <-]; split; [creation_frame_tac | reflexivity].

Section CreationFrame.
Context {F : Type} `{FloatOps F} `{WideOps F}.
Implicit Types (s : State F).

(** X8. Every factory, [CreatePlayer], [CreateRope], the five item factories,
    [CreateTimer], [CreateUIEntity] and [CreateMole], consumes exactly one
    entity id and leaves alone every other entity's mask and components,
    every body, shape and heap cell that existed, the joints and the swing
    directions; all but a [CreateRope] that finds no player return the new
    id. *)
Theorem entity_creation_frame s :
  (∀ playerID, creation_frame s (CreatePlayer playerID s).2
               ∧ (CreatePlayer playerID s).1 = w_maxId (ecs s) + 1)
  ∧ (∀ playerID r s', CreateRope playerID s = Some (r, s') →
       creation_frame s s' ∧ (r = w_maxId (ecs s) + 1 ∨ r = -1))
  ∧ (∀ x y r s',
       CreateGold x y s = Some (r, s') ∨ CreateRock x y s = Some (r, s')
       ∨ CreateDiamond x y s = Some (r, s') ∨ CreateTreasureChest x y s = Some (r, s')
       ∨ CreateMysteryBag x y s = Some (r, s') →
       creation_frame s s' ∧ r = w_maxId (ecs s) + 1)
  ∧ (creation_frame s (CreateTimer s).2 ∧ (CreateTimer s).1 = w_maxId (ecs s) + 1)
  ∧ (∀ playerID, creation_frame s (CreateUIEntity playerID s).2
                 ∧ (CreateUIEntity playerID s).1 = w_maxId (ecs s) + 1)
  ∧ (∀ x y, creation_frame s (CreateMole x y s).2
            ∧ (CreateMole x y s).1 = w_maxId (ecs s) + 1).
Proof.
  refine (conj _ (conj _ (conj _ (conj _ (conj _ _))))).
  - intros playerID. unfold CreatePlayer, createEntity. cbn [fst snd].
    split; [|done]. creation_frame_tac.
  - intros playerID r s'. unfold CreateRope.
    destruct (createEntity (ecs s)) as [e w] eqn:Hc.
    assert (Hw : w = mkWorld (w_maxId (ecs s) + 1) (w_masks (ecs s)) (w_store (ecs s))
                 ∧ e = w_maxId (ecs s) + 1).
    { unfold createEntity in Hc. split; congruence. }
    destruct Hw as [-> ->]. clear Hc.
    destruct (find_player playerID _) as [[[player [px py]]|]|]; cbn [mbind option_bind].
    + change (GetSpriteSrcRect SPRITE_PLAYER_IDLE) with (Some (mkRect 0 7 164 169)).
      cbn [mbind option_bind rect_w rect_h].
      unfold b2CreateBody, b2Body_EnableHitEvents, b2CreateShape,
        b2Body_SetLinearVelocity, new_ent, b2Body_SetUserData, upd_body.
      cbn [gWorld ecs set_ecs set_phys pw_bodies pw_next heap_next on_ecs fst snd
           set_bodies heap pw_shapes def_type def_position def_fixedRotation def_isBullet].
      rewrite !lookup_insert_eq. cbn [mbind option_bind].
      cbn [gWorld ecs set_ecs set_phys pw_bodies pw_next heap_next on_ecs fst snd
           set_bodies heap pw_shapes body_type body_p body_q body_linearVelocity
           body_angularVelocity body_gravityScale body_fixedRotation body_isBullet
           body_hitEvents body_userData].
      rewrite !lookup_insert_eq. cbn [mbind option_bind].
      cbn [gWorld ecs set_ecs set_phys pw_bodies pw_next heap_next on_ecs fst snd
           set_bodies heap pw_shapes body_type body_p body_q body_linearVelocity
           body_angularVelocity body_gravityScale body_fixedRotation body_isBullet
           body_hitEvents body_userData].
      rewrite ?lookup_insert_eq. cbn [mbind option_bind].
      cbn [gWorld ecs set_ecs set_phys pw_bodies pw_next heap_next on_ecs fst snd
           set_bodies heap pw_shapes body_type body_p body_q body_linearVelocity
           body_angularVelocity body_gravityScale body_fixedRotation body_isBullet
           body_hitEvents body_userData].
      rewrite ?lookup_insert_eq. cbn [mbind option_bind].
      intros [= <- <-]. split; [|by left]. creation_frame_tac.
    + intros [= <- <-]. split; [|by right]. creation_frame_tac.
    + done.
  - intros x y r s' [Hc|[Hc|[Hc|[Hc|Hc]]]]; revert Hc.
    + unfold CreateGold.
      change (GetSpriteSrcRect SPRITE_GOLD) with (Some (mkRect 0 0 35 30)).
      item_factory_frame.
    + unfold CreateRock.
      change (GetSpriteSrcRect SPRITE_ROCK) with (Some (mkRect 0 0 77 87)).
      item_factory_frame.
    + unfold CreateDiamond.
      change (GetSpriteSrcRect SPRITE_DIAMOND) with (Some (mkRect 0 0 41 32)).
      item_factory_frame.
    + unfold CreateTreasureChest.
      change (GetSpriteSrcRect SPRITE_TREASURE_CHEST) with (Some (mkRect 33 50 88 82)).
      item_factory_frame.
    + unfold CreateMysteryBag.
      change (GetSpriteSrcRect SPRITE_MYSTERY_BAG) with (Some (mkRect 0 0 0 0)).
      item_factory_frame.
  - unfold CreateTimer, createEntity. cbn [fst snd]. split; [|done]. creation_frame_tac.
  - intros playerID. unfold CreateUIEntity, createEntity. cbn [fst snd].
    split; [|done]. creation_frame_tac.
  - intros x y. unfold CreateMole, createEntity. cbn [fst snd].
    split; [|done]. creation_frame_tac.
Qed.
End CreationFrame.

(** ** DrawNumber *)

Section DrawNumberFacts.
Context {F : Type} `{FloatOps F} `{WideOps F}.

Lemma DrawNumber_chars_cons_digit (c : Ascii.ascii) cs (x y : F) (d : Z) rect :
  Z.of_nat (Ascii.nat_of_ascii c) - 48 = d →
  GetSpriteSrcRect (SPRITE_DIGIT_0 + d) = Some rect →
  DrawNumber_chars (c :: cs) x y =
    rest ← DrawNumber_chars cs
             (x + (fofZ (rect_w rect) * digit_SCALE + fofZ 2))%fl y;
    Some (SDL_RenderTexture (SPRITE_DIGIT_0 + d) (rect_to_frect rect)
            (mkFRect x y (fofZ (rect_w rect) * digit_SCALE)%fl
                     (fofZ (rect_h rect) * digit_SCALE)%fl) :: rest).
Proof.
  intros Hd Hrect. cbn [DrawNumber_chars]. rewrite Hd, Hrect. done.
Qed.

Lemma digit_rect (d : Z) : 0 ≤ d ≤ 9 → is_Some (GetSpriteSrcRect (SPRITE_DIGIT_0 + d)).
Proof.
  intros Hd.
  assert (Hcases : d = 0 ∨ d = 1 ∨ d = 2 ∨ d = 3 ∨ d = 4 ∨ d = 5 ∨ d = 6 ∨ d = 7
                   ∨ d = 8 ∨ d = 9) by lia.
  destruct Hcases as [->|[->|[->|[->|[->|[->|[->|[->|[->| ->]]]]]]]]]; by eexists.
Qed.

Lemma DrawNumber_chars_digit_step (c : Ascii.ascii) cs (d : Z) (acc acc' : Z) :
  Z.of_nat (Ascii.nat_of_ascii c) - 48 = d → 0 ≤ d ≤ 9 →
  (∀ (x y : F), ∃ calls, DrawNumber_chars cs x y = Some calls
     ∧ Forall digit_call calls
     ∧ foldl digit_step (digit_step acc d) (drawn_digits calls) = acc') →
  ∀ (x y : F), ∃ calls, DrawNumber_chars (c :: cs) x y = Some calls
     ∧ Forall digit_call calls
     ∧ foldl digit_step acc (drawn_digits calls) = acc'.
Proof.
  intros Hc Hd IH x y. destruct (digit_rect d Hd) as [rect Hrect].
  rewrite (DrawNumber_chars_cons_digit c cs x y d rect Hc Hrect).
  destruct (IH (x + (fofZ (rect_w rect) * digit_SCALE + fofZ 2))%fl y)
    as (calls & -> & Hall & Hval).
  cbn [mbind option_bind]. eexists. split; [reflexivity|]. split.
  - constructor; [|done]. eexists d, rect, _. split; [exact Hd|]. split; [exact Hrect|reflexivity].
  - unfold drawn_digits in *. cbn [omap list_omap].
    replace (SPRITE_DIGIT_0 + d - SPRITE_DIGIT_0) with d by lia.
    exact Hval.
Qed.

Lemma DrawNumber_chars_uint_acc (d : Decimal.uint) (acc : positive) (x y : F) :
  ∃ calls, DrawNumber_chars (uint_chars d) x y = Some calls
    ∧ Forall digit_call calls
    ∧ foldl digit_step (Z.pos acc) (drawn_digits calls) = Z.pos (Pos.of_uint_acc d acc).
Proof.
  revert acc x y. induction d as [|d IH|d IH|d IH|d IH|d IH|d IH|d IH|d IH|d IH|d IH];
    intros acc.
  - intros x y. exists []. by repeat split.
  - apply (DrawNumber_chars_digit_step _ _ 0 _ _); [done|lia|].
    intros x y. destruct (IH (10 * acc)%positive x y) as (calls & ? & ? & Hv).
    exists calls. split_and!; try done; (etransitivity; [|exact Hv]); f_equal; unfold digit_step; lia.
  - apply (DrawNumber_chars_digit_step _ _ 1 _ _); [done|lia|].
    intros x y. destruct (IH (1 + 10 * acc)%positive x y) as (calls & ? & ? & Hv).
    exists calls. split_and!; try done; (etransitivity; [|exact Hv]); f_equal; unfold digit_step; lia.
  - apply (DrawNumber_chars_digit_step _ _ 2 _ _); [done|lia|].
    intros x y. destruct (IH (2 + 10 * acc)%positive x y) as (calls & ? & ? & Hv).
    exists calls. split_and!; try done; (etransitivity; [|exact Hv]); f_equal; unfold digit_step; lia.
  - apply (DrawNumber_chars_digit_step _ _ 3 _ _); [done|lia|].
    intros x y. destruct (IH (3 + 10 * acc)%positive x y) as (calls & ? & ? & Hv).
    exists calls. split_and!; try done; (etransitivity; [|exact Hv]); f_equal; unfold digit_step; lia.
  - apply (DrawNumber_chars_digit_step _ _ 4 _ _); [done|lia|].
    intros x y. destruct (IH (4 + 10 * acc)%positive x y) as (calls & ? & ? & Hv).
    exists calls. split_and!; try done; (etransitivity; [|exact Hv]); f_equal; unfold digit_step; lia.
  - apply (DrawNumber_chars_digit_step _ _ 5 _ _); [done|lia|].
    intros x y. destruct (IH (5 + 10 * acc)%positive x y) as (calls & ? & ? & Hv).
    exists calls. split_and!; try done; (etransitivity; [|exact Hv]); f_equal; unfold digit_step; lia.
  - apply (DrawNumber_chars_digit_step _ _ 6 _ _); [done|lia|].
    intros x y. destruct (IH (6 + 10 * acc)%positive x y) as (calls & ? & ? & Hv).
    exists calls. split_and!; try done; (etransitivity; [|exact Hv]); f_equal; unfold digit_step; lia.
  - apply (DrawNumber_chars_digit_step _ _ 7 _ _); [done|lia|].
    intros x y. destruct (IH (7 + 10 * acc)%positive x y) as (calls & ? & ? & Hv).
    exists calls. split_and!; try done; (etransitivity; [|exact Hv]); f_equal; unfold digit_step; lia.
  - apply (DrawNumber_chars_digit_step _ _ 8 _ _); [done|lia|].
    intros x y. destruct (IH (8 + 10 * acc)%positive x y) as (calls & ? & ? & Hv).
    exists calls. split_and!; try done; (etransitivity; [|exact Hv]); f_equal; unfold digit_step; lia.
  - apply (DrawNumber_chars_digit_step _ _ 9 _ _); [done|lia|].
    intros x y. destruct (IH (9 + 10 * acc)%positive x y) as (calls & ? & ? & Hv).
    exists calls. split_and!; try done; (etransitivity; [|exact Hv]); f_equal; unfold digit_step; lia.
Qed.

Lemma DrawNumber_chars_uint (d : Decimal.uint) (x y : F) :
  ∃ calls, DrawNumber_chars (uint_chars d) x y = Some calls
    ∧ Forall digit_call calls
    ∧ foldl digit_step 0 (drawn_digits calls) = Z.of_N (Pos.of_uint d).
Proof.
  revert x y. induction d as [|d IH|d IH|d IH|d IH|d IH|d IH|d IH|d IH|d IH|d IH].
  - intros x y. exists []. by repeat split.
  - apply (DrawNumber_chars_digit_step _ _ 0 _ _); [done|lia|]. exact IH.
  - apply (DrawNumber_chars_digit_step _ _ 1 _ _); [done|lia|].
    intros x y. apply (DrawNumber_chars_uint_acc d 1).
  - apply (DrawNumber_chars_digit_step _ _ 2 _ _); [done|lia|].
    intros x y. apply (DrawNumber_chars_uint_acc d 2).
  - apply (DrawNumber_chars_digit_step _ _ 3 _ _); [done|lia|].
    intros x y. apply (DrawNumber_chars_uint_acc d 3).
  - apply (DrawNumber_chars_digit_step _ _ 4 _ _); [done|lia|].
    intros x y. apply (DrawNumber_chars_uint_acc d 4).
  - apply (DrawNumber_chars_digit_step _ _ 5 _ _); [done|lia|].
    intros x y. apply (DrawNumber_chars_uint_acc d 5).
  - apply (DrawNumber_chars_digit_step _ _ 6 _ _); [done|lia|].
    intros x y. apply (DrawNumber_chars_uint_acc d 6).
  - apply (DrawNumber_chars_digit_step _ _ 7 _ _); [done|lia|].
    intros x y. apply (DrawNumber_chars_uint_acc d 7).
  - apply (DrawNumber_chars_digit_step _ _ 8 _ _); [done|lia|].
    intros x y. apply (DrawNumber_chars_uint_acc d 8).
  - apply (DrawNumber_chars_digit_step _ _ 9 _ _); [done|lia|].
    intros x y. apply (DrawNumber_chars_uint_acc d 9).
Qed.

Lemma to_string_pos (p : positive) : to_string (Z.pos p) = uint_chars (Pos.to_uint p).
Proof.
  unfold to_string, uint_chars. cbn [Z.to_int DecimalString.NilZero.string_of_int].
  unfold DecimalString.NilZero.string_of_uint.
  pose proof (DecimalPos.Unsigned.to_uint_nonnil p) as Hnn.
  by destruct (Pos.to_uint p).
Qed.

Lemma to_string_neg (p : positive) :
  to_string (Z.neg p) = Ascii.Ascii true false true true false true false false
                          :: to_string (Z.pos p).
Proof.
  rewrite to_string_pos. unfold to_string, uint_chars.
  cbn [Z.to_int DecimalString.NilZero.string_of_int String.list_ascii_of_string].
  unfold DecimalString.NilZero.string_of_uint.
  pose proof (DecimalPos.Unsigned.to_uint_nonnil p) as Hnn.
  by destruct (Pos.to_uint p).
Qed.

Lemma DrawNumber_shows_decimal' (p : positive) (x y : F) :
  ∃ calls, DrawNumber (Z.pos p) x y = Some calls
    ∧ Forall digit_call calls
    ∧ decimal_value (drawn_digits calls) = Z.pos p.
Proof.
  unfold DrawNumber, decimal_value. rewrite to_string_pos.
  destruct (DrawNumber_chars_uint (Pos.to_uint p) x y) as (calls & Hc & Hall & Hv).
  exists calls. split_and!; try done.
  fold digit_step. rewrite Hv, DecimalPos.Unsigned.of_to. done.
Qed.

Lemma DrawNumber_chars_in_a_row cs (x y : F) calls :
  DrawNumber_chars cs x y = Some calls → in_a_row x y calls.
Proof.
  revert x calls. induction cs as [|c cs IH]; intros x calls; cbn [DrawNumber_chars].
  - by intros [= <-].
  - cbv zeta.
    destruct (GetSpriteSrcRect _) as [rect|] eqn:Hrect; [|done]. cbn [mbind option_bind].
    destruct (DrawNumber_chars cs _ y) as [rest|] eqn:Hrest; [|done].
    cbn [mbind option_bind]. intros [= <-]. cbn [in_a_row].
    eexists _, rect. split; [exact Hrect|]. split; [done|]. by apply IH.
Qed.

(** X9. For a number that is not negative, [DrawNumber] returns, draws digit
    glyphs only, the digits drawn, read from left to right, are the number's
    decimal value, and the glyphs stand in a row from [(x, y)] on: each one
    at its sprite's size scaled by 0.75, the next one 2 pixels after the
    right edge of the one before, all at the same height. *)
Theorem DrawNumber_shows_decimal (n : Z) (x y : F) :
  0 ≤ n →
  ∃ calls, DrawNumber n x y = Some calls
    ∧ Forall digit_call calls
    ∧ decimal_value (drawn_digits calls) = n
    ∧ in_a_row x y calls.
Proof.
  intros Hn.
  assert (Hd : ∃ calls, DrawNumber n x y = Some calls
                 ∧ Forall digit_call calls ∧ decimal_value (drawn_digits calls) = n).
  { unfold DrawNumber, decimal_value. destruct n as [|p|p]; [| |lia].
    - apply (DrawNumber_chars_uint (Decimal.D0 Decimal.Nil)).
    - apply DrawNumber_shows_decimal'. }
  destruct Hd as (calls & Hc & Hall & Hv). exists calls. split_and!; try done.
  by apply (DrawNumber_chars_in_a_row (to_string n)).
Qed.

(** X10. For a negative number, [DrawNumber] has no glyph for the sign: the
    character '-' indexes three sprites before the digit 0, so the whole
    background, 1280 by 720 scaled by 0.75, is drawn first; the digits of
    the absolute value follow, past it. *)
Theorem DrawNumber_negative (n : Z) (x y : F) :
  n < 0 →
  ∃ rest,
    DrawNumber n x y =
      Some (SDL_RenderTexture SPRITE_BACKGROUND (rect_to_frect (mkRect 0 0 1280 720))
              (mkFRect x y (fofZ 1280 * digit_SCALE)%fl (fofZ 720 * digit_SCALE)%fl)
            :: rest)
    ∧ DrawNumber (- n) (x + (fofZ 1280 * digit_SCALE + fofZ 2))%fl y = Some rest
    ∧ Forall digit_call rest
    ∧ decimal_value (drawn_digits rest) = - n.
Proof.
  intros Hn. destruct n as [|p|p]; [lia|lia|].
  destruct (DrawNumber_shows_decimal' p (x + (fofZ 1280 * digit_SCALE + fofZ 2))%fl y)
    as (rest & Hr & Hall & Hv).
  exists rest. unfold DrawNumber. rewrite to_string_neg.
  rewrite (DrawNumber_chars_cons_digit _ _ x y (-3) (mkRect 0 0 1280 720)); [|done|done].
  cbn [rect_w rect_h Z.opp]. unfold DrawNumber in Hr. rewrite Hr. done.
Qed.
End DrawNumberFacts.

(** X9 for the number 123. *)
Lemma DrawNumber_shows_decimal_witness :
  ∃ calls, DrawNumber 123 (fofZ 127 : Q) (fofZ 4) = Some calls
    ∧ Forall digit_call calls
    ∧ decimal_value (drawn_digits calls) = 123
    ∧ in_a_row (fofZ 127 : Q) (fofZ 4) calls.
Proof. apply (DrawNumber_shows_decimal 123 (fofZ 127 : Q) (fofZ 4)). lia. Defined.

(** X10 for the number -7. *)
Lemma DrawNumber_negative_witness :
  ∃ rest,
    DrawNumber (-7) (fofZ 127 : Q) (fofZ 4) =
      Some (SDL_RenderTexture SPRITE_BACKGROUND (rect_to_frect (mkRect 0 0 1280 720))
              (mkFRect (fofZ 127) (fofZ 4) (fofZ 1280 * digit_SCALE)%fl
                       (fofZ 720 * digit_SCALE)%fl)
            :: rest)
    ∧ DrawNumber (- -7) (fofZ 127 + (fofZ 1280 * digit_SCALE + fofZ 2))%fl (fofZ 4)
        = Some rest
    ∧ Forall digit_call rest
    ∧ decimal_value (drawn_digits rest) = - -7.
Proof. apply (DrawNumber_negative (-7) (fofZ 127 : Q) (fofZ 4)). lia. Defined.

(** ** RenderSystem and RopeRenderSystem *)

Section ForEachOut.
Context {A C : Type} (body : A → option (list C)).

Lemma for_each_out_total l :
  (∀ a, a ∈ l → is_Some (body a)) → is_Some (for_each_out body l).
Proof.
  induction l as [|a l IH]; intros Hall; [by eexists|].
  cbn [for_each_out]. destruct (Hall a) as [out ->]; [by left|].
  destruct IH as [rest ->]; [|by eexists].
  intros b Hb. apply Hall. by right.
Qed.

Lemma elem_of_for_each_out l outs c :
  for_each_out body l = Some outs →
  c ∈ outs ↔ ∃ a out, a ∈ l ∧ body a = Some out ∧ c ∈ out.
Proof.
  revert outs. induction l as [|a l IH]; intros outs; cbn [for_each_out].
  - intros [= <-]. split; [by intros ?%elem_of_nil|].
    by intros (a & out & ?%elem_of_nil & _).
  - destruct (body a) as [out|] eqn:Ha; [|done]. cbn [mbind option_bind].
    destruct (for_each_out body l) as [rest|]; [|done]. cbn [mbind option_bind].
    intros [= <-]. rewrite elem_of_app, (IH rest eq_refl). split.
    + intros [Hc|(b & out' & Hb & Hbody & Hc)].
      * exists a, out. split; [by left|done].
      * exists b, out'. split; [by right|done].
    + intros (b & out' & [->|Hb]%elem_of_cons & Hbody & Hc).
      * left. congruence.
      * right. by exists b, out'.
Qed.

Lemma for_each_out_Some_inv l outs a :
  for_each_out body l = Some outs → a ∈ l → is_Some (body a).
Proof.
  revert outs. induction l as [|b l IH]; intros outs; cbn [for_each_out].
  - by intros _ ?%elem_of_nil.
  - destruct (body b) as [out|] eqn:Hb; [|done]. cbn [mbind option_bind].
    destruct (for_each_out body l) as [rest|]; [|done].
    intros _ [->|Ha]%elem_of_cons; [by eexists|]. by eapply IH.
Qed.
End ForEachOut.

Lemma seqZ_sorted (m n : Z) : StronglySorted Z.lt (seqZ m n).
Proof.
  remember (Z.to_nat n) as k eqn:Hk. revert m n Hk.
  induction k as [|k IH]; intros m n Hk.
  - rewrite seqZ_nil by lia. constructor.
  - rewrite seqZ_cons by lia. constructor.
    + apply IH. lia.
    + apply Forall_forall. intros e He.
      apply elem_of_seqZ in He. lia.
Qed.

Lemma ids_sorted {F} (w : World F) : StronglySorted Z.lt (ids w).
Proof. apply seqZ_sorted. Qed.

Section RenderFacts.
Context {F : Type} `{FloatOps F} `{WideOps F}.
Implicit Types (s : State F) (e : Z).

Lemma GetSpriteSrcRect_in_range spriteID :
  0 ≤ spriteID < SPRITE_COUNT ↔ is_Some (GetSpriteSrcRect spriteID).
Proof.
  unfold GetSpriteSrcRect. case_bool_decide as Hr; split; intros Hx;
    first [done | by eexists | by destruct Hx].
Qed.

Lemma Render_entity_Some s id out :
  Render_entity s id = Some out →
  ∀ call, call ∈ out ↔ draws s id call.
Proof.
  unfold Render_entity, draws.
  destruct (mask_test _ _) eqn:Hm.
  - destruct (get_Position id (ecs s)) as [[x y]|] eqn:Hp; [|done].
    destruct (get_Renderable id (ecs s)) as [spriteID|] eqn:Hr; [|done].
    cbn [mbind option_bind].
    destruct (bool_decide (spriteID < 0) || bool_decide (spriteID >= SPRITE_COUNT))
      eqn:Hguard.
    + intros [= <-] call. split; [by intros ?%elem_of_nil|].
      intros (x' & y' & sp & rect & _ & _ & [= <-] & Hrange & _).
      apply orb_true_iff in Hguard as [Hlt%bool_decide_eq_true|Hge%bool_decide_eq_true];
        lia.
    + apply orb_false_iff in Hguard as [Hlt%bool_decide_eq_false Hge%bool_decide_eq_false].
      destruct (GetSpriteSrcRect spriteID) as [rect|] eqn:Hrect; [|done].
      cbn [mbind option_bind]. intros [= <-] call.
      rewrite list_elem_of_singleton. split.
      * intros ->. exists x, y, spriteID, rect. split_and!; try done; lia.
      * intros (x' & y' & sp & rect' & _ & [= <- <-] & [= <-] & _ & Hrect' & ->).
        rewrite Hrect in Hrect'. by injection Hrect' as <-.
  - intros [= <-] call. split; [by intros ?%elem_of_nil|].
    intros (x' & y' & sp & rect & ? & _). congruence.
Qed.

Lemma draws_functional s id c1 c2 : draws s id c1 → draws s id c2 → c1 = c2.
Proof.
  intros (x1 & y1 & sp1 & r1 & _ & Hp1 & Hs1 & _ & Hr1 & ->)
         (x2 & y2 & sp2 & r2 & _ & Hp2 & Hs2 & _ & Hr2 & ->).
  simplify_eq. done.
Qed.

Lemma Render_entity_cases s id out :
  Render_entity s id = Some out →
  (out = [] ∧ ∀ c, ¬ draws s id c) ∨ (∃ c, out = [c] ∧ draws s id c).
Proof.
  intros Hout. pose proof (Render_entity_Some s id out Hout) as Hiff.
  assert (Hlen : out = [] ∨ ∃ c, out = [c]).
  { revert Hout. unfold Render_entity.
    destruct (mask_test _ _); [|intros [= <-]; by left].
    destruct (get_Position id (ecs s)) as [[x y]|]; [|done].
    destruct (get_Renderable id (ecs s)) as [spriteID|]; [|done].
    cbn [mbind option_bind].
    destruct (bool_decide (spriteID < 0) || bool_decide (spriteID >= SPRITE_COUNT));
      [intros [= <-]; by left|].
    destruct (GetSpriteSrcRect spriteID) as [rect|]; [|done].
    cbn [mbind option_bind]. intros [= <-]. right. by eexists. }
  destruct Hlen as [->|[c ->]].
  - left. split; [done|]. intros c Hc. apply Hiff in Hc. by apply elem_of_nil in Hc.
  - right. exists c. split; [done|]. apply Hiff. by left.
Qed.

Lemma Render_loop s l calls :
  StronglySorted Z.lt l →
  for_each_out (Render_entity s) l = Some calls →
  ∃ drawn, Forall2 (draws s) drawn calls
    ∧ StronglySorted Z.lt drawn
    ∧ ∀ id, id ∈ drawn ↔ id ∈ l ∧ ∃ c, draws s id c.
Proof.
  intros Hsorted. revert calls.
  induction Hsorted as [|a l Hl IH Ha]; intros calls; cbn [for_each_out].
  - intros [= <-]. exists []. split_and!; [constructor|constructor|].
    intros id. split; [by intros ?%elem_of_nil|]. by intros [?%elem_of_nil _].
  - destruct (Render_entity s a) as [out|] eqn:Hout; [|done]. cbn [mbind option_bind].
    destruct (for_each_out (Render_entity s) l) as [rest|]; [|done].
    cbn [mbind option_bind]. intros [= <-].
    destruct (IH rest eq_refl) as (drawn & Hall & Hs & Hmem).
    destruct (Render_entity_cases s a out Hout) as [[-> Hno]|(c & -> & Hc)].
    + exists drawn. split_and!; try done. intros id. rewrite Hmem, elem_of_cons. split.
      * intros [Hid Hd]. split; [by right|done].
      * intros [[->|Hid] [c Hd]]; [by destruct (Hno c)|]. split; [done|by exists c].
    + exists (a :: drawn). split_and!.
      * by constructor.
      * constructor; [done|]. apply Forall_forall. intros e He.
        apply Hmem in He as [He _].
        rewrite Forall_forall in Ha. by apply Ha.
      * intros id. rewrite !elem_of_cons, Hmem. split.
        -- intros [->|[Hid Hd]]; [split; [by left|by exists c]|split; [by right|done]].
        -- intros [[->|Hid] Hd]; [by left|right; done].
Qed.
(** X11. When every entity with the [Renderable] and [Position] bits has the
    two components, [RenderSystem] returns, and its calls are, one for one
    and in the order of the entity ids, the textures of the entities that
    have the two bits and a sprite index within the table: one call per
    such entity and no other call, each drawn at the entity's position with
    the sprite's own size; an entity with a sprite index out of range is
    passed over. *)
Theorem RenderSystem_draws s :
  (∀ id, 0 ≤ id ≤ w_maxId (ecs s) →
     mask_test (mask (ecs s) id) (mask_of [Renderable; Position]) = true →
     is_Some (get_Position id (ecs s)) ∧ is_Some (get_Renderable id (ecs s))) →
  ∃ calls drawn,
    RenderSystem s = Some calls
    ∧ Forall2 (draws s) drawn calls
    ∧ StronglySorted Z.lt drawn
    ∧ (∀ id, id ∈ drawn ↔ 0 ≤ id ≤ w_maxId (ecs s) ∧ ∃ call, draws s id call)
    ∧ (∀ id c1 c2, draws s id c1 → draws s id c2 → c1 = c2)
    ∧ ∀ call, call ∈ calls ↔ ∃ id, 0 ≤ id ≤ w_maxId (ecs s) ∧ draws s id call.
Proof.
  intros Hok. unfold RenderSystem.
  destruct (for_each_out_total (Render_entity s) (ids (ecs s))) as [calls Hcalls].
  { intros id Hid%elem_of_ids. unfold Render_entity.
    destruct (mask_test _ _) eqn:Hm; [|by eexists].
    destruct (Hok id Hid Hm) as [[[x y] ->] [spriteID ->]]. cbn [mbind option_bind].
    destruct (bool_decide (spriteID < 0) || bool_decide (spriteID >= SPRITE_COUNT))
      eqn:Hguard; [by eexists|].
    apply orb_false_iff in Hguard as [Hlt%bool_decide_eq_false Hge%bool_decide_eq_false].
    destruct (proj1 (GetSpriteSrcRect_in_range spriteID)) as [rect ->]; [lia|].
    by eexists. }
  destruct (Render_loop s _ _ (ids_sorted (ecs s)) Hcalls) as (drawn & Hall & Hs & Hmem).
  exists calls, drawn. split_and!; try done.
  - intros id. rewrite Hmem, elem_of_ids. done.
  - apply draws_functional.
  - intros call. rewrite (elem_of_for_each_out _ _ _ _ Hcalls). split.
    + intros (id & out & Hid%elem_of_ids & Hout & Hc). exists id. split; [done|].
      by apply (Render_entity_Some s id out Hout).
    + intros (id & Hid & Hd).
      destruct (for_each_out_Some_inv _ _ _ id Hcalls) as [out Hout];
        [by apply elem_of_ids|].
      exists id, out. split; [by apply elem_of_ids|]. split; [done|].
      by apply (Render_entity_Some s id out Hout).
Qed.

End RenderFacts.

(** X11 on the game scenario. *)
Lemma RenderSystem_draws_witness :
  ∃ calls drawn,
    RenderSystem game_state = Some calls
    ∧ Forall2 (draws game_state) drawn calls
    ∧ StronglySorted Z.lt drawn
    ∧ (∀ id, id ∈ drawn ↔
         0 ≤ id ≤ w_maxId (ecs game_state) ∧ ∃ call, draws game_state id call)
    ∧ (∀ id c1 c2, draws game_state id c1 → draws game_state id c2 → c1 = c2)
    ∧ ∀ call, call ∈ calls ↔ ∃ id, 0 ≤ id ≤ w_maxId (ecs game_state) ∧ draws game_state id call.
Proof.
  apply (RenderSystem_draws game_state).
  intros id Hid Hm. change (w_maxId (ecs game_state)) with 3 in Hid.
  assert (Hcases : id = 0 ∨ id = 1 ∨ id = 2 ∨ id = 3) by lia. clear Hid.
  destruct Hcases as [->|[->|[->| ->]]];
    first [ clear Hm; split; vm_compute; by eexists
          | exfalso; revert Hm; vm_compute; intros [=] ].
Defined.

Section RopeRenderFacts.
Context {F : Type} `{FloatOps F} `{WideOps F}.
Implicit Types (s : State F) (e : Z).

Lemma RopeRender_report_Some s id out :
  RopeRender_report s id = Some out →
  out = []
  ∧ (has RoperTag id (ecs s) = true → has PhysicsBody id (ecs s) = true →
     ∃ bodyId, get_PhysicsBody id (ecs s) = Some bodyId
               ∧ is_Some (pw_bodies (gWorld s) !! bodyId)).
Proof.
  unfold RopeRender_report, b2Body_GetTransform.
  destruct (if has RoperTag id (ecs s) && has PhysicsBody id (ecs s) then _ else _)
    as [[]|] eqn:Hrope; [|done].
  cbn [mbind option_bind].
  destruct (if has ItemType id (ecs s) && has PhysicsBody id (ecs s) then _ else _)
    as [[]|]; [|done].
  cbn [mbind option_bind]. intros [= <-]. split; [done|].
  intros Hr Hp. rewrite Hr, Hp in Hrope. cbn [andb] in Hrope.
  destruct (get_PhysicsBody id (ecs s)) as [bodyId|]; [|done].
  cbn [mbind option_bind] in Hrope.
  destruct (pw_bodies (gWorld s) !! bodyId) as [body|] eqn:Hb; [|done].
  exists bodyId. split; [done|]. by eexists.
Qed.

Lemma RopeRender_rope_Some s id out :
  RopeRender_rope s id = Some out →
  ∀ call, call ∈ out ↔ call = SDL_SetRenderDrawColor 0 0 0 255 ∧ (∃ c, rope_line s id c)
                       ∨ rope_line s id call.
Proof.
  unfold RopeRender_rope, rope_line, b2Body_IsValid, b2Body_GetTransform.
  destruct (mask_test _ _) eqn:Hm.
  - destruct (get_PhysicsBody id (ecs s)) as [bodyId|] eqn:Hpb; [|done].
    destruct (get_PlayerInfo id (ecs s)) as [owner|] eqn:Hpi; [|done].
    cbn [mbind option_bind]. case_bool_decide as Hvalid; cbn [negb].
    + destruct Hvalid as [body Hbody]. rewrite Hbody. cbn [mbind option_bind].
      destruct (find_player owner (ecs s)) as [[[player [px py]]|]|] eqn:Hf; [| |done];
        cbn [mbind option_bind]; intros [= <-] call.
      * rewrite elem_of_cons, list_elem_of_singleton. split.
        -- intros [->| ->].
           ++ left. split; [done|]. eexists. by exists bodyId, owner, body, player, px, py.
           ++ right. by exists bodyId, owner, body, player, px, py.
        -- intros [[-> _]|(b & o & bd & p & x & y & _ & Hb1 & Ho & Hb & Hf' & ->)].
           ++ by left.
           ++ right. simplify_eq. done.
      * split; [by intros ?%elem_of_nil|].
        intros [[_ [c Hc]]|Hc];
          destruct Hc as (b & o & bd & p & x & y & _ & _ & Ho & _ & Hf' & _); congruence.
    + intros [= <-] call. split; [by intros ?%elem_of_nil|].
      intros [[_ [c Hc]]|Hc];
        destruct Hc as (b & o & bd & p & x & y & _ & Hb1 & _ & Hb & _);
        destruct Hvalid; simplify_eq; by eexists.
  - intros [= <-] call. split; [by intros ?%elem_of_nil|].
    intros [[_ [c Hc]]|Hc];
      destruct Hc as (b & o & bd & p & x & y & ? & _); congruence.
Qed.

Lemma rope_line_functional s rope c1 c2 :
  rope_line s rope c1 → rope_line s rope c2 → c1 = c2.
Proof.
  intros (b1 & o1 & bd1 & p1 & x1 & y1 & _ & Hb1 & Ho1 & Hbd1 & Hf1 & ->)
         (b2 & o2 & bd2 & p2 & x2 & y2 & _ & Hb2 & Ho2 & Hbd2 & Hf2 & ->).
  simplify_eq. done.
Qed.

Lemma RopeRender_rope_cases s id out :
  RopeRender_rope s id = Some out →
  (out = [] ∧ ∀ c, ¬ rope_line s id c)
  ∨ (∃ c, out = [SDL_SetRenderDrawColor 0 0 0 255; c] ∧ rope_line s id c).
Proof.
  intros Hout. pose proof (RopeRender_rope_Some s id out Hout) as Hiff.
  assert (Hlen : out = [] ∨ ∃ c, out = [SDL_SetRenderDrawColor 0 0 0 255; c]
                                 ∧ ∃ x1 y1 x2 y2, c = SDL_RenderLine x1 y1 x2 y2).
  { revert Hout. unfold RopeRender_rope.
    destruct (mask_test _ _); [|intros [= <-]; by left].
    destruct (get_PhysicsBody id (ecs s)) as [bodyId|]; [|done].
    destruct (get_PlayerInfo id (ecs s)) as [owner|]; [|done].
    cbn [mbind option_bind].
    destruct (negb (b2Body_IsValid bodyId (gWorld s))); [intros [= <-]; by left|].
    destruct (b2Body_GetTransform bodyId (gWorld s)) as [[p q]|]; [|done].
    cbn [mbind option_bind].
    destruct (find_player owner (ecs s)) as [[[player [px py]]|]|]; [| |done];
      cbn [mbind option_bind]; intros [= <-]; [|by left].
    right. eexists. split; [done|]. by eexists _, _, _, _. }
  destruct Hlen as [->|(c & -> & x1 & y1 & x2 & y2 & ->)].
  - left. split; [done|]. intros c Hc.
    assert (Hin : c ∈ @nil (RenderCall F)) by (apply Hiff; by right).
    by apply elem_of_nil in Hin.
  - right. eexists. split; [done|].
    assert (Hin : SDL_RenderLine x1 y1 x2 y2
                  ∈ [SDL_SetRenderDrawColor 0 0 0 255; SDL_RenderLine x1 y1 x2 y2]).
    { right. by left. }
    apply Hiff in Hin as [[[=] _]|Hline]. done.
Qed.

Lemma RopeRender_loop s l calls :
  StronglySorted Z.lt l →
  for_each_out (RopeRender_rope s) l = Some calls →
  ∃ ropes lines,
    Forall2 (rope_line s) ropes lines
    ∧ calls = lines ≫= (λ line, [SDL_SetRenderDrawColor 0 0 0 255; line])
    ∧ StronglySorted Z.lt ropes
    ∧ ∀ id, id ∈ ropes ↔ id ∈ l ∧ ∃ c, rope_line s id c.
Proof.
  intros Hsorted. revert calls.
  induction Hsorted as [|a l Hl IH Ha]; intros calls; cbn [for_each_out].
  - intros [= <-]. exists [], []. split_and!; [constructor|done|constructor|].
    intros id. split; [by intros ?%elem_of_nil|]. by intros [?%elem_of_nil _].
  - destruct (RopeRender_rope s a) as [out|] eqn:Hout; [|done]. cbn [mbind option_bind].
    destruct (for_each_out (RopeRender_rope s) l) as [rest|]; [|done].
    cbn [mbind option_bind]. intros [= <-].
    destruct (IH rest eq_refl) as (ropes & lines & Hall & -> & Hs & Hmem).
    destruct (RopeRender_rope_cases s a out Hout) as [[-> Hno]|(c & -> & Hc)].
    + exists ropes, lines. split_and!; try done. intros id.
      rewrite Hmem, elem_of_cons. split.
      * intros [Hid Hd]. split; [by right|done].
      * intros [[->|Hid] [c Hd]]; [by destruct (Hno c)|]. split; [done|by exists c].
    + exists (a :: ropes), (c :: lines). split_and!.
      * by constructor.
      * done.
      * constructor; [done|]. apply Forall_forall. intros e He.
        apply Hmem in He as [He _].
        rewrite Forall_forall in Ha. by apply Ha.
      * intros id. rewrite !elem_of_cons, Hmem. split.
        -- intros [->|[Hid Hd]]; [split; [by left|by exists c]|split; [by right|done]].
        -- intros [[->|Hid] Hd]; [by left|right; done].
Qed.

Lemma for_each_out_nil {A C : Type} (f : A → option (list C)) l outs :
  for_each_out f l = Some outs → (∀ a out, a ∈ l → f a = Some out → out = []) →
  outs = [].
Proof.
  revert outs. induction l as [|a l IH]; intros outs; cbn [for_each_out].
  - by intros [= <-].
  - destruct (f a) as [out|] eqn:Ha; [|done]. cbn [mbind option_bind].
    destruct (for_each_out f l) as [rest|]; [|done]. cbn [mbind option_bind].
    intros [= <-] Hnil. rewrite (Hnil a out) by (by left || done).
    apply IH; [done|]. intros b o Hb. apply Hnil. by right.
Qed.

(** X12. When [RopeRenderSystem] returns, its calls are, rope by rope in
    the order of the ids, the colour black followed by one line, for the
    ropes whose player is found: one line per such rope and no other call,
    each line from 40 pixels right and 120 below the player's position to
    the rope body's origin in pixels; and it returns only if the body of
    every rope is alive, since the report loop reads the transform without
    checking the handle. *)
Theorem RopeRenderSystem_lines s calls :
  RopeRenderSystem s = Some calls →
  (∃ ropes lines,
     Forall2 (rope_line s) ropes lines
     ∧ calls = lines ≫= (λ line, [SDL_SetRenderDrawColor 0 0 0 255; line])
     ∧ StronglySorted Z.lt ropes
     ∧ (∀ rope, rope ∈ ropes ↔
          0 ≤ rope ≤ w_maxId (ecs s) ∧ ∃ line, rope_line s rope line)
     ∧ ∀ rope c1 c2, rope_line s rope c1 → rope_line s rope c2 → c1 = c2)
  ∧ (∀ x1 y1 x2 y2,
       SDL_RenderLine x1 y1 x2 y2 ∈ calls ↔
       ∃ rope, 0 ≤ rope ≤ w_maxId (ecs s)
               ∧ rope_line s rope (SDL_RenderLine x1 y1 x2 y2))
  ∧ (∀ rope bodyId,
       0 ≤ rope ≤ w_maxId (ecs s) →
       mask_test (mask (ecs s) rope) render_ropeMask = true →
       get_PhysicsBody rope (ecs s) = Some bodyId →
       b2Body_IsValid bodyId (gWorld s) = true).
Proof.
  unfold RopeRenderSystem.
  destruct (for_each_out (RopeRender_report s) (ids (ecs s))) as [report|] eqn:Hrep; [|done].
  destruct (for_each_out (RopeRender_rope s) (ids (ecs s))) as [lines|] eqn:Hlines; [|done].
  cbn [mbind option_bind]. intros [= <-].
  assert (Hreport : report = []).
  { apply (for_each_out_nil _ _ _ Hrep). intros a out _ Hout.
    by apply RopeRender_report_Some in Hout as [-> _]. }
  subst report. cbn [app]. split_and!.
  - destruct (RopeRender_loop s _ _ (ids_sorted (ecs s)) Hlines)
      as (ropes & ls & Hall & -> & Hs & Hmem).
    exists ropes, ls. split_and!; try done.
    + intros rope. by rewrite Hmem, elem_of_ids.
    + apply rope_line_functional.
  - intros x1 y1 x2 y2.
    rewrite (elem_of_for_each_out _ _ _ _ Hlines).
    split.
    + intros (id & out & Hid%elem_of_ids & Hout & Hc).
      apply (RopeRender_rope_Some s id out Hout) in Hc as [[[=] _]|Hc]. by exists id.
    + intros (rope & Hr & Hline).
      destruct (for_each_out_Some_inv _ _ _ rope Hlines) as [out Hout];
        [by apply elem_of_ids|].
      exists rope, out. split; [by apply elem_of_ids|]. split; [done|].
      apply (RopeRender_rope_Some s rope out Hout). by right.
  - intros rope bodyId Hr Hm Hpb.
    destruct (for_each_out_Some_inv _ _ _ rope Hrep) as [out Hout]; [by apply elem_of_ids|].
    apply RopeRender_report_Some in Hout as [_ Hvalid].
    unfold render_ropeMask in Hm. pose proof (proj1 (mask_test_of _ _) Hm) as Hbits.
    destruct Hvalid as (b & Hb & Hlive).
    + apply Hbits. solve_elem_of_list.
    + apply Hbits. solve_elem_of_list.
    + unfold b2Body_IsValid. apply bool_decide_eq_true. congruence.
Qed.
End RopeRenderFacts.

(** X12 on the game scenario. *)
Lemma RopeRenderSystem_lines_witness :
  (∃ ropes lines,
     Forall2 (rope_line game_state) ropes lines
     ∧ default [] (RopeRenderSystem game_state)
       = lines ≫= (λ line, [SDL_SetRenderDrawColor 0 0 0 255; line])
     ∧ StronglySorted Z.lt ropes
     ∧ (∀ rope, rope ∈ ropes ↔
          0 ≤ rope ≤ w_maxId (ecs game_state) ∧ ∃ line, rope_line game_state rope line)
     ∧ ∀ rope c1 c2, rope_line game_state rope c1 → rope_line game_state rope c2 → c1 = c2)
  ∧ (∀ x1 y1 x2 y2,
     SDL_RenderLine x1 y1 x2 y2 ∈ default [] (RopeRenderSystem game_state) ↔
     ∃ rope, 0 ≤ rope ≤ w_maxId (ecs game_state)
             ∧ rope_line game_state rope (SDL_RenderLine x1 y1 x2 y2))
  ∧ (∀ rope bodyId,
       0 ≤ rope ≤ w_maxId (ecs game_state) →
       mask_test (mask (ecs game_state) rope) render_ropeMask = true →
       get_PhysicsBody rope (ecs game_state) = Some bodyId →
       b2Body_IsValid bodyId (gWorld game_state) = true).
Proof.
  apply (RopeRenderSystem_lines game_state). apply default_Some. vm_refl.
Defined.

(** ** The swing of a rope at rest *)

Section SwingFacts.
Context {F : Type} `{FloatOps F} `{WideOps F}.
Implicit Types (s : State F) (e : Z).

Lemma get_Rotation_set a e' e (w : World F) :
  get_Rotation e (setComponent (CRotation a) e' w) =
    if decide (e' = e) then Some a else get_Rotation e w.
Proof.
  unfold get_Rotation. rewrite get_setComponent. cbn [kind_of].
  destruct (decide (e' = e)) as [->|Hne].
  - by rewrite decide_True.
  - by rewrite decide_False by (by intros [? _]).
Qed.

Lemma swing_kept_on_phys id f s s' : on_phys f s = Some s' → swing_kept id s s'.
Proof. intros (pw & _ & ->)%on_phys_Some. by split. Qed.

Lemma RopeSwing_rope_rotation id s s' :
  RopeSwing_rope id s = Some s' →
  (∀ e, e ≠ id → swing_kept e s s')
  ∧ (swings id s → swing_stepped id s s')
  ∧ (¬ swings id s → swing_kept id s s').
Proof.
  unfold RopeSwing_rope, swings.
  destruct (mask_test (mask (ecs s) id) swing_ropeMask) eqn:Hmask;
    [|intros [= <-]; split_and!; [by split|by intros [? _]|by split]].
  destruct (get_Rotation id (ecs s)) as [angle|] eqn:Hrot; [|done].
  destruct (get_RopeControl id (ecs s)) as [state|] eqn:Hrc; [|done].
  destruct (get_PhysicsBody id (ecs s)) as [bodyId|] eqn:Hpb; [|done].
  destruct (get_PlayerInfo id (ecs s)) as [owner|] eqn:Hpi; [|done].
  cbn [mbind option_bind].
  destruct state;
    [|intros Hrun; split_and!;
        [intros e _; by eapply swing_kept_on_phys
        |by intros [_ [=]]
        |intros _; by eapply swing_kept_on_phys]..].
  set (dirs := match swingDirections s !! id with
               | Some _ => swingDirections s
               | None => <[id:=fofZ 1]> (swingDirections s)
               end).
  assert (Hdir : dirs !! id = Some (swing_dir s id)
                 ∧ ∀ e, e ≠ id → dirs !! e = swingDirections s !! e).
  { unfold dirs, swing_dir. destruct (swingDirections s !! id) eqn:Hd.
    - by rewrite Hd.
    - rewrite lookup_insert_eq. split; [done|]. intros e Hne.
      by rewrite lookup_insert_ne. }
  destruct Hdir as [Hdir Hdirs]. rewrite Hdir.
  change (default (fofZ 0) (Some (swing_dir s id))) with (swing_dir s id).
  set (angle1 := (angle + swing_dir s id * swingSpeed * deltaTime)%fl).
  set (clamped := if (maxSwingAngle <? angle1)%fl
                  then (maxSwingAngle, <[id:=(- fofZ 1)%fl]> dirs)
                  else if (angle1 <? - maxSwingAngle)%fl
                       then ((- maxSwingAngle)%fl, <[id:=fofZ 1]> dirs)
                       else (angle1, dirs)).
  assert (Hcl : clamped.1 = (swing_step angle (swing_dir s id)).1
                ∧ clamped.2 !! id = Some (swing_step angle (swing_dir s id)).2
                ∧ ∀ e, e ≠ id → clamped.2 !! e = swingDirections s !! e).
  { unfold clamped, swing_step. fold angle1.
    destruct (maxSwingAngle <? angle1)%fl; [|destruct (angle1 <? - maxSwingAngle)%fl];
      cbn [fst snd]; rewrite ?lookup_insert_eq; (split; [done|]); (split; [done|]);
      intros e Hne; rewrite ?lookup_insert_ne by done; by apply Hdirs. }
  destruct clamped as [angle2 dirs2]. cbn [fst snd] in Hcl.
  destruct Hcl as (-> & Hd2 & Hd2').
  set (s1 := set_swing dirs2
               (on_ecs (setComponent (CRotation (swing_step angle (swing_dir s id)).1) id) s)).
  assert (Hs1 : (∀ e, e ≠ id → swing_kept e s s1) ∧ swing_stepped id s s1).
  { split.
    - intros e Hne. split; [|by apply Hd2'].
      unfold s1. cbn [ecs set_swing on_ecs set_ecs]. rewrite get_Rotation_set.
      by rewrite decide_False by done.
    - exists angle. split; [done|]. split; [|done].
      unfold s1. cbn [ecs set_swing on_ecs set_ecs]. rewrite get_Rotation_set.
      by rewrite decide_True. }
  destruct Hs1 as [Hother Hself].
  assert (Hphys : ∀ t, (∃ pw, t = set_phys pw s1) →
            (∀ e, e ≠ id → swing_kept e s t)
            ∧ (mask_test (mask (ecs s) id) swing_ropeMask = true
               ∧ Some AtRest = Some AtRest → swing_stepped id s t)
            ∧ (¬ (mask_test (mask (ecs s) id) swing_ropeMask = true
                  ∧ Some AtRest = Some AtRest) → swing_kept id s t)).
  { intros t [pw ->]. split_and!.
    - intros e Hne. exact (Hother e Hne).
    - intros _. exact Hself.
    - intros Hn. by destruct Hn. }
  rewrite Hmask in Hphys.
  destruct (find_player owner (ecs s1)) as [[[player [px py]]|]|];
    cbn [mbind option_bind]; [| |done].
  -     destruct (GetSpriteSrcRect SPRITE_PLAYER_IDLE) as [rect|]; [|done].
    cbn [mbind option_bind].
    destruct (b2Body_GetTransform bodyId (gWorld s1)) as [[p q]|]; [|done].
    cbn [mbind option_bind].
    intros (pw & _ & ->)%on_phys_Some. apply Hphys. by eexists.
  - intros [= <-]. apply Hphys. exists (gWorld s1). by destruct s1.
Qed.

Lemma swing_frame_swings s s' e : swing_frame s s' → swings e s' ↔ swings e s.
Proof.
  intros Hf. unfold swings. rewrite (swing_frame_mask s s' e Hf).
  destruct (swing_frame_get s s' e Hf) as (-> & _). done.
Qed.

Lemma RopeSwing_loop_rotation l s s' rope :
  NoDup l → for_each RopeSwing_rope l s = Some s' →
  (rope ∉ l ∨ ¬ swings rope s → swing_kept rope s s')
  ∧ (rope ∈ l → swings rope s → swing_stepped rope s s').
Proof.
  intros Hnd. revert s. induction Hnd as [|a l Ha Hnd IH]; intros s Hrun.
  - injection Hrun as <-. split; [by split|]. by intros ?%elem_of_nil.
  - apply for_each_cons_Some in Hrun as (s1 & Hstep & Hl).
    pose proof (RopeSwing_rope_inv _ _ _ Hstep) as (Hf1 & _).
    apply RopeSwing_rope_rotation in Hstep as (Hother & Hself & Hskip).
    destruct (IH s1 Hl) as (Hkept & Hstepped).
    assert (Htrans : ∀ t, swing_kept rope s s1 → swing_kept rope s1 t → swing_kept rope s t).
    { intros t [? ?] [? ?]. split; congruence. }
    split.
    + intros Hcase. destruct (decide (rope = a)) as [->|Hne].
      * apply (Htrans s'); [|apply Hkept; by left].
        apply Hskip. destruct Hcase as [Hnotin|Hns]; [|done].
        destruct Hnotin. by left.
      * apply (Htrans s'); [by apply Hother|]. apply Hkept.
        destruct Hcase as [Hnotin|Hns].
        -- left. intros Hin. apply Hnotin. by right.
        -- right. by rewrite (swing_frame_swings s s1).
    + intros [->|Hin]%elem_of_cons Hsw.
      * destruct (Hself Hsw) as (angle & Hr & Hr1 & Hd1).
        destruct Hkept as [Hk1 Hk2]; [by left|].
        exists angle. split; [done|]. split; congruence.
      * assert (Hne : rope ≠ a) by (intros ->; done).
        destruct (Hother rope Hne) as [Hk1 Hk2].
        destruct Hstepped as (angle & Hr & Hr1 & Hd1);
          [done|by apply (swing_frame_swings s s1)|].
        exists angle. unfold swing_dir in *. rewrite <- Hk1, <- Hk2. done.
Qed.

(** X13. One call of [RopeSwingSystem] advances each rope at rest by one swing
    step, with the rope's own direction, and leaves the rotation and the
    direction of every other entity as they were. *)
Theorem RopeSwingSystem_swings s s' rope :
  RopeSwingSystem s = Some s' →
  (0 ≤ rope ≤ w_maxId (ecs s) → swings rope s → swing_stepped rope s s')
  ∧ (¬ (0 ≤ rope ≤ w_maxId (ecs s) ∧ swings rope s) → swing_kept rope s s').
Proof.
  intros Hrun.
  destruct (RopeSwing_loop_rotation (ids (ecs s)) s s' rope (NoDup_seqZ _ _) Hrun)
    as [Hkept Hstepped].
  split.
  - intros Hr Hsw. apply Hstepped; [by apply elem_of_ids|done].
  - intros Hn. apply Hkept. destruct (decide (rope ∈ ids (ecs s))) as [Hin|Hnotin].
    + right. intros Hsw. apply Hn. split; [by apply elem_of_ids|done].
    + by left.
Qed.
End SwingFacts.

Section SwingRange.
Context {F : Type} `{FloatOrder F} `{WideOps F}.
Implicit Types (s : State F).

Lemma swing_step_in_range angle dir :
  (- maxSwingAngle <=? maxSwingAngle)%fl = true →
  let a := (angle + dir * swingSpeed * deltaTime)%fl in
  (a <=? a)%fl = true →
  in_swing_range (swing_step angle dir).1.
Proof.
  intros Hc a Ha. destruct (fle_operands _ _ Hc) as [Hlo Hhi].
  unfold swing_step, in_swing_range. fold a.
  destruct (maxSwingAngle <? a)%fl eqn:Hgt; cbn [fst]; [done|].
  destruct (a <? - maxSwingAngle)%fl eqn:Hlt; cbn [fst]; [done|].
  split.
  - by apply flt_false_le.
  - by apply flt_false_le.
Qed.

(** X14. After [RopeSwingSystem], the rotation of a rope at rest lies between
    [-maxSwingAngle] and [maxSwingAngle], whatever it was before, provided
    the advanced angle is a number (not a NaN); in binary32 and in the
    exact rationals alike. *)
Theorem RopeSwingSystem_angle_in_range s s' rope angle :
  (- maxSwingAngle <=? maxSwingAngle)%fl = true →
  RopeSwingSystem s = Some s' →
  0 ≤ rope ≤ w_maxId (ecs s) →
  mask_test (mask (ecs s) rope) swing_ropeMask = true →
  get_RopeControl rope (ecs s) = Some AtRest →
  get_Rotation rope (ecs s) = Some angle →
  (let a := (angle + swing_dir s rope * swingSpeed * deltaTime)%fl in
   (a <=? a)%fl = true) →
  ∃ angle', get_Rotation rope (ecs s') = Some angle' ∧ in_swing_range angle'.
Proof.
  intros Hc Hrun Hr Hm Hrc Hrot Ha.
  destruct (RopeSwing_loop_rotation (ids (ecs s)) s s' rope (NoDup_seqZ _ _) Hrun)
    as [_ Hstepped].
  destruct Hstepped as (angle0 & Hrot0 & Hrot' & _); [by apply elem_of_ids|by split|].
  assert (angle0 = angle) as -> by congruence.
  eexists. split; [exact Hrot'|]. by apply swing_step_in_range.
Qed.
End SwingRange.

(** X13 on the game scenario: the rope swings, the player does not. *)
Lemma RopeSwingSystem_swings_witness :
  swing_stepped 1 game_state (default game_state (RopeSwingSystem game_state))
  ∧ get_Rotation 1 (ecs (default game_state (RopeSwingSystem game_state)))
      = Some (3 # 2)%Q
  ∧ swing_kept 0 game_state (default game_state (RopeSwingSystem game_state)).
Proof.
  destruct (RopeSwingSystem_swings game_state
              (default game_state (RopeSwingSystem game_state)) 1) as [Hstep _].
  { apply default_Some. vm_refl. }
  destruct (RopeSwingSystem_swings game_state
              (default game_state (RopeSwingSystem game_state)) 0) as [_ Hkeep].
  { apply default_Some. vm_refl. }
  split; [|split].
  - apply Hstep; [split; [lia|vm_compute; discriminate]|split; vm_refl].
  - vm_refl.
  - apply Hkeep. intros [_ [Hm _]]. revert Hm. vm_compute. intros [=].
Defined.

(** X14 on the rope of the match, in binary32. *)
Lemma RopeSwingSystem_angle_in_range_witness :
  ∃ angle',
    get_Rotation 1 (ecs (default b32_game_state (RopeSwingSystem b32_game_state)))
      = Some angle'
    ∧ in_swing_range angle'.
Proof.
  apply (RopeSwingSystem_angle_in_range b32_game_state
           (default b32_game_state (RopeSwingSystem b32_game_state)) 1 (S754_zero false)).
  - vm_refl.
  - apply default_Some. vm_refl.
  - split; [lia|vm_compute; discriminate].
  - vm_refl.
  - vm_refl.
  - vm_refl.
  - cbv zeta. vm_refl.
Defined.

(** ** HandleRopeJointCleanup *)

Section CleanupFacts.
Context {F : Type} `{FloatOps F} `{WideOps F}.
Implicit Types (s : State F) (e : Z) (k : CompKind).

(** X15. [HandleRopeJointCleanup] does nothing on a rope that holds nothing.
    On a rope that holds an item it returns exactly when the joint is
    alive, and then the joint is destroyed, the rope's [GrabbedJoint] is
    removed, the item is tagged for destruction, and nothing else in the
    store, no body and no heap cell changes. *)
Theorem HandleRopeJointCleanup_releases rope s :
  (has GrabbedJoint rope (ecs s) = false → HandleRopeJointCleanup rope s = Some s)
  ∧ (∀ joint item,
       has GrabbedJoint rope (ecs s) = true →
       get_GrabbedJoint rope (ecs s) = Some (joint, item) →
       (is_Some (pw_joints (gWorld s) !! joint) ↔ is_Some (HandleRopeJointCleanup rope s))
       ∧ ∀ s', HandleRopeJointCleanup rope s = Some s' →
           has GrabbedJoint rope (ecs s') = false
           ∧ getComponent GrabbedJoint rope (ecs s') = None
           ∧ has DestroyTag item (ecs s') = true
           ∧ pw_joints (gWorld s') = delete joint (pw_joints (gWorld s))
           ∧ pw_bodies (gWorld s') = pw_bodies (gWorld s)
           ∧ heap s' = heap s
           ∧ w_maxId (ecs s') = w_maxId (ecs s)
           ∧ ∀ k e, ¬ (k = GrabbedJoint ∧ e = rope) → ¬ (k = DestroyTag ∧ e = item) →
               has k e (ecs s') = has k e (ecs s)
               ∧ getComponent k e (ecs s') = getComponent k e (ecs s)).
Proof.
  unfold HandleRopeJointCleanup. split.
  - by intros ->.
  - intros joint item -> ->. cbn [mbind option_bind].
    unfold on_phys, b2DestroyJoint.
    destruct (pw_joints (gWorld s) !! joint) as [jd|] eqn:Hj; cbn [mbind option_bind].
    + split; [split; by eexists|]. intros s' [= <-].
      cbn [ecs gWorld heap on_ecs set_ecs set_phys set_joints pw_joints pw_bodies].
      split_and!; try done.
      * rewrite has_addComponent, has_delComponent. cbn [kind_of].
        rewrite decide_False by (by intros [_ ?]). by rewrite decide_True.
      * rewrite get_addComponent, get_delComponent. cbn [kind_of].
        rewrite decide_False by (by intros [_ ?]). by rewrite decide_True.
      * rewrite has_addComponent. by rewrite decide_True.
      * intros k e Hn1 Hn2.
        rewrite has_addComponent, has_delComponent, get_addComponent, get_delComponent.
        cbn [kind_of].
        rewrite !decide_False; [done|..]; intros [? ?]; first [by apply Hn1|by apply Hn2].
    + split; [|done]. split; intros [? ?]; done.
Qed.
End CleanupFacts.

(** X15 on the rope that grabbed the gold. *)
Lemma HandleRopeJointCleanup_releases_witness :
  (is_Some (pw_joints (gWorld grabbed_state) !! 7)
   ↔ is_Some (HandleRopeJointCleanup 1 grabbed_state))
  ∧ ∀ s', HandleRopeJointCleanup 1 grabbed_state = Some s' →
      has GrabbedJoint 1 (ecs s') = false
      ∧ getComponent GrabbedJoint 1 (ecs s') = None
      ∧ has DestroyTag 2 (ecs s') = true
      ∧ pw_joints (gWorld s') = delete 7 (pw_joints (gWorld grabbed_state))
      ∧ pw_bodies (gWorld s') = pw_bodies (gWorld grabbed_state)
      ∧ heap s' = heap grabbed_state
      ∧ w_maxId (ecs s') = w_maxId (ecs grabbed_state)
      ∧ ∀ k e, ¬ (k = GrabbedJoint ∧ e = 1) → ¬ (k = DestroyTag ∧ e = 2) →
          has k e (ecs s') = has k e (ecs grabbed_state)
          ∧ getComponent k e (ecs s') = getComponent k e (ecs grabbed_state).
Proof.
  apply (proj2 (HandleRopeJointCleanup_releases 1 grabbed_state) 7 2); vm_refl.
Defined.

(** ** Hit events *)

Section CollisionMore.
Context {F : Type} `{FloatOps F} `{WideOps F}.
Implicit Types (s : State F) (e : Z) (k : CompKind).

Lemma hit_entities_swap a b s :
  hit_entities (mkHit b a) s =
    match hit_entities (mkHit a b) s with
    | Some (Some (entA, entB)) => Some (Some (entB, entA))
    | r => r
    end.
Proof.
  unfold hit_entities. cbn [shapeIdA shapeIdB].
  destruct (b2Shape_GetBody a (gWorld s)) as [bodyA|],
           (b2Shape_GetBody b (gWorld s)) as [bodyB|]; cbn [mbind option_bind]; try done.
  destruct (b2Body_GetUserData bodyA (gWorld s)) as [udA|],
           (b2Body_GetUserData bodyB (gWorld s)) as [udB|]; cbn [mbind option_bind];
    try done.
  destruct udA as [pA|], udB as [pB|]; try done.
  destruct (heap s !! pA) as [entA|], (heap s !! pB) as [entB|]; done.
Qed.

(** X16. The order of the two shapes in a hit event does not matter, as long
    as the two entities are not both ropes. *)
Theorem Collision_hit_symmetric s a b :
  (∀ entA entB, hit_entities (mkHit a b) s = Some (Some (entA, entB)) →
     has RoperTag entA (ecs s) = false ∨ has RoperTag entB (ecs s) = false) →
  Collision_hit (mkHit b a) s = Collision_hit (mkHit a b) s.
Proof.
  intros Hone. unfold Collision_hit. rewrite hit_entities_swap.
  destruct (hit_entities (mkHit a b) s) as [[[entA entB]|]|]; try done.
  cbn [mbind option_bind].
  destruct (Hone entA entB eq_refl) as [-> | ->]; cbn [andb].
  - by destruct (has RoperTag entB (ecs s) && has Collectable entA (ecs s)
                 && negb (has GrabbedJoint entB (ecs s))).
  - by destruct (has RoperTag entA (ecs s) && has Collectable entB (ecs s)
                 && negb (has GrabbedJoint entA (ecs s))).
Qed.

End CollisionMore.

(** X16 on the hit between the rope and the gold. *)
Lemma Collision_hit_symmetric_witness :
  Collision_hit (mkHit 4 2) contact_state = Collision_hit (mkHit 2 4) contact_state.
Proof.
  apply (Collision_hit_symmetric contact_state 2 4).
  intros entA entB Hents. right.
  assert (Hb : entB = 2).
  { revert Hents. vm_compute. by intros [= _ <-]. }
  subst entB. clear Hents. vm_refl.
Defined.


(** ** PhysicsSyncSystem: what it passes over *)

Section SyncMore.
Context {F : Type} `{FloatOps F} `{WideOps F}.
Implicit Types (s : State F) (e : Z) (k : CompKind).

Lemma PhysicsSync_entity_skips id s s' e :
  PhysicsSync_entity id s = Some s' → e ≠ id ∨ sync_skips s e →
  getComponent Position e (ecs s') = getComponent Position e (ecs s).
Proof.
  unfold PhysicsSync_entity. intros Hrun Hskip.
  destruct (mask_test (mask (ecs s) id) _) eqn:Hmask; [|by injection Hrun as <-].
  destruct (get_PhysicsBody id (ecs s)) as [bodyId|] eqn:Hpb; [|done].
  destruct (get_Position id (ecs s)) as [pos|]; [|done].
  destruct (get_Renderable id (ecs s)) as [spriteID|]; [|done].
  cbn [mbind option_bind] in Hrun.
  destruct (b2Body_IsValid bodyId (gWorld s)) eqn:Hvalid; [|by injection Hrun as <-].
  destruct (b2Body_GetTransform bodyId (gWorld s)) as [[p q]|]; [|done].
  cbn [mbind option_bind] in Hrun.
  destruct (GetSpriteOffset spriteID) as [[ox oy]|]; [|done].
  cbn [mbind option_bind] in Hrun. injection Hrun as <-.
  cbn [ecs on_ecs set_ecs]. rewrite get_setComponent. cbn [kind_of].
  rewrite decide_False; [done|]. intros [-> _].
  destruct Hskip as [?|[Hm|(b & Hb & Hinv)]]; [done|congruence|].
  congruence.
Qed.

Lemma sync_frame_skips s s' e : sync_frame s s' → sync_skips s' e ↔ sync_skips s e.
Proof.
  intros Hf. unfold sync_skips.
  destruct (sync_frame_get s s' e Hf) as (-> & -> & _).
  destruct Hf as (_ & _ & _ & -> & _). done.
Qed.

Lemma PhysicsSync_loop_skips l s s' e :
  for_each PhysicsSync_entity l s = Some s' → sync_skips s e →
  getComponent Position e (ecs s') = getComponent Position e (ecs s).
Proof.
  revert s. induction l as [|a l IH]; intros s Hrun Hskip.
  - by injection Hrun as <-.
  - apply for_each_cons_Some in Hrun as (s1 & Hstep & Hl).
    rewrite (IH s1 Hl).
    + eapply PhysicsSync_entity_skips; [done|by right].
    + apply PhysicsSync_entity_inv in Hstep as (Hf & _).
      by apply (sync_frame_skips s s1).
Qed.

(** X17. When no component read can miss and every live body's sprite index
    is within the table, [PhysicsSyncSystem] returns; the position of an
    entity that lacks one of the three components, or whose body handle is
    stale, is not written. *)
Theorem PhysicsSyncSystem_total s :
  sync_ready s →
  ∃ s', PhysicsSyncSystem s = Some s'
    ∧ sync_frame s s'
    ∧ ∀ e, sync_skips s e →
           getComponent Position e (ecs s') = getComponent Position e (ecs s).
Proof.
  intros Hready. unfold PhysicsSyncSystem.
  pose (I := λ t : State F,
    sync_frame s t ∧ ∀ id, is_Some (get_Position id (ecs s)) →
                           is_Some (get_Position id (ecs t))).
  destruct (for_each_total PhysicsSync_entity I (ids (ecs s))) with (s := s)
    as (s' & Hrun & Hf & _).
  - intros id t Hid%elem_of_ids [Hf Hpos].
    assert (Hstep : is_Some (PhysicsSync_entity id t)).
    { unfold PhysicsSync_entity.
      destruct (sync_frame_get s t id Hf) as (Hm & Hpb & Hsp). rewrite Hm.
      destruct (mask_test (mask (ecs s) id) _) eqn:Hmask; [|by eexists].
      destruct (Hready id Hid Hmask) as (Hp & bodyId & spriteID & Hb & Hr & Hrange).
      destruct (Hpos id Hp) as [pos ->]. rewrite Hpb, Hb, Hsp, Hr.
      cbn [mbind option_bind].
      assert (Hw : gWorld t = gWorld s) by apply Hf. rewrite Hw.
      destruct (b2Body_IsValid bodyId (gWorld s)) eqn:Hvalid; [|by eexists].
      unfold b2Body_IsValid in Hvalid. apply bool_decide_eq_true in Hvalid as [body Hbody].
      unfold b2Body_GetTransform. rewrite Hbody. cbn [mbind option_bind].
      unfold GetSpriteOffset, GetSpriteSrcRect.
      rewrite bool_decide_eq_true_2; [by eexists|]. by apply Hrange. }
    destruct Hstep as [t' Hstep]. exists t'. split; [done|].
    pose proof (PhysicsSync_entity_inv _ _ _ Hstep) as (Hf' & Hother & _).
    split; [by eapply sync_frame_trans|].
    intros e He. destruct (decide (e = id)) as [->|Hne].
    + revert Hstep. unfold PhysicsSync_entity.
      destruct (mask_test _ _); [|intros [= <-]; by apply Hpos].
      destruct (get_PhysicsBody id (ecs t)) as [b|]; [|done].
      destruct (get_Position id (ecs t)) as [p|] eqn:Hp; [|done].
      destruct (get_Renderable id (ecs t)) as [sp|]; [|done]. cbn [mbind option_bind].
      destruct (b2Body_IsValid b (gWorld t)); [|intros [= <-]; by rewrite Hp].
      destruct (b2Body_GetTransform b (gWorld t)) as [[p0 q0]|]; [|done].
      cbn [mbind option_bind].
      destruct (GetSpriteOffset sp) as [[ox oy]|]; [|done]. cbn [mbind option_bind].
      intros [= <-]. cbn [ecs on_ecs set_ecs]. rewrite get_Position_set.
      by rewrite decide_True.
    + rewrite Hother by done. by apply Hpos.
  - split; [apply sync_frame_refl|done].
  - exists s'. split; [done|]. split; [done|].
    intros e He. by eapply PhysicsSync_loop_skips.
Qed.
End SyncMore.

(** X17 on the game scenario. *)
Lemma PhysicsSyncSystem_total_witness :
  ∃ s', PhysicsSyncSystem game_state = Some s'
    ∧ sync_frame game_state s'
    ∧ ∀ e, sync_skips game_state e →
           getComponent Position e (ecs s') = getComponent Position e (ecs game_state).
Proof.
  apply (PhysicsSyncSystem_total game_state).
  intros id Hid Hm. change (w_maxId (ecs game_state)) with 3 in Hid.
  assert (Hcases : id = 0 ∨ id = 1 ∨ id = 2 ∨ id = 3) by lia. clear Hid.
  destruct Hcases as [->|[->|[->| ->]]];
    try (exfalso; revert Hm; vm_compute; discriminate); clear Hm.
  - split; [vm_compute; by eexists|]. exists 3, 0. split_and!; [vm_refl|vm_refl|].
    intros _. vm_compute. split; [intros [=]|reflexivity].
  - split; [vm_compute; by eexists|]. exists 5, 0. split_and!; [vm_refl|vm_refl|].
    intros _. vm_compute. split; [intros [=]|reflexivity].
Defined.

(** ** A frame of play *)

Section FrameFacts.
Context {F : Type} `{FloatOps F} `{WideOps F}.
Implicit Types (s : State F) (e : Z) (k : CompKind).

Lemma collision_frame_refl s : collision_frame s s.
Proof. by split. Qed.

Lemma collision_frame_trans s1 s2 s3 :
  collision_frame s1 s2 → collision_frame s2 s3 → collision_frame s1 s3.
Proof.
  intros [Hm Hg] [Hm' Hg']. split; [congruence|].
  intros k e ? ?. by rewrite Hg', Hg.
Qed.

Lemma TryAttachCollectable_frame rope item s s' :
  TryAttachCollectable rope item s = Some s' → collision_frame s s'.
Proof.
  intros Hrun. destruct (has GrabbedJoint rope (ecs s)) eqn:Hgj.
  - unfold TryAttachCollectable in Hrun. rewrite Hgj in Hrun.
    injection Hrun as <-. apply collision_frame_refl.
  - apply TryAttachCollectable_Some in Hrun as (rb & ib & body & _ & _ & _ & Hecs & _);
      [|done].
    unfold collision_frame. rewrite Hecs. split; [done|].
    intros k e Hk1 Hk2. rewrite get_setComponent, get_addComponent. cbn [kind_of].
    rewrite !decide_False; [done|..]; by intros [_ ?].
Qed.

Lemma Collision_hit_frame hit s s' :
  Collision_hit hit s = Some s' → collision_frame s s'.
Proof.
  unfold Collision_hit. destruct (hit_entities hit s) as [[[entA entB]|]|]; simpl;
    [| by intros [= <-]; apply collision_frame_refl | done].
  repeat case_match; try (by intros [= <-]; apply collision_frame_refl);
    apply TryAttachCollectable_frame.
Qed.

Lemma CollisionSystem_frame s s' : CollisionSystem s = Some s' → collision_frame s s'.
Proof.
  unfold CollisionSystem. destruct (pw_valid (gWorld s));
    [|intros [= <-]; apply collision_frame_refl].
  apply (for_each_rel Collision_hit collision_frame).
  - apply collision_frame_refl.
  - apply collision_frame_trans.
  - intros hit t t' _. apply Collision_hit_frame.
Qed.

(** X18. Over the four systems of a frame no entity appears, mask bits other
    than [GrabbedJoint] and [DestroyTag] are constant, the position of an
    entity without [Renderable] is never written, and the sprite, owner,
    body handle, item kind, value, weight, velocity and score of every
    entity are never written. *)
Theorem update_systems_Position s s' :
  update_systems s = Some s' →
  w_maxId (ecs s') = w_maxId (ecs s)
  ∧ (∀ k e, k ≠ GrabbedJoint → k ≠ DestroyTag → has k e (ecs s') = has k e (ecs s))
  ∧ (∀ e, has Renderable e (ecs s) = false →
          getComponent Position e (ecs s') = getComponent Position e (ecs s))
  ∧ (∀ k e, k = Renderable ∨ k = PlayerInfo ∨ k = PhysicsBody ∨ k = ItemType
            ∨ k = Value ∨ k = Weight ∨ k = Velocity ∨ k = Score →
          getComponent k e (ecs s') = getComponent k e (ecs s)).
Proof.
  unfold update_systems.
  destruct (RopeSwingSystem s) as [s1|] eqn:H1; [|done]. cbn [mbind option_bind].
  destruct (RopeExtensionSystem s1) as [s2|] eqn:H2; [|done]. cbn [mbind option_bind].
  destruct (PhysicsSyncSystem s2) as [s3|] eqn:H3; [|done]. cbn [mbind option_bind].
  intros H4.
  pose proof (RopeSwingSystem_frame _ _ H1) as (Hm1 & Hmask1 & Hg1 & _).
  pose proof (RopeExtensionSystem_rope _ _ 0 H2) as [(Hm2 & Hh2 & Hg2 & _) _].
  pose proof (PhysicsSyncSystem_frame _ _ H3) as (Hm3 & Hmask3 & Hg3 & _).
  pose proof (CollisionSystem_frame _ _ H4) as (Hm4 & Hg4).
  pose proof (CollisionSystem_attach_or_same _ _ H4) as [[Hh4 _] _].
  assert (Hhas : ∀ k e, k ≠ GrabbedJoint → k ≠ DestroyTag →
                        has k e (ecs s') = has k e (ecs s)).
  { intros k e Hk1 Hk2. rewrite Hh4 by done.
    unfold has at 1, mask. rewrite Hmask3. fold (mask (ecs s2) e). fold (has k e (ecs s2)).
    rewrite Hh2 by done. unfold has, mask. by rewrite Hmask1. }
  split_and!.
  - congruence.
  - exact Hhas.
  - intros e Hr. rewrite Hg4 by done.
    assert (Hskip : sync_skips s2 e).
    { left. apply not_true_is_false. intros Hm.
      pose proof (proj1 (mask_test_of _ _) Hm Renderable) as Hbit.
      fold (has Renderable e (ecs s2)) in Hbit.
      rewrite Hh2 in Hbit by done. unfold has, mask in Hbit. rewrite Hmask1 in Hbit.
      fold (mask (ecs s) e) in Hbit. fold (has Renderable e (ecs s)) in Hbit.
      rewrite Hr in Hbit. discriminate Hbit. solve_elem_of_list. }
    unfold PhysicsSyncSystem in H3.
    pose proof (PhysicsSync_loop_skips _ _ _ e H3 Hskip) as Hp'.
    rewrite Hp', Hg2, Hg1; done.
  - intros k e Hk. rewrite Hg4, Hg3, Hg2, Hg1; first done;
      destruct Hk as [->|[->|[->|[->|[->|[->|[->| ->]]]]]]]; done.
Qed.
End FrameFacts.

(** X18 on the frame after the key press. *)
Lemma update_systems_Position_witness :
  w_maxId (ecs (default game_state (update_systems pressed_state))) = w_maxId (ecs pressed_state)
  ∧ getComponent Position 1 (ecs (default game_state (update_systems pressed_state)))
      = getComponent Position 1 (ecs pressed_state)
  ∧ get_RopeControl 1 (ecs (default game_state (update_systems pressed_state)))
      = Some Extending.
Proof.
  destruct (update_systems_Position pressed_state
              (default game_state (update_systems pressed_state)))
    as (Hm & _ & Hpos & _).
  { apply default_Some. vm_refl. }
  split; [exact Hm|]. split; [apply Hpos; vm_refl|vm_refl].
Defined.

(** ** The systems with no logic *)

Section Placeholders.
Context {F : Type} `{FloatOps F} `{WideOps F}.
Implicit Types (s : State F).

Lemma for_each_skip_unless req l s : for_each (skip_unless req) l s = Some s.
Proof.
  induction l as [|id l IH]; [done|].
  assert (Hstep : skip_unless req id s = Some s).
  { unfold skip_unless. by destruct (negb (mask_test (mask (ecs s) id) req)). }
  rewrite for_each_cons, Hstep. exact IH.
Qed.

(** X19. [PullObjectSystem], [ScoreSystem], [TreasureChestSystem],
    [TimerSystem], [MoleSystem] and [LifeTimeSystem] return the state they
    were given: no score is counted, no timer runs and no mole moves. *)
Theorem placeholder_systems_noop s :
  PullObjectSystem s = Some s ∧ ScoreSystem s = Some s ∧ TreasureChestSystem s = Some s
  ∧ TimerSystem s = Some s ∧ MoleSystem s = Some s ∧ LifeTimeSystem s = Some s.
Proof. split_and!; apply for_each_skip_unless. Qed.
End Placeholders.

(** ** Letting go of an item *)

Section ReleaseFacts.
Context {F : Type} `{FloatOps F} `{WideOps F}.
Implicit Types (s : State F) (e : Z) (k : CompKind).

Lemma release_frame_refl s : release_frame s s.
Proof. by split_and!. Qed.

Lemma release_frame_trans s1 s2 s3 :
  release_frame s1 s2 → release_frame s2 s3 → release_frame s1 s3.
Proof. intros (A & A1 & B & C) (A' & A1' & B' & C'). split_and!; eauto. Qed.

Lemma joints_untouched_refl s : joints_untouched s s.
Proof. by split_and!. Qed.

Lemma joints_untouched_trans s1 s2 s3 :
  joints_untouched s1 s2 → joints_untouched s2 s3 → joints_untouched s1 s3.
Proof.
  intros (A & B & C) (A' & B' & C'). split_and!; [congruence| |congruence].
  intros k e Hk. by rewrite B', B.
Qed.

Lemma joints_untouched_set (c : Component F) e s :
  kind_of c ≠ GrabbedJoint → kind_of c ≠ DestroyTag →
  joints_untouched s (on_ecs (setComponent c e) s).
Proof.
  intros H1 H2. split_and!; try done. intros k e' Hk.
  cbn [ecs on_ecs set_ecs]. rewrite get_setComponent.
  rewrite decide_False; [done|]. intros [_ Heq]. destruct Hk; congruence.
Qed.

Lemma joints_untouched_upd_body b f s s' :
  on_phys (upd_body b f) s = Some s' → joints_untouched s s'.
Proof.
  intros (pw & Hpw & ->)%on_phys_Some.
  apply upd_body_Some in Hpw as (body & _ & ->). by split_and!.
Qed.

Lemma joints_untouched_has s s' k e : joints_untouched s s' → has k e (ecs s') = has k e (ecs s).
Proof. intros (Hm & _). unfold has, mask. by rewrite Hm. Qed.

Ltac joints_untouched_sets :=
  repeat (eapply joints_untouched_trans; [|by apply joints_untouched_set]);
  apply joints_untouched_refl.

Lemma rope_handle_input_joints id player state sendRope r s :
  joints_untouched s (rope_handle_input id player state sendRope r s).2.
Proof.
  unfold rope_handle_input.
  destruct (bool_decide (state = AtRest) && sendRope); cbn [snd];
    joints_untouched_sets.
Qed.

Lemma rope_move_joints id bodyId state len origin target current s st2 s2 :
  rope_move id bodyId state len origin target current s = Some (st2, s2) →
  joints_untouched s s2.
Proof.
  unfold rope_move. destruct state.
  - destruct (on_phys _ s) as [t|] eqn:Hp; [|done]. intros [= _ <-].
    by eapply joints_untouched_upd_body.
  - destruct (MAX_LENGTH <? _)%fl;
      (destruct (on_phys _ _) as [t|] eqn:Hp; [|done]); intros [= _ <-];
      (eapply joints_untouched_trans; [|by eapply joints_untouched_upd_body]);
      joints_untouched_sets.
  - destruct (_ <=? fofZ 0)%fl;
      (destruct (on_phys _ _) as [t|] eqn:Hp; [|done]); intros [= _ <-];
      (eapply joints_untouched_trans; [|by eapply joints_untouched_upd_body]);
      joints_untouched_sets.
Qed.

Lemma rope_joint_cleanup_joints id bodyId state s s' :
  rope_joint_cleanup id bodyId state s = Some s' →
  release_frame s s'
  ∧ (∀ e, e ≠ id → joint_kept e s s')
  ∧ (state = AtRest → has GrabbedJoint id (ecs s) = true → joint_released id s s')
  ∧ (¬ (state = AtRest ∧ has GrabbedJoint id (ecs s) = true) → s' = s).
Proof.
  unfold rope_joint_cleanup.
  destruct (bool_decide (state = AtRest)) eqn:Hst; cbn [andb].
  - apply bool_decide_eq_true in Hst as ->.
    destruct (has GrabbedJoint id (ecs s)) eqn:Hgj.
    + destruct (HandleRopeJointCleanup id s) as [s1|] eqn:Hc; [|done].
      cbn [mbind option_bind]. intros (pw & Hpw & ->)%on_phys_Some.
      assert (Hjoints : pw_joints pw = pw_joints (gWorld s1)).
      { destruct (b2Body_SetLinearVelocity bodyId vec0 (gWorld s1)) as [pw1|] eqn:H1;
          [|done].
        cbn [mbind option_bind] in Hpw.
        destruct (b2Body_SetAngularVelocity bodyId (fofZ 0) pw1) as [pw2|] eqn:H2;
          [|done].
        cbn [mbind option_bind] in Hpw.
        apply upd_body_Some in H1 as (? & _ & ->).
        apply upd_body_Some in H2 as (? & _ & ->).
        apply upd_body_Some in Hpw as (? & _ & ->). done. }
      unfold HandleRopeJointCleanup in Hc. rewrite Hgj in Hc.
      destruct (get_GrabbedJoint id (ecs s)) as [[joint item]|] eqn:Hget; [|done].
      cbn [mbind option_bind] in Hc.
      destruct (on_phys (b2DestroyJoint joint) s) as [t|] eqn:Hd; [|done].
      cbn [mbind option_bind] in Hc. injection Hc as <-.
      apply on_phys_Some in Hd as (pwd & Hd & ->). unfold b2DestroyJoint in Hd.
      destruct (pw_joints (gWorld s) !! joint) as [jd|]; [|done].
      cbn [mbind option_bind] in Hd. injection Hd as <-.
      cbn [ecs gWorld on_ecs set_ecs set_phys set_joints pw_joints] in Hjoints.
      unfold release_frame, joint_kept, joint_released.
      cbn [ecs gWorld on_ecs set_ecs set_phys]. rewrite Hjoints.
      split_and!.
      * intros e He. rewrite has_addComponent, has_delComponent. cbn [kind_of].
        destruct (decide (item = e ∧ DestroyTag = DestroyTag)); [done|].
        by rewrite decide_False by (by intros [_ ?]).
      * intros e He. rewrite get_addComponent, get_delComponent. cbn [kind_of].
        destruct (decide (item = e ∧ DestroyTag = DestroyTag)); [done|].
        by rewrite decide_False by (by intros [_ ?]).
      * intros e He. rewrite has_addComponent, has_delComponent. cbn [kind_of].
        rewrite decide_False by (by intros [_ ?]). by case_decide.
      * intros j Hj. rewrite lookup_delete_None. by right.
      * intros e Hne.
        rewrite has_addComponent, has_delComponent, get_addComponent, get_delComponent.
        cbn [kind_of]. rewrite !decide_False; [done|..]; intros [? ?]; congruence.
      * intros _ _. exists joint, item. split_and!; [done| | | |].
        -- rewrite has_addComponent, has_delComponent. cbn [kind_of].
           rewrite decide_False by (by intros [_ ?]). by rewrite decide_True.
        -- rewrite has_addComponent. by rewrite decide_True.
        -- rewrite get_addComponent. by rewrite decide_True.
        -- apply lookup_delete_eq.
      * intros Hn. destruct Hn. by split.
    + intros [= <-]. split_and!; [apply release_frame_refl|by split|done|done].
  - intros [= <-]. apply bool_decide_eq_false in Hst.
    split_and!; [apply release_frame_refl|by split|done|done].
Qed.

Lemma joints_untouched_release s s' : joints_untouched s s' → release_frame s s'.
Proof.
  intros Hu. pose proof (joints_untouched_has s s') as Hh.
  destruct Hu as (Hm & Hg & Hj). split_and!.
  - intros e He. by rewrite Hh.
  - intros e He. rewrite Hg; [done|by right].
  - intros e He. by rewrite Hh.
  - intros j Hn. by rewrite Hj.
Qed.

Lemma joints_untouched_kept s s' e : joints_untouched s s' → joint_kept e s s'.
Proof.
  intros Hu. split; [by apply joints_untouched_has|].
  destruct Hu as (_ & Hg & _). apply Hg. by left.
Qed.

Lemma RopeExtension_rope_joints id s s' :
  RopeExtension_rope id s = Some s' →
  release_frame s s'
  ∧ (∀ e, e ≠ id → joint_kept e s s')
  ∧ (extends id s → has GrabbedJoint id (ecs s) = true →
     get_RopeControl id (ecs s') = Some AtRest → joint_released id s s').
Proof.
  unfold RopeExtension_rope, extends.
  destruct (mask_test (mask (ecs s) id) ext_ropeMask);
    [|intros [= <-]; split_and!; [apply release_frame_refl|by split|by intros [[=] _]]].
  destruct (get_RopeControl id (ecs s)) as [state|] eqn:Hrc; [|done].
  destruct (get_Length id (ecs s)) as [len|] eqn:Hlen; [|done].
  destruct (get_Rotation id (ecs s)) as [angle|]; [|done].
  destruct (get_PhysicsBody id (ecs s)) as [bodyId|]; [|done].
  destruct (get_PlayerInfo id (ecs s)) as [owner|] eqn:Hpi; [|done].
  cbn [mbind option_bind].
  destruct (find_player owner (ecs s)) as [[[player [px py]]|]|] eqn:Hfind;
    [| intros [= <-]; split_and!; [apply release_frame_refl|by split|] | done].
  2:{ intros [_ (o & p & [= <-] & Hf)]. congruence. }
  cbn [mbind option_bind].
  destruct (get_PlayerInput player (ecs s)) as [[sendRope r]|] eqn:Hin; [|done].
  cbn [mbind option_bind].
  pose proof (rope_handle_input_joints id player state sendRope r s) as Hu1.
  destruct (rope_handle_input id player state sendRope r s) as [st1 s1] eqn:Hstage1.
  cbn [snd] in Hu1.
  destruct (rope_handle_input_spec _ _ _ _ _ _ _ _ Hstage1 Hrc Hin)
    as (-> & _ & _ & _ & Hrc1 & Hlen1 & _).
  destruct (GetSpriteSrcRect SPRITE_PLAYER_IDLE) as [rect|]; [|done].
  cbn [mbind option_bind].
  destruct (b2Body_GetPosition bodyId (gWorld s1)) as [currentPos|]; [|done].
  cbn [mbind option_bind].
  match goal with
  | |- context [rope_move ?a ?b ?c ?d ?o ?t ?p s1] =>
      destruct (rope_move a b c d o t p s1) as [[st2 s2]|] eqn:Hstage2; [|done]
  end.
  cbn [mbind option_bind]. intros Hstage3.
  assert (Hlen1' : get_Length id (ecs s1) = Some len).
  { unfold get_Length in *. by rewrite Hlen1. }
  destruct (rope_move_spec _ _ _ _ _ _ _ _ _ _ Hstage2 Hrc1 Hlen1')
    as (_ & _ & Hrc2 & _ & -> & _).
  pose proof (rope_move_joints _ _ _ _ _ _ _ _ _ _ Hstage2) as Hu2.
  pose proof (joints_untouched_trans _ _ _ Hu1 Hu2) as Hu.
  destruct (rope_joint_cleanup_spec _ _ _ _ _ Hstage3) as (_ & Hr3 & _).
  destruct (rope_joint_cleanup_joints _ _ _ _ _ Hstage3) as (Hrel & Hkept & Hyes & _).
  split_and!.
  - eapply release_frame_trans; [by apply joints_untouched_release|done].
  - intros e Hne. destruct (joints_untouched_kept s s2 e Hu) as [Hk1 Hk2].
    destruct (Hkept e Hne) as [Hk3 Hk4]. split; congruence.
  - intros _ Hgj Hrest.
    assert (Hst2 : (move_step (input_step state sendRope) len).1 = AtRest).
    { unfold get_RopeControl in Hrest, Hrc2. rewrite (proj1 (Hr3 id)) in Hrest.
      congruence. }
    destruct Hyes as (joint & item & Hget & Hrest').
    + done.
    + by rewrite (joints_untouched_has s s2).
    + exists joint, item. split; [|done].
      unfold get_GrabbedJoint in *. destruct Hu as (_ & Hg & _).
      rewrite <- (Hg GrabbedJoint id); [done|by left].
Qed.

Lemma ext_frame_extends s s' e : ext_frame s s' → extends e s' ↔ extends e s.
Proof.
  intros Hf. unfold extends, ext_ropeMask.
  rewrite (ext_frame_mask_test s s' e) by (done || solve_not_elem_of_list).
  destruct (ext_frame_get s s' e Hf) as (-> & _).
  split; intros [Hm (o & p & Ho & Hfind)]; (split; [done|]); exists o, p;
    (split; [done|]).
  - by rewrite <- (ext_frame_find_player s s').
  - by rewrite (ext_frame_find_player s s').
Qed.

Lemma RopeExtension_loop_joints l s s' rope :
  NoDup l → for_each RopeExtension_rope l s = Some s' →
  release_frame s s'
  ∧ (rope ∉ l → joint_kept rope s s')
  ∧ (rope ∈ l → extends rope s → has GrabbedJoint rope (ecs s) = true →
     get_RopeControl rope (ecs s') = Some AtRest → joint_released rope s s').
Proof.
  intros Hnodup. revert s. induction Hnodup as [|a l Ha Hnodup IH]; intros s Hrun.
  - injection Hrun as <-. split; [apply release_frame_refl|]. split; [by split|].
    by intros ?%elem_of_nil.
  - apply for_each_cons_Some in Hrun as (s1 & Hstep & Hl).
    pose proof (RopeExtension_rope_inv _ _ _ Hstep) as (Hf1 & Hr1 & _).
    apply RopeExtension_rope_joints in Hstep as (Hrel1 & Hkept1 & Hyes1).
    destruct (IH s1 Hl) as (Hrel2 & Hout & Hin).
    destruct (RopeExtension_loop l s1 s' rope Hnodup Hl) as (_ & Hskip & _).
    split; [by eapply release_frame_trans|]. split.
    + intros [Hne Hnotin]%not_elem_of_cons.
      destruct (Hkept1 rope Hne) as [? ?]. destruct (Hout Hnotin) as [? ?].
      split; congruence.
    + intros Hmem Hext Hgj Hrest. destruct (decide (rope = a)) as [->|Hne].
      * destruct (rope_skipped_get a s1 s' (Hskip Ha)) as [Hrc _].
        destruct Hyes1 as (joint & item & Hget & Hno & Htag & Hcomp & Hj);
          [done|done|congruence|].
        exists joint, item. destruct Hrel2 as (A & A1 & B & C). split_and!; auto.
      * apply elem_of_cons in Hmem as [?|Hmem]; [done|].
        destruct (Hkept1 rope Hne) as [Hk1 Hk2].
        destruct Hin as (joint & item & Hget & Hrest');
          [done|by apply (ext_frame_extends s s1)|congruence|done|].
        exists joint, item. split; [|done].
        unfold get_GrabbedJoint in *. by rewrite <- Hk2.
Qed.

(** X20. A rope that is at rest after [RopeExtensionSystem] holds nothing; if
    it held an item before, that call destroyed the joint, removed the
    [GrabbedJoint] and tagged the item for destruction. *)
Theorem RopeExtensionSystem_releases_at_rest s s' rope :
  RopeExtensionSystem s = Some s' →
  0 ≤ rope ≤ w_maxId (ecs s) →
  extends rope s →
  get_RopeControl rope (ecs s') = Some AtRest →
  has GrabbedJoint rope (ecs s') = false
  ∧ (has GrabbedJoint rope (ecs s) = true → joint_released rope s s').
Proof.
  intros Hrun Hr Hext Hrest.
  destruct (RopeExtension_loop_joints (ids (ecs s)) s s' rope (NoDup_seqZ _ _) Hrun)
    as ((_ & _ & Hno & _) & _ & Hin).
  destruct (has GrabbedJoint rope (ecs s)) eqn:Hgj.
  - destruct Hin as (joint & item & Hget & Hgone & Hrest'); try done.
    { by apply elem_of_ids. }
    split; [done|]. intros _. by exists joint, item.
  - split; [by apply Hno|done].
Qed.

(** X21. The item a rope has brought home loses every enumerated component in
    the [DestructionSystem] that follows, and its joint is gone; the
    bodies of the physics world are all still there. *)
Theorem released_item_is_destroyed s s' rope joint item :
  RopeExtensionSystem s = Some s' →
  0 ≤ rope ≤ w_maxId (ecs s) →
  extends rope s →
  has GrabbedJoint rope (ecs s) = true →
  get_GrabbedJoint rope (ecs s) = Some (joint, item) →
  get_RopeControl rope (ecs s') = Some AtRest →
  (∀ k, k ∈ destroyed_kinds → has k item (ecs (DestructionSystem s')) = false)
  ∧ pw_joints (gWorld (DestructionSystem s')) !! joint = None
  ∧ pw_bodies (gWorld (DestructionSystem s')) = pw_bodies (gWorld s').
Proof.
  intros Hrun Hr Hext Hgj Hget Hrest.
  destruct (RopeExtension_loop_joints (ids (ecs s)) s s' rope (NoDup_seqZ _ _) Hrun)
    as (_ & _ & Hin).
  destruct Hin as (j & i & Hget' & _ & Htag & Hcomp & Hj); try done.
  { by apply elem_of_ids. }
  assert (j = joint ∧ i = item) as [-> ->] by (split; congruence).
  split_and!; [|done|done].
  intros k Hk. apply DestructionSystem_clears_listed; [|done].
  apply elem_of_toDelete. split; [by rewrite Hcomp|done].
Qed.
End ReleaseFacts.

(** X20 on the rope that has pulled the gold home. *)
Lemma RopeExtensionSystem_releases_at_rest_witness :
  has GrabbedJoint 1 (ecs released_state) = false
  ∧ (has GrabbedJoint 1 (ecs collided_state) = true →
     joint_released 1 collided_state released_state).
Proof.
  apply (RopeExtensionSystem_releases_at_rest collided_state released_state 1).
  - apply default_Some. vm_refl.
  - split; [lia|vm_compute; discriminate].
  - split; [vm_refl|]. exists 1, (0, (570, 10)%Q). split; vm_refl.
  - vm_refl.
Defined.

(** X21 on the gold pulled home. *)
Lemma released_item_is_destroyed_witness :
  (∀ k, k ∈ destroyed_kinds → has k 2 (ecs (DestructionSystem released_state)) = false)
  ∧ pw_joints (gWorld (DestructionSystem released_state)) !! 7 = None
  ∧ pw_bodies (gWorld (DestructionSystem released_state)) = pw_bodies (gWorld released_state).
Proof.
  apply (released_item_is_destroyed collided_state released_state 1 7 2).
  - apply default_Some. vm_refl.
  - split; [lia|vm_compute; discriminate].
  - split; [vm_refl|]. exists 1, (0, (570, 10)%Q). split; vm_refl.
  - vm_refl.
  - vm_refl.
  - vm_refl.
Defined.

(** ** From the key press to the launch *)

Section LaunchFacts.
Context {F : Type} `{FloatOps F} `{WideOps F}.
Implicit Types (s : State F) (e : Z) (k : CompKind).

Lemma RopeExtension_rope_input id s s' e :
  RopeExtension_rope id s = Some s' →
  ¬ answers_to id e s →
  get_PlayerInput e (ecs s') = get_PlayerInput e (ecs s).
Proof.
  unfold RopeExtension_rope, answers_to.
  destruct (mask_test (mask (ecs s) id) ext_ropeMask); [|by intros [= <-]].
  destruct (get_RopeControl id (ecs s)) as [state|] eqn:Hrc; [|done].
  destruct (get_Length id (ecs s)) as [len|] eqn:Hlen; [|done].
  destruct (get_Rotation id (ecs s)) as [angle|]; [|done].
  destruct (get_PhysicsBody id (ecs s)) as [bodyId|]; [|done].
  destruct (get_PlayerInfo id (ecs s)) as [owner|] eqn:Hpi; [|done].
  cbn [mbind option_bind].
  destruct (find_player owner (ecs s)) as [[[player [px py]]|]|] eqn:Hfind;
    [| by intros [= <-] | done].
  cbn [mbind option_bind].
  destruct (get_PlayerInput player (ecs s)) as [[sendRope r]|] eqn:Hin; [|done].
  cbn [mbind option_bind].
  destruct (rope_handle_input id player state sendRope r s) as [st1 s1] eqn:Hstage1.
  destruct (rope_handle_input_spec _ _ _ _ _ _ _ _ Hstage1 Hrc Hin)
    as (-> & _ & _ & _ & Hrc1 & Hlen1 & _ & Hother1).
  destruct (GetSpriteSrcRect SPRITE_PLAYER_IDLE) as [rect|]; [|done].
  cbn [mbind option_bind].
  destruct (b2Body_GetPosition bodyId (gWorld s1)) as [currentPos|]; [|done].
  cbn [mbind option_bind].
  match goal with
  | |- context [rope_move ?a ?b ?c ?d ?o ?t ?p s1] =>
      destruct (rope_move a b c d o t p s1) as [[st2 s2]|] eqn:Hstage2; [|done]
  end.
  cbn [mbind option_bind]. intros Hstage3 Hnot.
  assert (Hlen1' : get_Length id (ecs s1) = Some len).
  { unfold get_Length in *. by rewrite Hlen1. }
  destruct (rope_move_spec _ _ _ _ _ _ _ _ _ _ Hstage2 Hrc1 Hlen1')
    as (_ & _ & _ & _ & _ & Hin2).
  destruct (rope_joint_cleanup_spec _ _ _ _ _ Hstage3) as (_ & _ & Hin3).
  rewrite Hin3, Hin2. apply Hother1. intros ->. apply Hnot.
  split; [done|]. by exists owner, (px, py).
Qed.

Lemma ext_frame_answers_to s s' rope e :
  ext_frame s s' → answers_to rope e s' ↔ answers_to rope e s.
Proof.
  intros Hf. unfold answers_to, ext_ropeMask.
  rewrite (ext_frame_mask_test s s' rope) by (done || solve_not_elem_of_list).
  destruct (ext_frame_get s s' rope Hf) as (-> & _).
  split; intros [Hm (o & p & Ho & Hfind)]; (split; [done|]); exists o, p;
    (split; [done|]).
  - by rewrite <- (ext_frame_find_player s s').
  - by rewrite (ext_frame_find_player s s').
Qed.

Lemma RopeExtension_loop_input l s s' e :
  for_each RopeExtension_rope l s = Some s' →
  (∀ r, r ∈ l → ¬ answers_to r e s) →
  get_PlayerInput e (ecs s') = get_PlayerInput e (ecs s).
Proof.
  revert s. induction l as [|a l IH]; intros s Hrun Hnone.
  - by injection Hrun as <-.
  - apply for_each_cons_Some in Hrun as (s1 & Hstep & Hl).
    pose proof (RopeExtension_rope_inv _ _ _ Hstep) as (Hf1 & _).
    rewrite (IH s1 Hl).
    + apply (RopeExtension_rope_input a s s1 e Hstep). apply Hnone. by left.
    + intros r Hr. rewrite (ext_frame_answers_to s s1) by done. apply Hnone. by right.
Qed.

Lemma RopeExtension_loop_launch l s s' rope player len r :
  NoDup l → for_each RopeExtension_rope l s = Some s' →
  rope ∈ l →
  answers_to rope player s →
  (∀ r', r' ∈ l → r' ≠ rope → ¬ answers_to r' player s) →
  get_RopeControl rope (ecs s) = Some AtRest →
  get_Length rope (ecs s) = Some len →
  get_PlayerInput player (ecs s) = Some (true, r) →
  get_RopeControl rope (ecs s') = Some (move_step Extending len).1
  ∧ get_Length rope (ecs s') = Some (move_step Extending len).2
  ∧ get_PlayerInput player (ecs s') = Some (false, r).
Proof.
  intros Hnodup. revert s.
  induction Hnodup as [|a l Ha Hnodup IH]; intros s Hrun Hmem Hans Huniq Hrc Hlen Hin.
  - by apply elem_of_nil in Hmem.
  - apply for_each_cons_Some in Hrun as (s1 & Hstep & Hl).
    pose proof (RopeExtension_rope_inv _ _ _ Hstep) as (Hf1 & Hr1 & Hcase).
    destruct (decide (rope = a)) as [->|Hne].
    + (* the rope's own iteration *)
      destruct (RopeExtension_loop l s1 s' a Hnodup Hl) as (_ & Hskip & _).
      destruct (rope_skipped_get a s1 s' (Hskip Ha)) as [Hrc2 Hlen2].
      assert (Hinput : get_PlayerInput player (ecs s') = get_PlayerInput player (ecs s1)).
      { apply (RopeExtension_loop_input l s1 s' player Hl).
        intros r' Hr'. rewrite (ext_frame_answers_to s s1) by done.
        apply Huniq; [by right|]. intros ->. done. }
      assert (Hstepped : rope_stepped a s s1).
      { destruct Hcase as [Hskipped|?]; [|done]. exfalso.
        revert Hstep. unfold RopeExtension_rope.
        destruct Hans as [-> (owner & pos & -> & Hfind)]. rewrite Hrc, Hlen.
        destruct (get_Rotation a (ecs s)) as [angle|]; [|done].
        destruct (get_PhysicsBody a (ecs s)) as [bodyId|]; [|done].
        cbn [mbind option_bind]. rewrite Hfind. destruct pos as [px py].
        cbn [mbind option_bind]. rewrite Hin. cbn [mbind option_bind].
        destruct (rope_handle_input a player AtRest true r s) as [st1 t1] eqn:Hstage1.
        destruct (rope_handle_input_spec _ _ _ _ _ _ _ _ Hstage1 Hrc Hin)
          as (-> & _ & _ & _ & Hrc1 & Hlen1 & _).
        destruct (GetSpriteSrcRect SPRITE_PLAYER_IDLE) as [rect|]; [|done].
        cbn [mbind option_bind].
        destruct (b2Body_GetPosition bodyId (gWorld t1)) as [currentPos|]; [|done].
        cbn [mbind option_bind].
        match goal with
        | |- context [rope_move ?a1 ?b1 ?c1 ?d1 ?o1 ?t ?p1 t1] =>
            destruct (rope_move a1 b1 c1 d1 o1 t p1 t1) as [[st2 t2]|] eqn:Hstage2; [|done]
        end.
        cbn [mbind option_bind]. intros Hstage3.
        assert (Hlen1' : get_Length a (ecs t1) = Some len).
        { unfold get_Length in *. by rewrite Hlen1. }
        destruct (rope_move_spec _ _ _ _ _ _ _ _ _ _ Hstage2 Hrc1 Hlen1')
          as (_ & _ & Hrc2' & _).
        destruct (rope_joint_cleanup_spec _ _ _ _ _ Hstage3) as (_ & Hr3 & _).
        destruct (rope_skipped_get a s s1 Hskipped) as [Hsk _].
        unfold get_RopeControl in Hsk, Hrc2', Hrc. rewrite (proj1 (Hr3 a)) in Hsk.
        rewrite Hsk, Hrc in Hrc2'. cbn [input_step bool_decide decide_rel andb] in Hrc2'.
        revert Hrc2'. unfold input_step, move_step.
        rewrite bool_decide_eq_true_2 by done. cbn [andb].
        by destruct (MAX_LENGTH <? _)%fl. }
      destruct Hstepped as (state & len0 & owner & p & pos & sendRope & r0
                            & Hrc0 & Hlen0 & Hpi0 & Hfind0 & Hin0 & Hrc1 & Hlen1 & Hin1).
      destruct Hans as [_ (owner' & pos' & Hpi' & Hfind')].
      assert (owner' = owner) as -> by congruence.
      assert (p = player) as -> by congruence.
      assert (state = AtRest) as -> by congruence.
      assert (len0 = len) as -> by congruence.
      assert (sendRope = true ∧ r0 = r) as [-> ->] by (split; congruence).
      unfold rope_step, input_step in Hrc1, Hlen1.
      rewrite bool_decide_eq_true_2 in Hrc1, Hlen1 by done. cbn [andb] in Hrc1, Hlen1.
      rewrite bool_decide_eq_true_2 in Hin1 by done. cbn [andb negb] in Hin1.
      split_and!; congruence.
    + apply elem_of_cons in Hmem as [?|Hmem]; [done|].
      destruct (rope_skipped_get rope s s1 (Hr1 rope Hne)) as [Hrc1 Hlen1].
      apply (IH s1 Hl Hmem).
      * by apply (ext_frame_answers_to s s1).
      * intros r' Hr' Hne'. rewrite (ext_frame_answers_to s s1) by done.
        apply Huniq; [by right|done].
      * congruence.
      * congruence.
      * rewrite (RopeExtension_rope_input a s s1 player Hstep); [done|].
        apply Huniq; [by left|done].
Qed.

(** X22. A space press while a player's only rope is at rest launches it:
    after [PlayerInputSystem] and [RopeExtensionSystem] the rope has made
    its first extending step, and the player's [sendRope] flag is lowered
    again. *)
Theorem space_press_launches s ev s1 s2 rope player len :
  space_key_down ev = true →
  PlayerInputSystem (Some ev) s = Some s1 →
  RopeExtensionSystem s1 = Some s2 →
  0 ≤ rope ≤ w_maxId (ecs s) →
  answers_to rope player s →
  has PlayerInput player (ecs s) = true →
  (∀ r', 0 ≤ r' ≤ w_maxId (ecs s) → r' ≠ rope → ¬ answers_to r' player s) →
  get_RopeControl rope (ecs s) = Some AtRest →
  get_Length rope (ecs s) = Some len →
  get_RopeControl rope (ecs s2) = Some (move_step Extending len).1
  ∧ get_Length rope (ecs s2) = Some (move_step Extending len).2
  ∧ fst <$> get_PlayerInput player (ecs s2) = Some false.
Proof.
  intros Hev Hinput Hext Hr Hans Hhas Huniq Hrc Hlen.
  pose proof (PlayerInputSystem_frame _ _ _ Hinput) as Hf.
  assert (Hgets : ∀ k e, k ≠ PlayerInput →
            getComponent k e (ecs s1) = getComponent k e (ecs s)) by apply Hf.
  assert (Hmax : w_maxId (ecs s1) = w_maxId (ecs s)) by apply Hf.
  assert (Hmask : ∀ e, mask (ecs s1) e = mask (ecs s) e).
  { intros e. destruct Hf as (_ & Hm & _). unfold mask. by rewrite Hm. }
  assert (Hfind : ∀ p, find_player p (ecs s1) = find_player p (ecs s)).
  { intros p. apply find_player_ext; try done; intros e; by apply Hgets. }
  assert (Hans1 : ∀ r' e, answers_to r' e s1 ↔ answers_to r' e s).
  { intros r' e. unfold answers_to, get_PlayerInfo. rewrite Hmask, Hgets by done.
    split; intros [Hm (o & p & Ho & Hfp)]; (split; [done|]); exists o, p;
      (split; [done|]); by rewrite ?Hfind in *. }
  assert (Hplayer : 0 ≤ player ≤ w_maxId (ecs s)).
  { destruct Hans as [_ (o & pos & _ & Hfp)].
    by apply (find_player_spec o (ecs s)) in Hfp as [? _]. }
  unfold PlayerInputSystem in Hinput. fold (space_key_down ev) in Hinput.
  rewrite Hev in Hinput.
  pose proof (PlayerInput_loop_ok _ _ _ _ Hinput player) as [[sr r] Hbefore];
    [by apply elem_of_ids|done|].
  pose proof (PlayerInput_loop _ _ _ _ Hinput) as [_ Hafter].
  specialize (Hafter player). rewrite decide_True in Hafter
    by (split; [by apply elem_of_ids|done]).
  rewrite Hbefore in Hafter. cbn in Hafter.
  unfold RopeExtensionSystem in Hext.
  destruct (RopeExtension_loop_launch (ids (ecs s1)) s1 s2 rope player len r
              (NoDup_seqZ _ _) Hext) as (H1 & H2 & H3).
  - apply elem_of_ids. by rewrite Hmax.
  - by apply Hans1.
  - intros r' Hr'%elem_of_ids Hne. rewrite Hans1. apply Huniq; [by rewrite <- Hmax|done].
  - unfold get_RopeControl in *. by rewrite Hgets.
  - unfold get_Length in *. by rewrite Hgets.
  - exact Hafter.
  - split_and!; try done. by rewrite H3.
Qed.
End LaunchFacts.

(** X22 on the game scenario. *)
Lemma space_press_launches_witness :
  get_RopeControl 1 (ecs extending_state) = Some (move_step Extending 0%Q).1
  ∧ get_Length 1 (ecs extending_state) = Some (move_step Extending 0%Q).2
  ∧ fst <$> get_PlayerInput 0 (ecs extending_state) = Some false.
Proof.
  apply (space_press_launches game_state space_down pressed_state extending_state 1 0 0%Q).
  - reflexivity.
  - apply default_Some. vm_refl.
  - apply default_Some. vm_refl.
  - split; [lia|vm_compute; discriminate].
  - split; [vm_refl|]. exists 1, (570, 10)%Q. split; vm_refl.
  - vm_refl.
  - intros r' Hr' Hne [Hm _]. change (w_maxId (ecs game_state)) with 3 in Hr'.
    assert (Hcases : r' = 0 ∨ r' = 2 ∨ r' = 3) by lia. clear Hr' Hne.
    revert Hm. destruct Hcases as [->|[->| ->]]; vm_compute; discriminate.
  - vm_refl.
  - vm_refl.
Defined.

(** ** UISystem *)

Section UIFacts.
Context {F : Type} `{FloatOps F} `{WideOps F} `{FloatToInt F}.
Implicit Types (s : State F) (e : Z).

Lemma UI_first_agree req show show' l pid s s' :
  w_masks (ecs s') = w_masks (ecs s) →
  (∀ id, get_PlayerInfo id (ecs s') = get_PlayerInfo id (ecs s)) →
  (∀ id, id ∈ l → mask_test (mask (ecs s) id) req = true →
         get_PlayerInfo id (ecs s) = Some pid → show' id = show id) →
  UI_first req show' l pid s' = UI_first req show l pid s.
Proof.
  intros Hmasks Hinfo. induction l as [|id l IH]; intros Hshow; [done|].
  assert (Hmask : mask (ecs s') id = mask (ecs s) id).
  { unfold mask. by rewrite Hmasks. }
  cbn [UI_first]. rewrite Hmask, Hinfo.
  assert (Htl : UI_first req show' l pid s' = UI_first req show l pid s).
  { apply IH. intros b Hb. apply Hshow. by right. }
  destruct (mask_test (mask (ecs s) id) req) eqn:Hm; cbn [negb]; [|done].
  destruct (get_PlayerInfo id (ecs s)) as [q|] eqn:Hq; cbn [mbind option_bind]; [|done].
  case_bool_decide as Hne; [done|].
  apply Hshow; [by left|done|congruence].
Qed.

Lemma UI_first_stops req show l1 e l2 pid s :
  mask_test (mask (ecs s) e) req = true →
  get_PlayerInfo e (ecs s) = Some pid →
  UI_first req show (l1 ++ e :: l2) pid s = UI_first req show (l1 ++ [e]) pid s.
Proof.
  intros Hm Hq. induction l1 as [|id l1 IH]; cbn [app UI_first].
  - rewrite Hm, Hq. cbn [negb mbind option_bind]. rewrite bool_decide_false; [done|]. intros Hx. by apply Hx.
  - rewrite IH. done.
Qed.

Lemma UI_first_found req show pid s e :
  first_owned req pid s e → UI_first req show (ids (ecs s)) pid s = show e.
Proof.
  intros (Hr & Hm & Hq & Hpass). unfold ids.
  replace (w_maxId (ecs s) + 1) with (e + (1 + (w_maxId (ecs s) - e))) by lia.
  rewrite seqZ_app by lia. rewrite Z.add_0_l. rewrite (seqZ_cons e) by lia.
  rewrite UI_first_stops by done.
  assert (Hl1 : ∀ e0, e0 ∈ seqZ 0 e → ui_passed_over req pid s e0).
  { intros e0 He0%elem_of_seqZ. apply Hpass. lia. }
  revert Hl1. generalize (seqZ 0 e) as l1. intros l1.
  induction l1 as [|id l1 IH]; intros Hl1; cbn [app UI_first].
  - rewrite Hm, Hq. cbn [negb mbind option_bind]. rewrite bool_decide_false; [done|]. intros Hx. by apply Hx.
  - assert (Htl : ∀ e0, e0 ∈ l1 → ui_passed_over req pid s e0).
    { intros e0 He0. apply Hl1. by right. }
    destruct (mask_test (mask (ecs s) id) req) eqn:Hmi; cbn [negb]; [|by apply IH].
    destruct (Hl1 id) as (q & Hqi & Hne); [by left|done|].
    rewrite Hqi. cbn [mbind option_bind]. rewrite bool_decide_true by done. by apply IH.
Qed.

Lemma UI_first_none req show pid s :
  (∀ e, 0 ≤ e ≤ w_maxId (ecs s) → ui_passed_over req pid s e) →
  UI_first req show (ids (ecs s)) pid s = Some [].
Proof.
  intros Hpass.
  assert (Hl : ∀ e, e ∈ ids (ecs s) → ui_passed_over req pid s e).
  { intros e He%elem_of_ids. by apply Hpass. }
  revert Hl. generalize (ids (ecs s)) as l. intros l.
  induction l as [|id l IH]; intros Hl; [done|]. cbn [UI_first].
  assert (Htl : ∀ e, e ∈ l → ui_passed_over req pid s e).
  { intros e He. apply Hl. by right. }
  destruct (mask_test (mask (ecs s) id) req) eqn:Hmi; cbn [negb]; [|by apply IH].
  destruct (Hl id) as (q & Hqi & Hne); [by left|done|].
  rewrite Hqi. cbn [mbind option_bind]. rewrite bool_decide_true by done. by apply IH.
Qed.

Lemma for_each_out_ext {A C : Type} (f g : A → option (list C)) l :
  (∀ a, a ∈ l → f a = g a) → for_each_out f l = for_each_out g l.
Proof.
  induction l as [|a l IH]; intros Hfg; [done|]. cbn [for_each_out].
  rewrite (Hfg a) by by left. rewrite IH; [done|]. intros b Hb. apply Hfg. by right.
Qed.

Lemma for_each_out_split {A C : Type} (f : A → option (list C)) l outs a :
  for_each_out f l = Some outs → a ∈ l →
  ∃ before out after, f a = Some out ∧ outs = before ++ out ++ after.
Proof.
  revert outs. induction l as [|b l IH]; intros outs; cbn [for_each_out].
  - by intros _ ?%elem_of_nil.
  - destruct (f b) as [out|] eqn:Hb; [|done]. cbn [mbind option_bind].
    destruct (for_each_out f l) as [rest|] eqn:Hrest; [|done]. cbn [mbind option_bind].
    intros [= <-] [->|Ha]%elem_of_cons.
    + exists [], out, rest. done.
    + destruct (IH rest eq_refl Ha) as (before & out' & after & Hout & ->).
      exists (out ++ before), out', after. split; [done|]. by rewrite <- app_assoc.
Qed.

Lemma DrawNumber_shows (n : Z) (x y : F) digits :
  0 ≤ n → DrawNumber n x y = Some digits → shows_number digits n.
Proof.
  intros Hn Hd. unfold shows_number, decimal_value.
  destruct n as [|p|p]; [| |lia].
  - destruct (DrawNumber_chars_uint (Decimal.D0 Decimal.Nil) x y) as (calls & Hc & Hall & Hv).
    unfold DrawNumber in Hd. change (to_string 0) with (uint_chars (Decimal.D0 Decimal.Nil)) in Hd.
    rewrite Hc in Hd. injection Hd as <-. split; [done|]. fold digit_step. by rewrite Hv.
  - destruct (DrawNumber_shows_decimal' p x y) as (calls & Hc & Hall & Hv).
    rewrite Hc in Hd. injection Hd as <-. done.
Qed.

Section Write.
Variables (c : Component F) (e : Z) (s : State F).
Let s' := on_ecs (setComponent c e) s.

Lemma write_masks : w_masks (ecs s') = w_masks (ecs s).
Proof. done. Qed.

Lemma write_ids : ids (ecs s') = ids (ecs s).
Proof. done. Qed.

Lemma write_get k id :
  k ≠ kind_of c ∨ id ≠ e → getComponent k id (ecs s') = getComponent k id (ecs s).
Proof.
  intros Hne. unfold s', on_ecs, getComponent, setComponent. cbn.
  apply lookup_insert_ne. intros [= <- <-]. by destruct Hne.
Qed.

Lemma write_PlayerInfo id :
  kind_of c ≠ PlayerInfo → get_PlayerInfo id (ecs s') = get_PlayerInfo id (ecs s).
Proof. intros Hk. unfold get_PlayerInfo. rewrite write_get; [done|]. left. congruence. Qed.

Lemma write_UI_first req show show' pid :
  kind_of c ≠ PlayerInfo →
  (∀ id, id ≠ e → show' id = show id) →
  shadowed req s e →
  UI_first req show' (ids (ecs s')) pid s' = UI_first req show (ids (ecs s)) pid s.
Proof.
  intros Hk Hshow Hsh. rewrite write_ids.
  assert (Hinfo : ∀ id, get_PlayerInfo id (ecs s') = get_PlayerInfo id (ecs s)).
  { intros id. by apply write_PlayerInfo. }
  destruct Hsh as [Hm | (e0 & q & He0 & Hm0 & Hq0 & Hq)].
  - apply UI_first_agree; [done|done|]. intros id _ Hmi _. apply Hshow. congruence.
  - destruct (decide (pid = q)) as [->|Hne].
    + destruct (decide (e0 ≤ w_maxId (ecs s))) as [Hin|Hout].
      * unfold ids.
        replace (w_maxId (ecs s) + 1) with (e0 + (1 + (w_maxId (ecs s) - e0))) by lia.
        rewrite seqZ_app by lia. rewrite Z.add_0_l. rewrite (seqZ_cons e0) by lia.
        rewrite (UI_first_stops req show) by done.
        rewrite (UI_first_stops req show'); [| by rewrite <- Hm0 | by rewrite Hinfo].
        apply UI_first_agree; [done|done|].
        intros id Hid _ _. apply Hshow.
        apply elem_of_app in Hid as [Hid%elem_of_seqZ | Hid%list_elem_of_singleton]; lia.
      * apply UI_first_agree; [done|done|].
        intros id Hid%elem_of_ids _ _. apply Hshow. lia.
    + apply UI_first_agree; [done|done|].
      intros id _ _ Hqi. apply Hshow. congruence.
Qed.

Lemma write_UI_first_same req show show' pid :
  kind_of c ≠ PlayerInfo →
  (∀ id, show' id = show id) →
  UI_first req show' (ids (ecs s')) pid s' = UI_first req show (ids (ecs s)) pid s.
Proof.
  intros Hk Hshow. rewrite write_ids. apply UI_first_agree; [done| |by intros].
  intros id. by apply write_PlayerInfo.
Qed.
Lemma write_UI_entity id :
  kind_of c ≠ PlayerInfo →
  (∀ x y pid,
     UI_first scoreMask (UI_show_score s' x y) (ids (ecs s')) pid s'
     = UI_first scoreMask (UI_show_score s x y) (ids (ecs s)) pid s) →
  (∀ x y pid,
     UI_first timerMask (UI_show_time s' x y) (ids (ecs s')) pid s'
     = UI_first timerMask (UI_show_time s x y) (ids (ecs s)) pid s) →
  UI_entity s' id = UI_entity s id.
Proof.
  intros Hk Hscore Htime. unfold UI_entity.
  rewrite write_PlayerInfo by done.
  change (mask (ecs s') id) with (mask (ecs s) id).
  destruct (negb (mask_test (mask (ecs s) id) uiMask)); [done|].
  destruct (get_PlayerInfo id (ecs s)) as [pid|]; [|done]. cbn [mbind option_bind].
  destruct (GetSpriteSrcRect SPRITE_TITLE_MONEY) as [moneySrc|]; [|done].
  cbn [mbind option_bind]. cbv zeta. rewrite Hscore.
  destruct (UI_first scoreMask _ (ids (ecs s)) pid s) as [score|]; [|done].
  cbn [mbind option_bind].
  destruct (GetSpriteSrcRect SPRITE_TITLE_TIME) as [timeSrc|]; [|done].
  cbn [mbind option_bind]. by rewrite Htime.
Qed.
End Write.

(** X23. [UISystem] reads, for each player, the score of the first entity
    with [Score] and [PlayerInfo] of that player and the time of the first
    entity with [GameTimer] and [PlayerInfo]: writing the score or the time
    of an entity that lacks the mask, or that comes after another entity of
    the same player, does not change what is drawn. *)
Theorem UISystem_shows_first_only s e (n : Z) (t : F) :
  (shadowed scoreMask s e →
     UISystem (on_ecs (setComponent (CScore n) e) s) = UISystem s)
  ∧ (shadowed timerMask s e →
     UISystem (on_ecs (setComponent (CGameTimer t) e) s) = UISystem s).
Proof.
  split; intros Hsh; unfold UISystem.
  - change (ids (ecs (on_ecs (setComponent (CScore n) e) s))) with (ids (ecs s)).
    apply for_each_out_ext. intros id _. apply write_UI_entity; [done| |].
    + intros x y pid. apply write_UI_first; [done| |done].
      intros sid Hsid. unfold UI_show_score, get_Score.
      rewrite write_get; [done|by right].
    + intros x y pid. apply write_UI_first_same; [done|].
      intros tid. unfold UI_show_time, get_GameTimer.
      rewrite write_get; [done|by left].
  - change (ids (ecs (on_ecs (setComponent (CGameTimer t) e) s))) with (ids (ecs s)).
    apply for_each_out_ext. intros id _. apply write_UI_entity; [done| |].
    + intros x y pid. apply write_UI_first_same; [done|].
      intros sid. unfold UI_show_score, get_Score.
      rewrite write_get; [done|by left].
    + intros x y pid. apply write_UI_first; [done| |done].
      intros tid Htid. unfold UI_show_time, get_GameTimer.
      rewrite write_get; [done|by right].
Qed.

(** X24. For each UI entity of a player, [UISystem] draws the money icon at
    [(5 + 10 * playerID, 4)], then the digits of the player's first score,
    then the time icon 60 pixels below, then the digits of the first
    timer's time left, rounded up to whole seconds; where the player has no
    score or no timer entity the icon stands alone. *)
Theorem UISystem_panel s calls ui pid :
  UISystem s = Some calls →
  0 ≤ ui ≤ w_maxId (ecs s) →
  mask_test (mask (ecs s) ui) uiMask = true →
  get_PlayerInfo ui (ecs s) = Some pid →
  ∃ before score time after,
    calls = before ++ money_icon pid :: score ++ time_icon pid :: time ++ after
    ∧ (∀ sid n, first_owned scoreMask pid s sid → get_Score sid (ecs s) = Some n →
                0 ≤ n → shows_number score n)
    ∧ ((∀ e, 0 ≤ e ≤ w_maxId (ecs s) → ui_passed_over scoreMask pid s e) → score = [])
    ∧ (∀ tid t m, first_owned timerMask pid s tid → get_GameTimer tid (ecs s) = Some t →
                  fceil_int t = Some m → 0 ≤ m → shows_number time m)
    ∧ ((∀ e, 0 ≤ e ≤ w_maxId (ecs s) → ui_passed_over timerMask pid s e) → time = []).
Proof.
  intros Hrun Hr Hm Hq.
  destruct (for_each_out_split _ _ _ ui Hrun) as (before & out & after & Hout & ->).
  { by apply elem_of_ids. }
  unfold UI_entity in Hout. rewrite Hm, Hq in Hout. cbn [negb mbind option_bind] in Hout.
  change (GetSpriteSrcRect SPRITE_TITLE_MONEY) with (Some (mkRect 0 0 112 32)) in Hout.
  change (GetSpriteSrcRect SPRITE_TITLE_TIME) with (Some (mkRect 0 0 83 25)) in Hout.
  cbn [mbind option_bind] in Hout. cbv zeta in Hout.
  destruct (UI_first scoreMask _ (ids (ecs s)) pid s) as [score|] eqn:Hscore; [|done].
  cbn [mbind option_bind] in Hout.
  destruct (UI_first timerMask _ (ids (ecs s)) pid s) as [time|] eqn:Htime; [|done].
  cbn [mbind option_bind] in Hout. injection Hout as <-.
  exists before, score, time, after. split_and!.
  - cbn [app]. rewrite <- !app_assoc. done.
  - intros sid n Hfirst Hn Hpos. rewrite (UI_first_found _ _ _ _ _ Hfirst) in Hscore.
    unfold UI_show_score in Hscore. rewrite Hn in Hscore. cbn [mbind option_bind] in Hscore.
    by eapply DrawNumber_shows.
  - intros Hnone. rewrite UI_first_none in Hscore by done. congruence.
  - intros tid t m Hfirst Ht Hc Hpos. rewrite (UI_first_found _ _ _ _ _ Hfirst) in Htime.
    unfold UI_show_time in Htime. rewrite Ht in Htime. cbn [mbind option_bind] in Htime.
    rewrite Hc in Htime. cbn [mbind option_bind] in Htime.
    by eapply DrawNumber_shows.
  - intros Hnone. rewrite UI_first_none in Htime by done. congruence.
Qed.
End UIFacts.

(** X23 on the started game: the score entity comes after the player, which
    carries a score of its own. *)
Lemma UISystem_shows_first_only_witness :
  UISystem (on_ecs (setComponent (CScore 500) 3) started_state) = UISystem started_state.
Proof.
  apply (proj1 (UISystem_shows_first_only started_state 3 500 (fofZ 0))).
  right. exists 0, 1. split_and!; [lia|lia|vm_refl..].
Defined.

(** X24 on the UI entity of the started game. *)
Lemma UISystem_panel_witness :
  ∃ before score time after,
    default [] (UISystem started_state)
      = before ++ money_icon 1 :: score ++ time_icon 1 :: time ++ after
    ∧ (∀ sid n, first_owned scoreMask 1 started_state sid →
                get_Score sid (ecs started_state) = Some n → 0 ≤ n → shows_number score n)
    ∧ ((∀ e, 0 ≤ e ≤ w_maxId (ecs started_state) →
             ui_passed_over scoreMask 1 started_state e) → score = [])
    ∧ (∀ tid t m, first_owned timerMask 1 started_state tid →
                  get_GameTimer tid (ecs started_state) = Some t →
                  fceil_int t = Some m → 0 ≤ m → shows_number time m)
    ∧ ((∀ e, 0 ≤ e ≤ w_maxId (ecs started_state) →
             ui_passed_over timerMask 1 started_state e) → time = []).
Proof.
  apply (UISystem_panel started_state _ 2 1).
  - apply default_Some. vm_refl.
  - split; [lia|]. vm_compute. discriminate.
  - vm_refl.
  - vm_refl.
Defined.

(** ** PhysicsSyncSystem, run twice *)

Section SyncIdempotent.
Context {F : Type} `{FloatOps F} `{WideOps F}.
Implicit Types (s : State F) (e : Z) (k : CompKind).

Lemma on_ecs_setComponent_id (c : Component F) e s :
  getComponent (kind_of c) e (ecs s) = Some c → on_ecs (setComponent c e) s = s.
Proof.
  intros Hc. destruct s as [w pw hp hn sd]. unfold on_ecs, set_ecs. cbn in *. f_equal.
  destruct w as [mx ms st]. unfold setComponent, getComponent in *. cbn in *. f_equal.
  by apply insert_id.
Qed.

Lemma get_Position_Some e (w : World F) x y :
  get_Position e w = Some (x, y) → getComponent Position e w = Some (CPosition x y).
Proof.
  unfold get_Position. destruct (getComponent Position e w) as [[]|]; try done.
  by intros [= -> ->].
Qed.

(** An entity the loop has dealt with is at its fixed point in every later
    state that keeps its position. *)
Lemma PhysicsSync_entity_settled id s s1 s' :
  PhysicsSync_entity id s = Some s1 →
  sync_frame s1 s' →
  getComponent Position id (ecs s') = getComponent Position id (ecs s1) →
  PhysicsSync_entity id s' = Some s'.
Proof.
  intros Hstep Hf Hpos.
  destruct (PhysicsSync_entity_inv _ _ _ Hstep) as (Hf0 & _ & _).
  destruct (sync_frame_get _ _ id Hf0) as (Hm0 & Hb0 & Hr0).
  destruct (sync_frame_get _ _ id Hf) as (Hm & Hb & Hr).
  assert (Hw : gWorld s' = gWorld s).
  { destruct Hf as (_ & _ & _ & -> & _). by destruct Hf0 as (_ & _ & _ & -> & _). }
  assert (Hgp : get_Position id (ecs s') = get_Position id (ecs s1)).
  { unfold get_Position. by rewrite Hpos. }
  unfold PhysicsSync_entity in Hstep |- *. rewrite Hm, Hm0, Hb, Hb0, Hr, Hr0, Hw, Hgp.
  clear Hm Hm0 Hb Hb0 Hr Hr0 Hf Hf0 Hw Hgp.
  destruct (mask_test (mask (ecs s) id) (mask_of [PhysicsBody; Position; Renderable]));
    [|done].
  destruct (get_PhysicsBody id (ecs s)) as [bodyId|]; [|done].
  cbn [mbind option_bind] in Hstep |- *.
  destruct (get_Position id (ecs s)) as [pos|] eqn:Hp0; [|done].
  cbn [mbind option_bind] in Hstep.
  destruct (get_Renderable id (ecs s)) as [spriteID|].
  2:{ by destruct (get_Position id (ecs s1)). }
  cbn [mbind option_bind] in Hstep.
  destruct (b2Body_IsValid bodyId (gWorld s)) eqn:Hvalid.
  - destruct (b2Body_GetTransform bodyId (gWorld s)) as [[p q]|] eqn:Htf; [|done].
    cbn [mbind option_bind] in Hstep.
    destruct (GetSpriteOffset spriteID) as [[offx offy]|] eqn:Hoff; [|done].
    cbn [mbind option_bind] in Hstep. injection Hstep as Hs1.
    assert (Hg1 : get_Position id (ecs s1)
                  = Some ((vec_x p * PIXELS_PER_METER - offx)%fl,
                          (vec_y p * PIXELS_PER_METER - offy)%fl)).
    { rewrite <- Hs1. unfold on_ecs. cbn [ecs set_ecs].
      by rewrite get_Position_set, decide_True. }
    rewrite Hg1. cbn [mbind option_bind]. rewrite ?Hvalid, ?Htf. cbn [mbind option_bind].
    rewrite ?Hoff. cbn [mbind option_bind]. f_equal.
    apply on_ecs_setComponent_id. cbn [kind_of]. rewrite Hpos.
    by apply get_Position_Some.
  - injection Hstep as <-. rewrite Hp0. cbn [mbind option_bind]. by rewrite ?Hvalid.
Qed.

Lemma PhysicsSync_loop_other l s s' e :
  for_each PhysicsSync_entity l s = Some s' → e ∉ l →
  getComponent Position e (ecs s') = getComponent Position e (ecs s).
Proof.
  revert s. induction l as [|a l IH]; intros s; [by intros [= <-]|].
  rewrite for_each_cons_Some. intros (s1 & Hstep & Hrest) Hnot.
  apply not_elem_of_cons in Hnot as [Hne Hnot].
  rewrite (IH _ Hrest Hnot). eapply PhysicsSync_entity_skips; [done|by left].
Qed.

Lemma PhysicsSync_loop_frame l s s' :
  for_each PhysicsSync_entity l s = Some s' → sync_frame s s'.
Proof.
  apply (for_each_rel PhysicsSync_entity sync_frame).
  - apply sync_frame_refl.
  - apply sync_frame_trans.
  - intros a t t' _ Hstep. by apply PhysicsSync_entity_inv in Hstep as (? & _).
Qed.

Lemma PhysicsSync_loop_settled l s s' :
  NoDup l → for_each PhysicsSync_entity l s = Some s' →
  ∀ id, id ∈ l → PhysicsSync_entity id s' = Some s'.
Proof.
  intros Hnd. revert s. induction Hnd as [|a l Ha Hnd IH]; intros s Hrun id Hid.
  { by apply elem_of_nil in Hid. }
  apply for_each_cons_Some in Hrun as (s1 & Hstep & Hrest).
  apply elem_of_cons in Hid as [->|Hid]; [|by eapply IH].
  eapply PhysicsSync_entity_settled; [done| |].
  - by eapply PhysicsSync_loop_frame.
  - by eapply PhysicsSync_loop_other.
Qed.

Lemma for_each_fixed {A S : Type} (body : A → S → option S) l (s : S) :
  (∀ a, a ∈ l → body a s = Some s) → for_each body l s = Some s.
Proof.
  induction l as [|a l IH]; intros Hfix; [done|].
  rewrite for_each_cons, (Hfix a) by by left. cbn [mbind option_bind].
  apply IH. intros b Hb. apply Hfix. by right.
Qed.

(** X25. [PhysicsSyncSystem] is idempotent: run again on its own result, with
    the physics world untouched, it returns that result unchanged. *)
Theorem PhysicsSyncSystem_idempotent s s' :
  PhysicsSyncSystem s = Some s' → PhysicsSyncSystem s' = Some s'.
Proof.
  unfold PhysicsSyncSystem. intros Hrun.
  assert (Hids : ids (ecs s') = ids (ecs s)).
  { apply PhysicsSync_loop_frame in Hrun as (Hm & _). unfold ids. by rewrite Hm. }
  rewrite Hids. apply for_each_fixed. intros id Hid.
  eapply PhysicsSync_loop_settled; [|done|done].
  apply NoDup_seqZ.
Qed.
End SyncIdempotent.

(** X25 on the game scenario. *)
Lemma PhysicsSyncSystem_idempotent_witness :
  PhysicsSyncSystem (default game_state (PhysicsSyncSystem game_state))
  = Some (default game_state (PhysicsSyncSystem game_state)).
Proof.
  apply (PhysicsSyncSystem_idempotent game_state). apply default_Some. vm_refl.
Defined.

(** ** Where a swinging rope is put *)

Section TipFacts.
Context {F : Type} `{FloatOps F} `{WideOps F}.
Implicit Types (s : State F) (e : Z).



End TipFacts.



(** In binary32, the swing angle 16121857 * 2^-18 degrees, reached after
    41 frames, is 9004144 * 2^-23 radians: the product with [M_PI / 180]
    is a [double], rounded once. *)
Example b32_swing_angle :
  Nat.iter 41 (λ a, (swing_step a (fofZ 1)).1) (fofZ 0 : B32.t)
    = S754_finite false 16121857 (-18)
  ∧ fnarrow (fwiden (S754_finite false 16121857 (-18) : B32.t)
             * (M_PI / fwiden (fofZ 180 : B32.t)))%fl
    = S754_finite false 9004144 (-23).
Proof. split; vm_refl. Qed.

(** ** A player and its rope *)

Ltac CreateRope_run :=
  unfold b2CreateBody, b2Body_EnableHitEvents, b2CreateShape, b2Body_SetLinearVelocity,
    new_ent, b2Body_SetUserData, upd_body;
  cbn [gWorld ecs set_ecs set_phys pw_bodies pw_next heap_next on_ecs fst snd
       set_bodies heap pw_shapes def_type def_position def_fixedRotation def_isBullet];
  rewrite !lookup_insert_eq; cbn [mbind option_bind];
  repeat (cbn [gWorld ecs set_ecs set_phys pw_bodies pw_next heap_next on_ecs fst snd
               set_bodies heap pw_shapes body_type body_p body_q body_linearVelocity
               body_angularVelocity body_gravityScale body_fixedRotation body_isBullet
               body_hitEvents body_userData];
          progress (rewrite ?lookup_insert_eq; cbn [mbind option_bind])).

Section PlayerAndRope.
Context {F : Type} `{FloatOps F} `{WideOps F}.
Implicit Types (s : State F) (w : World F) (e : Z) (k : CompKind).

Lemma mask_addAll_other (cs : list (Component F)) e e' w :
  e ≠ e' → mask (addAll cs e w) e' = mask w e'.
Proof.
  intros Hne. unfold addAll. revert w.
  induction cs as [|c cs IH]; intros w; [done|].
  cbn [foldl]. rewrite IH, mask_addComponent. by rewrite decide_False.
Qed.

Lemma find_player_CreatePlayer playerID s :
  -1 ≤ w_maxId (ecs s) →
  is_Some (find_player playerID (ecs s)) →
  find_player playerID (ecs (CreatePlayer playerID s).2)
  = Some (Some (first_player_after playerID s)).
Proof.
  intros Hwf [found Hfound]. unfold first_player_after. rewrite Hfound.
  unfold CreatePlayer, createEntity. cbn [snd ecs set_ecs].
  set (e := w_maxId (ecs s) + 1).
  set (w0 := mkWorld e (w_masks (ecs s)) (w_store (ecs s))).
  set (cs := [CPosition (fofZ 570) (fofZ 10); CVelocity (fofZ 0) (fofZ 0);
              CRenderable SPRITE_PLAYER_IDLE; CPlayerInfo playerID;
              CScore 0; CPlayerInput false false]).
  assert (Hmask : ∀ e', e' ≠ e → mask (addAll cs e w0) e' = mask (ecs s) e').
  { intros e' Hne. by rewrite mask_addAll_other. }
  assert (Hget : ∀ k e', e' ≠ e →
            getComponent k e' (addAll cs e w0) = getComponent k e' (ecs s)).
  { intros k e' Hne. by rewrite get_addAll_other. }
  assert (Hpass : ∀ e', e' ≠ e → passed_over playerID (ecs s) e' →
            passed_over playerID (addAll cs e w0) e').
  { intros e' Hne Hp. unfold passed_over, get_PlayerInfo in *.
    by rewrite Hmask, Hget. }
  destruct found as [[p pos]|].
  - apply (find_player_spec playerID (ecs s)) in Hfound as (Hr & Hm & Hq & Hpos & Hbefore).
    apply find_player_spec. rewrite maxId_addAll. cbn [w_maxId w0].
    unfold get_PlayerInfo, get_Position in *. rewrite Hmask, !Hget by lia.
    split_and!; try done; try lia.
    intros e0 He0. apply Hpass; [lia|]. by apply Hbefore.
  - pose proof (proj1 (proj2 (find_player_spec playerID (ecs s))) Hfound) as Hnone.
    apply find_player_spec. rewrite maxId_addAll. cbn [w_maxId w0].
    assert (He : 0 ≤ e) by (unfold e; lia).
    split_and!.
    + lia.
    + lia.
    + apply mask_test_addAll. intros k Hk. apply list_elem_of_In in Hk.
      apply list_elem_of_In. simpl in *. tauto.
    + unfold get_PlayerInfo, cs. by store_eval.
    + unfold cs. by store_eval.
    + intros e0 He0. apply Hpass; [lia|]. apply Hnone. unfold e in *. lia.
Qed.

(** X27. [CreateRope] called right after [CreatePlayer] with the same id
    never fails to find a player: it returns the new rope, placed at the
    winch of the first player with that id, the one that existed already
    or else the new one at (570, 10); and the rope, which has [Position]
    and [PlayerInfo] itself, does not take the player's place in the
    search. *)
Theorem CreateRope_after_CreatePlayer playerID s :
  -1 ≤ w_maxId (ecs s) →
  is_Some (find_player playerID (ecs s)) →
  let rope := w_maxId (ecs s) + 2 in
  let first := first_player_after playerID s in
  ∃ s', CreateRope playerID (CreatePlayer playerID s).2 = Some (rope, s')
    ∧ getComponent Position rope (ecs s')
        = Some (CPosition (rope_start first.2.1 first.2.2).1
                          (rope_start first.2.1 first.2.2).2)
    ∧ getComponent PlayerInfo rope (ecs s') = Some (CPlayerInfo playerID)
    ∧ find_player playerID (ecs s') = Some (Some first).
Proof.
  intros Hwf Hsome rope. cbv zeta.
  pose proof (find_player_CreatePlayer playerID s Hwf Hsome) as Hf.
  destruct (first_player_after playerID s) as [player [px py]]. cbn [fst snd].
  assert (Hmax : w_maxId (ecs (CreatePlayer playerID s).2) = w_maxId (ecs s) + 1).
  { unfold CreatePlayer, createEntity. cbn [snd ecs set_ecs]. by rewrite maxId_addAll. }
  set (s1 := (CreatePlayer playerID s).2) in *.
  pose proof (find_player_createEntity _ _ _ Hf) as Hf'.
  unfold CreateRope. destruct (createEntity (ecs s1)) as [e w] eqn:Hc.
  assert (Hw : w = mkWorld (w_maxId (ecs s1) + 1) (w_masks (ecs s1)) (w_store (ecs s1))
               ∧ e = w_maxId (ecs s1) + 1).
  { unfold createEntity in Hc. split; congruence. }
  destruct Hw as [Hw ->]. cbn [snd] in Hf'. rewrite Hf'.
  cbn [mbind option_bind].
  change (GetSpriteSrcRect SPRITE_PLAYER_IDLE) with (Some (mkRect 0 7 164 169)).
  cbn [mbind option_bind rect_w rect_h].
  CreateRope_run.
  eexists. split; [f_equal; f_equal; unfold rope; lia|].
  cbn [gWorld ecs set_ecs set_phys pw_bodies pw_next heap_next on_ecs fst snd
       set_bodies heap pw_shapes].
  assert (Hrope : rope = w_maxId (ecs s1) + 1) by (unfold rope; rewrite Hmax; clear; lia).
  rewrite Hrope.
  split_and!.
  - by store_eval.
  - by store_eval.
  - apply find_player_spec.
    apply (find_player_spec playerID) in Hf' as (Hr & Hm & Hq & Hpos & Hpass).
    rewrite Hw in Hr, Hm, Hq, Hpos. cbn [w_maxId] in Hr.
    rewrite maxId_addAll, Hw. cbn [w_maxId].
    assert (Hne : w_maxId (ecs s1) + 1 ≠ player).
    { apply (find_player_spec playerID) in Hf as (Hr1 & _). lia. }
    unfold get_PlayerInfo, get_Position in *.
    rewrite mask_addAll_other, !get_addAll_other by done.
    split_and!; try done; try lia.
    intros e0 He0. specialize (Hpass e0 He0). unfold passed_over, get_PlayerInfo in *.
    rewrite mask_addAll_other, get_addAll_other by lia. by rewrite Hw in Hpass.
Qed.
End PlayerAndRope.

(** X27 in the empty world, in binary32. *)
Lemma CreateRope_after_CreatePlayer_witness :
  ∃ s', CreateRope 1 (CreatePlayer 1 (initBox2DWorld (initialState (F := B32.t)))).2
          = Some (1, s')
    ∧ getComponent Position 1 (ecs s')
        = Some (CPosition (rope_start (fofZ 570) (fofZ 10)).1
                          (rope_start (fofZ 570) (fofZ 10)).2)
    ∧ getComponent PlayerInfo 1 (ecs s') = Some (CPlayerInfo 1)
    ∧ find_player 1 (ecs s') = Some (Some (0, (fofZ 570, fofZ 10))).
Proof.
  apply (CreateRope_after_CreatePlayer 1 (initBox2DWorld initialState)).
  - vm_compute. discriminate.
  - by eexists.
Defined.

(** ** What is drawn after a sync *)

Lemma sync_centre_exact (v : Q) (extent : Z) :
  ((v * PIXELS_PER_METER - fofZ extent * fofZ 1 / fofZ 2)%fl + fofZ extent / 2
   == v * 50)%Q.
Proof.
  unfold PIXELS_PER_METER, fofZ. simpl. rewrite !Qred_correct. unfold inject_Z. field.
Qed.

(** X28. In exact arithmetic, an entity that [PhysicsSyncSystem] has synced is
    drawn by [RenderSystem] centred on its body: the centre of the
    destination rectangle is the body's origin times 50, in pixels. *)
Theorem synced_sprite_is_centred (s s' : State Q) calls id bodyId spriteID body rect :
  PhysicsSyncSystem s = Some s' →
  RenderSystem s' = Some calls →
  0 ≤ id ≤ w_maxId (ecs s) →
  mask_test (mask (ecs s) id) (mask_of [PhysicsBody; Position; Renderable]) = true →
  get_PhysicsBody id (ecs s) = Some bodyId →
  get_Renderable id (ecs s) = Some spriteID →
  pw_bodies (gWorld s) !! bodyId = Some body →
  GetSpriteSrcRect spriteID = Some rect →
  ∃ dst,
    SDL_RenderTexture spriteID (rect_to_frect rect) dst ∈ calls
    ∧ ((frect_centre dst).1 == vec_x (body_p body) * 50)%Q
    ∧ ((frect_centre dst).2 == vec_y (body_p body) * 50)%Q.
Proof.
  intros Hsync Hrender Hrange Hmask Hpb Hsp Hbody Hrect.
  unfold PhysicsSyncSystem in Hsync.
  destruct (PhysicsSync_loop (ids (ecs s)) s s' id bodyId spriteID body rect
              (NoDup_seqZ _ _) Hsync Hmask Hpb Hsp Hbody Hrect) as (Hf & _ & Hpos).
  specialize (Hpos (proj2 (elem_of_ids _ _) Hrange)).
  destruct (sync_frame_get _ _ id Hf) as (Hm' & _ & Hsp').
  assert (Hmax : w_maxId (ecs s') = w_maxId (ecs s)) by by destruct Hf.
  set (dst := mkFRect (vec_x (body_p body) * PIXELS_PER_METER
                       - fofZ (rect_w rect) * fofZ 1 / fofZ 2)%fl
                      (vec_y (body_p body) * PIXELS_PER_METER
                       - fofZ (rect_h rect) * fofZ 1 / fofZ 2)%fl
                      (fofZ (rect_w rect)) (fofZ (rect_h rect))).
  exists dst. split_and!.
  - unfold RenderSystem in Hrender.
    assert (Hin : id ∈ ids (ecs s')).
    { apply elem_of_ids. by rewrite Hmax. }
    destruct (for_each_out_Some_inv _ _ _ _ Hrender Hin) as [out Hout].
    apply (elem_of_for_each_out _ _ _ _ Hrender). exists id, out.
    split; [done|]. split; [done|].
    apply (Render_entity_Some _ _ _ Hout).
    exists (frect_x dst), (frect_y dst), spriteID, rect.
    assert (Hr : 0 ≤ spriteID < SPRITE_COUNT).
    { apply GetSpriteSrcRect_in_range. by eexists. }
    split_and!; [|exact Hpos|by rewrite Hsp'|lia|lia|done|done].
    rewrite Hm'. apply mask_test_of. intros k Hk.
    apply (proj1 (mask_test_of _ _) Hmask).
    apply list_elem_of_In in Hk. apply list_elem_of_In. simpl in *. tauto.
  - apply sync_centre_exact.
  - apply sync_centre_exact.
Qed.

(** X28 on the first collectable of the game scenario, whose body is at
    (2.35, 10.3). *)
Lemma synced_sprite_is_centred_witness :
  ∃ dst,
    SDL_RenderTexture SPRITE_GOLD (rect_to_frect (mkRect 0 0 35 30)) dst
      ∈ default [] (RenderSystem (default game_state (PhysicsSyncSystem game_state)))
    ∧ ((frect_centre dst).1 == (235 # 2))%Q
    ∧ ((frect_centre dst).2 == 515)%Q.
Proof.
  destruct (synced_sprite_is_centred game_state
              (default game_state (PhysicsSyncSystem game_state))
              (default [] (RenderSystem (default game_state (PhysicsSyncSystem game_state))))
              2 3 SPRITE_GOLD
              (mkBody b2_staticBody (mkVec2 (47 # 20) (103 # 10)) (mkRot 1%Q 0%Q)
                      (mkVec2 0%Q 0%Q) 0%Q 1%Q false false false (Some 2))
              (mkRect 0 0 35 30)) as (dst & Hin & Hx & Hy).
  - apply default_Some. vm_refl.
  - apply default_Some. vm_refl.
  - split; [lia|]. vm_compute. discriminate.
  - vm_refl.
  - vm_refl.
  - vm_refl.
  - vm_refl.
  - vm_refl.
  - exists dst. split; [done|]. split.
    + rewrite Hx. vm_compute. done.
    + rewrite Hy. vm_compute. done.
Defined.

(** ** Debug drawing *)

Section DebugFacts.
Context {F : Type} `{FloatOps F} `{WideOps F} `{FloatToInt F}.

Lemma land_255 (n : Z) : Z.land n 255 = n mod 256.
Proof. change 255 with (Z.ones 8). by rewrite Z.land_ones. Qed.

(** X29. [SDLColorFromHex] sets a colour whose three channels are bytes that
    recompose the low 24 bits of the hex colour (the colour itself when it
    is [0xRRGGBB]), fully opaque. *)
Theorem SDLColorFromHex_channels (hex : Z) :
  ∃ r g b,
    SDLColorFromHex (F := F) hex = [SDL_SetRenderDrawColor r g b 255]
    ∧ 0 ≤ r ≤ 255 ∧ 0 ≤ g ≤ 255 ∧ 0 ≤ b ≤ 255
    ∧ r * 65536 + g * 256 + b = hex mod 2 ^ 24.
Proof.
  unfold SDLColorFromHex. eexists _, _, _. split; [reflexivity|].
  rewrite !land_255, !Z.shiftr_div_pow2 by lia.
  change (2 ^ 16) with 65536. change (2 ^ 8) with 256. change (2 ^ 24) with 16777216.
  pose proof (Z.mod_pos_bound (hex / 65536) 256).
  pose proof (Z.mod_pos_bound (hex / 256) 256).
  pose proof (Z.mod_pos_bound hex 256).
  split_and!; try lia.
  Z.div_mod_to_equations. lia.
Qed.

Lemma for_each_out_singletons {A C : Type} (f : A → option (list C)) (g : A → C) l :
  (∀ a, a ∈ l → f a = Some [g a]) → for_each_out f l = Some (g <$> l).
Proof.
  induction l as [|a l IH]; intros Hf; [done|]. cbn [for_each_out].
  rewrite (Hf a) by by left. cbn [mbind option_bind].
  rewrite IH; [done|]. intros b Hb. apply Hf. by right.
Qed.

(** X30. [DrawPolygon] sets the colour, then draws one segment per vertex:
    segment [i] joins the pixel of vertex [i] to the pixel of vertex
    [(i + 1) mod count], so the outline is closed.  It returns whenever
    the first [count] vertices exist and have a pixel. *)
Theorem DrawPolygon_closed (vertices : list (b2Vec2 F)) (count color : Z) :
  0 ≤ count ≤ Z.of_nat (length vertices) →
  (∀ v, v ∈ take (Z.to_nat count) vertices → is_Some (screen_point v)) →
  ∃ lines,
    DrawPolygon vertices count color = Some (SDLColorFromHex color ++ lines)
    ∧ length lines = Z.to_nat count
    ∧ ∀ i vi vj,
        0 ≤ i < count →
        vertices !! Z.to_nat i = Some vi →
        vertices !! Z.to_nat ((i + 1) mod count) = Some vj →
        ∃ p q, screen_point vi = Some p ∧ screen_point vj = Some q
               ∧ lines !! Z.to_nat i = Some (screen_line p q).
Proof.
  intros Hcount Hdef.
  set (pt := λ i : Z, default (0, 0) (vertices !! Z.to_nat i ≫= screen_point)).
  set (g := λ i : Z, screen_line (F := F) (pt i) (pt ((i + 1) mod count))).
  assert (Hpt : ∀ i, 0 ≤ i < count →
            ∃ v, vertices !! Z.to_nat i = Some v ∧ screen_point v = Some (pt i)).
  { intros i Hi.
    destruct (lookup_lt_is_Some_2 vertices (Z.to_nat i)) as [v Hv]; [lia|].
    exists v. split; [done|]. unfold pt. rewrite Hv. cbn [mbind option_bind].
    destruct (Hdef v) as [p Hp]; [|by rewrite Hp].
    apply list_elem_of_lookup. exists (Z.to_nat i). rewrite lookup_take_lt by lia. done. }
  exists (g <$> seqZ 0 count). split_and!.
  - unfold DrawPolygon. rewrite (for_each_out_singletons _ g); [done|].
    intros i Hi%elem_of_seqZ. cbv zeta.
    assert (Hrem : Z.rem (i + 1) count = (i + 1) mod count).
    { apply Z.rem_mod_nonneg; lia. }
    rewrite Hrem.
    destruct (Hpt i) as (vi & -> & Hpi); [lia|].
    destruct (Hpt ((i + 1) mod count)) as (vj & -> & Hpj).
    { apply Z.mod_pos_bound. lia. }
    cbn [mbind option_bind]. unfold g, screen_line.
    unfold screen_point in Hpi, Hpj.
    destruct (to_screen (vec_x vi)) as [x1|]; [|done]. cbn [mbind option_bind] in Hpi |- *.
    destruct (to_screen (vec_y vi)) as [y1|]; [|done]. cbn [mbind option_bind] in Hpi |- *.
    destruct (to_screen (vec_x vj)) as [x2|]; [|done]. cbn [mbind option_bind] in Hpj |- *.
    destruct (to_screen (vec_y vj)) as [y2|]; [|done]. cbn [mbind option_bind] in Hpj |- *.
    injection Hpi as <-. injection Hpj as <-. done.
  - rewrite length_fmap, length_seqZ. done.
  - intros i vi vj Hi Hvi Hvj.
    destruct (Hpt i Hi) as (vi' & Hvi' & Hpi).
    destruct (Hpt ((i + 1) mod count)) as (vj' & Hvj' & Hpj).
    { apply Z.mod_pos_bound. lia. }
    assert (vi' = vi) by congruence. assert (vj' = vj) by congruence. subst.
    exists (pt i), (pt ((i + 1) mod count)). split_and!; try done.
    rewrite list_lookup_fmap.
    rewrite (proj2 (lookup_seqZ 0 count (Z.to_nat i) i)); [done|]. lia.
Qed.
End DebugFacts.

(** X30 on a triangle. *)
Lemma DrawPolygon_closed_witness :
  ∃ lines,
    DrawPolygon triangle 3 0xFF8000 = Some (SDLColorFromHex 0xFF8000 ++ lines)
    ∧ length lines = 3%nat
    ∧ ∀ i vi vj,
        0 ≤ i < 3 →
        triangle !! Z.to_nat i = Some vi →
        triangle !! Z.to_nat ((i + 1) mod 3) = Some vj →
        ∃ p q, screen_point vi = Some p ∧ screen_point vj = Some q
               ∧ lines !! Z.to_nat i = Some (screen_line p q).
Proof.
  apply (DrawPolygon_closed triangle 3).
  - simpl. lia.
  - intros v Hv. apply list_elem_of_In in Hv. simpl in Hv.
    destruct Hv as [<-|[<-|[<-|[]]]]; by eexists.
Defined.
